(* ===== verification/_CoqProject ===== *)
-Q . S2P
Prelude.v
RustStd.v
Hex.v
Versioning.v
Fs.v
Config.v
Primitives.v
Auth.v
Pairing.v
Storage.v
StoreEquivalence.v
Power.v
Wire.v
HttpText.v
Proto3.v
PyStd.v
PluginProtobuf.v
Samples.v
ProtoSamples.v
Runtime.v
Server.v
Management.v
Answers.v
ManagementIpc.v
PipeServer.v
Startup.v
Entry.v
Concurrency.v
Requests.v
PairRequests.v
HostRounds.v
Replay.v
Scenarios.v
Client.v
Link.v
EndToEnd.v
Commands.v
ClientScenarios.v
PluginValidation.v
PluginStore.v
PluginStoreSafety.v
PluginStoreRefinement.v
PluginStoreSync.v
PluginStoreScenarios.v
PluginAuth.v
PluginClient.v
PluginController.v
PluginDiscovery.v
PluginLink.v
PluginEndToEnd.v
PluginCommands.v
PluginSystem.v
PluginScenarios.v
DotNet.v
ControlClient.v
ControlViewModel.v
ControlUpdate.v
ControlLink.v
ControlSystem.v
ControlScenarios.v
