(* ===== verification/Prelude.v ===== *)
(** * Decky My Rig: a verification library

    DeckyMyRigHost is a service on a Windows PC that a plugin of the Steam
    Deck pairs with, asks for its status and tells to shut down, over plain
    HTTP on the local network; the plugin also wakes the PC up.  Pairing is
    a SPAKE2 exchange over a six-digit code; every later request is signed
    with HMAC under the credential the pairing gave, with a timestamp and a
    nonce; every answer is signed too.  The identity of the host (its
    credential, its code, the nonces of accepted shutdowns) is kept in a
    file encrypted with DPAPI; the plugin keeps its devices and their
    credentials in files of its own.  A local control application talks to
    the service over a named pipe.

    ** The program's parts and the files that model them

    The Rust sources are the host, under src/host/src, and a diagnostic client
    that plays the Deck's part, src/tools/decky-my-rig-test/src/main.rs.  The
    plugin's backend is Python, src/decky/main.py and
    src/decky/py_modules/decky_my_rig, and the control application is C#, under
    src/host/control.  Data are records and inductive types
    with the names of the source, operations are functions with the names of
    the source, integers are [Z] with the checks, casts and saturations of the
    source written out, strings are byte strings, and exceptions are values.

    The host and the diagnostic client:

    - [Prelude] (this file): results, bytes, machine integers, the tactics and
      the hint database [rig]; [RustStd]: the parts of Rust's standard library
      that are used (ASCII, decimal parsing, [Duration], [Instant] with the
      range its platform can represent); [Fs]: a file system whose operations
      can fail; [Hex]: hexadecimal texts.
    - [Primitives]: SHA-256, HMAC, HKDF, ChaCha20-Poly1305, SPAKE2, UUIDs and
      the random generator, parameters with the laws the host relies on, none
      about secrecy.  [Wire]: the Protobuf messages, with prost, http and hex
      as parameters.  [Samples]: executable instances of all of these.
    - [Versioning], [Config]: versioning.rs and config.rs.
    - [Auth]: auth.rs: canonical messages, signatures, the failure window and
      the nonce cache as the critical sections of [Authenticator].
    - [Pairing]: pairing.rs: [PairingCode] with its pending and completed
      exchanges; [now] is the monotonic clock, the generator is threaded.
    - [Storage]: storage/mod.rs and storage/windows.rs: the trait
      [CredentialStore] as a class, its contract as [CredentialStoreLaws], and
      the two stores; the Windows store is proved to meet the contract, and the
      clients are proved against it.  [StoreEquivalence]: the Windows store
      beside the store in memory, operation by operation.
    - [Power]: power/mod.rs and power/windows.rs.
    - [Runtime]: tasks that share data through mutexes, run alone in an instant
      ([run]), alone while time passes between any two of their steps
      ([run_timed]) or interleaved ([step]), and a program logic ([wp]) with an
      invariant per mutex and an order of acquisition, with its soundness.
    - [Server]: server.rs: [AppState], authentication, the handlers of
      /v1/status, /v1/pair and /v1/shutdown, and the router, as tasks.
    - [Management], [ManagementIpc]: management.rs and the connections of
      management_ipc.rs; [PipeServer]: its accept loop, [create_pipe] and the
      security descriptor, over the Win32 calls they make, with the access that
      Windows grants under a descriptor's text.
    - [Startup]: main.rs and service/windows.rs: the state the host starts
      with, the reports to the service manager, the rotation of the log;
      [Entry]: the directories, the log file and the order of [main].
    - [Concurrency], [Requests], [PairRequests], [HostRounds], [Replay],
      [Answers]: the theorems about the whole host, [HostRounds] with the two
      rounds of a pairing that both clients are composed with; [Scenarios]:
      concrete runs and witnesses.
    - [HttpText]: HTTP/1.1 messages as text (RFC 9112) and the string functions
      the client reads them with; [Client]: the diagnostic client, its command
      line, its one-shot HTTP exchange, its three commands, and the file it
      keeps its credential in.
    - [Link]: hyper and the network between the two, as a class with laws, and
      what the client's [post] returns when the host answers; [EndToEnd],
      [Commands]: the client's commands run against the router of [Server];
      [ClientScenarios]: concrete runs and witnesses.

    The plugin's backend:

    - [PyStd]: the exceptions, strings, integers and JSON values of Python
      that the backend uses; [Proto3]: the Protobuf wire format, groups
      included, and the records the messages of [Wire] are written as, from
      src/proto/decky_my_rig.proto.
    - [PluginProtobuf]: protobuf.py and generated_schema.py; [ProtoSamples]: an
      encoder that follows proto3.
    - [PluginValidation]: validation.py, versioning.py and the packet of
      wol.py.
    - [PluginStore]: store.py and models.py over a directory whose system calls
      fail or meet the end of the machine, and which loses what was not
      synchronised; [PluginStoreSafety]: a program logic for it and what each
      write, recovery and commit leaves behind; [PluginStoreRefinement]: the
      abstract store and the refinement; [PluginStoreSync]: a directory that
      cannot be synchronised; [PluginStoreScenarios]: runs.
    - [PluginAuth]: auth.py; [PluginClient]: client.py over urllib, a class.
    - [PluginController]: controller.py and main.py, with the interleavings of
      the event loop as schedules of the segments between awaits;
      [PluginDiscovery]: discovery.py.
    - [PluginLink]: urllib and the network between the plugin and the router of
      [Server], where answers can be lost; [PluginEndToEnd], [PluginCommands]:
      the client's calls against the router; [PluginSystem]: the plugin's own
      methods, files included; [PluginScenarios]: runs and witnesses.

    The control application:

    - [DotNet]: exceptions, methods that may throw, times and formats.
    - [ControlClient]: ManagementClient.cs: the exchange over the pipe and
      the record a response is deserialised to; [ControlViewModel]:
      HostControlViewModel.cs over any client and clock; [ControlUpdate]:
      HostUpdateService.cs, WindowsSignatureVerifier.cs and the update
      button of MainWindow.xaml.cs.
    - [ControlLink]: the pipe of [ManagementIpc] as the client's stream;
      [ControlSystem]: the window, the host and the plugin together;
      [ControlScenarios]: runs and witnesses.

    ** What the theorems show

    - Authentication ([Auth], [Requests], [Replay]): the signed byte
      sequences are unambiguous and requests are apart from responses;
      [authenticate] accepts exactly the fresh, correctly signed requests;
      refused requests change nothing; the power controller is reached only
      by an authenticated shutdown whose nonce is already stored; such a
      request is not accepted again, restarts included, as long as the wall
      clock is not set back and no new pairing replaces the credential;
      every answer to an authenticated request verifies; the pruned failure
      window refines an unpruned log.
    - Pairing ([Pairing], [PairRequests]): the invariant [pairing_wf] of the
      tables, kept by every operation; exactly when a credential is released;
      bounds on the number of wrong guesses and on lifetimes; a completed
      pairing is stored, spends the code and can be repeated; a failed save is
      rolled back, and the repeated request succeeds; exactly when a completed
      pairing panics; a new code is all or nothing, whatever time it takes.
    - Concurrency ([Runtime], [Concurrency]): for any number of requests and
      pipe connections, interleaved in any way while time passes: no task
      panics (once the host has been up for 301 seconds, or on a platform with
      earlier instants), the invariants hold of every free mutex, there is no
      deadlock, every schedule ends, and every answer is a documented one.
    - Types of answers ([Answers]): every body the router returns is the
      encoding of the message its path and status call for, or axum's own.
    - Storage, power, start ([Storage], [Power], [Startup]): the Windows store
      replaces the identity as a whole or not at all; the shutdown call is made
      only with the privilege; the service reports in order; when it panics at
      start; the log is never lost; the two stores are equivalent up to failed
      calls; the first pipe instance claims the name, every instance admits
      the system and the administrators and nobody else, and its descriptor is
      freed once; repeated failures end the pipe server.
    - The client ([Client], [EndToEnd], [Commands]): it accepts only answers
      signed for its own request, or under the key of its own exchange; its
      credential file is readable by the owner alone; a well formed command
      line is read back as it was meant; and, with both sides composed, the
      three commands succeed: pairing leaves both with the same credential,
      status is answered, shutdown is accepted and reaches the controller.
    - Versions, configuration, pipe frames: parsers accept exactly the printed
      forms.
    - Plugin and host speak the same language ([PluginProtobuf], [PluginAuth],
      [PluginValidation]): the plugin's decoder reads every message of the
      Protobuf wire format without groups, and what else it reads; each side
      decodes what the other encodes, but the plugin refuses empty required
      fields; both compute the same signatures and associated data on the same
      arguments, up to the case of the method, and judge versions alike; the
      Wake-on-LAN packet is that of the MAC address.
    - The plugin's store ([PluginStoreSafety], [PluginStoreRefinement],
      [PluginStoreSync]): through operations, failing calls, power cuts and
      restarts it is an atomic store, unless the directory cannot be
      synchronised while the machine runs; without failures every operation
      does what its specification says.
    - The plugin's client and controller ([PluginClient], [PluginController],
      [PluginDiscovery]): no answer is read before it is authenticated; a
      pairing that returns is one over the typed code; a device is shown as
      starting or stopping only until its deadline; a MAC address that is
      reported stands in the neighbour table beside the address.
    - The plugin with the host ([PluginSystem]): pairing leaves both with
      the same credential, in memory and in their files, also when the last
      answer is lost; a paired device is shown as online; stopping it
      reaches the power controller; a refusal, which is unsigned, does not
      undo the pairing; a poll gives every device a status.
    - The control application ([ControlViewModel], [ControlUpdate],
      [ControlSystem]): what the window can show; only the bytes that were
      served at the manifest's location in the project's releases, newer, with
      the manifest's checksum and signed by the publisher, are started, and
      a rejected download ends the application; and a code that the window shows
      with its remaining time, typed into the plugin in time, pairs the Deck.

    Some theorems show a behaviour that differs from the documentation: the
    number of wrong confirmations per source, the lifetime of a code in use,
    the panics of [Instant] subtraction shortly after boot on Windows, a
    status request dated in the future, a plugin version that could not be
    saved, a write of the plugin that is reported as failed after it has
    happened, an error of the network that is not reported as one, groups
    that are not skipped, a countdown without its code, and a rejected
    update that ends the control application.

    ** Bounds and fuel

    Handlers are finite trees of operations, so [run] is total and
    termination needs no fuel.  The only loop without a bound in the source
    is [PairingCode::regenerate], which redraws until the code differs:
    [regenerate] takes fuel, and [regenerate_changes_code] shows it returns
    as soon as the fuel reaches a draw that differs.  The accept loop of the
    pipe is a function of the list of its rounds, the download of an update
    of the list of its reads.  The plugin's loops over bytes take fuel from
    the length of their input, and that of its varints from the number
    itself; [Diverges], what they would return without fuel, is shown to be
    unreachable ([fields_accept_wire_format], [codec_interoperates]).

    ** Parameters

    Besides the primitives, the classes that stand for code outside the
    repository are: prost ([Wire], with the round trip of [WireLaws] and,
    for the plugin, the format of [ProstLaws]), hyper and the network
    ([Http], with what axum itself answers to requests it rejects, [Link]),
    urllib ([World]) and the delivery of its headers ([Delivery]), the hex
    crate ([HexCrate]), the sizes of SPAKE2 messages and ciphertexts
    ([Spake2Size], [AeadSize]), what the spake2 package raises
    ([Spake2Package]), Python's [repr] and Unicode tables ([Repr],
    [Decimals], [WordChars]), the texts of library exceptions
    ([ErrorTexts]), the system's neighbour table ([Neighbours]), serde_json
    ([ManagementJson]) and System.Text.Json ([DotNetJson]) with what they
    read of each other ([JsonInterop]), and [Uri], [HttpClient], the
    manifest's reader and WinTrust ([Uris], [HttpClient], [ManifestReader],
    [WinTrust]).  Each has an executable instance at which the theorems are
    applied.

    ** What is not modelled

    The content of log lines, the tracing dispatcher and tokio's runtime,
    the TCP listener and axum's routing beyond paths, methods and the body
    limit; the dispatcher of the Windows service beyond the reports it
    makes; the plugin's user interface (TypeScript), the controls and the
    timer of the control application's window, the installer and the
    scripts.  The text of JSON documents is not modelled: a file of the
    plugin holds a JSON value, or something that is none.  A poll of all
    devices takes them one after the other, where [asyncio.gather] may
    interleave them; [transitions_expire] is about every interleaving.
    Directories and the metadata call behind [Path::exists] do not fail in
    [Fs], and modes of files are tracked only in the file systems of the two
    clients, [Client.Disk] and [Store.Disk].  The host trims ASCII white
    space, the client the Unicode white space of [str::trim]. *)
From stdpp Require Import base gmap list strings countable.
From Stdlib Require Export Init.Byte ZArith Lia.
From Stdlib Require Import Strings.Byte.

Declare Scope rig_scope.
Delimit Scope rig_scope with rig.

(** ** Results

    Rust's [Result<A, E>] and the [?] operator. *)
Inductive result (A E : Type) : Type :=
| Ok (a : A)
| Err (e : E).
Arguments Ok {A E} a.
Arguments Err {A E} e.

Notation "'let?' x := c 'in' k" :=
  (match c with Ok x => k | Err e => Err e end)
  (at level 10, x pattern, c at level 100, k at level 200) : rig_scope.

Open Scope rig_scope.

Definition ok_or {A E} (o : option A) (e : E) : result A E :=
  match o with Some a => Ok a | None => Err e end.

Definition is_ok {A E} (r : result A E) : bool :=
  match r with Ok _ => true | Err _ => false end.

#[export] Instance result_eq_dec {A E} `{EqDecision A, EqDecision E} :
  EqDecision (result A E).
Proof. solve_decision. Defined.

(** ** Bytes *)

Abbreviation bytes := (list byte).

#[export] Instance byte_eq_decision : EqDecision byte := Byte.byte_eq_dec.

#[export] Instance byte_countable : Countable byte.
Proof.
  refine (inj_countable Byte.to_N Byte.of_N _). apply Byte.of_to_N.
Defined.

Definition byte_to_Z (b : byte) : Z := Z.of_N (Byte.to_N b).

(** [as u8]: reduction modulo 2^8. *)
Definition byte_of_Z (z : Z) : byte :=
  match Byte.of_N (Z.to_N (z `mod` 256)) with Some b => b | None => x00 end.

Lemma byte_to_Z_range b : (0 <= byte_to_Z b < 256)%Z.
Proof.
  unfold byte_to_Z. pose proof (Byte.to_N_bounded b). lia.
Qed.

Lemma byte_to_of_Z z : byte_to_Z (byte_of_Z z) = (z `mod` 256)%Z.
Proof.
  unfold byte_to_Z, byte_of_Z.
  pose proof (Z.mod_pos_bound z 256 eq_refl) as Hr.
  destruct (Byte.of_N (Z.to_N (z `mod` 256))) as [b|] eqn:E.
  - apply Byte.to_of_N in E. rewrite E. lia.
  - apply Byte.of_N_None_iff in E. lia.
Qed.

Lemma byte_of_to_Z b : byte_of_Z (byte_to_Z b) = b.
Proof.
  unfold byte_of_Z. rewrite Z.mod_small by apply byte_to_Z_range.
  unfold byte_to_Z. rewrite N2Z.id, Byte.of_to_N. done.
Qed.

(** [to_be_bytes] of an unsigned integer of [n] bytes. *)
Fixpoint to_be_bytes (n : nat) (z : Z) : bytes :=
  match n with
  | O => []
  | S n' => to_be_bytes n' (z / 256) ++ [byte_of_Z z]
  end.

Definition to_le_bytes (n : nat) (z : Z) : bytes := rev (to_be_bytes n z).

Fixpoint from_le_bytes (l : bytes) : Z :=
  match l with
  | [] => 0
  | b :: l' => byte_to_Z b + 256 * from_le_bytes l'
  end.

Definition from_be_bytes (l : bytes) : Z := from_le_bytes (rev l).

Lemma to_be_bytes_length n z : length (to_be_bytes n z) = n.
Proof.
  revert z; induction n as [|n IH]; intros z; simpl; [done|].
  rewrite length_app, IH; simpl; lia.
Qed.

Lemma from_to_be_bytes n z :
  (0 <= z < 256 ^ Z.of_nat n)%Z -> from_be_bytes (to_be_bytes n z) = z.
Proof.
  unfold from_be_bytes. revert z; induction n as [|n IH]; intros z Hz.
  - simpl in *. lia.
  - rewrite Nat2Z.inj_succ, Z.pow_succ_r in Hz by lia.
    simpl. rewrite rev_app_distr. simpl. rewrite byte_to_of_Z, IH.
    + pose proof (Z.div_mod z 256). lia.
    + split; [apply Z.div_pos; lia | apply Z.div_lt_upper_bound; lia].
Qed.

Lemma to_be_bytes_inj n a b :
  (0 <= a < 256 ^ Z.of_nat n)%Z -> (0 <= b < 256 ^ Z.of_nat n)%Z ->
  to_be_bytes n a = to_be_bytes n b -> a = b.
Proof.
  intros Ha Hb E. rewrite <- (from_to_be_bytes n a), <- (from_to_be_bytes n b), E; done.
Qed.

Lemma from_to_le_bytes n z :
  (0 <= z < 256 ^ Z.of_nat n)%Z -> from_le_bytes (to_le_bytes n z) = z.
Proof. apply from_to_be_bytes. Qed.

Lemma from_le_bytes_range l :
  (0 <= from_le_bytes l < 256 ^ Z.of_nat (length l))%Z.
Proof.
  induction l as [|b l IH]; simpl from_le_bytes; simpl length; [done|].
  rewrite Nat2Z.inj_succ, Z.pow_succ_r by lia.
  pose proof (byte_to_Z_range b). lia.
Qed.

Lemma to_from_le_bytes l : to_le_bytes (length l) (from_le_bytes l) = l.
Proof.
  unfold to_le_bytes. induction l as [|b l IH]; [done|].
  cbn [length to_be_bytes from_le_bytes]. rewrite rev_app_distr. cbn.
  pose proof (byte_to_Z_range b).
  replace ((byte_to_Z b + 256 * from_le_bytes l) / 256)%Z with (from_le_bytes l).
  2:{ rewrite Z.mul_comm, Z.div_add by done. rewrite (Z.div_small (byte_to_Z b)); lia. }
  rewrite IH. f_equal.
  unfold byte_of_Z. rewrite Z.mul_comm, Z.mod_add by done.
  rewrite Z.mod_small by lia. unfold byte_to_Z.
  rewrite N2Z.id, Byte.of_to_N. done.
Qed.

Arguments to_be_bytes : simpl never.
Arguments to_le_bytes : simpl never.
Arguments from_le_bytes : simpl never.

(** ** Unsigned machine integers

    A [w]-bit unsigned integer is a [Z] in [0, 2^w); the operations below are
    the ones the host uses, at their width. *)
Definition u8_max : Z := 255.
Definition u16_max : Z := 65535.
Definition u32_max : Z := 4294967295.
Definition u64_max : Z := 18446744073709551615.

Definition in_range (max z : Z) : Prop := (0 <= z <= max)%Z.

Definition saturating_sub (a b : Z) : Z := Z.max 0 (a - b).
Definition saturating_add (max a b : Z) : Z := Z.min max (a + b).
Definition saturating_mul (max a b : Z) : Z := Z.min max (a * b).
Definition abs_diff (a b : Z) : Z := Z.abs (a - b).

(** [uN::try_from]. *)
Definition try_from (max z : Z) : option Z :=
  if ((0 <=? z) && (z <=? max))%Z then Some z else None.

Lemma try_from_Some max z y : try_from max z = Some y <-> y = z /\ in_range max z.
Proof.
  unfold try_from, in_range. destruct ((0 <=? z)%Z) eqn:E1, ((z <=? max)%Z) eqn:E2; simpl;
    split; intros H; try (simplify_eq; lia); try lia.
  destruct H as [-> _]; done.
Qed.

(** ** Fixed-size arrays

    [<[u8; N]>::try_from(&[u8])] succeeds exactly on slices of length [N]. *)
Definition try_into_array (n : nat) (l : bytes) : option bytes :=
  if (length l =? n)%nat then Some l else None.

Lemma try_into_array_Some n l l' :
  try_into_array n l = Some l' <-> l' = l /\ length l = n.
Proof.
  unfold try_into_array. destruct (Nat.eqb_spec (length l) n) as [E|E];
    split; intros H; try (simplify_eq; done); destruct H; congruence.
Qed.

(** ** Lists *)

(** Two concatenations that agree, with first parts of the same length, agree
    part by part. *)
Lemma app_inj_length {A} (l1 l2 k1 k2 : list A) :
  length l1 = length k1 -> l1 ++ l2 = k1 ++ k2 -> l1 = k1 /\ l2 = k2.
Proof. intros H E. apply app_inj_1; done. Qed.

Lemma app_inj_length_r {A} (l1 l2 k1 k2 : list A) :
  length l2 = length k2 -> l1 ++ l2 = k1 ++ k2 -> l1 = k1 /\ l2 = k2.
Proof. intros H E. apply app_inj_2; done. Qed.

(** [VecDeque]: pop from the front while the predicate holds. *)
Fixpoint drop_while {A} (p : A -> bool) (l : list A) : list A :=
  match l with
  | [] => []
  | x :: l' => if p x then drop_while p l' else l
  end.

Lemma drop_while_length {A} (p : A -> bool) l : length (drop_while p l) <= length l.
Proof. induction l as [|x l IH]; simpl; [done|]. destruct (p x); simpl; lia. Qed.

Lemma drop_while_suffix {A} (p : A -> bool) l :
  exists k, l = k ++ drop_while p l /\ Forall (fun x => p x = true) k.
Proof.
  induction l as [|x l (k & E & Hk)]; simpl.
  - exists []. done.
  - destruct (p x) eqn:Hp.
    + exists (x :: k). split; [simpl; congruence | by constructor].
    + exists []. done.
Qed.

Lemma drop_while_head {A} (p : A -> bool) l x l' :
  drop_while p l = x :: l' -> p x = false.
Proof.
  induction l as [|y l IH]; simpl; [done|].
  destruct (p y) eqn:Hp; [done|]. intros [= -> ->]. done.
Qed.

(** ** Automation *)

Create HintDb rig discriminated.
#[export] Hint Constants Opaque : rig.
#[export] Hint Variables Opaque : rig.
#[export] Hint Resolve to_be_bytes_length byte_to_Z_range from_le_bytes_range : rig.

(** Case analysis on the scrutinee of the innermost match of the goal or of a
    hypothesis, keeping its equation. *)
Ltac case_innermost t :=
  match t with
  | context [match ?x with _ => _ end] => case_innermost x
  | _ => destruct t eqn:?
  end.

Ltac case_goal :=
  match goal with |- context [match ?x with _ => _ end] => case_innermost x end.

Ltac case_hyp H :=
  match type of H with context [match ?x with _ => _ end] => case_innermost x end.

Ltac break := repeat (case_goal; simplify_eq/=; try done).

(** Boolean comparisons on [Z] and [nat] as propositions. *)
Ltac bool_to_prop :=
  repeat match goal with
  | H : (_ && _) = true |- _ => apply andb_true_iff in H; destruct H
  | H : (_ && _) = false |- _ => apply andb_false_iff in H
  | H : (_ || _) = false |- _ => apply orb_false_iff in H; destruct H
  | H : (_ || _) = true |- _ => apply orb_true_iff in H
  | H : negb _ = true |- _ => apply negb_true_iff in H
  | H : negb _ = false |- _ => apply negb_false_iff in H
  | H : (_ <=? _)%Z = true |- _ => apply Z.leb_le in H
  | H : (_ <=? _)%Z = false |- _ => apply Z.leb_gt in H
  | H : (_ <? _)%Z = true |- _ => apply Z.ltb_lt in H
  | H : (_ <? _)%Z = false |- _ => apply Z.ltb_ge in H
  | H : (_ =? _)%Z = true |- _ => apply Z.eqb_eq in H
  | H : (_ =? _)%Z = false |- _ => apply Z.eqb_neq in H
  | H : (_ <=? _)%nat = true |- _ => apply Nat.leb_le in H
  | H : (_ <=? _)%nat = false |- _ => apply Nat.leb_gt in H
  | H : (_ <? _)%nat = true |- _ => apply Nat.ltb_lt in H
  | H : (_ <? _)%nat = false |- _ => apply Nat.ltb_ge in H
  | H : (_ =? _)%nat = true |- _ => apply Nat.eqb_eq in H
  | H : (_ =? _)%nat = false |- _ => apply Nat.eqb_neq in H
  | H : bool_decide _ = true |- _ => apply bool_decide_eq_true in H
  | H : bool_decide _ = false |- _ => apply bool_decide_eq_false in H
  end.

(** ** Length-prefixed fields

    The canonical messages of the host are concatenations of fields, each
    preceded by its length as a big-endian [u16]. *)
Definition field_bytes (f : bytes) : bytes := to_be_bytes 2 (Z.of_nat (length f)) ++ f.

Lemma field_bytes_inj f g r s :
  (Z.of_nat (length f) <= u16_max)%Z -> (Z.of_nat (length g) <= u16_max)%Z ->
  field_bytes f ++ r = field_bytes g ++ s -> f = g /\ r = s.
Proof.
  unfold field_bytes, u16_max. intros Hf Hg E. rewrite <- !app_assoc in E.
  apply app_inj_length in E; [|by rewrite !to_be_bytes_length].
  destruct E as [El E]. apply to_be_bytes_inj in El; [|simpl; lia..].
  apply app_inj_length in E; [done | lia].
Qed.

(** A fold over fields, as [append_field] and the loop of [credential_aad] do. *)
Definition fields_ok (fs : list bytes) : Prop :=
  Forall (fun f => (Z.of_nat (length f) <= u16_max)%Z) fs.

Lemma fields_inj fs gs r s :
  length fs = length gs -> fields_ok fs -> fields_ok gs ->
  concat (map field_bytes fs) ++ r = concat (map field_bytes gs) ++ s ->
  fs = gs /\ r = s.
Proof.
  revert gs; induction fs as [|f fs IH]; intros [|g gs] Hl Hf Hg E; try done.
  simpl in *. rewrite <- !app_assoc in E.
  inversion Hf; inversion Hg; subst.
  apply field_bytes_inj in E as [-> E]; [|done..].
  apply IH in E as [-> ->]; [done|lia|done..].
Qed.
