(* ===== verification/RustStd.v ===== *)
(** * The parts of Rust's standard library the host uses

    Strings are byte strings ([String.string], one [ascii] per UTF-8 byte), as
    [str::as_bytes] sees them.  The file models ASCII case mapping, decimal
    parsing and formatting of unsigned integers, [str::split], [str::trim] on
    the ASCII range, [Duration], and [Instant] with the range its platform can
    represent. *)
From stdpp Require Import base list strings.
From Stdlib Require Import Ascii ZArith Lia.
From Stdlib Require Strings.String.
From S2P Require Import Prelude.
Open Scope string_scope.
Open Scope Z_scope.

(** ** Characters *)

Definition code (c : ascii) : Z := Z.of_N (N_of_ascii c).

Definition ascii_of_Z (z : Z) : ascii := ascii_of_N (Z.to_N z).

Definition char_is_ascii (c : ascii) : bool := code c <? 128.

(** [u8::is_ascii_digit]. *)
Definition is_ascii_digit (c : ascii) : bool := (48 <=? code c) && (code c <=? 57).

(** [u8::to_ascii_uppercase] and [to_ascii_lowercase]. *)
Definition char_to_ascii_uppercase (c : ascii) : ascii :=
  if (97 <=? code c) && (code c <=? 122) then ascii_of_Z (code c - 32) else c.

Definition char_to_ascii_lowercase (c : ascii) : ascii :=
  if (65 <=? code c) && (code c <=? 90) then ascii_of_Z (code c + 32) else c.

(** The ASCII characters with the [White_Space] property: [\t], [\n], [\x0b],
    [\x0c], [\r] and the space. *)
Definition is_ascii_space (c : ascii) : bool :=
  ((9 <=? code c) && (code c <=? 13)) || (code c =? 32).

(** ** Strings *)

Fixpoint str_all (p : ascii -> bool) (s : string) : bool :=
  match s with
  | EmptyString => true
  | String c s' => p c && str_all p s'
  end.

Fixpoint str_map (f : ascii -> ascii) (s : string) : string :=
  match s with
  | EmptyString => EmptyString
  | String c s' => String (f c) (str_map f s')
  end.

Definition is_ascii (s : string) : bool := str_all char_is_ascii s.

Definition to_ascii_uppercase (s : string) : string := str_map char_to_ascii_uppercase s.

Definition eq_ignore_ascii_case (a b : string) : bool :=
  bool_decide (str_map char_to_ascii_lowercase a = str_map char_to_ascii_lowercase b).

Definition as_bytes (s : string) : bytes := String.list_byte_of_string s.

(** [str::len]: the number of bytes. *)
Definition str_len (s : string) : nat := String.length s.

(** [str::split(c)]: always at least one piece. *)
Fixpoint split_char (sep : ascii) (s : string) : list string :=
  match s with
  | EmptyString => [EmptyString]
  | String c s' =>
      if Ascii.eqb c sep then EmptyString :: split_char sep s'
      else match split_char sep s' with
           | [] => [String c EmptyString]
           | p :: ps => String c p :: ps
           end
  end.

Fixpoint trim_start (s : string) : string :=
  match s with
  | EmptyString => EmptyString
  | String c s' => if is_ascii_space c then trim_start s' else s
  end.

Fixpoint trim_end (s : string) : string :=
  match s with
  | EmptyString => EmptyString
  | String c s' =>
      match trim_end s' with
      | EmptyString => if is_ascii_space c then EmptyString else String c EmptyString
      | t => String c t
      end
  end.

Definition trim (s : string) : string := trim_end (trim_start s).

(** ** Decimal integers *)

Definition digit_value (c : ascii) : option Z :=
  if is_ascii_digit c then Some (code c - 48) else None.

Definition digit_char (d : Z) : ascii := ascii_of_Z (d + 48).

(** The digit loop of [uN::from_str]: [checked_mul] and [checked_add]. *)
Fixpoint parse_digits (max acc : Z) (s : string) : option Z :=
  match s with
  | EmptyString => Some acc
  | String c s' =>
      match digit_value c with
      | None => None
      | Some d => if max <? acc * 10 + d then None else parse_digits max (acc * 10 + d) s'
      end
  end.

(** [str::parse::<uN>]: an optional [+], then at least one digit. *)
Definition parse_uint (max : Z) (s : string) : option Z :=
  match s with
  | EmptyString => None
  | String c s' =>
      if Ascii.eqb c "+"%char then
        match s' with EmptyString => None | _ => parse_digits max 0 s' end
      else parse_digits max 0 s
  end.

Definition parse_u64 : string -> option Z := parse_uint u64_max.
Definition parse_u16 : string -> option Z := parse_uint u16_max.

Fixpoint print_digits (fuel : nat) (n : Z) (acc : string) : string :=
  match fuel with
  | O => acc
  | S f =>
      let acc' := String (digit_char (n mod 10)) acc in
      if n / 10 =? 0 then acc' else print_digits f (n / 10) acc'
  end.

(** [u64::to_string]: twenty digits are enough for every 64-bit value. *)
Definition to_string (n : Z) : string := print_digits 20 n "".

Fixpoint zeros (n : nat) : string :=
  match n with O => EmptyString | S n' => String "0"%char (zeros n') end.

(** [format!("{n:06}")]: zero-padded to a minimum width of six. *)
Definition format_06 (n : Z) : string :=
  zeros (6 - str_len (to_string n)) +:+ to_string n.

(** ** UTF-8

    [str::from_utf8]: the well-formed sequences of the Unicode standard (no
    overlong form, no surrogate, nothing above U+10FFFF). *)
Definition byte_in (lo hi : Z) (b : byte) : bool :=
  (lo <=? byte_to_Z b) && (byte_to_Z b <=? hi).

Definition utf8_cont (b : byte) : bool := byte_in 128 191 b.

Fixpoint utf8_valid (l : bytes) : bool :=
  match l with
  | [] => true
  | b0 :: l1 =>
      if byte_in 0 127 b0 then utf8_valid l1
      else match l1 with
      | [] => false
      | b1 :: l2 =>
          if byte_in 194 223 b0 then utf8_cont b1 && utf8_valid l2
          else match l2 with
          | [] => false
          | b2 :: l3 =>
              if byte_in 224 239 b0 then
                (if byte_to_Z b0 =? 224 then byte_in 160 191 b1
                 else if byte_to_Z b0 =? 237 then byte_in 128 159 b1
                 else utf8_cont b1) && utf8_cont b2 && utf8_valid l3
              else match l3 with
              | [] => false
              | b3 :: l4 =>
                  if byte_in 240 244 b0 then
                    (if byte_to_Z b0 =? 240 then byte_in 144 191 b1
                     else if byte_to_Z b0 =? 244 then byte_in 128 143 b1
                     else utf8_cont b1) && utf8_cont b2 && utf8_cont b3 && utf8_valid l4
                  else false
              end
          end
      end
  end.

Definition from_utf8 (l : bytes) : option string :=
  if utf8_valid l then Some (String.string_of_list_byte l) else None.

(** ** Time

    A [Duration] is a number of nanoseconds.  An [Instant] is a number of
    nanoseconds on the monotonic clock's own axis; the earliest instant that
    can be represented depends on the platform: on Windows an [Instant] is an
    unsigned offset from the performance counter's zero, on Unix a timespec
    with 64-bit signed seconds. *)
Definition nanos_per_sec : Z := 1000000000.
Definition from_secs (s : Z) : Z := s * nanos_per_sec.
Arguments from_secs : simpl never.
Definition as_secs (d : Z) : Z := d / nanos_per_sec.

Inductive platform := Unix | Windows.

Definition instant_min (p : platform) : Z :=
  match p with
  | Windows => 0
  | Unix => - 2 ^ 63 * nanos_per_sec
  end.

(** [Instant - Duration]: [None] is the panic on an instant that cannot be
    represented. *)
Definition instant_sub (p : platform) (t d : Z) : option Z :=
  if t - d <? instant_min p then None else Some (t - d).

(** [Instant::elapsed] at monotonic time [now], saturating at zero. *)
Definition elapsed (now t : Z) : Z := saturating_sub now t.

(** ** Lemmas *)

Lemma code_range c : 0 <= code c < 256.
Proof. unfold code. pose proof (N_ascii_bounded c). lia. Qed.

Lemma code_ascii_of_Z z : 0 <= z < 256 -> code (ascii_of_Z z) = z.
Proof. intros H. unfold code, ascii_of_Z. rewrite N_ascii_embedding by lia. lia. Qed.

Lemma code_inj a b : code a = code b -> a = b.
Proof.
  unfold code. intros H. rewrite <- (ascii_N_embedding a), <- (ascii_N_embedding b).
  f_equal. lia.
Qed.

Lemma as_bytes_inj a b : as_bytes a = as_bytes b -> a = b.
Proof.
  unfold as_bytes. intros H.
  rewrite <- (String.string_of_list_byte_of_string a), H.
  apply String.string_of_list_byte_of_string.
Qed.

Lemma as_bytes_length s : length (as_bytes s) = str_len s.
Proof.
  unfold as_bytes, String.list_byte_of_string. rewrite List.length_map.
  induction s; simpl; congruence.
Qed.

Lemma str_app_assoc (a b c : string) : (a +:+ b) +:+ c = a +:+ (b +:+ c).
Proof. induction a as [|x a IH]; [done|]. exact (f_equal (String x) IH). Qed.

Lemma str_app_nil_r (a : string) : a +:+ "" = a.
Proof. induction a as [|x a IH]; [done|]. exact (f_equal (String x) IH). Qed.

Lemma str_len_app a b : str_len (a +:+ b) = (str_len a + str_len b)%nat.
Proof. induction a as [|x a IH]; [done|]. exact (f_equal S IH). Qed.

Lemma str_all_app p a b : str_all p (a +:+ b) = str_all p a && str_all p b.
Proof.
  induction a as [|x a IH]; [done|].
  change (p x && str_all p (a +:+ b) = p x && str_all p a && str_all p b).
  by rewrite IH, andb_assoc.
Qed.

Lemma str_all_impl (p q : ascii -> bool) s :
  (forall c, p c = true -> q c = true) -> str_all p s = true -> str_all q s = true.
Proof.
  intros H. induction s as [|c s IH]; [done|]. cbn [str_all]. intros E. bool_to_prop.
  rewrite (H c), IH; done.
Qed.

Lemma str_map_len f s : str_len (str_map f s) = str_len s.
Proof. unfold str_len. induction s; simpl; congruence. Qed.

Lemma is_ascii_uppercase s : is_ascii s = true -> is_ascii (to_ascii_uppercase s) = true.
Proof.
  unfold is_ascii, to_ascii_uppercase, char_is_ascii.
  induction s as [|c s IH]; simpl; [done|]. intros H; bool_to_prop.
  rewrite IH by done. rewrite andb_true_r. apply Z.ltb_lt.
  unfold char_to_ascii_uppercase.
  destruct ((97 <=? code c) && (code c <=? 122)) eqn:E; [|done].
  bool_to_prop. rewrite code_ascii_of_Z; lia.
Qed.

Lemma uppercase_idem s : to_ascii_uppercase (to_ascii_uppercase s) = to_ascii_uppercase s.
Proof.
  unfold to_ascii_uppercase. induction s as [|c s IH]; simpl; [done|]. f_equal; [|done].
  unfold char_to_ascii_uppercase at 2 3.
  destruct ((97 <=? code c) && (code c <=? 122)) eqn:E.
  - bool_to_prop. unfold char_to_ascii_uppercase. rewrite code_ascii_of_Z by lia.
    destruct ((97 <=? code c - 32) && (code c - 32 <=? 122)) eqn:E2; [|done].
    bool_to_prop. lia.
  - unfold char_to_ascii_uppercase. by rewrite E.
Qed.

(** Digits. *)

Lemma digit_char_digit d : 0 <= d < 10 -> is_ascii_digit (digit_char d) = true.
Proof.
  intros H. unfold is_ascii_digit, digit_char. rewrite code_ascii_of_Z by lia.
  apply andb_true_iff; split; apply Z.leb_le; lia.
Qed.

Lemma digit_value_char d : 0 <= d < 10 -> digit_value (digit_char d) = Some d.
Proof.
  intros H. unfold digit_value. rewrite digit_char_digit by done.
  unfold digit_char. rewrite code_ascii_of_Z by lia. f_equal; lia.
Qed.

Lemma digit_value_range c d : digit_value c = Some d -> 0 <= d < 10.
Proof.
  unfold digit_value, is_ascii_digit. case_match; [|done]. intros [= <-]. bool_to_prop. lia.
Qed.

Lemma print_digits_digits fuel n acc :
  str_all is_ascii_digit acc = true -> str_all is_ascii_digit (print_digits fuel n acc) = true.
Proof.
  revert n acc; induction fuel as [|f IH]; intros n acc H; simpl; [done|].
  assert (str_all is_ascii_digit (String (digit_char (n mod 10)) acc) = true) as H'.
  { simpl. rewrite H, digit_char_digit; [done|]. apply Z.mod_pos_bound. lia. }
  destruct (n / 10 =? 0); auto.
Qed.

Lemma to_string_digits n : str_all is_ascii_digit (to_string n) = true.
Proof. by apply print_digits_digits. Qed.

Lemma print_digits_len_acc fuel n acc :
  (str_len acc <= str_len (print_digits fuel n acc) <= fuel + str_len acc)%nat.
Proof.
  revert n acc; induction fuel as [|f IH]; intros n acc; simpl; [lia|].
  case_match; simpl; [lia|]. specialize (IH (n / 10) (String (digit_char (n mod 10)) acc)).
  simpl in IH. lia.
Qed.

Lemma print_digits_nonempty f n acc : print_digits (S f) n acc <> "".
Proof.
  cbn [print_digits]. destruct (n / 10 =? 0); [done|].
  pose proof (print_digits_len_acc f (n / 10) (String (digit_char (n mod 10)) acc)) as H.
  intros E. rewrite E in H. simpl in H. lia.
Qed.

Lemma to_string_nonempty n : to_string n <> "".
Proof. apply print_digits_nonempty. Qed.

Lemma parse_print_digits max fuel n acc :
  0 <= n < 10 ^ Z.of_nat fuel -> n <= max ->
  parse_digits max 0 (print_digits fuel n acc) =
    match fuel with O => parse_digits max 0 acc | S _ => parse_digits max n acc end.
Proof.
  revert n acc; induction fuel as [|f IH]; intros n acc Hn Hmax; [done|].
  rewrite Nat2Z.inj_succ, Z.pow_succ_r in Hn by lia.
  pose proof (Z.mod_pos_bound n 10 eq_refl) as Hm.
  pose proof (Z.div_mod n 10 ltac:(lia)) as Hd.
  assert (0 <= n / 10 < 10 ^ Z.of_nat f) as Hq.
  { split; [apply Z.div_pos; lia | apply Z.div_lt_upper_bound; lia]. }
  cbn [print_digits]. destruct (n / 10 =? 0) eqn:E; bool_to_prop.
  - cbn [parse_digits]. rewrite digit_value_char by lia.
    replace (0 * 10 + n mod 10) with n by lia.
    destruct (max <? n) eqn:E2; bool_to_prop; [lia|done].
  - rewrite IH by lia. destruct f as [|f']; [simpl in Hq; lia|].
    cbn [parse_digits]. rewrite digit_value_char by lia.
    replace (n / 10 * 10 + n mod 10) with n by lia.
    destruct (max <? n) eqn:E2; bool_to_prop; [lia|done].
Qed.

Lemma parse_uint_digits max s :
  s <> "" -> str_all is_ascii_digit s = true -> parse_uint max s = parse_digits max 0 s.
Proof.
  destruct s as [|c s]; [done|]. intros _ H. simpl in H. bool_to_prop.
  unfold parse_uint. destruct (Ascii.eqb_spec c "+"%char) as [->|]; [|done].
  vm_compute in H. done.
Qed.

(** Formatting then parsing an integer of the type gives it back. *)
Lemma parse_uint_to_string max n :
  0 <= n <= max -> n < 10 ^ 20 -> parse_uint max (to_string n) = Some n.
Proof.
  intros H1 H2. rewrite parse_uint_digits by (apply to_string_nonempty || apply to_string_digits).
  unfold to_string. rewrite parse_print_digits; [done| |lia]. simpl in *; lia.
Qed.

Lemma parse_digits_range max acc s n :
  0 <= acc <= max -> parse_digits max acc s = Some n -> 0 <= n <= max.
Proof.
  revert acc; induction s as [|c s IH]; intros acc Hacc; simpl.
  - intros [= <-]; done.
  - destruct (digit_value c) as [d|] eqn:E; [|done]. apply digit_value_range in E.
    case_match eqn:E2; [done|]. bool_to_prop. apply IH. lia.
Qed.

Lemma parse_uint_range max s n : 0 <= max -> parse_uint max s = Some n -> 0 <= n <= max.
Proof.
  unfold parse_uint. intros Hm H. destruct s as [|c s]; [done|].
  case_match; [destruct s as [|c' s]; [done|]|]; eapply parse_digits_range in H; lia.
Qed.

(** Splitting. *)

Lemma split_char_nonempty sep s : split_char sep s <> [].
Proof. destruct s as [|c s]; simpl; [done|]. case_match; [done|]. by case_match. Qed.

Lemma split_char_none sep s :
  str_all (fun c => negb (Ascii.eqb c sep)) s = true -> split_char sep s = [s].
Proof.
  induction s as [|c s IH]; simpl; [done|]. intros H; bool_to_prop.
  rewrite IH by done. by rewrite H.
Qed.

Lemma split_char_app sep a b :
  str_all (fun c => negb (Ascii.eqb c sep)) a = true ->
  split_char sep (a +:+ String sep b) = a :: split_char sep b.
Proof.
  induction a as [|c a IH]; intros H.
  - simpl. change ("" +:+ String sep b) with (String sep b). simpl.
    by rewrite Ascii.eqb_refl.
  - simpl in H. bool_to_prop.
    change (String c a +:+ String sep b) with (String c (a +:+ String sep b)).
    simpl. rewrite IH by done. by rewrite H.
Qed.

Lemma digits_not_char sep s :
  is_ascii_digit sep = false -> str_all is_ascii_digit s = true ->
  str_all (fun c => negb (Ascii.eqb c sep)) s = true.
Proof.
  intros Hs. induction s as [|c s IH]; simpl; [done|]. intros H; bool_to_prop.
  rewrite IH by done. destruct (Ascii.eqb_spec c sep); [congruence|done].
Qed.

(** The six-digit format. *)

Lemma print_digits_len fuel n acc k :
  0 <= n < 10 ^ Z.of_nat k -> (0 < k)%nat ->
  (str_len (print_digits fuel n acc) <= k + str_len acc)%nat.
Proof.
  revert n acc k; induction fuel as [|f IH]; intros n acc k Hn Hk; simpl; [lia|].
  destruct (n / 10 =? 0) eqn:E; simpl; [lia|]. bool_to_prop.
  destruct k as [|[|k]]; [lia| |].
  - rewrite Z.pow_1_r in Hn. rewrite Z.div_small in E; lia.
  - etransitivity; [apply (IH _ _ (S k)); [|lia]|simpl; lia].
    rewrite (Nat2Z.inj_succ (S k)), Z.pow_succ_r in Hn by lia.
    split; [apply Z.div_pos; lia | apply Z.div_lt_upper_bound; lia].
Qed.

Lemma zeros_len n : str_len (zeros n) = n.
Proof. unfold str_len. induction n; simpl; congruence. Qed.

Lemma zeros_digits n : str_all is_ascii_digit (zeros n) = true.
Proof. induction n; simpl; [done|]. by rewrite IHn. Qed.

Lemma format_06_len n : 0 <= n < 1000000 -> str_len (format_06 n) = 6%nat.
Proof.
  intros H. unfold format_06. rewrite str_len_app, zeros_len.
  assert (str_len (to_string n) <= 6)%nat; [|lia].
  unfold to_string. etransitivity; [apply (print_digits_len _ _ _ 6); simpl; lia|]. simpl; lia.
Qed.

Lemma format_06_digits n : str_all is_ascii_digit (format_06 n) = true.
Proof. unfold format_06. by rewrite str_all_app, zeros_digits, to_string_digits. Qed.

(** ASCII text is UTF-8. *)

Lemma byte_to_Z_ascii c : byte_to_Z (byte_of_ascii c) = code c.
Proof. by destruct c as [[] [] [] [] [] [] [] []]. Qed.

Lemma is_ascii_utf8 s : is_ascii s = true -> utf8_valid (as_bytes s) = true.
Proof.
  unfold is_ascii, char_is_ascii. induction s as [|c s IH]; simpl; [done|]. intros Hs; bool_to_prop.
  change (as_bytes (String c s)) with (byte_of_ascii c :: as_bytes s). cbn [utf8_valid].
  unfold byte_in at 1. rewrite byte_to_Z_ascii.
  pose proof (code_range c). rewrite (proj2 (Z.leb_le _ _)), (proj2 (Z.leb_le _ _)) by lia.
  by apply IH.
Qed.

(** Durations and instants. *)

Lemma elapsed_nonneg now t : 0 <= elapsed now t.
Proof. unfold elapsed, saturating_sub. lia. Qed.

Lemma elapsed_mono now now' t : now <= now' -> elapsed now t <= elapsed now' t.
Proof. unfold elapsed, saturating_sub. lia. Qed.

Lemma instant_sub_Some p t d r : instant_sub p t d = Some r <-> r = t - d /\ instant_min p <= t - d.
Proof.
  unfold instant_sub. destruct (t - d <? instant_min p) eqn:E; bool_to_prop.
  - split; [done|]. lia.
  - split; [intros [= <-]; done|]. intros [-> _]; done.
Qed.

#[export] Hint Resolve code_range to_string_nonempty to_string_digits format_06_digits elapsed_nonneg : rig.
