(* ===== verification/Hex.v ===== *)
(** * Hexadecimal digits

    Bytes as two lower-case digits each, and back: the format of the hex crate
    and of Python's [bytes.hex] and [bytes.fromhex]. *)
From stdpp Require Import base list strings.
From Stdlib Require Import Ascii ZArith Lia.
From S2P Require Import Prelude RustStd.
Open Scope string_scope.
Open Scope Z_scope.
Open Scope list_scope.

Definition hex_digit (n : Z) : ascii := ascii_of_Z (if n <? 10 then n + 48 else n + 87).

Fixpoint to_hex (l : bytes) : string :=
  match l with
  | [] => ""
  | b :: l => String (hex_digit (byte_to_Z b / 16)) (String (hex_digit (byte_to_Z b mod 16)) (to_hex l))
  end.

Definition hex_value (c : ascii) : option Z :=
  if (48 <=? code c) && (code c <=? 57) then Some (code c - 48)
  else if (97 <=? code c) && (code c <=? 102) then Some (code c - 87)
  else if (65 <=? code c) && (code c <=? 70) then Some (code c - 55)
  else None.

(** [hex::decode]: nothing but digits, in pairs. *)
Fixpoint of_hex (s : string) : option bytes :=
  match s with
  | EmptyString => Some []
  | String a (String b s) =>
      match hex_value a, hex_value b, of_hex s with
      | Some x, Some y, Some l => Some (byte_of_Z (x * 16 + y) :: l)
      | _, _, _ => None
      end
  | String _ EmptyString => None
  end.

(** [bytes.fromhex]: ASCII white space may stand before each pair and at the
    end. *)
Fixpoint fromhex (s : string) : option bytes :=
  match s with
  | EmptyString => Some []
  | String a s' =>
      if is_ascii_space a then fromhex s'
      else match s' with
           | EmptyString => None
           | String b s'' =>
               match hex_value a, hex_value b, fromhex s'' with
               | Some x, Some y, Some l => Some (byte_of_Z (x * 16 + y) :: l)
               | _, _, _ => None
               end
           end
  end.

Lemma hex_digit_value n : 0 <= n < 16 -> hex_value (hex_digit n) = Some n /\ 33 <= code (hex_digit n) <= 126.
Proof.
  intros Hn. assert (n ∈ [0;1;2;3;4;5;6;7;8;9;10;11;12;13;14;15]) as Hin.
  { rewrite !elem_of_cons. lia. }
  rewrite !elem_of_cons, elem_of_nil in Hin.
  repeat (destruct Hin as [->|Hin]; [vm_compute; split; [done|split; discriminate]|]). done.
Qed.

Lemma byte_nibbles b :
  0 <= byte_to_Z b / 16 < 16 /\ 0 <= byte_to_Z b mod 16 < 16 /\
  byte_to_Z b / 16 * 16 + byte_to_Z b mod 16 = byte_to_Z b.
Proof.
  pose proof (byte_to_Z_range b). pose proof (Z.div_mod (byte_to_Z b) 16).
  pose proof (Z.mod_pos_bound (byte_to_Z b) 16).
  repeat split; try apply Z.div_pos; try apply Z.div_lt_upper_bound; lia.
Qed.

Lemma of_hex_to_hex l : of_hex (to_hex l) = Some l.
Proof.
  induction l as [|b l IH]; [done|]. simpl. destruct (byte_nibbles b) as (H1 & H2 & H3).
  rewrite (proj1 (hex_digit_value _ H1)), (proj1 (hex_digit_value _ H2)), IH, H3.
  by rewrite byte_of_to_Z.
Qed.

(** The digits are visible characters other than the space. *)
Lemma to_hex_graphic l : str_all (fun c => (33 <=? code c) && (code c <=? 126)) (to_hex l) = true.
Proof.
  induction l as [|b l IH]; [done|]. cbn [to_hex str_all]. rewrite IH.
  destruct (byte_nibbles b) as (H1 & H2 & _).
  pose proof (proj2 (hex_digit_value _ H1)). pose proof (proj2 (hex_digit_value _ H2)).
  rewrite !andb_true_iff, !Z.leb_le. lia.
Qed.

Lemma hex_digit_not_space n : 0 <= n < 16 -> is_ascii_space (hex_digit n) = false.
Proof.
  intros Hn. pose proof (proj2 (hex_digit_value n Hn)). unfold is_ascii_space.
  rewrite orb_false_iff, andb_false_iff, !Z.leb_gt, Z.eqb_neq. lia.
Qed.

Lemma fromhex_to_hex l : fromhex (to_hex l) = Some l.
Proof.
  induction l as [|b l IH]; [done|]. cbn [to_hex fromhex]. destruct (byte_nibbles b) as (H1 & H2 & H3).
  rewrite hex_digit_not_space, (proj1 (hex_digit_value _ H1)), (proj1 (hex_digit_value _ H2)), IH, H3 by done.
  by rewrite byte_of_to_Z.
Qed.

Lemma to_hex_len l : str_len (to_hex l) = (2 * length l)%nat.
Proof. unfold str_len. induction l as [|b l IH]; cbn [to_hex String.length length]; [done|]. lia. Qed.

Lemma to_hex_inj l k : to_hex l = to_hex k -> l = k.
Proof. intros E. apply (f_equal of_hex) in E. rewrite !of_hex_to_hex in E. congruence. Qed.
