(* ===== verification/Versioning.v ===== *)
(** * Versioning (host/src/versioning.rs)

    The strict [X.Y.Z] parser and the comparison of the plugin's version with
    the host's.  A version string is accepted exactly when it is the canonical
    decimal rendering of three 64-bit integers. *)
From stdpp Require Import base list strings.
From Stdlib Require Import Ascii ZArith Lia.
From S2P Require Import Prelude RustStd.
Open Scope string_scope.
Open Scope Z_scope.

Inductive VersionRelation :=
| Compatible
| UpdateHost
| UpdatePlugin
| Incompatible
| UnknownVersion.

#[export] Instance VersionRelation_eq_dec : EqDecision VersionRelation.
Proof. solve_decision. Defined.

Definition Version : Type := Z * Z * Z.

(** [parsed.map(|part| part.to_string()).join(".")]. *)
Definition render (v : Version) : string :=
  let '(a, b, c) := v in
  to_string a +:+ "." +:+ to_string b +:+ "." +:+ to_string c.

Definition parse (value : string) : option Version :=
  match split_char "."%char value with
  | p0 :: rest0 =>
      match parse_u64 p0 with
      | None => None
      | Some a =>
          match rest0 with
          | [] => None
          | p1 :: rest1 =>
              match parse_u64 p1 with
              | None => None
              | Some b =>
                  match rest1 with
                  | [] => None
                  | p2 :: rest2 =>
                      match parse_u64 p2 with
                      | None => None
                      | Some c =>
                          match rest2 with
                          | _ :: _ => None
                          | [] => if bool_decide (render (a, b, c) = value)
                                  then Some (a, b, c) else None
                          end
                      end
                  end
              end
          end
      end
  | [] => None
  end.

Definition compare (plugin host : string) : VersionRelation :=
  match parse plugin, parse host with
  | Some (p0, p1, _), Some (h0, h1, _) =>
      if negb (p0 =? h0) then Incompatible
      else if h1 <? p1 then UpdateHost
      else if p1 <? h1 then UpdatePlugin
      else Compatible
  | _, _ => UnknownVersion
  end.

Definition version_wf (v : Version) : Prop :=
  let '(a, b, c) := v in
  in_range u64_max a /\ in_range u64_max b /\ in_range u64_max c.

(** ** The parser *)

Lemma dot_free n : str_all (fun c => negb (Ascii.eqb c "."%char)) (to_string n) = true.
Proof. apply digits_not_char; [done|]. apply to_string_digits. Qed.

Lemma split_render v :
  let '(a, b, c) := v in
  split_char "."%char (render v) = [to_string a; to_string b; to_string c].
Proof.
  destruct v as [[a b] c].
  change (render (a, b, c)) with
    (to_string a +:+ String "." (to_string b +:+ String "." (to_string c))).
  rewrite (split_char_app _ (to_string a)) by apply dot_free.
  rewrite (split_char_app _ (to_string b)) by apply dot_free.
  by rewrite split_char_none by apply dot_free.
Qed.

Lemma parse_u64_to_string n : in_range u64_max n -> parse_u64 (to_string n) = Some n.
Proof. intros H. apply parse_uint_to_string; unfold in_range, u64_max in *; lia. Qed.

Lemma parse_render v : version_wf v -> parse (render v) = Some v.
Proof.
  destruct v as [[a b] c]. intros (Ha & Hb & Hc). unfold parse.
  rewrite (split_render (a, b, c)).
  rewrite !parse_u64_to_string by done. by rewrite bool_decide_eq_true_2.
Qed.

Lemma parse_sound value v : parse value = Some v -> value = render v /\ version_wf v.
Proof.
  unfold parse. intros H.
  repeat (case_hyp H; try discriminate H). simplify_eq. bool_to_prop.
  repeat match goal with
  | E : parse_u64 _ = Some _ |- _ => apply parse_uint_range in E; [|done]
  end.
  done.
Qed.

(** The version parser accepts exactly the canonical renderings
    [X.Y.Z] of three unsigned 64-bit integers, and returns those integers: no
    sign, no leading zero, no missing or extra component is accepted, and
    rendering then parsing is the identity. *)
Theorem parse_iff_canonical value v :
  parse value = Some v <-> value = render v /\ version_wf v.
Proof.
  split; [apply parse_sound|]. intros [-> Hv]. by apply parse_render.
Qed.

(** ** The comparison *)

Lemma compare_render p h :
  version_wf p -> version_wf h ->
  compare (render p) (render h) =
    let '(p0, p1, _) := p in let '(h0, h1, _) := h in
    if negb (p0 =? h0) then Incompatible
    else if h1 <? p1 then UpdateHost
    else if p1 <? h1 then UpdatePlugin else Compatible.
Proof.
  intros Hp Hh. unfold compare. by rewrite !parse_render.
Qed.

Definition swap_relation (r : VersionRelation) : VersionRelation :=
  match r with
  | UpdateHost => UpdatePlugin
  | UpdatePlugin => UpdateHost
  | r => r
  end.

(** Comparing the two sides the other way round gives the mirrored
    advice: whichever side is asked, the same component is named as the older
    one, and [Compatible], [Incompatible] and [UnknownVersion] are symmetric. *)
Theorem compare_swap plugin host :
  compare host plugin = swap_relation (compare plugin host).
Proof.
  unfold compare. destruct (parse plugin) as [[[p0 p1] p2]|], (parse host) as [[[h0 h1] h2]|];
    try done.
  rewrite (Z.eqb_sym h0 p0). destruct (p0 =? h0); simpl; [|done].
  destruct (h1 <? p1) eqn:E1, (p1 <? h1) eqn:E2; bool_to_prop; try done; lia.
Qed.

(** Two well-formed versions are [Compatible] exactly when their major and
    minor components agree; the patch component never matters. *)
Theorem compatible_iff_same_major_minor plugin host :
  compare plugin host = Compatible <->
  exists major minor p h,
    parse plugin = Some (major, minor, p) /\ parse host = Some (major, minor, h).
Proof.
  unfold compare. split.
  - destruct (parse plugin) as [[[p0 p1] p2]|], (parse host) as [[[h0 h1] h2]|]; try done.
    repeat case_match; intros ?; simplify_eq; bool_to_prop.
    assert (p0 = h0) as -> by lia. assert (p1 = h1) as -> by lia. eauto 10.
  - intros (ma & mi & p & h & -> & ->). rewrite Z.eqb_refl, Z.ltb_irrefl. done.
Qed.

Example compare_examples :
  compare "1.2.9" "1.2.0" = Compatible /\ compare "1.3.0" "1.2.9" = UpdateHost /\
  compare "1.2.0" "1.3.0" = UpdatePlugin /\ compare "2.0.0" "1.9.0" = Incompatible /\
  compare "v1.2.3" "1.2.3" = UnknownVersion /\ compare "+1.2.3" "1.2.3" = UnknownVersion.
Proof. vm_compute. done. Qed.
