(* ===== verification/Fs.v ===== *)
(** * A file system with faults

    The state the host's file operations act on: the contents of the regular
    files, and the faults the next operations meet.  A failing [fs::write] may
    leave the file untouched, truncated or partly written, as the standard
    library's contract allows; the other operations either happen or do not. *)
From stdpp Require Import base gmap list strings.
From Stdlib Require Import ZArith Lia.
From S2P Require Import Prelude RustStd.

Inductive io_error :=
| NotFound
| InvalidData (message : string)
| UnexpectedEof
| OtherIo (message : string).

#[export] Instance io_error_eq_dec : EqDecision io_error.
Proof. solve_decision. Defined.

(** What the next operation meets: it succeeds, or it fails, having written
    that many bytes if it was a write. *)
Inductive fault :=
| Fine
| Fails (written : option nat).

Record Fs := MkFs {
  files : gmap string bytes;
  faults : list fault;
}.

Definition next_fault (s : Fs) : fault * Fs :=
  match faults s with
  | [] => (Fine, s)
  | f :: fs => (f, MkFs (files s) fs)
  end.

Definition with_files (m : gmap string bytes) (s : Fs) : Fs := MkFs m (faults s).

(** [Path::exists]. *)
Definition fs_exists (path : string) (s : Fs) : bool := bool_decide (is_Some (files s !! path)).

(** [fs::read]. *)
Definition fs_read (path : string) (s : Fs) : result bytes io_error * Fs :=
  match next_fault s with
  | (Fine, s') => (ok_or (files s !! path) NotFound, s')
  | (Fails _, s') => (Err (OtherIo "read"), s')
  end.

(** [fs::read_to_string]: also fails on contents that are not UTF-8. *)
Definition fs_read_to_string (path : string) (s : Fs) : result string io_error * Fs :=
  match fs_read path s with
  | (Ok l, s') => (ok_or (from_utf8 l) (InvalidData "stream did not contain valid UTF-8"), s')
  | (Err e, s') => (Err e, s')
  end.

(** [fs::write]: creates or truncates, then writes. *)
Definition fs_write (path : string) (data : bytes) (s : Fs) : result unit io_error * Fs :=
  match next_fault s with
  | (Fine, s') => (Ok tt, with_files (<[path := data]> (files s)) s')
  | (Fails None, s') => (Err (OtherIo "write"), s')
  | (Fails (Some n), s') => (Err (OtherIo "write"), with_files (<[path := take n data]> (files s)) s')
  end.

(** [fs::create_dir_all] on a directory; directories are not tracked. *)
Definition fs_create_dir_all (s : Fs) : result unit io_error * Fs :=
  match next_fault s with
  | (Fine, s') => (Ok tt, s')
  | (Fails _, s') => (Err (OtherIo "create_dir_all"), s')
  end.

(** [fs::rename], and [MoveFileExW] with [MOVEFILE_REPLACE_EXISTING]: the
    destination is replaced in one step. *)
Definition fs_rename (source destination : string) (s : Fs) : result unit io_error * Fs :=
  match next_fault s with
  | (Fine, s') =>
      match files s !! source with
      | Some data => (Ok tt, with_files (<[destination := data]> (delete source (files s))) s')
      | None => (Err NotFound, s')
      end
  | (Fails _, s') => (Err (OtherIo "rename"), s')
  end.

(** [fs::remove_file]. *)
Definition fs_remove_file (path : string) (s : Fs) : result unit io_error * Fs :=
  match next_fault s with
  | (Fine, s') =>
      match files s !! path with
      | Some _ => (Ok tt, with_files (delete path (files s)) s')
      | None => (Err NotFound, s')
      end
  | (Fails _, s') => (Err (OtherIo "remove_file"), s')
  end.

(** [fs::metadata(path)?.len()]. *)
Definition fs_metadata_len (path : string) (s : Fs) : result Z io_error * Fs :=
  match next_fault s with
  | (Fine, s') => (match files s !! path with
                   | Some data => Ok (Z.of_nat (length data))
                   | None => Err NotFound
                   end, s')
  | (Fails _, s') => (Err (OtherIo "metadata"), s')
  end.

(** ** Lemmas *)

Lemma next_fault_files s f s' : next_fault s = (f, s') -> files s' = files s.
Proof. unfold next_fault. case_match; intros; simplify_eq/=; done. Qed.

Lemma next_fault_none s : faults s = [] -> next_fault s = (Fine, s).
Proof. unfold next_fault. by intros ->. Qed.

Lemma fs_read_files path s : files (fs_read path s).2 = files s.
Proof.
  unfold fs_read. destruct (next_fault s) as [[|w] s'] eqn:E; by apply next_fault_files in E.
Qed.

Lemma fs_read_Ok path s data s' : fs_read path s = (Ok data, s') -> files s !! path = Some data.
Proof.
  unfold fs_read. destruct (next_fault s) as [[|w] s1]; [|done]. by destruct (files s !! path); intros [= <-].
Qed.

Lemma fs_read_ok path s data :
  faults s = [] -> files s !! path = Some data -> fs_read path s = (Ok data, s).
Proof. intros H E. unfold fs_read. rewrite (next_fault_none s H), E. done. Qed.

(** A rename that fails changes no file. *)
Lemma fs_rename_err source destination s e s' :
  fs_rename source destination s = (Err e, s') -> files s' = files s.
Proof.
  unfold fs_rename. destruct (next_fault s) as [[|w] s1] eqn:E; apply next_fault_files in E;
    [case_match|]; intros; simplify_eq; done.
Qed.

Lemma fs_write_frame path data s r s' q :
  fs_write path data s = (r, s') -> q <> path -> files s' !! q = files s !! q.
Proof.
  unfold fs_write. intros H Hq. destruct (next_fault s) as [[|[n|]] s1] eqn:E;
    apply next_fault_files in E; simplify_eq/=; rewrite ?lookup_insert_ne by done; congruence.
Qed.

Lemma fs_write_ok path data s s' :
  fs_write path data s = (Ok tt, s') -> files s' = <[path := data]> (files s).
Proof.
  unfold fs_write. intros H. destruct (next_fault s) as [[|[n|]] s1] eqn:E; simplify_eq/=; done.
Qed.

Lemma fs_rename_ok source destination s s' :
  fs_rename source destination s = (Ok tt, s') ->
  exists data, files s !! source = Some data /\
    files s' = <[destination := data]> (delete source (files s)).
Proof.
  unfold fs_rename. intros H. destruct (next_fault s) as [[|w] s1] eqn:E; [|done].
  destruct (files s !! source) eqn:E2; simplify_eq/=. eauto.
Qed.
