(* ===== verification/Config.v ===== *)
(** * Host configuration (host/src/config.rs)

    [DeckyMyRigHost.toml] holds one optional key, [port].  The TOML parser is
    a parameter. *)
From stdpp Require Import base gmap list strings.
From Stdlib Require Import ZArith Lia.
From S2P Require Import Prelude RustStd Fs.
Open Scope Z_scope.

Definition DEFAULT_PORT : Z := 47991.

Record HostConfig := { port : Z }.

(** The one optional key, an [i64]. *)
Record RawConfig := { raw_port : option Z }.

Inductive ConfigError :=
| ConfigRead (path : string) (source : io_error)
| ConfigParse (path : string) (source : string)
| InvalidPort (value : Z)
| ConfigExecutable (source : io_error).

(** [toml::from_str::<RawConfig>], with the parser's message on failure. *)
Class Toml := toml_from_str : string -> result RawConfig string.

Section Config.
Context {T : Toml}.

Definition load (path : string) (s : Fs) : result HostConfig ConfigError * Fs :=
  if negb (fs_exists path s) then (Ok {| port := DEFAULT_PORT |}, s)
  else
    let '(r, s') := fs_read_to_string path s in
    match r with
    | Err source => (Err (ConfigRead path source), s')
    | Ok text =>
        match toml_from_str text with
        | Err source => (Err (ConfigParse path source), s')
        | Ok raw =>
            let value := match raw_port raw with Some v => v | None => DEFAULT_PORT end in
            match try_from u16_max value with
            | Some p => if p =? 0 then (Err (InvalidPort value), s')
                        else (Ok {| port := p |}, s')
            | None => (Err (InvalidPort value), s')
            end
        end
    end.

(** Whatever the configuration file holds, a successful load yields a port
    in 1..=65535: the default, or exactly the value the file sets. *)
Theorem load_port_valid path s c s' :
  load path s = (Ok c, s') ->
  1 <= port c <= 65535 /\ files s' = files s /\
  (port c = DEFAULT_PORT \/
   exists text raw, fs_read_to_string path s = (Ok text, s') /\
     toml_from_str text = Ok raw /\ raw_port raw = Some (port c)).
Proof.
  unfold load. destruct (fs_exists path s) eqn:Ex; simpl.
  2:{ intros [= <- <-]. simpl. unfold DEFAULT_PORT. repeat split; auto; lia. }
  destruct (fs_read_to_string path s) as [r s1] eqn:R.
  assert (files s1 = files s) as Hf.
  { pose proof (fs_read_files path s). unfold fs_read_to_string in R.
    destruct (fs_read path s) as [[l|e] s2]; simplify_eq/=; done. }
  destruct r as [text|e]; [|done]. destruct (toml_from_str text) as [raw|e] eqn:Ht; [|done].
  destruct (raw_port raw) as [v|] eqn:Hp.
  - destruct (try_from u16_max v) as [p|] eqn:Htf; [|done]. apply try_from_Some in Htf.
    destruct Htf as [-> Hr]. case_match eqn:Hz; intros [= <- <-].
    unfold in_range, u16_max in Hr. bool_to_prop. simpl. repeat split; auto; try lia.
    right. eauto.
  - intros [= <- <-]. simpl. unfold DEFAULT_PORT. repeat split; auto; lia.
Qed.

(** A port the file sets is rejected with the offending value exactly when
    it lies outside 1..=65535; in that case nothing is defaulted. *)
Theorem load_invalid_port path s text raw v s' :
  fs_exists path s = true -> fs_read_to_string path s = (Ok text, s') ->
  toml_from_str text = Ok raw -> raw_port raw = Some v ->
  load path s = if (1 <=? v) && (v <=? 65535) then (Ok {| port := v |}, s')
                else (Err (InvalidPort v), s').
Proof.
  intros Ex R Ht Hv. unfold load. rewrite Ex, R, Ht, Hv. simpl.
  unfold try_from, u16_max.
  destruct (0 <=? v) eqn:E1, (v <=? 65535) eqn:E2, (1 <=? v) eqn:E3; simpl; bool_to_prop; try lia; try done.
  - destruct (v =? 0) eqn:E4; bool_to_prop; [lia|done].
  - destruct (v =? 0) eqn:E4; bool_to_prop; [done|lia].
Qed.

End Config.

(** A parser for witnesses: the empty document, and one document with a port. *)
Definition sample_toml : Toml := fun text =>
  if bool_decide (text = ""%string) then Ok {| raw_port := None |}
  else if bool_decide (text = "port = 48100"%string) then Ok {| raw_port := Some 48100 |}
  else if bool_decide (text = "port = 0"%string) then Ok {| raw_port := Some 0 |}
  else Err "expected a value"%string.

Definition sample_fs (text : string) : Fs :=
  MkFs {[ "host.toml"%string := as_bytes text ]} [].

Lemma load_port_valid_witness :
  load (T := sample_toml) "host.toml" (sample_fs "port = 48100") =
    (Ok {| port := 48100 |}, sample_fs "port = 48100") /\ 1 <= 48100 <= 65535.
Proof.
  split; [reflexivity|].
  exact (proj1 (load_port_valid (T := sample_toml) "host.toml" (sample_fs "port = 48100")
    {| port := 48100 |} (sample_fs "port = 48100") eq_refl)).
Defined.

Lemma load_invalid_port_witness :
  load (T := sample_toml) "host.toml" (sample_fs "port = 0") =
    (Err (InvalidPort 0), sample_fs "port = 0").
Proof.
  exact (load_invalid_port (T := sample_toml) "host.toml" (sample_fs "port = 0") "port = 0"
    {| raw_port := Some 0 |} 0 _ eq_refl eq_refl eq_refl eq_refl).
Defined.
