(* ===== verification/Primitives.v ===== *)
(** * Cryptographic primitives and randomness

    The host takes SHA-256, HMAC-SHA256, HKDF-SHA256, ChaCha20-Poly1305,
    SPAKE2 and its random generator from third-party crates.  They are the
    operations of the class [Primitives]; [PrimitivesLaws] states the
    documented behaviour the host relies on.  No law says anything about
    secrecy or unforgeability.  [toy] is an executable instance that satisfies
    the laws; it is used by witnesses only. *)
From stdpp Require Import base list strings.
From S2P Require Import Prelude RustStd.
Open Scope Z_scope.
Open Scope list_scope.

Class Primitives := {
  (** [sha2::Sha256::digest] *)
  sha256 : bytes -> bytes;
  (** [Hmac::<Sha256>::new_from_slice], [finalize] and [verify_slice]; the
      message is the concatenation of the [update] calls *)
  hmac_key : Type;
  hmac_new_from_slice : bytes -> option hmac_key;
  hmac_finalize : hmac_key -> bytes -> bytes;
  hmac_verify_slice : hmac_key -> bytes -> bytes -> bool;
  (** [Hkdf::<Sha256>::new(None, ikm).expand(info, &mut [0; n])] *)
  hkdf_expand : bytes -> bytes -> nat -> option bytes;
  (** [ChaCha20Poly1305::new(key).encrypt(nonce, Payload { msg, aad })] *)
  aead_encrypt : bytes -> bytes -> bytes -> bytes -> option bytes;
  aead_decrypt : bytes -> bytes -> bytes -> bytes -> option bytes;
  (** [rand::rng()] *)
  rng : Type;
  fill_bytes : nat -> rng -> bytes * rng;
  random_range : Z -> rng -> Z * rng;
  (** [uuid::Uuid::new_v4] and [to_string] *)
  uuid_new_v4 : rng -> bytes * rng;
  uuid_to_string : bytes -> string;
  (** [Spake2::<Ed25519Group>]: password, identity of A, identity of B *)
  spake2 : Type;
  spake2_start_a : bytes -> bytes -> bytes -> rng -> spake2 * bytes * rng;
  spake2_start_b : bytes -> bytes -> bytes -> rng -> spake2 * bytes * rng;
  spake2_finish : spake2 -> bytes -> option bytes;
}.

Class PrimitivesLaws (P : Primitives) : Prop := {
  sha256_length l : length (sha256 l) = 32%nat;
  (** HMAC takes keys of any size. *)
  hmac_new_total k : is_Some (hmac_new_from_slice k);
  hmac_length k m : length (hmac_finalize k m) = 32%nat;
  hmac_verify_iff k m tag : hmac_verify_slice k m tag = true <-> tag = hmac_finalize k m;
  hkdf_expand_32 ikm info : exists key, hkdf_expand ikm info 32 = Some key /\ length key = 32%nat;
  aead_round_trip key nonce msg aad :
    length key = 32%nat -> length nonce = 12%nat -> Z.of_nat (length msg) <= 65536 ->
    exists c, aead_encrypt key nonce msg aad = Some c /\ aead_decrypt key nonce c aad = Some msg;
  fill_bytes_length n g : length (fill_bytes n g).1 = n;
  random_range_bound n g : 0 < n -> 0 <= (random_range n g).1 < n;
  (** A UUID is written with hexadecimal digits and hyphens. *)
  uuid_ascii u : is_ascii (uuid_to_string u) = true;
  (** Two parties that use the same password and identities agree. *)
  spake2_agree pw ida idb ga gb :
    exists k, spake2_finish (spake2_start_a pw ida idb ga).1.1 (spake2_start_b pw ida idb gb).1.2 = Some k
           /\ spake2_finish (spake2_start_b pw ida idb gb).1.1 (spake2_start_a pw ida idb ga).1.2 = Some k;
}.

(** [HMAC-SHA256(secret, message)], when the key is accepted. *)
Definition hmac {P : Primitives} (secret message : bytes) : option bytes :=
  match hmac_new_from_slice secret with
  | Some k => Some (hmac_finalize k message)
  | None => None
  end.

(** ** A toy instance *)

Definition toy_fold (l : bytes) : Z :=
  fold_left (fun acc b => (acc * 33 + byte_to_Z b + 1) mod 65521) l 7.

Definition toy_hash (l : bytes) : bytes := to_be_bytes 32 (toy_fold l).

Definition toy_tag (key nonce msg aad : bytes) : bytes :=
  take 16 (toy_hash (key ++ nonce ++ toy_hash msg ++ toy_hash aad)).

(** The two messages carry the role and the fresh element; the key hashes the
    transcript with the password. *)
Record toy_spake := {
  toy_is_a : bool;
  toy_pw : bytes;
  toy_own : bytes;
}.

Definition toy_start (is_a : bool) (pw ida idb : bytes) (g : Z) : toy_spake * bytes * Z :=
  let m := (if is_a then x41 else x42) :: to_be_bytes 32 g in
  ({| toy_is_a := is_a; toy_pw := pw ++ ida ++ idb; toy_own := m |}, m, g + 1).

Definition toy_finish (st : toy_spake) (peer : bytes) : option bytes :=
  match peer with
  | role :: l =>
      if (length l =? 32)%nat && bool_decide (role = if toy_is_a st then x42 else x41) then
        Some (toy_hash (if toy_is_a st then toy_own st ++ peer ++ toy_pw st
                        else peer ++ toy_own st ++ toy_pw st))
      else None
  | [] => None
  end.

(** The bytes as ASCII characters. *)
Fixpoint toy_uuid (u : bytes) : string :=
  match u with
  | [] => EmptyString
  | b :: u => String (ascii_of_Z (byte_to_Z b mod 128)) (toy_uuid u)
  end.

Definition toy : Primitives := {|
  sha256 := toy_hash;
  hmac_key := bytes;
  hmac_new_from_slice k := Some k;
  hmac_finalize k m := toy_hash (k ++ toy_hash m);
  hmac_verify_slice k m tag := bool_decide (tag = toy_hash (k ++ toy_hash m));
  hkdf_expand ikm info n := if Z.of_nat n <=? 8160 then Some (take n (toy_hash (ikm ++ info))) else None;
  aead_encrypt key nonce msg aad := Some (msg ++ toy_tag key nonce msg aad);
  aead_decrypt key nonce c aad :=
    let msg := take (length c - 16) c in
    if bool_decide (c = msg ++ toy_tag key nonce msg aad) then Some msg else None;
  rng := Z;
  fill_bytes n g := (repeat (byte_of_Z g) n, g + 1);
  random_range n g := (g mod n, g + 1);
  uuid_new_v4 g := (repeat (byte_of_Z g) 16, g + 1);
  uuid_to_string u := toy_uuid u;
  spake2 := toy_spake;
  spake2_start_a := toy_start true;
  spake2_start_b := toy_start false;
  spake2_finish := toy_finish;
|}.

Lemma toy_tag_length key nonce msg aad : length (toy_tag key nonce msg aad) = 16%nat.
Proof. unfold toy_tag. rewrite length_take. unfold toy_hash. rewrite to_be_bytes_length. done. Qed.

Lemma toy_hash_length l : length (toy_hash l) = 32%nat.
Proof. apply to_be_bytes_length. Qed.

Lemma toy_finish_peer st role l :
  length l = 32%nat -> role = (if toy_is_a st then x42 else x41) ->
  toy_finish st (role :: l) =
    Some (toy_hash (if toy_is_a st then toy_own st ++ (role :: l) ++ toy_pw st
                    else (role :: l) ++ toy_own st ++ toy_pw st)).
Proof.
  intros H ->. unfold toy_finish. rewrite H, bool_decide_eq_true_2; done.
Qed.

Lemma toy_spake2_agree pw ida idb ga gb :
  exists k, toy_finish (toy_start true pw ida idb ga).1.1 (toy_start false pw ida idb gb).1.2 = Some k
         /\ toy_finish (toy_start false pw ida idb gb).1.1 (toy_start true pw ida idb ga).1.2 = Some k.
Proof.
  unfold toy_start. generalize (to_be_bytes_length 32 ga), (to_be_bytes_length 32 gb).
  generalize (to_be_bytes 32 ga), (to_be_bytes 32 gb). intros la lb Ha Hb.
  cbn [fst snd]. rewrite !toy_finish_peer by done. eauto.
Qed.

Lemma toy_decrypt_encrypt key nonce msg aad :
  let c := msg ++ toy_tag key nonce msg aad in
  let msg' := take (length c - 16) c in
  (if bool_decide (c = msg' ++ toy_tag key nonce msg' aad) then Some msg' else None) = Some msg.
Proof.
  intros c msg'. assert (msg' = msg) as ->.
  { unfold msg', c. rewrite length_app, toy_tag_length.
    replace (length msg + 16 - 16)%nat with (length msg) by lia. apply take_app_length. }
  by rewrite bool_decide_eq_true_2.
Qed.

Lemma toy_uuid_ascii u : is_ascii (toy_uuid u) = true.
Proof.
  unfold is_ascii. induction u as [|b u IH]; simpl; [done|]. rewrite IH, andb_true_r.
  unfold char_is_ascii. pose proof (Z.mod_pos_bound (byte_to_Z b) 128 ltac:(lia)).
  rewrite code_ascii_of_Z by lia. apply Z.ltb_lt. lia.
Qed.

Lemma toy_laws : PrimitivesLaws toy.
Proof.
  constructor.
  - exact toy_hash_length.
  - intros k. exists k. reflexivity.
  - intros k m. apply toy_hash_length.
  - intros k m tag. apply bool_decide_eq_true.
  - intros ikm info. exists (take 32 (toy_hash (ikm ++ info))). split; [reflexivity|].
    rewrite length_take, toy_hash_length. reflexivity.
  - intros key nonce msg aad _ _ _. exists (msg ++ toy_tag key nonce msg aad).
    split; [reflexivity | apply toy_decrypt_encrypt].
  - intros n g. apply repeat_length.
  - intros n g Hn. apply Z.mod_pos_bound. exact Hn.
  - exact toy_uuid_ascii.
  - exact toy_spake2_agree.
Qed.
