(* ===== verification/Auth.v ===== *)
(** * Request and response authentication (host/src/auth.rs)

    The canonical byte sequences that are signed, signing and verification of
    responses, and the two critical sections of [Authenticator]: the failure
    window and the nonce cache.  [Authenticator::verify] itself, which takes
    the two mutexes, is in [Server]. *)
From stdpp Require Import base gmap list strings sorting.
From Stdlib Require Import Ascii.
From S2P Require Import Prelude RustStd Primitives.
Open Scope string_scope.
Open Scope Z_scope.
Open Scope list_scope.

(** A byte string literal that ends in [\0]. *)
Definition nul_terminated (s : string) : bytes := as_bytes s ++ [x00].

Definition DOMAIN : bytes := nul_terminated "deckymyrig-auth-v1".
Definition RESPONSE_DOMAIN : bytes := nul_terminated "deckymyrig-response-v1".
#[global] Opaque DOMAIN RESPONSE_DOMAIN.
Definition CLOCK_WINDOW : Z := 60.
Definition NONCE_LENGTH : nat := 16.

Inductive AuthError :=
| Malformed
| Stale
| Replay
| Invalid
| RateLimited
| Persistence.

#[export] Instance AuthError_eq_dec : EqDecision AuthError.
Proof. solve_decision. Defined.

Record AuthenticatedRequest := {
  timestamp : Z;
  nonce : bytes;
  signature : bytes;
  method : string;
  path : string;
  body : bytes;
}.

Section Auth.
Context {P : Primitives}.

Definition append_field (output field : bytes) : result bytes AuthError :=
  match try_from u16_max (Z.of_nat (length field)) with
  | None => Err Malformed
  | Some length => Ok (output ++ to_be_bytes 2 length ++ field)
  end.

Definition canonical_message (timestamp : Z) (nonce : bytes) (method path : string)
    (body : bytes) : result bytes AuthError :=
  if negb (length nonce =? NONCE_LENGTH)%nat || negb (is_ascii method) || negb (is_ascii path)
  then Err Malformed
  else
    let method := to_ascii_uppercase method in
    let output := DOMAIN in
    let output := output ++ to_be_bytes 8 timestamp in
    let? output := append_field output nonce in
    let? output := append_field output (as_bytes method) in
    let? output := append_field output (as_bytes path) in
    Ok (output ++ sha256 body).

Definition sign (secret : bytes) (timestamp : Z) (nonce : bytes) (method path : string)
    (body : bytes) : result bytes AuthError :=
  let? message := canonical_message timestamp nonce method path body in
  let? mac := ok_or (hmac_new_from_slice secret) Malformed in
  Ok (hmac_finalize mac message).

Definition response_message (request_nonce : bytes) (path : string) (status : Z)
    (body : bytes) : result bytes AuthError :=
  if negb (length request_nonce =? NONCE_LENGTH)%nat || negb (is_ascii path)
  then Err Malformed
  else
    let message := RESPONSE_DOMAIN in
    let? message := append_field message request_nonce in
    let? message := append_field message (as_bytes path) in
    Ok ((message ++ to_be_bytes 2 status) ++ sha256 body).

Definition sign_response (secret request_nonce : bytes) (path : string) (status : Z)
    (body : bytes) : result bytes AuthError :=
  let? message := response_message request_nonce path status body in
  let? mac := ok_or (hmac_new_from_slice secret) Malformed in
  Ok (hmac_finalize mac message).

Definition verify_response (secret request_nonce : bytes) (path : string) (status : Z)
    (body signature : bytes) : result unit AuthError :=
  let? message := response_message request_nonce path status body in
  let? mac := ok_or (hmac_new_from_slice secret) Malformed in
  if hmac_verify_slice mac message signature then Ok tt else Err Invalid.

(** ** The critical sections of [Authenticator] *)

(** The body of [failed], under the [failures] lock. *)
Definition failed_section (now : Z) (error : AuthError) (failures : list Z)
    : AuthError * list Z :=
  let failures := drop_while (fun seen => CLOCK_WINDOW <? saturating_sub now seen) failures in
  if (20 <=? length failures)%nat then (RateLimited, failures)
  else (error, failures ++ [now]).

(** The end of [verify], under the [accepted_nonces] lock. *)
Definition nonce_section (now : Z) (nonce : bytes) (nonces : gmap bytes Z)
    : result unit AuthError * gmap bytes Z :=
  let nonces := filter (fun kv : bytes * Z => saturating_sub now kv.2 <= CLOCK_WINDOW) nonces in
  match nonces !! nonce with
  | Some _ => (Err Replay, <[nonce := now]> nonces)
  | None => (Ok tt, <[nonce := now]> nonces)
  end.

(** ** Canonical messages *)

Lemma append_field_Ok output field r :
  append_field output field = Ok r <->
  r = output ++ field_bytes field /\ Z.of_nat (length field) <= u16_max.
Proof.
  unfold append_field, field_bytes.
  destruct (try_from u16_max (Z.of_nat (length field))) as [n|] eqn:E.
  - apply try_from_Some in E as [-> [_ H]].
    split; [intros [= <-]; done | intros [-> _]; done].
  - split; [done|]. intros [-> H]. unfold try_from in E.
    case_match eqn:E2; [done|]. bool_to_prop. lia.
Qed.

Lemma append_field_eq output field :
  Z.of_nat (length field) <= u16_max -> append_field output field = Ok (output ++ field_bytes field).
Proof. intros H. by apply append_field_Ok. Qed.

Definition request_fields (nonce : bytes) (method path : string) : list bytes :=
  [nonce; as_bytes (to_ascii_uppercase method); as_bytes path].

Lemma canonical_message_Ok t n m p b x :
  canonical_message t n m p b = Ok x <->
  length n = NONCE_LENGTH /\ is_ascii m = true /\ is_ascii p = true /\
  fields_ok (request_fields n m p) /\
  x = DOMAIN ++ to_be_bytes 8 t ++ concat (map field_bytes (request_fields n m p)) ++ sha256 b.
Proof.
  unfold canonical_message, request_fields, fields_ok. cbn [map concat].
  destruct (Nat.eqb_spec (length n) NONCE_LENGTH) as [Hn|Hn]; cbn [negb orb].
  2:{ split; [done|]. intros (? & _). done. }
  destruct (is_ascii m) eqn:Hm; cbn [negb orb]; [|split; [done|]; intros (_ & ? & _); done].
  destruct (is_ascii p) eqn:Hp; cbn [negb orb]; [|split; [done|]; intros (_ & _ & ? & _); done].
  split.
  - intros H. destruct (append_field (DOMAIN ++ to_be_bytes 8 t) n) as [o1|] eqn:E1; [|done].
    destruct (append_field o1 _) as [o2|] eqn:E2; [|done].
    destruct (append_field o2 _) as [o3|] eqn:E3; [|done].
    apply append_field_Ok in E1 as [-> ?], E2 as [-> ?], E3 as [-> ?].
    simplify_eq. rewrite <- !app_assoc, app_nil_l.
    repeat split; auto; repeat constructor; auto.
  - intros (_ & _ & _ & HF & ->). inversion HF as [|? ? H1 HF1]; subst.
    inversion HF1 as [|? ? H2 HF2]; subst. inversion HF2 as [|? ? H3 HF3]; subst.
    rewrite append_field_eq by done.
    rewrite append_field_eq by done.
    rewrite append_field_eq by done.
    by rewrite <- !app_assoc, app_nil_l.
Qed.

(** The canonical request message is unambiguous: two requests with the
    same signed bytes have the same timestamp, nonce, (upper-cased) method and
    path, and bodies with the same SHA-256 digest; so the signature binds every
    one of those fields. *)
Theorem canonical_message_injective t n m p b t' n' m' p' b' x :
  in_range u64_max t -> in_range u64_max t' ->
  canonical_message t n m p b = Ok x -> canonical_message t' n' m' p' b' = Ok x ->
  t = t' /\ n = n' /\ to_ascii_uppercase m = to_ascii_uppercase m' /\ p = p' /\
  sha256 b = sha256 b'.
Proof.
  unfold in_range, u64_max. intros Ht Ht' H H'.
  apply canonical_message_Ok in H as (_ & _ & _ & HF & ->).
  apply canonical_message_Ok in H' as (_ & _ & _ & HF' & E).
  apply app_inj_length in E as [_ E]; [|done].
  apply app_inj_length in E as [E1 E]; [|by rewrite !to_be_bytes_length].
  apply to_be_bytes_inj in E1; [|simpl; lia..].
  apply fields_inj in E as [E2 E3]; [|done..].
  unfold request_fields in E2. simplify_eq.
  repeat split; auto using as_bytes_inj.
Qed.

Definition response_fields (nonce : bytes) (path : string) : list bytes :=
  [nonce; as_bytes path].

Lemma response_message_Ok n p s b x :
  response_message n p s b = Ok x <->
  length n = NONCE_LENGTH /\ is_ascii p = true /\ fields_ok (response_fields n p) /\
  x = RESPONSE_DOMAIN ++ concat (map field_bytes (response_fields n p)) ++ to_be_bytes 2 s ++ sha256 b.
Proof.
  unfold response_message, response_fields, fields_ok. cbn [map concat].
  destruct (Nat.eqb_spec (length n) NONCE_LENGTH) as [Hn|Hn]; cbn [negb orb].
  2:{ split; [done|]. intros (? & _). done. }
  destruct (is_ascii p) eqn:Hp; cbn [negb orb]; [|split; [done|]; intros (_ & ? & _); done].
  split.
  - intros H. destruct (append_field RESPONSE_DOMAIN n) as [o1|] eqn:E1; [|done].
    destruct (append_field o1 _) as [o2|] eqn:E2; [|done].
    apply append_field_Ok in E1 as [-> ?], E2 as [-> ?].
    simplify_eq. rewrite <- !app_assoc, app_nil_l.
    repeat split; auto; repeat constructor; auto.
  - intros (_ & _ & HF & ->). inversion HF as [|? ? H1 HF1]; subst.
    inversion HF1 as [|? ? H2 HF2]; subst.
    rewrite append_field_eq by done.
    rewrite append_field_eq by done.
    by rewrite <- !app_assoc, app_nil_l.
Qed.

(** The canonical response message is unambiguous too: it determines the
    request nonce, the path, the HTTP status and the body digest. *)
Theorem response_message_injective n p s b n' p' s' b' x :
  in_range u16_max s -> in_range u16_max s' ->
  response_message n p s b = Ok x -> response_message n' p' s' b' = Ok x ->
  n = n' /\ p = p' /\ s = s' /\ sha256 b = sha256 b'.
Proof.
  unfold in_range, u16_max. intros Hs Hs' H H'.
  apply response_message_Ok in H as (_ & _ & HF & ->).
  apply response_message_Ok in H' as (_ & _ & HF' & E).
  apply app_inj_length in E as [_ E]; [|done].
  apply fields_inj in E as [E1 E]; [|done..].
  apply app_inj_length in E as [E2 E3]; [|by rewrite !to_be_bytes_length].
  apply to_be_bytes_inj in E2; [|simpl; lia..].
  unfold response_fields in E1. simplify_eq. auto using as_bytes_inj.
Qed.

(** No byte sequence is both a canonical request and a canonical response:
    the two domain prefixes keep a signature of one kind from being used as a
    signature of the other. *)
Theorem request_response_domains_disjoint t n m p b n' p' s b' x :
  canonical_message t n m p b = Ok x -> response_message n' p' s b' <> Ok x.
Proof.
  intros H H'. apply canonical_message_Ok in H as (_ & _ & _ & _ & ->).
  apply response_message_Ok in H' as (_ & _ & _ & E).
  apply (f_equal (take 12)) in E. rewrite !take_app_le in E by (by vm_compute; lia).
  vm_compute in E. discriminate E.
Qed.

(** ** Signing and verifying *)

Lemma sign_Ok secret t n m p b sig :
  sign secret t n m p b = Ok sig <->
  exists x, canonical_message t n m p b = Ok x /\ hmac secret x = Some sig.
Proof.
  unfold sign, hmac. destruct (canonical_message t n m p b) as [x|e].
  - destruct (hmac_new_from_slice secret) as [k|]; simpl.
    + split; [intros [= <-]; eauto | intros (? & [= <-] & [= <-]); done].
    + split; [done|]. intros (? & _ & ?); done.
  - split; [done|]. intros (? & ? & _); done.
Qed.

Lemma sign_response_total {PL : PrimitivesLaws P} secret n p s b :
  length n = NONCE_LENGTH -> is_ascii p = true -> Z.of_nat (str_len p) <= u16_max ->
  exists sig, sign_response secret n p s b = Ok sig /\ length sig = 32%nat.
Proof.
  intros Hn Hp Hl. unfold sign_response.
  destruct (response_message n p s b) as [x|e] eqn:E.
  - destruct (hmac_new_total secret) as [k ->]. eexists; split; [done|]. apply hmac_length.
  - exfalso. assert (response_message n p s b = Ok (RESPONSE_DOMAIN ++
      concat (map field_bytes (response_fields n p)) ++ to_be_bytes 2 s ++ sha256 b)); [|congruence].
    apply response_message_Ok. repeat split; auto. unfold response_fields.
    repeat constructor; rewrite ?Hn, ?as_bytes_length; [done|done].
Qed.

(** A response is accepted exactly when it carries the tag the host's
    [sign_response] computes under the same key, nonce, path, status and body;
    in particular every signed response verifies. *)
Theorem verify_response_iff {PL : PrimitivesLaws P} secret n p s b sig :
  verify_response secret n p s b sig = Ok tt <-> sign_response secret n p s b = Ok sig.
Proof.
  unfold verify_response, sign_response.
  destruct (response_message n p s b) as [x|e]; [|done].
  destruct (hmac_new_from_slice secret) as [k|]; simpl; [|done].
  pose proof (hmac_verify_iff k x sig) as H. destruct (hmac_verify_slice k x sig).
  - destruct H as [H _]. rewrite <- H by done. done.
  - destruct H as [_ H]. split; [done|]. intros [= <-]. discriminate H. done.
Qed.

(** ** The failure window *)

(** Invariant of the deque under a clock that does not run backwards: times in
    order, none later than [now], at most twenty. *)
Definition failures_wf (now : Z) (failures : list Z) : Prop :=
  Sorted Z.le failures /\ Forall (fun t => t <= now) failures /\ (length failures <= 20)%nat.

Lemma failed_section_bound now e failures :
  (length failures <= 20)%nat -> (length (failed_section now e failures).2 <= 20)%nat.
Proof.
  intros H. unfold failed_section.
  pose proof (drop_while_length (fun seen => CLOCK_WINDOW <? saturating_sub now seen) failures).
  case_match eqn:E; simpl; bool_to_prop; [lia|]. rewrite length_app. simpl. lia.
Qed.

Definition recent (now t : Z) : bool := now - t <=? CLOCK_WINDOW.

Lemma drop_while_recent now failures :
  Sorted Z.le failures -> Forall (fun t => t <= now) failures ->
  drop_while (fun seen => CLOCK_WINDOW <? saturating_sub now seen) failures =
    List.filter (recent now) failures.
Proof.
  intros HS HF. apply Sorted_StronglySorted in HS; [|intros ???; lia].
  induction HS as [|t l HS IH Hall]; [done|].
  inversion HF as [|? ? Ht HF']; subst. simpl. unfold recent at 1, saturating_sub.
  destruct (CLOCK_WINDOW <? Z.max 0 (now - t)) eqn:E1, (now - t <=? CLOCK_WINDOW) eqn:E2;
    bool_to_prop; unfold CLOCK_WINDOW in *; try lia.
  - by apply IH.
  - f_equal. symmetry. apply forallb_filter_id, forallb_forall. intros u Hu.
    apply Z.leb_le. rewrite Forall_forall in Hall. apply list_elem_of_In, Hall in Hu.
    unfold CLOCK_WINDOW. lia.
Qed.

(** The specification of the throttle: a log of every failure that was
    admitted, never pruned; a failure is throttled when twenty admitted ones
    lie within the window. *)
Definition throttle_spec (now : Z) (e : AuthError) (log : list Z) : AuthError * list Z :=
  if (20 <=? length (List.filter (recent now) log))%nat then (RateLimited, log)
  else (e, log ++ [now]).

(** The deque holds exactly the admitted failures that were recent at [last]. *)
Definition throttle_rel (last : Z) (failures log : list Z) : Prop :=
  failures = List.filter (recent last) log /\ Sorted Z.le log /\ Forall (fun t => t <= last) log.

Lemma filter_recent_twice last now log :
  last <= now ->
  List.filter (recent now) (List.filter (recent last) log) = List.filter (recent now) log.
Proof.
  intros H. induction log as [|t log IH]; [done|]. simpl. unfold recent in *.
  destruct (last - t <=? CLOCK_WINDOW) eqn:E1, (now - t <=? CLOCK_WINDOW) eqn:E2;
    simpl; rewrite ?E2, ?IH; bool_to_prop; try done; lia.
Qed.

Lemma Sorted_filter p (l : list Z) : Sorted Z.le l -> Sorted Z.le (List.filter p l).
Proof.
  intros H. apply Sorted_StronglySorted in H; [|intros ???; lia].
  apply StronglySorted_Sorted. induction H as [|t l HS IH Hall]; simpl; [constructor|].
  destruct (p t); [|done]. constructor; [done|]. rewrite Forall_forall in *.
  intros u Hu. apply Hall. apply list_elem_of_In in Hu. apply List.filter_In in Hu as [Hu _].
  by apply list_elem_of_In.
Qed.

Lemma Sorted_snoc (l : list Z) x :
  Sorted Z.le l -> Forall (fun t => t <= x) l -> Sorted Z.le (l ++ [x]).
Proof.
  intros H HF. apply Sorted_StronglySorted in H; [|intros ???; lia].
  apply StronglySorted_Sorted. induction H as [|t l HS IH Hall]; simpl; [repeat constructor|].
  inversion HF; subst. constructor; [by apply IH|].
  apply Forall_app. split; [done|]. by constructor.
Qed.

(** The pruned deque implements the unpruned throttle: under a clock that
    does not run backwards, [failed] answers as the specification does, and
    the relation between deque and log is kept. *)
Theorem failed_refines_throttle last now e failures log :
  last <= now -> throttle_rel last failures log ->
  let '(r, failures') := failed_section now e failures in
  let '(r', log') := throttle_spec now e log in
  r = r' /\ (length failures' <= Nat.max 20 (length failures))%nat /\
  throttle_rel now failures' log'.
Proof.
  intros Hle (-> & HS & HF). unfold failed_section, throttle_spec.
  assert (Forall (fun t => t <= now) log) as HF' by (eapply Forall_impl; [exact HF|simpl; lia]).
  assert (Forall (fun t => t <= now) (List.filter (recent last) log)) as HF2.
  { rewrite Forall_forall in *. intros t Ht%list_elem_of_In%List.filter_In.
    apply HF', list_elem_of_In, Ht. }
  rewrite drop_while_recent, filter_recent_twice; [|done|by apply Sorted_filter|done].
  destruct (20 <=? length (List.filter (recent now) log))%nat eqn:E; bool_to_prop.
  - split; [done|]. split; [|done].
    rewrite <- (filter_recent_twice last now) by done.
    etransitivity; [apply List.filter_length_le|]. lia.
  - split; [done|]. split; [rewrite length_app; simpl; lia|].
    split; [|split].
    + rewrite List.filter_app. simpl. unfold recent at 3.
      destruct (now - now <=? CLOCK_WINDOW) eqn:E2; [done|].
      unfold CLOCK_WINDOW in E2. bool_to_prop. lia.
    + by apply Sorted_snoc.
    + apply Forall_app. split; [done|]. repeat constructor. lia.
Qed.

(** ** The nonce cache *)

Definition live (now seen : Z) : Prop := saturating_sub now seen <= CLOCK_WINDOW.

#[export] Instance live_dec now seen : Decision (live now seen).
Proof. unfold live. apply _. Defined.

Lemma nonce_section_result now n nonces :
  (nonce_section now n nonces).1 = Err Replay <-> exists seen, nonces !! n = Some seen /\ live now seen.
Proof.
  unfold nonce_section, live.
  destruct (filter _ nonces !! n) as [seen|] eqn:E; simpl.
  - apply map_lookup_filter_Some in E as [E1 E2]. split; [eauto|done].
  - split; [done|]. intros (seen & E1 & E2).
    pose proof (proj1 (map_lookup_filter_None _ _ _) E) as [H|H]; [congruence|].
    exfalso. by apply (H seen E1).
Qed.

Lemma nonce_section_ok now n nonces :
  (nonce_section now n nonces).1 = Ok tt <-> (nonce_section now n nonces).1 <> Err Replay.
Proof. unfold nonce_section. case_match; simpl; split; congruence. Qed.

Lemma nonce_section_self now n nonces : (nonce_section now n nonces).2 !! n = Some now.
Proof. unfold nonce_section. case_match; simpl; apply lookup_insert_eq. Qed.

Lemma nonce_section_other now n nonces k seen :
  k <> n -> (nonce_section now n nonces).2 !! k = Some seen <-> nonces !! k = Some seen /\ live now seen.
Proof.
  intros Hk. unfold nonce_section, live. case_match; simpl;
    rewrite lookup_insert_ne, map_lookup_filter_Some by done; done.
Qed.

(** The cache after a sequence of accepted or replayed nonces, each with the
    time of its request. *)
Definition nonces_after (events : list (Z * bytes)) (nonces : gmap bytes Z) : gmap bytes Z :=
  fold_left (fun m e => (nonce_section e.1 e.2 m).2) events nonces.

(** As long as no event is past [t] by more than the window, an entry from
    [t] on stays. *)
Lemma nonces_after_keeps t n seen events nonces :
  nonces !! n = Some seen -> t <= seen ->
  (exists seen', nonces_after events nonces !! n = Some seen' /\ t <= seen') \/
  Exists (fun e => t + CLOCK_WINDOW < e.1 \/ e.1 < t) events.
Proof.
  revert seen nonces; induction events as [|[now k] events IH]; intros seen nonces Hn Ht.
  - left. simpl. eauto.
  - destruct (decide (now < t)); [by right; constructor; right|].
    destruct (decide (n = k)) as [<-|Hne].
    + destruct (IH now (nonce_section now n nonces).2) as [?|?];
        [apply nonce_section_self|lia|by left|by right; constructor 2].
    + destruct (decide (t + CLOCK_WINDOW < now)); [by right; constructor; left|].
      destruct (IH seen (nonce_section now k nonces).2) as [?|?];
        [|done|by left|by right; constructor 2].
      apply nonce_section_other; [done|]. split; [done|]. unfold live, saturating_sub. lia.
Qed.

(** Once a nonce has been presented at time [t], it is not accepted again
    before the sixty-second window has passed, whatever other requests were
    seen in between; so a request that is accepted twice was dated in the
    future when it was first accepted. *)
Theorem nonce_accepted_again_after_window t n events now nonces ts :
  Forall (fun e => t <= e.1 <= now) events -> t <= now ->
  (nonce_section now n (nonces_after events (nonce_section t n nonces).2)).1 = Ok tt ->
  t + CLOCK_WINDOW < now /\ (abs_diff now ts <= CLOCK_WINDOW -> t < ts).
Proof.
  intros HF Hle Hok. assert (t + CLOCK_WINDOW < now) as Hlt.
  { destruct (nonces_after_keeps t n t events (nonce_section t n nonces).2) as [(seen & E & Hs)|HE];
      [apply nonce_section_self|lia|..].
    - apply nonce_section_ok in Hok. apply Z.nle_gt. intros Hn. apply Hok.
      apply nonce_section_result. exists seen. split; [done|].
      unfold live, saturating_sub, CLOCK_WINDOW in *. lia.
    - apply Exists_exists in HE as ([x k] & Hin & Hx). rewrite Forall_forall in HF.
      specialize (HF _ Hin). simpl in *. lia. }
  split; [done|]. unfold abs_diff, CLOCK_WINDOW in *. lia.
Qed.

End Auth.

(** ** Witnesses *)

Module AuthSamples.

Definition key : bytes := repeat x07 32.
Definition nonce : bytes := repeat x05 16.

Definition message : bytes :=
  match canonical_message (P := toy) 1000 nonce "post" "/v1/status" [x01] with Ok x => x | Err _ => [] end.

Lemma canonical_message_injective_witness :
  canonical_message (P := toy) 1000 nonce "post" "/v1/status" [x01] = Ok message /\
  canonical_message (P := toy) 1000 nonce "POST" "/v1/status" [x01] = Ok message /\
  to_ascii_uppercase "post" = to_ascii_uppercase "POST".
Proof.
  assert (canonical_message (P := toy) 1000 nonce "post" "/v1/status" [x01] = Ok message) as H1
    by (vm_compute; reflexivity).
  assert (canonical_message (P := toy) 1000 nonce "POST" "/v1/status" [x01] = Ok message) as H2
    by (vm_compute; reflexivity).
  assert (in_range u64_max 1000) as Hr by (vm_compute; split; discriminate).
  destruct (canonical_message_injective (P := toy) _ _ _ _ _ _ _ _ _ _ _ Hr Hr H1 H2) as (_ & _ & E & _).
  exact (conj H1 (conj H2 E)).
Defined.

Definition answer : bytes :=
  match response_message (P := toy) nonce "/v1/status" 200 [x01] with Ok x => x | Err _ => [] end.

Lemma response_message_injective_witness :
  response_message (P := toy) nonce "/v1/status" 200 [x01] = Ok answer /\ (200 : Z) = 200.
Proof.
  assert (response_message (P := toy) nonce "/v1/status" 200 [x01] = Ok answer) as H1
    by (vm_compute; reflexivity).
  assert (in_range u16_max 200) as Hr by (vm_compute; split; discriminate).
  destruct (response_message_injective (P := toy) _ _ _ _ _ _ _ _ _ Hr Hr H1 H1) as (_ & _ & E & _).
  exact (conj H1 E).
Defined.

Lemma request_response_domains_disjoint_witness :
  response_message (P := toy) nonce "/v1/status" 200 [x01] <> Ok message.
Proof.
  apply (request_response_domains_disjoint (P := toy) 1000 nonce "post" "/v1/status" [x01]).
  vm_compute. reflexivity.
Defined.

Definition tag : bytes :=
  match sign_response (P := toy) key nonce "/v1/status" 200 [x01] with Ok x => x | Err _ => [] end.

Lemma verify_response_iff_witness :
  verify_response (P := toy) key nonce "/v1/status" 200 [x01] tag = Ok tt.
Proof.
  apply (proj2 (verify_response_iff (P := toy) (PL := toy_laws) key nonce "/v1/status" 200 [x01] tag)).
  vm_compute. reflexivity.
Defined.

Lemma failed_refines_throttle_witness :
  (failed_section 100 Invalid [60; 90]).1 = (throttle_spec 100 Invalid [10; 60; 90]).1.
Proof.
  assert (throttle_rel 90 [60; 90] [10; 60; 90]) as Hr.
  { split; [vm_compute; reflexivity|]. split; repeat constructor; discriminate. }
  pose proof (failed_refines_throttle 90 100 Invalid [60; 90] [10; 60; 90] ltac:(lia) Hr) as H.
  destruct (failed_section 100 Invalid [60; 90]) as [r f].
  destruct (throttle_spec 100 Invalid [10; 60; 90]) as [r' l]. exact (proj1 H).
Defined.

Lemma nonce_accepted_again_after_window_witness :
  (nonce_section 161 nonce (nonces_after [(130, [x01])] (nonce_section 100 nonce ∅).2)).1 = Ok tt /\
  100 + CLOCK_WINDOW < 161.
Proof.
  assert ((nonce_section 161 nonce (nonces_after [(130, [x01])] (nonce_section 100 nonce ∅).2)).1 = Ok tt)
    as H by (vm_compute; reflexivity).
  split; [exact H|].
  refine (proj1 (nonce_accepted_again_after_window 100 nonce [(130, [x01])] 161 ∅ 150 _ _ H)); [|lia].
  repeat constructor; simpl; lia.
Defined.

End AuthSamples.
