(* ===== verification/Pairing.v ===== *)
(** * Pairing (host/src/pairing.rs)

    The pairing code, the SPAKE2 exchanges that are pending or completed, and
    the failure counters per source address.  Every operation reads the
    monotonic clock once, as [now]; randomness is threaded as the generator's
    state.  [None] for a platform operation is a Rust panic. *)
From stdpp Require Import base gmap list strings.
From Stdlib Require Import Ascii.
From S2P Require Import Prelude RustStd Primitives Auth.
Open Scope string_scope.
Open Scope Z_scope.
Open Scope list_scope.

Definition PAIRING_LIFETIME : Z := from_secs 300.
Definition MAX_CONFIRMATION_FAILURES : Z := 5.
Definition MAX_PENDING_SESSIONS : nat := 128.
Definition MAX_PENDING_SESSIONS_PER_SOURCE : nat := 8.
Definition MAX_FAILURE_SOURCES : nat := 256.
Definition CLIENT_ID : bytes := as_bytes "decky-client".
Definition HOST_ID : bytes := as_bytes "decky-host".
Definition CREDENTIAL_INFO : bytes := as_bytes "deckymyrig-pairing-credential-v1".
Definition CONFIRMATION_DOMAIN : bytes := nul_terminated "deckymyrig-pairing-confirm-v1".
Definition CREDENTIAL_AAD_DOMAIN : bytes := nul_terminated "deckymyrig-pairing-credential-aad-v1".

#[global] Opaque CONFIRMATION_DOMAIN CREDENTIAL_AAD_DOMAIN CREDENTIAL_INFO CLIENT_ID HOST_ID.

Inductive PairingError :=
| PairingExpired
| PairingRateLimited
| PairingInvalid
| PairingEncryption.

#[export] Instance PairingError_eq_dec : EqDecision PairingError.
Proof. solve_decision. Defined.

(** [std::net::IpAddr]: the address as an integer. *)
Inductive IpAddr :=
| V4 (octets : Z)
| V6 (octets : Z).

#[export] Instance IpAddr_eq_dec : EqDecision IpAddr.
Proof. solve_decision. Defined.

#[export] Instance IpAddr_countable : Countable IpAddr.
Proof.
  refine (inj_countable'
    (fun a => match a with V4 z => inl z | V6 z => inr z end)
    (fun s => match s with inl z => V4 z | inr z => V6 z end) _).
  by intros [].
Defined.

Record PendingPairing := {
  pending_session_id : bytes;
  shared : bytes;
  client_message : bytes;
  pending_host_message : bytes;
  pending_created : Z;
  source : option IpAddr;
}.

Record PairingResult := {
  host_message : bytes;
  result_nonce : bytes;
  encrypted_credential : bytes;
  result_credential : bytes;
}.

Record CompletedPairing := {
  confirmation : bytes;
  completed_result : PairingResult;
  completed_created : Z;
}.

Record PairingStart := {
  start_host_message : bytes;
  start_session_id : bytes;
}.

Record CredentialContext := {
  context_hostname : string;
  context_host_version : string;
  context_protocol_version : Z;
  context_host_id : string;
}.

Record PairingCode := MkPairingCode {
  pairing_code : string;
  created : Z;
  confirmation_failures : gmap (option IpAddr) Z;
  pending : gmap bytes PendingPairing;
  completed : gmap bytes CompletedPairing;
}.

Section Pairing.
Context {P : Primitives}.

(** ** Associated data *)

Definition aad_fields (host_message session_id : bytes) (context : CredentialContext) : list bytes :=
  [host_message; session_id; as_bytes (context_hostname context);
   as_bytes (context_host_version context); as_bytes (context_host_id context)].

Fixpoint append_aad_fields (aad : bytes) (fields : list bytes) : result bytes PairingError :=
  match fields with
  | [] => Ok aad
  | field :: fields =>
      match try_from u16_max (Z.of_nat (length field)) with
      | None => Err PairingInvalid
      | Some length => append_aad_fields (aad ++ to_be_bytes 2 length ++ field) fields
      end
  end.

Definition credential_aad (host_message session_id : bytes) (context : CredentialContext)
    : result bytes PairingError :=
  let? aad := append_aad_fields CREDENTIAL_AAD_DOMAIN (aad_fields host_message session_id context) in
  Ok (aad ++ to_be_bytes 4 (context_protocol_version context)).

(** ** The code *)

Definition fresh_code (code : string) (created : Z) : PairingCode :=
  MkPairingCode code created ∅ ∅ ∅.

Definition generate (now : Z) (g : rng) : PairingCode * rng :=
  let '(value, g) := random_range 1000000 g in
  (fresh_code (format_06 value) now, g).

Definition code_wf (code : string) : bool :=
  (str_len code =? 6)%nat && str_all is_ascii_digit code.

Definition from_code_with_age (pf : platform) (now : Z) (code : string) (age : Z)
    : option (result PairingCode PairingError) :=
  if negb (str_len code =? 6)%nat || negb (str_all is_ascii_digit code)
  then Some (Err PairingInvalid)
  else match instant_sub pf now (Z.min age (PAIRING_LIFETIME + from_secs 1)) with
       | None => None
       | Some t => Some (Ok (fresh_code code t))
       end.

Definition from_code (pf : platform) (now : Z) (code : string)
    : option (result PairingCode PairingError) :=
  from_code_with_age pf now code 0.

Definition display_code (self : PairingCode) : string := pairing_code self.

Definition expires_in (now : Z) (self : PairingCode) : Z :=
  saturating_sub PAIRING_LIFETIME (elapsed now (created self)).

(** The rejection loop of [regenerate], with [fuel] iterations; [None] when
    they all drew the previous code. *)
Fixpoint regenerate_loop (fuel : nat) (now : Z) (previous : string) (g : rng)
    : option (PairingCode * rng) :=
  match fuel with
  | O => None
  | S fuel' =>
      let '(self, g) := generate now g in
      if bool_decide (pairing_code self <> previous) then Some (self, g)
      else regenerate_loop fuel' now previous g
  end.

Definition regenerate (fuel : nat) (now : Z) (self : PairingCode) (g : rng)
    : option (PairingCode * rng) :=
  regenerate_loop fuel now (pairing_code self) g.

(** ** Sessions *)

Definition prune_sessions (now : Z) (self : PairingCode) : PairingCode :=
  MkPairingCode (pairing_code self) (created self) (confirmation_failures self)
    (filter (fun kv : bytes * PendingPairing =>
       elapsed now (pending_created kv.2) <= PAIRING_LIFETIME) (pending self))
    (filter (fun kv : bytes * CompletedPairing =>
       elapsed now (completed_created kv.2) <= PAIRING_LIFETIME) (completed self)).

Definition with_pending (m : gmap bytes PendingPairing) (self : PairingCode) : PairingCode :=
  MkPairingCode (pairing_code self) (created self) (confirmation_failures self) m (completed self).

Definition with_failures (m : gmap (option IpAddr) Z) (self : PairingCode) : PairingCode :=
  MkPairingCode (pairing_code self) (created self) m (pending self) (completed self).

(** [pending.values().filter(|p| p.source == source).count()]. *)
Definition pending_from (src : option IpAddr) (m : gmap bytes PendingPairing) : nat :=
  size (filter (fun kv : bytes * PendingPairing => source kv.2 = src) m).

Definition failure_count (src : option IpAddr) (self : PairingCode) : Z :=
  default 0 (confirmation_failures self !! src).

(** The condition under which [start_for_source] is rate limited. *)
Definition start_limited (src : option IpAddr) (self : PairingCode) : bool :=
  (MAX_CONFIRMATION_FAILURES <=? failure_count src self)
  || (bool_decide (confirmation_failures self !! src = None)
      && (MAX_FAILURE_SOURCES <=? size (confirmation_failures self))%nat)
  || (MAX_PENDING_SESSIONS <=? size (pending self))%nat
  || (bool_decide (is_Some src)
      && (MAX_PENDING_SESSIONS_PER_SOURCE <=? pending_from src (pending self))%nat).

Definition start_for_source (now : Z) (msg : bytes) (src : option IpAddr)
    (self : PairingCode) (g : rng) : result PairingStart PairingError * PairingCode * rng :=
  if PAIRING_LIFETIME <? elapsed now (created self) then (Err PairingExpired, self, g)
  else
    let self := prune_sessions now self in
    if start_limited src self then (Err PairingRateLimited, self, g)
    else
      let '(state, host_msg, g) :=
        spake2_start_b (as_bytes (pairing_code self)) CLIENT_ID HOST_ID g in
      match spake2_finish state msg with
      | None => (Err PairingInvalid, self, g)
      | Some key =>
          let '(session_id, g) := fill_bytes 16 g in
          let entry := {| pending_session_id := session_id; shared := key;
                          client_message := msg; pending_host_message := host_msg;
                          pending_created := now; source := src |} in
          (Ok {| start_host_message := host_msg; start_session_id := session_id |},
           with_pending (<[session_id := entry]> (pending self)) self, g)
      end.

Definition start (now : Z) (msg : bytes) (self : PairingCode) (g : rng)
    : result PairingStart PairingError * PairingCode * rng :=
  start_for_source now msg None self g.

(** The bytes the key confirmation covers. *)
Definition confirmation_message (p : PendingPairing) : bytes :=
  CONFIRMATION_DOMAIN ++ client_message p ++ pending_host_message p ++ pending_session_id p.

(** A failed confirmation: the session is dropped and the source's counter,
    a [u8], saturates upwards. *)
Definition confirmation_failed (session_id : bytes) (src : option IpAddr) (self : PairingCode)
    : PairingError * PairingCode :=
  let failures := saturating_add u8_max (failure_count src self) 1 in
  (if MAX_CONFIRMATION_FAILURES <=? failures then PairingRateLimited else PairingInvalid,
   with_failures (<[src := failures]> (confirmation_failures self))
     (with_pending (delete session_id (pending self)) self)).

(** The credential of a confirmed exchange: key derivation, a fresh credential
    and nonce, encryption bound to the host's identity. *)
Definition prepare_credential (p : PendingPairing) (context : CredentialContext) (g : rng)
    : result PairingResult PairingError * rng :=
  match hkdf_expand (shared p) CREDENTIAL_INFO 32 with
  | None => (Err PairingEncryption, g)
  | Some key =>
      let '(credential, g) := fill_bytes 32 g in
      let '(nonce, g) := fill_bytes 12 g in
      match credential_aad (pending_host_message p) (pending_session_id p) context with
      | Err e => (Err e, g)
      | Ok aad =>
          match try_into_array 12 nonce with
          | None => (Err PairingEncryption, g)
          | Some nonce =>
              match aead_encrypt key nonce credential aad with
              | None => (Err PairingEncryption, g)
              | Some c => (Ok {| host_message := pending_host_message p; result_nonce := nonce;
                                 encrypted_credential := c; result_credential := credential |}, g)
              end
          end
      end
  end.

Definition finish (now : Z) (session_id conf : bytes) (context : CredentialContext)
    (self : PairingCode) (g : rng) : result PairingResult PairingError * PairingCode * rng :=
  match try_into_array 16 session_id with
  | None => (Err PairingInvalid, self, g)
  | Some session_id =>
      let self := prune_sessions now self in
      match completed self !! session_id with
      | Some c =>
          if bool_decide (confirmation c = conf) then (Ok (completed_result c), self, g)
          else (Err PairingInvalid, self, g)
      | None =>
          match pending self !! session_id with
          | None => (Err PairingInvalid, self, g)
          | Some p =>
              if PAIRING_LIFETIME <? elapsed now (pending_created p)
              then (Err PairingInvalid, self, g)
              else match hmac_new_from_slice (shared p) with
              | None => (Err PairingInvalid, self, g)
              | Some mac =>
                  if hmac_verify_slice mac (confirmation_message p) conf then
                    let '(r, g) := prepare_credential p context g in (r, self, g)
                  else
                    let '(e, self) := confirmation_failed session_id (source p) self in
                    (Err e, self, g)
              end
          end
      end
  end.

Definition is_completed (session_id : bytes) (self : PairingCode) : bool :=
  match try_into_array 16 session_id with
  | None => false
  | Some session_id => bool_decide (is_Some (completed self !! session_id))
  end.

(** [commit]: the sessions are replaced by the one completed entry before the
    code's creation time is moved back past its lifetime; [None] is the panic
    of that subtraction, which leaves the second component. *)
Definition commit (pf : platform) (now : Z) (session_id conf : bytes) (r : PairingResult)
    (self : PairingCode) : option (result unit PairingError) * PairingCode :=
  match try_into_array 16 session_id with
  | None => (Some (Err PairingInvalid), self)
  | Some session_id =>
      match pending self !! session_id with
      | None => (Some (Err PairingInvalid), self)
      | Some _ =>
          let done := {[ session_id := {| confirmation := conf; completed_result := r;
                                          completed_created := now |} ]} in
          let cleared := MkPairingCode (pairing_code self) (created self)
                           (confirmation_failures self) ∅ done in
          match instant_sub pf now PAIRING_LIFETIME with
          | None => (None, cleared)
          | Some t =>
              match instant_sub pf t (from_secs 1) with
              | None => (None, cleared)
              | Some t' => (Some (Ok tt), MkPairingCode (pairing_code self) t'
                              (confirmation_failures self) ∅ done)
              end
          end
      end
  end.

(** ** The associated data *)

Lemma append_aad_fields_Ok aad fields x :
  append_aad_fields aad fields = Ok x <->
  fields_ok fields /\ x = aad ++ concat (map field_bytes fields).
Proof.
  unfold fields_ok. revert aad; induction fields as [|f fields IH]; intros aad; cbn [append_aad_fields map concat].
  - rewrite app_nil_r. split; [intros [= <-]; auto | intros [_ ->]; done].
  - destruct (try_from u16_max (Z.of_nat (length f))) as [n|] eqn:E.
    + apply try_from_Some in E as [-> [_ H]]. rewrite IH. unfold field_bytes.
      rewrite !app_assoc. rewrite Forall_cons. tauto.
    + split; [done|]. intros [H _]. inversion H; subst. unfold try_from in E.
      case_match eqn:E2; [done|]. bool_to_prop. lia.
Qed.

Lemma credential_aad_Ok hm sid ctx x :
  credential_aad hm sid ctx = Ok x <->
  fields_ok (aad_fields hm sid ctx) /\
  x = CREDENTIAL_AAD_DOMAIN ++ concat (map field_bytes (aad_fields hm sid ctx)) ++
      to_be_bytes 4 (context_protocol_version ctx).
Proof.
  unfold credential_aad. destruct (append_aad_fields _ _) as [a|e] eqn:E.
  - apply append_aad_fields_Ok in E as [HF ->]. rewrite <- app_assoc.
    split; [intros [= <-]; done | intros [_ ->]; done].
  - split; [done|]. intros [HF _].
    pose proof (proj2 (append_aad_fields_Ok CREDENTIAL_AAD_DOMAIN _ _) (conj HF eq_refl)) as H.
    congruence.
Qed.

(** The associated data of the credential encryption is unambiguous: it
    determines the host's SPAKE2 message, the session, the hostname, the host
    version, the host id and the protocol version, so none of the returned
    identity can be replaced without the decryption using other data. *)
Theorem credential_aad_injective hm sid ctx hm' sid' ctx' x :
  in_range u32_max (context_protocol_version ctx) ->
  in_range u32_max (context_protocol_version ctx') ->
  credential_aad hm sid ctx = Ok x -> credential_aad hm' sid' ctx' = Ok x ->
  hm = hm' /\ sid = sid' /\ ctx = ctx'.
Proof.
  unfold in_range, u32_max. intros Hv Hv' H H'.
  apply credential_aad_Ok in H as [HF ->]. apply credential_aad_Ok in H' as [HF' E].
  apply app_inj_length in E as [_ E]; [|done].
  apply fields_inj in E as [E1 E2]; [|done..].
  apply to_be_bytes_inj in E2; [|simpl; lia..].
  destruct ctx, ctx'. unfold aad_fields in E1. simpl in *. simplify_eq.
  repeat match goal with H : as_bytes _ = as_bytes _ |- _ => apply as_bytes_inj in H end.
  by subst.
Qed.

(** ** The code *)

Lemma code_wf_format v : 0 <= v < 1000000 -> code_wf (format_06 v) = true.
Proof.
  intros H. unfold code_wf. rewrite format_06_len, format_06_digits by done. done.
Qed.

Lemma generate_wf {PL : PrimitivesLaws P} now g : code_wf (pairing_code (generate now g).1) = true.
Proof.
  unfold generate. pose proof (random_range_bound 1000000 g ltac:(lia)) as H.
  destruct (random_range 1000000 g) as [v g']. by apply code_wf_format.
Qed.

Lemma from_code_with_age_eq pf now code age :
  from_code_with_age pf now code age =
    if code_wf code then
      match instant_sub pf now (Z.min age (from_secs 301)) with
      | None => None | Some t => Some (Ok (fresh_code code t))
      end
    else Some (Err PairingInvalid).
Proof.
  unfold from_code_with_age, code_wf. destruct (str_len code =? 6)%nat; [|done]. simpl.
  destruct (str_all is_ascii_digit code); done.
Qed.

(** Draws of the generator, one after the other. *)
Fixpoint draws (n : nat) (g : rng) : list Z :=
  match n with
  | O => []
  | S n' => let '(v, g) := random_range 1000000 g in v :: draws n' g
  end.

Lemma regenerate_loop_terminates fuel now previous g :
  Exists (fun v => format_06 v <> previous) (draws fuel g) ->
  exists self g', regenerate_loop fuel now previous g = Some (self, g').
Proof.
  revert g; induction fuel as [|fuel IH]; intros g; simpl; [intros H; inversion H|].
  unfold generate. destruct (random_range 1000000 g) as [v g'] eqn:E. simpl.
  case_bool_decide as Hd; [eauto|]. intros H. inversion H; subst; [done|]. by apply IH.
Qed.

Lemma regenerate_loop_fresh fuel now previous g self g' :
  regenerate_loop fuel now previous g = Some (self, g') ->
  pairing_code self <> previous /\
  exists code, self = fresh_code code now.
Proof.
  revert g; induction fuel as [|fuel IH]; intros g; simpl; [done|].
  unfold generate. destruct (random_range 1000000 g) as [v g1]. simpl.
  case_bool_decide as Hd; [intros [= <- <-]; simpl; eauto|]. apply IH.
Qed.

(** [regenerate] ends as soon as one of the drawn codes differs from the
    current one, and then shows a different code, with the full lifetime and
    no session or failure left from before. *)
Theorem regenerate_changes_code fuel now self g :
  Exists (fun v => format_06 v <> pairing_code self) (draws fuel g) ->
  exists self' g', regenerate fuel now self g = Some (self', g') /\
    pairing_code self' <> pairing_code self /\ expires_in now self' = PAIRING_LIFETIME /\
    pending self' = ∅ /\ completed self' = ∅ /\ confirmation_failures self' = ∅.
Proof.
  intros H. destruct (regenerate_loop_terminates fuel now _ g H) as (self' & g' & E).
  exists self', g'. split; [done|].
  apply regenerate_loop_fresh in E as [Hne [code ->]]. simpl in *.
  repeat split; auto. unfold expires_in, elapsed, saturating_sub, PAIRING_LIFETIME, from_secs.
  simpl. rewrite Z.sub_diag. unfold nanos_per_sec. lia.
Qed.

(** ** The invariant *)

(** Pending sessions whose source has no failure counter yet. *)
Definition fresh_pending (self : PairingCode) : nat :=
  size (filter (fun kv : bytes * PendingPairing =>
    confirmation_failures self !! source kv.2 = None) (pending self)).

Record pairing_wf (now : Z) (self : PairingCode) : Prop := {
  wf_code : code_wf (pairing_code self) = true;
  wf_created : created self <= now;
  wf_pending : map_Forall (fun k p =>
    pending_session_id p = k /\ length k = 16%nat /\
    created self <= pending_created p <= now /\
    pending_created p - created self <= PAIRING_LIFETIME) (pending self);
  wf_pending_size : (size (pending self) <= MAX_PENDING_SESSIONS)%nat;
  wf_per_source ip :
    (pending_from (Some ip) (pending self) <= MAX_PENDING_SESSIONS_PER_SOURCE)%nat;
  wf_guesses ip :
    failure_count (Some ip) self + Z.of_nat (pending_from (Some ip) (pending self)) <= 12;
  wf_failures : map_Forall (fun _ n => 1 <= n <= u8_max) (confirmation_failures self);
  wf_failure_table : (size (confirmation_failures self) + fresh_pending self <= 383)%nat;
  wf_completed : map_Forall (fun k c => length k = 16%nat /\ completed_created c <= now)
    (completed self);
  wf_done : completed self <> ∅ -> pending self = ∅ /\ PAIRING_LIFETIME < now - created self;
}.

Lemma pairing_wf_mono now now' self : now <= now' -> pairing_wf now self -> pairing_wf now' self.
Proof.
  intros Hle []. constructor; auto.
  - lia.
  - eapply map_Forall_impl; [done|]. simpl. intros k p. intuition lia.
  - eapply map_Forall_impl; [done|]. simpl. intros k p. intuition lia.
  - intros Hc. destruct (wf_done0 Hc). split; [done|lia].
Qed.

Lemma fresh_code_wf code t now :
  code_wf code = true -> t <= now -> pairing_wf now (fresh_code code t).
Proof.
  intros Hc Ht. constructor; [done|done|apply map_Forall_empty|..|done].
  4: apply map_Forall_empty.
  5: apply map_Forall_empty.
  all: intros; vm_compute; repeat constructor; done.
Qed.

(** *** Sizes of filtered maps *)

Section Sizes.
Context {K V : Type} `{Countable K}.
Implicit Types (m : gmap K V) (Q : K * V -> Prop).

Lemma size_filter_mono Q `{!forall x, Decision (Q x)} m m' :
  m ⊆ m' -> (size (filter Q m) <= size (filter Q m'))%nat.
Proof. intros Hs. by apply map_subseteq_size, map_filter_subseteq_mono. Qed.

Lemma size_filter_insert Q `{!forall x, Decision (Q x)} m k v :
  (size (filter Q (<[k := v]> m)) <=
   (if decide (Q (k, v)) then 1 else 0) + size (filter Q m))%nat.
Proof.
  rewrite map_filter_insert. case_decide.
  - rewrite map_size_insert. destruct (filter Q m !! k); simpl; lia.
  - apply size_filter_mono, delete_subseteq.
Qed.

Lemma size_filter_delete Q `{!forall x, Decision (Q x)} m k v :
  m !! k = Some v -> Q (k, v) -> (size (filter Q (delete k m)) + 1 = size (filter Q m))%nat.
Proof.
  intros Hm Hq. rewrite map_filter_delete, map_size_delete.
  rewrite (proj2 (map_lookup_filter_Some Q m k v) (conj Hm Hq)).
  assert (size (filter Q m) <> 0%nat); [|lia].
  intros E. apply map_size_empty_inv in E.
  pose proof (proj2 (map_lookup_filter_Some Q m k v) (conj Hm Hq)) as E'.
  rewrite E, lookup_empty in E'. done.
Qed.

Lemma size_filter_impl Q Q' `{!forall x, Decision (Q x)} `{!forall x, Decision (Q' x)} m :
  (forall k v, m !! k = Some v -> Q (k, v) -> Q' (k, v)) ->
  (size (filter Q m) <= size (filter Q' m))%nat.
Proof.
  intros Hi. apply map_subseteq_size, map_subseteq_spec. intros k v E.
  apply map_lookup_filter_Some in E as [E1 E2]. apply map_lookup_filter_Some. eauto.
Qed.

Lemma subseteq_empty m : m ⊆ ∅ -> m = ∅.
Proof.
  intros Hs. apply map_size_empty_inv. apply map_subseteq_size in Hs.
  rewrite map_size_empty in Hs. lia.
Qed.

End Sizes.

Lemma pending_from_mono src m m' : m ⊆ m' -> (pending_from src m <= pending_from src m')%nat.
Proof. apply size_filter_mono. Qed.

(** *** Preservation *)

(** Dropping pending and completed sessions keeps the invariant. *)
Lemma pairing_wf_shrink now self pend comp :
  pairing_wf now self -> pend ⊆ pending self -> comp ⊆ completed self ->
  pairing_wf now (MkPairingCode (pairing_code self) (created self)
    (confirmation_failures self) pend comp).
Proof.
  intros W Hp Hc. destruct W. constructor; simpl; auto.
  - intros k p E. apply (wf_pending0 k). by eapply lookup_weaken.
  - apply map_subseteq_size in Hp. lia.
  - intros ip. etransitivity; [by apply pending_from_mono|]. done.
  - intros ip. specialize (wf_guesses0 ip). unfold failure_count in *. simpl.
    pose proof (pending_from_mono (Some ip) _ _ Hp). lia.
  - unfold fresh_pending in *. simpl. etransitivity; [|exact wf_failure_table0].
    apply Nat.add_le_mono_l. by apply size_filter_mono.
  - intros k c E. apply (wf_completed0 k). by eapply lookup_weaken.
  - intros Hne. destruct wf_done0 as [E Hx].
    + intros E. apply Hne. rewrite E in Hc. by apply subseteq_empty.
    + split; [|done]. rewrite E in Hp. by apply subseteq_empty.
Qed.

Lemma prune_sessions_wf now self : pairing_wf now self -> pairing_wf now (prune_sessions now self).
Proof. intros W. apply pairing_wf_shrink; [done|apply map_filter_subseteq..]. Qed.

Lemma start_limited_false src self :
  start_limited src self = false ->
  failure_count src self < MAX_CONFIRMATION_FAILURES /\
  (is_Some (confirmation_failures self !! src) \/
   (size (confirmation_failures self) < MAX_FAILURE_SOURCES)%nat) /\
  (size (pending self) < MAX_PENDING_SESSIONS)%nat /\
  (is_Some src -> (pending_from src (pending self) < MAX_PENDING_SESSIONS_PER_SOURCE)%nat).
Proof.
  unfold start_limited. intros H. bool_to_prop.
  repeat match goal with H : _ \/ _ |- _ => destruct H end; bool_to_prop;
    repeat split; try done; try lia; try (by rewrite <- not_eq_None_Some; auto);
    try (left; by rewrite <- not_eq_None_Some); try (right; lia); intros; done || lia.
Qed.

(** A new session that passed the limits keeps the invariant. *)
Lemma pairing_wf_insert now self k p :
  pairing_wf now self -> start_limited (source p) self = false -> completed self = ∅ ->
  pending_session_id p = k -> length k = 16%nat -> pending_created p = now ->
  now - created self <= PAIRING_LIFETIME ->
  pairing_wf now (with_pending (<[k := p]> (pending self)) self).
Proof.
  intros W HL Hc Hk Hlen Ht Hlife. apply start_limited_false in HL as (H1 & H2 & H3 & H4).
  pose proof (fun ip => size_filter_insert
    (fun kv : bytes * PendingPairing => source kv.2 = Some ip) (pending self) k p) as Hsrc.
  destruct W. constructor; simpl; auto.
  - apply map_Forall_insert_2; [|done]. repeat split; auto; lia.
  - rewrite map_size_insert. destruct (pending self !! k); simpl; lia.
  - intros ip. unfold pending_from in *. specialize (Hsrc ip). simpl in Hsrc. case_decide as Hs.
    + rewrite Hs in H4. specialize (H4 ltac:(eauto)). lia.
    + specialize (wf_per_source0 ip). lia.
  - intros ip. specialize (wf_guesses0 ip). specialize (Hsrc ip). simpl in Hsrc.
    unfold pending_from, failure_count in *. simpl. case_decide as Hs; [|lia].
    rewrite Hs in H1, H4. specialize (H4 ltac:(eauto)).
    unfold MAX_CONFIRMATION_FAILURES, MAX_PENDING_SESSIONS_PER_SOURCE in *. lia.
  - unfold fresh_pending in *. simpl.
    pose proof (size_filter_insert (fun kv : bytes * PendingPairing =>
      confirmation_failures self !! source kv.2 = None) (pending self) k p) as Hf. simpl in Hf.
    case_decide as Hs; [|lia]. destruct H2 as [[n Hn]|H2]; [congruence|].
    assert (size (filter (fun kv : bytes * PendingPairing =>
      confirmation_failures self !! source kv.2 = None) (pending self)) <= size (pending self))%nat.
    { apply map_subseteq_size, map_filter_subseteq. }
    unfold MAX_FAILURE_SOURCES, MAX_PENDING_SESSIONS in *. lia.
  - intros Hne. by destruct Hne.
Qed.

Lemma completed_start now self :
  pairing_wf now self -> (PAIRING_LIFETIME <? elapsed now (created self)) = false ->
  completed self = ∅ /\ now - created self <= PAIRING_LIFETIME.
Proof.
  intros W H. bool_to_prop. unfold elapsed, saturating_sub in H. split; [|lia].
  destruct (decide (completed self = ∅)) as [E|E]; [done|].
  apply (wf_done _ _ W) in E as [_ E]. lia.
Qed.

Lemma start_wf {PL : PrimitivesLaws P} now msg src self g :
  pairing_wf now self -> pairing_wf now (start_for_source now msg src self g).1.2.
Proof.
  intros W. unfold start_for_source.
  destruct (PAIRING_LIFETIME <? elapsed now (created self)) eqn:E; [done|].
  apply completed_start in E as [Ec El]; [|done].
  apply prune_sessions_wf in W.
  destruct (start_limited src (prune_sessions now self)) eqn:HL; [done|].
  destruct (spake2_start_b _ _ _ g) as [[st hm] g1].
  destruct (spake2_finish st msg) as [key|]; [|done].
  pose proof (fill_bytes_length 16 g1) as Hlen. destruct (fill_bytes 16 g1) as [sid g2]. simpl in *.
  apply pairing_wf_insert; simpl; auto.
  rewrite Ec. apply map_filter_empty.
Qed.

Lemma confirmation_failed_wf now self k p :
  pairing_wf now self -> pending self !! k = Some p ->
  pairing_wf now (confirmation_failed k (source p) self).2.
Proof.
  intros W Hp. unfold confirmation_failed. simpl.
  set (n := saturating_add u8_max (failure_count (source p) self) 1).
  assert (0 <= failure_count (source p) self) as Hc0.
  { unfold failure_count. destruct (confirmation_failures self !! source p) eqn:E; simpl; [|lia].
    apply (wf_failures _ _ W) in E. lia. }
  assert (1 <= n <= u8_max) as Hn by (unfold n, saturating_add, u8_max; lia).
  pose proof (delete_subseteq (pending self) k) as Hsub.
  pose proof (pairing_wf_shrink now self (delete k (pending self)) (completed self) W Hsub
    ltac:(done)) as W'.
  destruct W'. constructor; simpl in *; auto.
  - intros ip. specialize (wf_guesses0 ip). pose proof (wf_guesses _ _ W ip) as Hg.
    unfold failure_count in wf_guesses0 |- *. simpl in *. rewrite lookup_insert.
    case_decide as Hs; [|done]. simpl.
    pose proof (size_filter_delete (fun kv : bytes * PendingPairing => source kv.2 = Some ip)
      (pending self) k p Hp Hs) as Hd.
    unfold pending_from in *. rewrite <- Hs in *.
    unfold n, saturating_add. lia.
  - apply map_Forall_insert_2; done.
  - pose proof (wf_failure_table _ _ W) as Ht. unfold fresh_pending in *. simpl in *.
    rewrite map_size_insert. destruct (confirmation_failures self !! source p) as [c|] eqn:E; simpl.
    + etransitivity; [|exact wf_failure_table0]. apply Nat.add_le_mono_l.
      apply size_filter_impl. intros k' p' _. simpl. rewrite lookup_insert. by case_decide.
    + pose proof (size_filter_delete (fun kv : bytes * PendingPairing =>
        confirmation_failures self !! source kv.2 = None) (pending self) k p Hp E) as Hd.
      enough (size (filter (fun kv : bytes * PendingPairing =>
        <[source p := n]> (confirmation_failures self) !! source kv.2 = None) (delete k (pending self)))
        <= size (filter (fun kv : bytes * PendingPairing =>
        confirmation_failures self !! source kv.2 = None) (delete k (pending self))))%nat by lia.
      apply size_filter_impl. intros k' p' _. simpl. rewrite lookup_insert. by case_decide.
Qed.

Lemma finish_wf now sid conf ctx self g :
  pairing_wf now self -> pairing_wf now (finish now sid conf ctx self g).1.2.
Proof.
  intros W. unfold finish. destruct (try_into_array 16 sid) as [k|]; [|done].
  apply prune_sessions_wf in W.
  destruct (completed (prune_sessions now self) !! k) as [c|]; [by case_match|].
  destruct (pending (prune_sessions now self) !! k) as [p|] eqn:Hp; [|done].
  case_match; [done|]. destruct (hmac_new_from_slice (shared p)) as [mac|]; [|done].
  case_match.
  - by destruct (prepare_credential p ctx g) as [r g'].
  - pose proof (confirmation_failed_wf now _ k p W Hp) as Hf.
    by destruct (confirmation_failed k (source p) (prune_sessions now self)) as [e self'].
Qed.

Lemma commit_wf pf now sid conf r self :
  pairing_wf now self -> fst (commit pf now sid conf r self) <> None ->
  pairing_wf now (commit pf now sid conf r self).2.
Proof.
  intros W. unfold commit. destruct (try_into_array 16 sid) as [k|] eqn:Hk; [|done].
  apply try_into_array_Some in Hk as [-> Hlen].
  destruct (pending self !! sid) as [p|]; [|done].
  destruct (instant_sub pf now PAIRING_LIFETIME) as [t|] eqn:E1; [|done].
  destruct (instant_sub pf t (from_secs 1)) as [t'|] eqn:E2; [|done]. intros _. simpl.
  apply instant_sub_Some in E1 as [-> _], E2 as [-> _].
  pose proof (pairing_wf_shrink now self ∅ ∅ W (map_empty_subseteq _) (map_empty_subseteq _)) as W'.
  unfold PAIRING_LIFETIME, from_secs, nanos_per_sec in *.
  destruct W'. constructor; simpl in *; auto.
  - lia.
  - apply map_Forall_empty.
  - apply map_Forall_singleton. simpl. split; [done|lia].
  - intros _. split; [done|]. unfold PAIRING_LIFETIME, from_secs, nanos_per_sec. lia.
Qed.

(** ** Reachable states *)

(** One operation on the shared [PairingCode], or the passing of time.  A
    [commit] that panics and the states after it are treated apart, in
    [commit_panics_iff]. *)
Inductive pairing_step (pf : platform) : Z * PairingCode -> Z * PairingCode -> Prop :=
| step_tick now now' self :
    now <= now' -> pairing_step pf (now, self) (now', self)
| step_generate now self g :
    pairing_step pf (now, self) (now, (generate now g).1)
| step_start now self msg src g :
    pairing_step pf (now, self) (now, (start_for_source now msg src self g).1.2)
| step_finish now self sid conf ctx g :
    pairing_step pf (now, self) (now, (finish now sid conf ctx self g).1.2)
| step_commit now self sid conf r :
    (commit pf now sid conf r self).1 <> None ->
    pairing_step pf (now, self) (now, (commit pf now sid conf r self).2).

Definition pairing_steps (pf : platform) := rtc (pairing_step pf).

Lemma pairing_step_wf {PL : PrimitivesLaws P} pf now self now' self' :
  pairing_step pf (now, self) (now', self') -> pairing_wf now self -> pairing_wf now' self'.
Proof.
  intros H W. inversion H; subst.
  - by eapply pairing_wf_mono.
  - pose proof (generate_wf now' g) as Hg. unfold generate in *.
    destruct (random_range 1000000 g) as [v g']. apply fresh_code_wf; [done|lia].
  - by apply start_wf.
  - by apply finish_wf.
  - by apply commit_wf.
Qed.

Lemma pairing_steps_wf {PL : PrimitivesLaws P} pf s s' :
  pairing_steps pf s s' -> pairing_wf s.1 s.2 -> pairing_wf s'.1 s'.2.
Proof.
  intros H. induction H as [|[n a] [n' a'] z Hs _ IH]; [done|].
  intros W. apply IH. simpl. by eapply pairing_step_wf.
Qed.


(** ** What [finish] accepts *)

Lemma prune_pending now self k p :
  pending (prune_sessions now self) !! k = Some p <->
  pending self !! k = Some p /\ elapsed now (pending_created p) <= PAIRING_LIFETIME.
Proof. simpl. apply map_lookup_filter_Some. Qed.

Lemma prune_completed now self k c :
  completed (prune_sessions now self) !! k = Some c <->
  completed self !! k = Some c /\ elapsed now (completed_created c) <= PAIRING_LIFETIME.
Proof. simpl. apply map_lookup_filter_Some. Qed.

Lemma finish_retry now sid conf ctx self g c :
  length sid = 16%nat -> completed self !! sid = Some c ->
  elapsed now (completed_created c) <= PAIRING_LIFETIME ->
  finish now sid conf ctx self g =
    (if bool_decide (confirmation c = conf) then Ok (completed_result c) else Err PairingInvalid,
     prune_sessions now self, g).
Proof.
  intros Hl Hc Ht. unfold finish. rewrite (proj2 (try_into_array_Some 16 sid sid)) by done.
  rewrite (proj2 (prune_completed now self sid c)) by done. by case_bool_decide.
Qed.

Lemma finish_no_completed now sid conf ctx self g p :
  length sid = 16%nat -> completed (prune_sessions now self) !! sid = None ->
  pending self !! sid = Some p -> elapsed now (pending_created p) <= PAIRING_LIFETIME ->
  finish now sid conf ctx self g =
    match hmac_new_from_slice (shared p) with
    | None => (Err PairingInvalid, prune_sessions now self, g)
    | Some mac =>
        if hmac_verify_slice mac (confirmation_message p) conf then
          let '(r, g) := prepare_credential p ctx g in (r, prune_sessions now self, g)
        else
          let '(e, self) := confirmation_failed sid (source p) (prune_sessions now self) in
          (Err e, self, g)
    end.
Proof.
  intros Hl Hc Hp Ht. unfold finish. rewrite (proj2 (try_into_array_Some 16 sid sid)) by done.
  rewrite Hc. rewrite (proj2 (prune_pending now self sid p)) by done.
  destruct (PAIRING_LIFETIME <? elapsed now (pending_created p)) eqn:E; bool_to_prop; [lia|done].
Qed.

Lemma pending_not_completed now self k p sid :
  pairing_wf now self -> pending self !! k = Some p ->
  completed (prune_sessions now self) !! sid = None.
Proof.
  intros W Hp. destruct (decide (completed self = ∅)) as [E|E].
  - simpl. rewrite E, map_filter_empty. apply lookup_empty.
  - apply (wf_done _ _ W) in E as [Hz _]. rewrite Hz, lookup_empty in Hp. done.
Qed.

(** The two ways a credential leaves [finish]. *)
Definition finish_accepts (now : Z) (sid conf : bytes) (ctx : CredentialContext)
    (self : PairingCode) (g : rng) (r : PairingResult) (g' : rng) : Prop :=
  (exists c, completed self !! sid = Some c /\ confirmation c = conf /\ completed_result c = r /\
     elapsed now (completed_created c) <= PAIRING_LIFETIME /\ g' = g) \/
  (exists p, completed (prune_sessions now self) !! sid = None /\ pending self !! sid = Some p /\
     elapsed now (pending_created p) <= PAIRING_LIFETIME /\
     hmac (shared p) (confirmation_message p) = Some conf /\
     prepare_credential p ctx g = (Ok r, g')).

Lemma finish_ok_cases {PL : PrimitivesLaws P} now sid conf ctx self g r self' g' :
  finish now sid conf ctx self g = (Ok r, self', g') ->
  length sid = 16%nat /\ self' = prune_sessions now self /\
  finish_accepts now sid conf ctx self g r g'.
Proof.
  unfold finish, finish_accepts. destruct (try_into_array 16 sid) as [k|] eqn:Hk; [|done].
  apply try_into_array_Some in Hk as [-> Hl].
  destruct (completed (prune_sessions now self) !! sid) as [c|] eqn:Ec.
  - apply prune_completed in Ec as [Ec Ht]. case_bool_decide; [|done].
    intros [= <- <- <-]. split; [done|]. split; [done|]. left. eauto 10.
  - destruct (pending (prune_sessions now self) !! sid) as [p|] eqn:Ep; [|done].
    apply prune_pending in Ep as [Ep Ht]. case_match; [done|].
    destruct (hmac_new_from_slice (shared p)) as [mac|] eqn:Em; [|done].
    destruct (hmac_verify_slice mac (confirmation_message p) conf) eqn:Ev.
    + destruct (prepare_credential p ctx g) as [r' g1] eqn:Epr. intros [= -> <- ->].
      split; [done|]. split; [done|].
      right. exists p. repeat split; auto. unfold hmac. rewrite Em. f_equal. symmetry.
      by apply hmac_verify_iff.
    + by destruct (confirmation_failed sid (source p) (prune_sessions now self)).
Qed.

Lemma prepare_credential_length {PL : PrimitivesLaws P} p ctx g r g' :
  prepare_credential p ctx g = (Ok r, g') -> length (result_credential r) = 32%nat.
Proof.
  unfold prepare_credential. destruct (hkdf_expand _ _ _) as [key|]; [|done].
  destruct (fill_bytes 32 g) as [c g1] eqn:Ec. destruct (fill_bytes 12 g1) as [n g2].
  destruct (credential_aad _ _ _); [|done]. destruct (try_into_array 12 n); [|done].
  destruct (aead_encrypt _ _ _ _); [|done]. intros [= <- <-]. simpl.
  pose proof (fill_bytes_length 32 g) as Hl. by rewrite Ec in Hl.
Qed.

(** A success of [finish] on a session that was not completed is that of a
    pending session, which is still there. *)
Lemma finish_first_success {PL : PrimitivesLaws P} now sid conf ctx self g r self' g' :
  finish now sid conf ctx self g = (Ok r, self', g') -> is_completed sid self = false ->
  length sid = 16%nat /\ is_Some (pending self' !! sid) /\ length (result_credential r) = 32%nat.
Proof.
  intros Hf Hc. apply finish_ok_cases in Hf as (Hl & -> & Ha).
  unfold is_completed in Hc. rewrite (proj2 (try_into_array_Some 16 sid sid)) in Hc by done.
  case_bool_decide as Hn; [done|]. destruct Ha as [(c & Ec & _)|(p & _ & Ep & Ht & _ & Hp)].
  { destruct Hn. eauto. }
  split; [done|]. split; [|by eapply prepare_credential_length].
  exists p. by apply prune_pending.
Qed.

(** Whether a credential can be prepared does not depend on the random bytes. *)
Lemma prepare_credential_any {PL : PrimitivesLaws P} p ctx g r g' g2 :
  prepare_credential p ctx g = (Ok r, g') -> exists r2 g2', prepare_credential p ctx g2 = (Ok r2, g2').
Proof.
  unfold prepare_credential. destruct (hkdf_expand_32 (shared p) CREDENTIAL_INFO) as (key & -> & Hk).
  destruct (fill_bytes 32 g) as [c g1]. destruct (fill_bytes 12 g1) as [n g1'].
  pose proof (fill_bytes_length 32 g2) as H1. destruct (fill_bytes 32 g2) as [c2 g3].
  pose proof (fill_bytes_length 12 g3) as H2. destruct (fill_bytes 12 g3) as [n2 g4]. simpl in *.
  destruct (credential_aad _ _ _) as [aad|]; [|done]. intros _.
  rewrite (proj2 (try_into_array_Some 12 n2 n2)) by done.
  destruct (aead_round_trip key n2 c2 aad) as (ct & -> & _); [done|done|lia|]. eauto.
Qed.

(** C12: a credential leaves [finish] in exactly two ways: as the stored
    answer of a completed session, repeated to the same confirmation within
    five minutes of its completion, or for a pending session younger than five
    minutes whose confirmation is the HMAC, under the SPAKE2 key, of both
    messages and the session id; and in both cases it does leave. *)
Theorem finish_ok_iff {PL : PrimitivesLaws P} now sid conf ctx self g r g' :
  length sid = 16%nat ->
  (finish now sid conf ctx self g = (Ok r, prune_sessions now self, g') <->
   finish_accepts now sid conf ctx self g r g').
Proof.
  intros Hl. split; [intros H; by apply finish_ok_cases in H as (_ & _ & ?)|].
  intros [(c & Hc & Hconf & Hr & Ht & ->)|(p & Hnc & Hp & Ht & Hm & Hpr)].
  - rewrite (finish_retry _ _ _ _ _ _ c) by done. by rewrite bool_decide_eq_true_2, Hr.
  - rewrite (finish_no_completed _ _ _ _ _ _ p) by done.
    unfold hmac in Hm. destruct (hmac_new_from_slice (shared p)) as [mac|]; [|done].
    injection Hm as Hm. rewrite (proj2 (hmac_verify_iff mac _ conf)) by done. by rewrite Hpr.
Qed.

(** A wrong confirmation never yields a credential: it uses up the session,
    adds one failure to its source and to no other, touches no other session,
    and answers [RateLimited] from the fifth failure on. *)
Theorem finish_wrong_confirmation {PL : PrimitivesLaws P} now sid conf ctx self g p :
  pairing_wf now self -> pending self !! sid = Some p -> elapsed now (pending_created p) <= PAIRING_LIFETIME ->
  hmac (shared p) (confirmation_message p) <> Some conf ->
  exists e self', finish now sid conf ctx self g = (Err e, self', g) /\
    (e = if MAX_CONFIRMATION_FAILURES <=? failure_count (source p) self' then PairingRateLimited
         else PairingInvalid) /\
    pending self' = delete sid (pending (prune_sessions now self)) /\
    failure_count (source p) self' = Z.min 255 (failure_count (source p) self + 1) /\
    (forall s, s <> source p -> failure_count s self' = failure_count s self).
Proof.
  intros W Hp Ht Hm. destruct (wf_pending _ _ W _ _ Hp) as (_ & Hl & _).
  rewrite (finish_no_completed _ _ _ _ _ _ p) by eauto using pending_not_completed.
  destruct (hmac_new_total (shared p)) as [mac Em]. rewrite Em.
  destruct (hmac_verify_slice mac (confirmation_message p) conf) eqn:Ev.
  { exfalso. apply Hm. unfold hmac. rewrite Em. f_equal. symmetry. by apply hmac_verify_iff. }
  unfold confirmation_failed, failure_count. simpl. do 2 eexists. split; [done|]. simpl.
  rewrite lookup_insert_eq. simpl. repeat split; auto.
  intros s Hs. by rewrite lookup_insert_ne.
Qed.

(** *** Guesses at a code *)

(** A call of [finish] that guesses wrong for [src]: it reaches a live session of
    that source and its confirmation is not the one of the session's key. *)
Definition wrong_guess (now : Z) (sid conf : bytes) (self : PairingCode) (src : option IpAddr) : bool :=
  match pending self !! sid with
  | Some p => bool_decide (source p = src /\ elapsed now (pending_created p) <= PAIRING_LIFETIME /\
                           hmac (shared p) (confirmation_message p) <> Some conf)
  | None => false
  end.

(** [guessing pf src n s s']: the operations lead from [s] to [s'], and [src] has
    made [n] wrong guesses at the code of [s'] on the way.  A new code starts
    the count again. *)
Inductive guessing (pf : platform) (src : option IpAddr)
    : nat -> Z * PairingCode -> Z * PairingCode -> Prop :=
| guess_none s : guessing pf src 0 s s
| guess_tick n s now now' self :
    guessing pf src n s (now, self) -> now <= now' -> guessing pf src n s (now', self)
| guess_generate n s now self g :
    guessing pf src n s (now, self) -> guessing pf src 0 s (now, (generate now g).1)
| guess_start n s now self msg from g :
    guessing pf src n s (now, self) ->
    guessing pf src n s (now, (start_for_source now msg from self g).1.2)
| guess_finish n s now self sid conf ctx g :
    guessing pf src n s (now, self) ->
    guessing pf src (if wrong_guess now sid conf self src then S n else n) s
      (now, (finish now sid conf ctx self g).1.2)
| guess_commit n s now self sid conf r :
    guessing pf src n s (now, self) -> (commit pf now sid conf r self).1 <> None ->
    guessing pf src n s (now, (commit pf now sid conf r self).2).

(** Counting does not exclude any sequence of operations. *)
Lemma steps_guessing pf src s s' : pairing_steps pf s s' -> exists n, guessing pf src n s s'.
Proof.
  revert s'. apply rtc_ind_r; [exists 0%nat; constructor|].
  intros a b _ Hs [n IH].
  destruct Hs; eexists; [eapply guess_tick|eapply guess_generate|eapply guess_start|eapply guess_finish
    |eapply guess_commit]; eassumption.
Qed.

Lemma guessing_steps pf src n s s' : guessing pf src n s s' -> pairing_steps pf s s'.
Proof.
  induction 1; [apply rtc_refl| | | | |]; (eapply rtc_r; [eassumption|]); by constructor.
Qed.

Lemma start_failures now msg from self g src :
  failure_count src (start_for_source now msg from self g).1.2 = failure_count src self.
Proof.
  unfold start_for_source. case_match; [done|]. case_match; [done|].
  destruct (spake2_start_b _ _ _ _) as [[st hm] g1]. destruct (spake2_finish st msg); [|done].
  by destruct (fill_bytes 16 g1).
Qed.

Lemma commit_failures pf now sid conf r self src :
  failure_count src (commit pf now sid conf r self).2 = failure_count src self.
Proof. unfold commit. repeat (case_match; [|done]). by repeat case_match. Qed.

Lemma finish_not_pending_failures now sid conf ctx self g src :
  pending (prune_sessions now self) !! sid = None ->
  failure_count src (finish now sid conf ctx self g).1.2 = failure_count src self.
Proof.
  intros Hp. unfold finish. destruct (try_into_array 16 sid) as [k|] eqn:Hk; [|done].
  apply try_into_array_Some in Hk as [-> _].
  destruct (completed (prune_sessions now self) !! sid); [by case_match|]. by rewrite Hp.
Qed.

(** A session that is not there, or is too old, is not there after pruning. *)
Lemma pruned_away now self sid :
  (forall p, pending self !! sid = Some p -> ~ elapsed now (pending_created p) <= PAIRING_LIFETIME) ->
  pending (prune_sessions now self) !! sid = None.
Proof.
  intros H. destruct (pending (prune_sessions now self) !! sid) as [p|] eqn:E; [|done].
  apply prune_pending in E as [E Ht]. by destruct (H p E).
Qed.

(** [finish] counts a wrong guess for its source, and nothing else. *)
Lemma finish_failures {PL : PrimitivesLaws P} now sid conf ctx self g src : pairing_wf now self ->
  failure_count src (finish now sid conf ctx self g).1.2 =
  if wrong_guess now sid conf self src then Z.min 255 (failure_count src self + 1) else failure_count src self.
Proof.
  intros W. unfold wrong_guess. destruct (pending self !! sid) as [p|] eqn:Hp.
  - destruct (decide (elapsed now (pending_created p) <= PAIRING_LIFETIME)) as [Ht|Ht].
    + destruct (decide (hmac (shared p) (confirmation_message p) = Some conf)) as [Hm|Hm].
      * rewrite bool_decide_eq_false_2 by tauto.
        destruct (wf_pending _ _ W _ _ Hp) as (_ & Hl & _).
        rewrite (finish_no_completed _ _ _ _ _ _ p) by eauto using pending_not_completed.
        unfold hmac in Hm. destruct (hmac_new_from_slice (shared p)) as [mac|]; [|done].
        injection Hm as Hm. rewrite (proj2 (hmac_verify_iff mac _ conf)) by done.
        by destruct (prepare_credential p ctx g).
      * destruct (finish_wrong_confirmation now sid conf ctx self g p W Hp Ht Hm)
          as (e & self' & -> & _ & _ & Hc & Ho). cbn [fst snd].
        case_bool_decide as Hs; [by destruct Hs as (<- & _)|]. apply Ho. intros ->. tauto.
    + rewrite bool_decide_eq_false_2 by tauto. apply finish_not_pending_failures, pruned_away. intros p' Hp'. by simplify_eq.
  - apply finish_not_pending_failures, pruned_away. intros p' Hp'. by rewrite Hp' in Hp.
Qed.

(** The counter is the number of wrong guesses, as long as it is below the limit of
    its type. *)
Lemma guessing_counted {PL : PrimitivesLaws P} pf ip n s s' :
  pairing_wf s.1 s.2 -> failure_count (Some ip) s.2 = 0 -> guessing pf (Some ip) n s s' ->
  Z.of_nat n = failure_count (Some ip) s'.2.
Proof.
  intros W H0 H. induction H as [| | |n s now self msg from g H IH|n s now self sid conf ctx g H IH|];
    cbn [fst snd] in *.
  - done.
  - auto.
  - unfold generate. by destruct (random_range 1000000 g).
  - rewrite start_failures. auto.
  - apply guessing_steps, pairing_steps_wf in H; [|done]. rewrite finish_failures by done.
    pose proof (wf_guesses _ _ H ip) as Hg. cbn [snd] in Hg. rewrite <- IH in * by done.
    destruct (wrong_guess now sid conf self (Some ip)); lia.
  - rewrite commit_failures. auto.
Qed.

(** C24: one source address gets at most twelve wrong guesses at a code, however
    the starts, confirmations and completions follow each other and whenever:
    the four failures a new exchange may still be started after, plus the eight
    exchanges that may be pending at once. *)
Theorem guesses_per_source_bounded {PL : PrimitivesLaws P} pf code t now self ip n :
  code_wf code = true -> guessing pf (Some ip) n (t, fresh_code code t) (now, self) -> (n <= 12)%nat.
Proof.
  intros Hc H. assert (pairing_wf t (fresh_code code t)) as W by (by apply fresh_code_wf).
  pose proof (guessing_counted pf ip n (t, _) _ W eq_refl H) as Hn.
  apply guessing_steps, pairing_steps_wf in H; [|by apply fresh_code_wf]. simpl in H, Hn.
  pose proof (wf_guesses _ _ H ip). lia.
Qed.

(** ** Completion *)

(** [commit] panics exactly when the instant 301 seconds ago cannot be
    represented, and then only after the sessions were replaced. *)
Lemma commit_panics_iff pf now sid conf r self :
  (commit pf now sid conf r self).1 = None <->
  length sid = 16%nat /\ is_Some (pending self !! sid) /\ now - from_secs 301 < instant_min pf.
Proof.
  unfold commit. destruct (try_into_array 16 sid) as [k|] eqn:Hk; simpl.
  2:{ split; [done|]. intros [Hl _]. unfold try_into_array in Hk. rewrite Hl in Hk. done. }
  apply try_into_array_Some in Hk as [-> Hl].
  destruct (pending self !! sid) as [p|]; simpl; [|split; [done|]; intros (_ & [? [=]] & _)].
  unfold instant_sub, PAIRING_LIFETIME, from_secs, nanos_per_sec.
  destruct (now - 300 * 1000000000 <? instant_min pf) eqn:E1; simpl.
  { bool_to_prop. split; [intros _|done]. repeat split; eauto; lia. }
  destruct (now - 300 * 1000000000 - 1 * 1000000000 <? instant_min pf) eqn:E2; simpl; bool_to_prop.
  - split; [intros _|done]. repeat split; eauto; lia.
  - split; [done|]. lia.
Qed.

(** [commit] refuses exactly a session that is not pending. *)
Lemma commit_err_iff pf now sid conf r self :
  (exists x, (commit pf now sid conf r self).1 = Some (Err x)) <->
  length sid <> 16%nat \/ pending self !! sid = None.
Proof.
  unfold commit. destruct (try_into_array 16 sid) as [k|] eqn:Hk; simpl.
  2:{ split; [intros _|eauto]. left. intros Hl. unfold try_into_array in Hk. by rewrite Hl in Hk. }
  apply try_into_array_Some in Hk as [-> Hl].
  destruct (pending self !! sid) as [p|]; simpl; [|split; eauto].
  split; [|by intros []]. intros [x Hx].
  destruct (instant_sub pf now PAIRING_LIFETIME) as [t|]; [|done].
  by destruct (instant_sub pf t (from_secs 1)).
Qed.

(** [commit] of a pending session records it as completed, whether or not it then
    panics. *)
Lemma commit_pending pf now sid conf r self :
  length sid = 16%nat -> is_Some (pending self !! sid) ->
  (commit pf now sid conf r self).1 = (if now - from_secs 301 <? instant_min pf then None else Some (Ok tt)) /\
  completed (commit pf now sid conf r self).2 =
    {[ sid := {| confirmation := conf; completed_result := r; completed_created := now |} ]}.
Proof.
  intros Hl [p Hp]. unfold commit. rewrite (proj2 (try_into_array_Some 16 sid sid)), Hp by done.
  unfold instant_sub, PAIRING_LIFETIME, from_secs, nanos_per_sec.
  destruct (now - 300 * 1000000000 <? instant_min pf) eqn:E1; bool_to_prop.
  { rewrite (proj2 (Z.ltb_lt _ _)) by lia. done. }
  replace (now - 300 * 1000000000 - 1 * 1000000000) with (now - 301 * 1000000000) by lia.
  by destruct (now - 301 * 1000000000 <? instant_min pf).
Qed.

Lemma commit_ok_state pf now sid conf r self :
  (commit pf now sid conf r self).1 = Some (Ok tt) ->
  length sid = 16%nat /\ is_Some (pending self !! sid) /\
  (commit pf now sid conf r self).2 =
    MkPairingCode (pairing_code self) (now - from_secs 301) (confirmation_failures self) ∅
      {[ sid := {| confirmation := conf; completed_result := r; completed_created := now |} ]}.
Proof.
  unfold commit. destruct (try_into_array 16 sid) as [k|] eqn:Hk; [|done].
  apply try_into_array_Some in Hk as [-> Hl].
  destruct (pending self !! sid) as [p|] eqn:Hp; [|done].
  destruct (instant_sub pf now PAIRING_LIFETIME) as [t|] eqn:E1; [|done].
  destruct (instant_sub pf t (from_secs 1)) as [t'|] eqn:E2; [|done]. intros _. simpl.
  apply instant_sub_Some in E1 as [-> _], E2 as [-> _].
  split; [done|]. split; [eauto|]. f_equal.
  unfold PAIRING_LIFETIME, from_secs, nanos_per_sec. lia.
Qed.

(** After a completed pairing the code is spent: at any later time a new
    exchange is refused as expired and leaves the state alone. *)
Theorem commit_spends_code pf now sid conf r self now' msg src g :
  (commit pf now sid conf r self).1 = Some (Ok tt) -> now <= now' ->
  let self' := (commit pf now sid conf r self).2 in
  start_for_source now' msg src self' g = (Err PairingExpired, self', g) /\
  expires_in now' self' = 0.
Proof.
  intros H Hle. apply commit_ok_state in H as (_ & _ & E). simpl. rewrite E.
  assert (elapsed now' (now - from_secs 301) = now' - now + from_secs 301) as He.
  { unfold elapsed, saturating_sub, from_secs, nanos_per_sec. lia. }
  unfold start_for_source, expires_in. simpl. rewrite He.
  unfold saturating_sub, PAIRING_LIFETIME, from_secs, nanos_per_sec. split; [|lia].
  case_match eqn:E2; [done|]. bool_to_prop. lia.
Qed.

(** A lost final response can be recovered: for five minutes the same
    session and confirmation get the identical result, without rotating the
    credential, any other confirmation is refused, and afterwards the session
    is unknown. *)
Theorem commit_retry_idempotent pf now sid conf r self now' conf' ctx g :
  (commit pf now sid conf r self).1 = Some (Ok tt) -> now <= now' ->
  let self' := (commit pf now sid conf r self).2 in
  (finish now' sid conf' ctx self' g).1.1 =
    if (now' - now <=? PAIRING_LIFETIME) && bool_decide (conf' = conf) then Ok r
    else Err PairingInvalid.
Proof.
  intros H Hle. apply commit_ok_state in H as (Hl & _ & E). simpl. rewrite E.
  assert (elapsed now' now = now' - now) as He by (unfold elapsed, saturating_sub; lia).
  destruct (now' - now <=? PAIRING_LIFETIME) eqn:E2; bool_to_prop; simpl.
  - erewrite finish_retry; [|done|apply lookup_singleton_eq|simpl; lia]. simpl.
    do 2 case_bool_decide; congruence.
  - unfold finish. rewrite (proj2 (try_into_array_Some 16 sid sid)) by done.
    destruct (completed _ !! sid) as [c|] eqn:Ec; simpl in Ec.
    { apply map_lookup_filter_Some in Ec as [Ec1 Ec2]. apply lookup_singleton_Some in Ec1 as [_ <-].
      simpl in Ec2. lia. }
    destruct (pending _ !! sid) as [p|] eqn:Ep; [|done]. simpl in Ep.
    rewrite map_filter_empty, lookup_empty in Ep. done.
Qed.

(** ** Lifetimes *)

(** In every reachable state a first-time success of [finish] happens
    within ten minutes of the creation of the code (five for the code, five
    for the exchange started with it). *)
Theorem finish_within_ten_minutes {PL : PrimitivesLaws P} pf code t now self sid conf ctx g r self' g' :
  code_wf code = true -> pairing_steps pf (t, fresh_code code t) (now, self) ->
  finish now sid conf ctx self g = (Ok r, self', g') -> completed self = ∅ ->
  now - created self <= from_secs 600.
Proof.
  intros Hc H Hf He. apply pairing_steps_wf in H; [|by apply fresh_code_wf]. simpl in H.
  apply finish_ok_cases in Hf as (_ & _ & [(c & E & _)|(p & _ & Ep & Ht & _)]).
  { rewrite He, lookup_empty in E. done. }
  apply (wf_pending _ _ H) in Ep as (_ & _ & [Hb1 Hb2] & Hb3).
  unfold elapsed, saturating_sub, PAIRING_LIFETIME, from_secs, nanos_per_sec in *. lia.
Qed.

(** Restored with age [age], a code has exactly what is left of its five
    minutes; the clamp to 301 seconds loses nothing. *)
Lemma restored_code_keeps_age pf now code age self now' :
  0 <= age -> from_code_with_age pf now code age = Some (Ok self) -> now <= now' ->
  code_wf code = true /\ display_code self = code /\
  expires_in now' self = Z.max 0 (PAIRING_LIFETIME - (now' - now) - age).
Proof.
  intros Ha H Hle. rewrite from_code_with_age_eq in H. destruct (code_wf code); [|done].
  destruct (instant_sub pf now (Z.min age (from_secs 301))) as [t|] eqn:E; [|done].
  apply instant_sub_Some in E as [-> _]. simplify_eq. repeat split.
  unfold expires_in, elapsed, saturating_sub, PAIRING_LIFETIME, from_secs, nanos_per_sec. simpl.
  lia.
Qed.

(** The restored code panics exactly when its age, clamped, lies before the
    earliest instant of the platform. *)
Lemma from_code_panics_iff pf now code age :
  from_code_with_age pf now code age = None <->
  code_wf code = true /\ now - Z.min age (from_secs 301) < instant_min pf.
Proof.
  rewrite from_code_with_age_eq. destruct (code_wf code).
  - unfold instant_sub.
    destruct (now - Z.min age (from_secs 301) <? instant_min pf) eqn:E; bool_to_prop;
      split; try done; lia.
  - split; [done|]. intros [? _]; done.
Qed.

(** Starting an exchange never disturbs the others: a pending session
    that is still live survives a start by anyone, unless the random session
    id collides with it. *)
Theorem start_keeps_live_sessions now msg src self g k p :
  pending self !! k = Some p -> elapsed now (pending_created p) <= PAIRING_LIFETIME ->
  let '(r, self', _) := start_for_source now msg src self g in
  pending self' !! k = Some p \/ exists st, r = Ok st /\ start_session_id st = k.
Proof.
  intros Hp Ht. unfold start_for_source.
  destruct (PAIRING_LIFETIME <? elapsed now (created self)); [by left|].
  assert (pending (prune_sessions now self) !! k = Some p) as Hk by (by apply prune_pending).
  destruct (start_limited src (prune_sessions now self)); [by left|].
  destruct (spake2_start_b _ _ _ g) as [[st hm] g1].
  destruct (spake2_finish st msg); [|by left]. destruct (fill_bytes 16 g1) as [sid g2]. simpl.
  destruct (decide (sid = k)) as [->|Hne]; [right; eauto|].
  left. by rewrite lookup_insert_ne.
Qed.

(** ** Sequences of operations *)

Inductive pairing_op :=
| OpStart (msg : bytes) (src : option IpAddr)
| OpFinish (sid conf : bytes).

Definition exec_op (now : Z) (ctx : CredentialContext) (s : PairingCode * rng) (op : pairing_op)
    : PairingCode * rng :=
  match op with
  | OpStart msg src => let '(_, self, g) := start_for_source now msg src s.1 s.2 in (self, g)
  | OpFinish sid conf => let '(_, self, g) := finish now sid conf ctx s.1 s.2 in (self, g)
  end.

(** The wrong guesses of [src] in a sequence of operations. *)
Fixpoint wrong_guesses (now : Z) (ctx : CredentialContext) (src : option IpAddr) (ops : list pairing_op)
    (s : PairingCode * rng) : nat :=
  match ops with
  | [] => 0
  | op :: ops =>
      (match op with
       | OpFinish sid conf => if wrong_guess now sid conf s.1 src then 1 else 0
       | OpStart _ _ => 0
       end + wrong_guesses now ctx src ops (exec_op now ctx s op))%nat
  end.

Definition exec_ops (now : Z) (ctx : CredentialContext) (ops : list pairing_op)
    (s : PairingCode * rng) : PairingCode * rng :=
  fold_left (exec_op now ctx) ops s.


Lemma exec_ops_guessing pf now ctx src ops n s0 s :
  guessing pf src n s0 (now, s.1) ->
  guessing pf src (n + wrong_guesses now ctx src ops s) s0 (now, (exec_ops now ctx ops s).1).
Proof.
  revert n s; induction ops as [|op ops IH]; intros n s H; [by rewrite Nat.add_0_r|].
  cbn [wrong_guesses]. rewrite Nat.add_assoc. apply IH. destruct op as [msg from|sid conf]; simpl.
  - rewrite Nat.add_0_r. pose proof (guess_start pf src n s0 now s.1 msg from s.2 H) as Hs.
    destruct (start_for_source now msg from s.1 s.2) as [[r self] g]. exact Hs.
  - pose proof (guess_finish pf src n s0 now s.1 sid conf ctx s.2 H) as Hs.
    destruct (finish now sid conf ctx s.1 s.2) as [[r self] g].
    destruct (wrong_guess now sid conf s.1 src); [by rewrite Nat.add_1_r|by rewrite Nat.add_0_r].
Qed.

End Pairing.

(** ** Two consequences of where the limits are checked *)

Module Limits.

Definition hostile : option IpAddr := Some (V4 3221225994).
Definition context : CredentialContext := Build_CredentialContext "pc" "0.1.0" 1 "id".

(** A well-formed client message of the toy exchange. *)
Definition client_msg : bytes := x41 :: to_be_bytes 32 99.

Definition sid_of (g : Z) : bytes := repeat (byte_of_Z g) 16.

(** Start one exchange and fail its confirmation; the toy generator's state
    before the start is [g], so the session id is drawn from [g + 1]. *)
Definition fail_once (g : Z) : list pairing_op :=
  [OpStart client_msg hostile; OpFinish (sid_of (g + 1)) []].

(** Four failed exchanges, then eight started together and all failed. *)
Definition guesses : list pairing_op :=
  concat (map (fun i => fail_once (2 * i)) [0; 1; 2; 3]) ++
  repeat (OpStart client_msg hostile) 8 ++
  map (fun i => OpFinish (sid_of (9 + 2 * i)) []) [0; 1; 2; 3; 4; 5; 6; 7].

Definition after_guesses : PairingCode :=
  (exec_ops (P := toy) 0 context guesses (fresh_code "123456" 0, 0)).1.

(** The bound of twelve is reached: [finish] does not look at the failure
    counter, so one address can have twelve wrong confirmations checked
    against one code, not the five of [MAX_CONFIRMATION_FAILURES]. *)
Theorem five_failure_limit_exceeded :
  guessing (P := toy) Windows hostile 12 (0, fresh_code "123456" 0) (0, after_guesses) /\
  MAX_CONFIRMATION_FAILURES = 5.
Proof.
  split; [|done].
  pose proof (exec_ops_guessing (P := toy) Windows 0 context hostile guesses 0 (0, fresh_code "123456" 0)
    (fresh_code "123456" 0, 0) (guess_none _ _ _)) as H.
  assert (wrong_guesses (P := toy) 0 context hostile guesses (fresh_code "123456" 0, 0) = 12%nat) as E
    by (vm_compute; reflexivity).
  by rewrite E in H.
Qed.

(** An honest exchange started in the last second of the code. *)
Definition late_start := start_for_source (P := toy) (from_secs 300) client_msg hostile
  (fresh_code "123456" 0) 0.
Definition late_pending : option PendingPairing := pending late_start.1.2 !! sid_of 1.
Definition late_confirmation : bytes :=
  match late_pending with
  | Some p => default [] (hmac (P := toy) (shared p) (confirmation_message p))
  | None => []
  end.

(** [finish] does not look at the code's expiry: an exchange started in
    the fifth minute is completed in the tenth, when the code has been showing
    no time left for five minutes. *)
Theorem code_completes_after_expiry :
  expires_in (from_secs 600) late_start.1.2 = 0 /\
  is_ok (finish (P := toy) (from_secs 600) (sid_of 1) late_confirmation context
    late_start.1.2 late_start.2).1.1 = true.
Proof. vm_compute. done. Qed.

End Limits.

(** ** Witnesses *)

Module PairingSamples.
Import Limits.

Definition aad : bytes :=
  match credential_aad [x01] (sid_of 1) context with Ok x => x | Err _ => [] end.

Lemma credential_aad_injective_witness :
  credential_aad [x01] (sid_of 1) context = Ok aad /\ sid_of 1 = sid_of 1.
Proof.
  assert (credential_aad [x01] (sid_of 1) context = Ok aad) as H by (vm_compute; reflexivity).
  assert (in_range u32_max (context_protocol_version context)) as Hr by (vm_compute; split; discriminate).
  exact (conj H (proj1 (proj2 (credential_aad_injective _ _ _ _ _ _ _ Hr Hr H H)))).
Defined.

Lemma regenerate_changes_code_witness :
  exists self' g', regenerate (P := toy) 3 0 (fresh_code "000004" 0) 3 = Some (self', g') /\
    pairing_code self' <> "000004".
Proof.
  destruct (regenerate_changes_code (P := toy) 3 0 (fresh_code "000004" 0) 3) as (s & g & H1 & H2 & _).
  - constructor. vm_compute. discriminate.
  - exists s, g. exact (conj H1 H2).
Defined.


Lemma guesses_per_source_bounded_witness :
  Nat.le (wrong_guesses (P := toy) 0 context hostile guesses (fresh_code "123456" 0, 0)) 12.
Proof.
  exact (guesses_per_source_bounded (P := toy) (PL := toy_laws) Windows "123456" 0 0 after_guesses
    (V4 3221225994) _ eq_refl
    (exec_ops_guessing (P := toy) Windows 0 context hostile guesses 0 (0, fresh_code "123456" 0)
      (fresh_code "123456" 0, 0) (guess_none _ _ _))).
Defined.

(** The state with one exchange pending, and its entry. *)
Definition one : PairingCode := late_start.1.2.
Definition entry : PendingPairing :=
  match late_pending with
  | Some p => p
  | None => {| pending_session_id := []; shared := []; client_message := []; pending_host_message := [];
               pending_created := 0; source := None |}
  end.

Lemma one_entry : pending one !! sid_of 1 = Some entry.
Proof. vm_compute. reflexivity. Qed.

Lemma one_wf : pairing_wf (from_secs 300) one.
Proof.
  pose proof (start_wf (P := toy) (PL := toy_laws) (from_secs 300) client_msg hostile
    (fresh_code "123456" 0) 0) as H. apply H. apply fresh_code_wf; [reflexivity|]. vm_compute. discriminate.
Qed.

Definition done_result : PairingResult :=
  match (finish (P := toy) (from_secs 300) (sid_of 1) late_confirmation context one late_start.2).1.1 with
  | Ok r => r
  | Err _ => {| host_message := []; result_nonce := []; encrypted_credential := []; result_credential := [] |}
  end.
Definition done_rng : Z :=
  (finish (P := toy) (from_secs 300) (sid_of 1) late_confirmation context one late_start.2).2.

Lemma finish_ok_iff_witness :
  finish_accepts (P := toy) (from_secs 300) (sid_of 1) late_confirmation context one late_start.2
    done_result done_rng.
Proof.
  apply (proj1 (finish_ok_iff (P := toy) (PL := toy_laws) (from_secs 300) (sid_of 1) late_confirmation
    context one late_start.2 done_result done_rng eq_refl)).
  vm_compute. reflexivity.
Defined.

Lemma finish_wrong_confirmation_witness :
  exists e self', finish (P := toy) (from_secs 300) (sid_of 1) [] context one 7 = (Err e, self', 7).
Proof.
  destruct (finish_wrong_confirmation (P := toy) (PL := toy_laws) (from_secs 300) (sid_of 1) [] context
    one 7 entry one_wf one_entry) as (e & self' & H & _).
  - vm_compute. discriminate.
  - vm_compute. discriminate.
  - exists e, self'. exact H.
Defined.

Definition spent : PairingCode :=
  (commit Windows (from_secs 310) (sid_of 1) late_confirmation done_result one).2.

Lemma commit_spends_code_witness : expires_in (from_secs 400) spent = 0.
Proof.
  refine (proj2 (commit_spends_code (P := toy) Windows (from_secs 310) (sid_of 1) late_confirmation done_result
    one (from_secs 400) client_msg hostile 0 _ _)).
  - vm_compute. reflexivity.
  - vm_compute. discriminate.
Defined.

Lemma commit_retry_idempotent_witness :
  let self' := (commit Windows (from_secs 310) (sid_of 1) late_confirmation done_result one).2 in
  (finish (P := toy) (from_secs 400) (sid_of 1) late_confirmation context self' 0).1.1 =
    if (from_secs 400 - from_secs 310 <=? PAIRING_LIFETIME) &&
       bool_decide (late_confirmation = late_confirmation) then Ok done_result else Err PairingInvalid.
Proof.
  apply (commit_retry_idempotent (P := toy) Windows (from_secs 310) (sid_of 1) late_confirmation
    done_result one (from_secs 400) late_confirmation context 0).
  - vm_compute. reflexivity.
  - vm_compute. discriminate.
Defined.

Lemma finish_within_ten_minutes_witness : from_secs 600 - created one <= from_secs 600.
Proof.
  refine (finish_within_ten_minutes (P := toy) (PL := toy_laws) Windows "123456" 0 (from_secs 600) one (sid_of 1)
    late_confirmation context late_start.2 _ _ _ eq_refl _ _ _).
  - eapply rtc_l; [apply (step_tick (P := toy) Windows 0 (from_secs 300)); vm_compute; discriminate|].
    eapply rtc_l; [apply (step_start (P := toy) Windows (from_secs 300) _ client_msg hostile 0)|].
    apply rtc_once. apply (step_tick (P := toy) Windows (from_secs 300)). vm_compute. discriminate.
  - vm_compute. reflexivity.
  - vm_compute. reflexivity.
Defined.

Lemma start_keeps_live_sessions_witness :
  let '(r, self', _) := start_for_source (P := toy) (from_secs 300) client_msg None one 9 in
  pending self' !! sid_of 1 = Some entry \/ exists st, r = Ok st /\ start_session_id st = sid_of 1.
Proof.
  apply (start_keeps_live_sessions (P := toy) (from_secs 300) client_msg None one 9 (sid_of 1) entry one_entry).
  vm_compute. discriminate.
Defined.

End PairingSamples.
