(* ===== verification/Storage.v ===== *)
(** * Host identity and its stores (host/src/storage/mod.rs, storage/windows.rs)

    [HostIdentity], the [CredentialStore] trait as a class with its laws, and
    the two implementations over the file system of [Fs]: the development
    store, which writes the JSON file in place, and the Windows store, which
    encrypts with DPAPI, writes a temporary file and renames it over the
    destination.  serde_json and DPAPI are parameters. *)
From stdpp Require Import base gmap list strings.
From S2P Require Import Prelude RustStd Fs Primitives.
Open Scope Z_scope.
Open Scope list_scope.

Record AcceptedShutdownNonce := {
  accepted_timestamp : Z;
  accepted_nonce : bytes;
}.

#[export] Instance AcceptedShutdownNonce_eq_dec : EqDecision AcceptedShutdownNonce.
Proof. solve_decision. Defined.

Record HostIdentity := MkHostIdentity {
  host_id : bytes;
  credential : option bytes;
  identity_pairing_code : option string;
  pairing_created_at : Z;
  accepted_shutdown_nonces : list AcceptedShutdownNonce;
  last_client_version : option string;
}.

#[export] Instance HostIdentity_eq_dec : EqDecision HostIdentity.
Proof. solve_decision. Defined.

(** [HostIdentity::default], at wall-clock time [now]. *)
Definition default_identity `{P : Primitives} (now : Z) (g : rng) : HostIdentity * rng :=
  let '(id, g) := uuid_new_v4 g in
  let '(value, g) := random_range 1000000 g in
  (MkHostIdentity id None (Some (format_06 value)) now [] None, g).

(** ** The trait

    [St] is the state behind the store.  [load_or_create] is given the default
    identity it creates when there is none. *)
Class CredentialStore (St : Type) := {
  load_or_create : HostIdentity -> St -> result HostIdentity io_error * St;
  save : HostIdentity -> St -> result unit io_error * St;
}.

(** What the host relies on, for [stored s i], "stable storage holds [i]": a
    save that reports success has stored the identity, a save that reports
    failure has kept the old one; a load that meets no fault returns what is
    stored; any load that succeeds returns what is stored, and no load
    changes it. *)
Class CredentialStoreLaws (St : Type) `{CredentialStore St}
    (stored : St -> HostIdentity -> Prop) (fault_free : St -> Prop) : Prop := {
  save_ok_stored i s s' : save i s = (Ok tt, s') -> stored s' i;
  save_err_stored i s e s' j : save i s = (Err e, s') -> stored s j -> stored s' j;
  load_ok_stored d s i j s' : stored s i -> load_or_create d s = (Ok j, s') -> j = i;
  load_stored d s i : fault_free s -> stored s i -> (load_or_create d s).1 = Ok i;
  load_keeps d s i : stored s i -> stored (load_or_create d s).2 i;
}.

(** ** serde_json and DPAPI *)

Class Serde := {
  identity_to_vec : HostIdentity -> result bytes string;
  identity_from_slice : bytes -> result HostIdentity string;
}.

Class SerdeLaws (S : Serde) : Prop := {
  identity_round_trip i : exists l, identity_to_vec i = Ok l /\ identity_from_slice l = Ok i;
}.

(** [CryptProtectData] and [CryptUnprotectData] at machine scope; an error is
    the Windows error message. *)
Class Dpapi := {
  crypt_protect : bytes -> result bytes string;
  crypt_unprotect : bytes -> result bytes string;
}.

Class DpapiLaws (D : Dpapi) : Prop := {
  dpapi_round_trip l c : crypt_protect l = Ok c -> crypt_unprotect c = Ok l;
  dpapi_blob_size l c : crypt_protect l = Ok c -> Z.of_nat (length c) <= u32_max;
}.

Definition other {E} (r : result E string) : result E io_error :=
  match r with Ok a => Ok a | Err m => Err (OtherIo m) end.

(** ** [DevelopmentStore] *)

Module DevelopmentStore.
Section Store.
Context {S : Serde} (path : string).

Definition development_save (identity : HostIdentity) (s : Fs) : result unit io_error * Fs :=
  match other (identity_to_vec identity) with
  | Err e => (Err e, s)
  | Ok l => fs_write path l s
  end.

Definition development_load_or_create (d : HostIdentity) (s : Fs) : result HostIdentity io_error * Fs :=
  if negb (fs_exists path s) then
    match development_save d s with
    | (Err e, s) => (Err e, s)
    | (Ok _, s) => (Ok d, s)
    end
  else
    match fs_read path s with
    | (Err e, s) => (Err e, s)
    | (Ok l, s) => (other (identity_from_slice l), s)
    end.

Definition development_store : CredentialStore Fs :=
  {| load_or_create := development_load_or_create; save := development_save |}.

End Store.
End DevelopmentStore.

(** ** [WindowsCredentialStore] *)

Module WindowsCredentialStore.
Section Store.
Context {S : Serde} {D : Dpapi} (path temporary : string).

(** [protect] and [unprotect]: the blob's size must fit a [u32]. *)
Definition protect (plaintext : bytes) : result bytes io_error :=
  match try_from u32_max (Z.of_nat (length plaintext)) with
  | None => Err (OtherIo "out of range integral type conversion attempted")
  | Some _ => other (crypt_protect plaintext)
  end.

Definition unprotect (ciphertext : bytes) : result bytes io_error :=
  match try_from u32_max (Z.of_nat (length ciphertext)) with
  | None => Err (OtherIo "out of range integral type conversion attempted")
  | Some _ => other (crypt_unprotect ciphertext)
  end.

(** [replace_file]: [MoveFileExW] with replacement and write-through. *)
Definition replace_file (source destination : string) (s : Fs) : result unit io_error * Fs :=
  fs_rename source destination s.

Definition windows_save (identity : HostIdentity) (s : Fs) : result unit io_error * Fs :=
  match fs_create_dir_all s with
  | (Err e, s) => (Err e, s)
  | (Ok _, s) =>
      match other (identity_to_vec identity) with
      | Err e => (Err e, s)
      | Ok plaintext =>
          match protect plaintext with
          | Err e => (Err e, s)
          | Ok blob =>
              match fs_write temporary blob s with
              | (Err e, s) => (Err e, s)
              | (Ok _, s) => replace_file temporary path s
              end
          end
      end
  end.

Definition windows_load_or_create (d : HostIdentity) (s : Fs) : result HostIdentity io_error * Fs :=
  if negb (fs_exists path s) then
    match windows_save d s with
    | (Err e, s) => (Err e, s)
    | (Ok _, s) => (Ok d, s)
    end
  else
    match fs_read path s with
    | (Err e, s) => (Err e, s)
    | (Ok l, s) =>
        match unprotect l with
        | Err e => (Err e, s)
        | Ok plaintext => (other (identity_from_slice plaintext), s)
        end
    end.

Definition windows_store : CredentialStore Fs :=
  {| load_or_create := windows_load_or_create; save := windows_save |}.

(** The contents of the file that decrypt to identity [i]. *)
Definition holds (i : HostIdentity) (s : Fs) : Prop :=
  exists l blob, identity_to_vec i = Ok l /\ protect l = Ok blob /\ files s !! path = Some blob.

(** Every file a save can leave behind at [path] is the one that was there or
    the new one in full: the destination only changes in the rename. *)
Lemma save_atomic i s r s' :
  path <> temporary -> windows_save i s = (r, s') ->
  (files s' !! path = files s !! path /\ r <> Ok tt) \/ (holds i s' /\ r = Ok tt).
Proof.
  intros Hne. unfold windows_save, fs_create_dir_all. destruct (next_fault s) as [[|w] s1] eqn:E;
    apply next_fault_files in E.
  2:{ intros [= <- <-]. rewrite E. left. done. }
  destruct (identity_to_vec i) as [l|m] eqn:El; simpl.
  2:{ intros [= <- <-]. rewrite E. left. done. }
  destruct (protect l) as [blob|e] eqn:Ep.
  2:{ intros [= <- <-]. rewrite E. left. done. }
  destruct (fs_write temporary blob s1) as [[[]|e] s2] eqn:Ew.
  2:{ intros [= <- <-]. left. split; [|done].
      rewrite (fs_write_frame _ _ _ _ _ path Ew) by done. by rewrite E. }
  unfold replace_file. destruct (fs_rename temporary path s2) as [[[]|e] s3] eqn:Er;
    intros [= <- <-].
  - right. apply fs_rename_ok in Er as (data & Hd & Hf). split; [|done].
    exists l, blob. repeat split; auto. rewrite Hf, lookup_insert_eq. f_equal.
    apply fs_write_ok in Ew. rewrite Ew, lookup_insert_eq in Hd. congruence.
  - left. split; [|done]. rewrite (fs_rename_err _ _ _ _ _ Er).
    rewrite (fs_write_frame _ _ _ _ _ path Ew) by done. by rewrite E.
Qed.

Lemma load_holds {SL : SerdeLaws S} {DL : DpapiLaws D} d i s :
  faults s = [] -> holds i s -> (windows_load_or_create d s).1 = Ok i.
Proof.
  intros Hf (l & blob & El & Ep & Hp). unfold windows_load_or_create, fs_exists.
  rewrite bool_decide_eq_true_2 by eauto. simpl.
  rewrite (fs_read_ok path s blob) by done.
  unfold protect in Ep. destruct (try_from u32_max (Z.of_nat (length l))) as [n|]; [|done].
  destruct (crypt_protect l) as [c|m] eqn:Ec; simpl in Ep; simplify_eq.
  unfold unprotect. rewrite (proj2 (try_from_Some u32_max (Z.of_nat (length blob)) _)
    (conj eq_refl (conj (Zle_0_nat _) (dpapi_blob_size _ _ Ec)))).
  rewrite (dpapi_round_trip _ _ Ec). simpl.
  destruct (identity_round_trip i) as (l' & El' & Er). rewrite El in El'. simplify_eq.
  by rewrite Er.
Qed.

Lemma load_ok_holds {SL : SerdeLaws S} {DL : DpapiLaws D} d i s j s' :
  holds i s -> windows_load_or_create d s = (Ok j, s') -> j = i.
Proof.
  intros Hh Hl. pose proof (load_holds d i (MkFs (files s) []) eq_refl Hh) as H0.
  destruct Hh as (l & blob & _ & _ & Hp). unfold windows_load_or_create, fs_exists in Hl, H0.
  rewrite bool_decide_eq_true_2 in Hl, H0 by (simpl; eauto). cbn [negb] in Hl, H0.
  rewrite (fs_read_ok path (MkFs (files s) []) blob) in H0 by done.
  destruct (fs_read path s) as [[l'|e] s1] eqn:Er; [|done].
  apply fs_read_Ok in Er. rewrite Hp in Er. injection Er as <-.
  destruct (unprotect blob) as [pt|]; [|done]. simpl in *. congruence.
Qed.

Lemma load_keeps_file d s : is_Some (files s !! path) -> files (windows_load_or_create d s).2 = files s.
Proof.
  intros Hs. unfold windows_load_or_create, fs_exists. rewrite bool_decide_eq_true_2 by done. simpl.
  pose proof (fs_read_files path s) as Hr. destruct (fs_read path s) as [[l|e] s1]; [|done].
  simpl in Hr. by destruct (unprotect l).
Qed.

(** The Windows store meets the contract of the trait. *)
Lemma laws {SL : SerdeLaws S} {DL : DpapiLaws D} : path <> temporary ->
  @CredentialStoreLaws Fs windows_store (fun s i => holds i s) (fun s => faults s = []).
Proof.
  intros Hne. constructor; simpl.
  - intros i s s' H. by destruct (save_atomic i s (Ok tt) s' Hne H) as [[_ ?]|[? _]].
  - intros i s e s' j H (l & blob & ? & ? & Hp).
    destruct (save_atomic i s (Err e) s' Hne H) as [[E _]|[_ ?]]; [|done].
    exists l, blob. by rewrite E.
  - intros d s i j s'. apply load_ok_holds.
  - intros d s i. apply load_holds.
  - intros d s i (l & blob & ? & ? & Hp). exists l, blob. rewrite load_keeps_file by eauto. done.
Qed.

End Store.

(** C28: saving the identity on Windows is atomic under faults and crashes:
    however the directory creation, the encryption, the temporary write or the
    rename fails, the credential file afterwards is byte for byte the old one,
    and on success it is the new identity, which a restarted host loads. *)
Theorem save_is_atomic {S : Serde} {SL : SerdeLaws S} {D : Dpapi} {DL : DpapiLaws D}
    path temporary i s r s' :
  path <> temporary -> windows_save path temporary i s = (r, s') ->
  (r <> Ok tt -> files s' !! path = files s !! path) /\ (r = Ok tt -> forall d, (windows_load_or_create path temporary d (MkFs (files s') [])).1 = Ok i).
Proof.
  intros Hne H. destruct (save_atomic path temporary i s r s' Hne H) as [[E Hr]|[Hh ->]].
  - split; [done|]. intros; done.
  - split; [done|]. intros _ d. by apply load_holds.
Qed.

End WindowsCredentialStore.

(** ** Witness *)

(** Instances of serde and DPAPI that satisfy the laws: an identity is coded as
    a number, and the number as its bits. *)
Module StorageSamples.

Definition identity_tuple (i : HostIdentity) :=
  (host_id i, credential i, identity_pairing_code i, pairing_created_at i,
   map (fun n => (accepted_timestamp n, accepted_nonce n)) (accepted_shutdown_nonces i),
   last_client_version i).

Definition identity_of (t : bytes * option bytes * option string * Z * list (Z * bytes) * option string) :=
  let '(h, c, p, z, l, v) := t in
  MkHostIdentity h c p z (map (fun n => Build_AcceptedShutdownNonce n.1 n.2) l) v.

Lemma identity_of_tuple i : identity_of (identity_tuple i) = i.
Proof.
  destruct i as [h c p z l v]. unfold identity_of, identity_tuple. simpl. f_equal.
  induction l as [|[t n] l IH]; [done|]. simpl. by rewrite IH.
Qed.

Fixpoint bits_of (p : positive) : bytes :=
  match p with
  | xH => []
  | xO p => x00 :: bits_of p
  | xI p => x01 :: bits_of p
  end.

Fixpoint of_bits (l : bytes) : positive :=
  match l with
  | [] => xH
  | x00 :: l => xO (of_bits l)
  | _ :: l => xI (of_bits l)
  end.

Lemma of_bits_of p : of_bits (bits_of p) = p.
Proof. induction p; simpl; congruence. Qed.

Definition toy_serde : Serde := {|
  identity_to_vec i := Ok (bits_of (encode (identity_tuple i)));
  identity_from_slice l :=
    match countable.decode (of_bits l) with Some t => Ok (identity_of t) | None => Err "invalid" end;
|}.

Lemma toy_serde_laws : SerdeLaws toy_serde.
Proof.
  constructor. intros i. eexists. split; [reflexivity|]. simpl.
  by rewrite of_bits_of, decode_encode, identity_of_tuple.
Qed.

(** Blobs longer than a [u32] cannot be described to DPAPI. *)
Definition toy_dpapi : Dpapi := {|
  crypt_protect l := if Z.of_nat (length l) <=? u32_max then Ok l else Err "too large";
  crypt_unprotect l := Ok l;
|}.

Lemma toy_dpapi_laws : DpapiLaws toy_dpapi.
Proof.
  constructor; intros l c; simpl; destruct (_ <=? _) eqn:E; bool_to_prop; congruence || by intros [= <-].
Qed.

Definition an_identity : HostIdentity := MkHostIdentity [x01] (Some [x02]) None 0 [] None.

(** The save meets a fault in the rename and leaves the old file. *)
Definition faulty : Fs := MkFs {[ "credential" := [x09] ]} [Fine; Fine; Fails None].

Lemma save_is_atomic_witness :
  let s' := (WindowsCredentialStore.windows_save (S := toy_serde) (D := toy_dpapi) "credential" "temporary"
               an_identity faulty).2 in
  files s' !! "credential" = Some [x09].
Proof.
  refine (eq_trans (proj1 (WindowsCredentialStore.save_is_atomic (S := toy_serde) (SL := toy_serde_laws)
    (D := toy_dpapi) (DL := toy_dpapi_laws) "credential" "temporary" an_identity faulty
    (Err (OtherIo "rename")) _ _ _) _) _).
  - discriminate.
  - vm_compute. reflexivity.
  - discriminate.
  - vm_compute. reflexivity.
Defined.

End StorageSamples.
