(* ===== verification/StoreEquivalence.v ===== *)
(** * The two credential stores behave alike

    The development store writes the identity as JSON in place; the Windows
    store encrypts it, writes a temporary file and renames it.  Without faults
    neither can be told from a cell in memory, so neither from the other. *)
From stdpp Require Import base gmap list strings.
From S2P Require Import Prelude RustStd Fs Storage.
Open Scope string_scope.
Open Scope Z_scope.
Open Scope list_scope.

(** ** Sessions with a store *)

Inductive store_op :=
| LoadOrCreate (d : HostIdentity)
| Save (i : HostIdentity).

(** The identity an operation may write. *)
Definition op_identity (op : store_op) : HostIdentity :=
  match op with LoadOrCreate i | Save i => i end.

Inductive store_answer :=
| Loaded (r : result HostIdentity io_error)
| Saved (r : result unit io_error).

Definition store_step {St} (CS : CredentialStore St) (op : store_op) (s : St) : store_answer * St :=
  match op with
  | LoadOrCreate d => let '(r, s) := load_or_create d s in (Loaded r, s)
  | Save i => let '(r, s) := save i s in (Saved r, s)
  end.

Fixpoint session {St} (CS : CredentialStore St) (ops : list store_op) (s : St) : list store_answer :=
  match ops with
  | [] => []
  | op :: ops => let '(a, s) := store_step CS op s in a :: session CS ops s
  end.

(** The specification: a cell that holds at most one identity. *)
Definition cell_store : CredentialStore (option HostIdentity) := {|
  load_or_create d c := (Ok (default d c), Some (default d c));
  save i _ := (Ok tt, Some i);
|}.

(** ** Simulation *)

Section Simulation.
Context {St : Type} (CS : CredentialStore St) (rel : option HostIdentity -> St -> Prop).
Context (storable : HostIdentity -> Prop).
Context (save_sim : forall c s i, storable i -> rel c s ->
  exists s', save i s = (Ok tt, s') /\ rel (Some i) s').
Context (load_sim : forall c s d, storable d -> rel c s ->
  exists s', load_or_create d s = (Ok (default d c), s') /\ rel (Some (default d c)) s').

Lemma session_simulates ops c s :
  Forall (fun op => storable (op_identity op)) ops -> rel c s ->
  session CS ops s = session cell_store ops c.
Proof.
  intros HF. revert c s; induction HF as [|op ops Hop HF IH]; intros c s Hr; [done|]. simpl.
  destruct op as [d|i]; simpl.
  - destruct (load_sim c s d Hop Hr) as (s' & -> & Hr'). f_equal. by apply IH.
  - destruct (save_sim c s i Hop Hr) as (s' & -> & Hr'). f_equal. by apply IH.
Qed.

End Simulation.

(** ** The stores *)

Section Stores.
Context {S : Serde} {SL : SerdeLaws S} {D : Dpapi} {DL : DpapiLaws D}.

(** A file system without faults on which [path] holds the identity [c], if
    any, as [encoded] by the store. *)
Definition on_disk_as (encoded : HostIdentity -> bytes -> Prop) (path : string)
    (c : option HostIdentity) (s : Fs) : Prop :=
  faults s = [] /\
  match c with
  | None => files s !! path = None
  | Some i => exists l, encoded i l /\ files s !! path = Some l
  end.

Definition as_json (i : HostIdentity) (l : bytes) : Prop := identity_to_vec i = Ok l.

Definition as_blob (i : HostIdentity) (blob : bytes) : Prop :=
  exists l, identity_to_vec i = Ok l /\ WindowsCredentialStore.protect l = Ok blob.

Lemma fs_write_fine path data s :
  faults s = [] -> fs_write path data s = (Ok tt, with_files (<[path := data]> (files s)) s).
Proof. intros Hf. unfold fs_write. by rewrite next_fault_none. Qed.

(** An identity DPAPI can encrypt: its JSON is shorter than 4 GiB and the call
    succeeds. *)
Definition encryptable (i : HostIdentity) : Prop := exists blob, as_blob i blob.

Lemma development_save_sim path c s i :
  encryptable i -> on_disk_as as_json path c s ->
  exists s', DevelopmentStore.development_save path i s = (Ok tt, s') /\ on_disk_as as_json path (Some i) s'.
Proof.
  intros _ [Hf _]. unfold DevelopmentStore.development_save.
  destruct (identity_round_trip i) as (l & El & _). rewrite El. simpl. rewrite fs_write_fine by done.
  eexists. split; [done|]. split; [done|]. exists l. split; [done|]. apply lookup_insert_eq.
Qed.

Lemma development_load_sim path c s d :
  encryptable d -> on_disk_as as_json path c s ->
  exists s', DevelopmentStore.development_load_or_create path d s = (Ok (default d c), s') /\
    on_disk_as as_json path (Some (default d c)) s'.
Proof.
  intros He Hr. pose proof Hr as [Hf Hc]. unfold DevelopmentStore.development_load_or_create, fs_exists.
  destruct c as [i|]; simpl.
  - destruct Hc as (l & El & Hl). rewrite bool_decide_eq_true_2 by eauto. simpl.
    rewrite (fs_read_ok path s l) by done. destruct (identity_round_trip i) as (l' & El' & Er).
    unfold as_json in El. rewrite El in El'. simplify_eq. rewrite Er. simpl. eauto.
  - rewrite bool_decide_eq_false_2 by (rewrite Hc; by intros [? ?]). simpl.
    destruct (development_save_sim path None s d He Hr) as (s' & -> & Hs'). eauto.
Qed.

Context (path temporary : string).

Lemma windows_save_sim c s i :
  encryptable i -> on_disk_as as_blob path c s ->
  exists s', WindowsCredentialStore.windows_save path temporary i s = (Ok tt, s') /\
    on_disk_as as_blob path (Some i) s'.
Proof.
  intros (blob & l & El & Hb) [Hf _]. unfold WindowsCredentialStore.windows_save, fs_create_dir_all.
  rewrite next_fault_none by done. rewrite El. simpl. rewrite Hb, fs_write_fine by done.
  unfold WindowsCredentialStore.replace_file, fs_rename. rewrite next_fault_none by done.
  simpl. rewrite lookup_insert_eq. eexists. split; [done|]. split; [done|]. simpl.
  exists blob. split; [by exists l|]. apply lookup_insert_eq.
Qed.

Lemma windows_load_sim c s d :
  encryptable d -> on_disk_as as_blob path c s ->
  exists s', WindowsCredentialStore.windows_load_or_create path temporary d s = (Ok (default d c), s') /\
    on_disk_as as_blob path (Some (default d c)) s'.
Proof.
  intros He Hr. pose proof Hr as [Hf Hc]. destruct c as [i|]; simpl.
  - destruct Hc as (blob & (l & El & Hb) & Hl).
    pose proof (WindowsCredentialStore.load_holds path temporary d i s Hf
      (ex_intro _ l (ex_intro _ blob (conj El (conj Hb Hl))))) as Hload.
    pose proof (WindowsCredentialStore.load_keeps_file path temporary d s ltac:(eauto)) as Hfiles.
    assert (faults (WindowsCredentialStore.windows_load_or_create path temporary d s).2 = []) as Hf'.
    { unfold WindowsCredentialStore.windows_load_or_create, fs_exists.
      rewrite bool_decide_eq_true_2 by eauto. simpl. rewrite (fs_read_ok path s blob) by done.
      by destruct (WindowsCredentialStore.unprotect blob). }
    destruct (WindowsCredentialStore.windows_load_or_create path temporary d s) as [r s']. simpl in *.
    exists s'. rewrite Hload. split; [done|]. split; [done|]. exists blob. rewrite Hfiles.
    split; [by exists l|done].
  - unfold WindowsCredentialStore.windows_load_or_create, fs_exists.
    rewrite bool_decide_eq_false_2 by (rewrite Hc; by intros [? ?]). simpl.
    destruct (windows_save_sim None s d He Hr) as (s' & -> & Hs'). eauto.
Qed.

(** Without faults the development store and the Windows store give the
    same answers to every sequence of loads and saves, and they are those of a
    cell that holds the last identity: what was saved is what is loaded, and a
    first load creates the default. *)
Theorem stores_equivalent dev_path ops c s s' :
  Forall (fun op => encryptable (op_identity op)) ops ->
  on_disk_as as_json dev_path c s -> on_disk_as as_blob path c s' ->
  session (DevelopmentStore.development_store dev_path) ops s =
    session (WindowsCredentialStore.windows_store path temporary) ops s' /\
  session (DevelopmentStore.development_store dev_path) ops s = session cell_store ops c.
Proof.
  intros He Hd Hw.
  rewrite (session_simulates (DevelopmentStore.development_store dev_path) (on_disk_as as_json dev_path)
    encryptable (development_save_sim dev_path) (development_load_sim dev_path) ops c s He Hd).
  by rewrite (session_simulates (WindowsCredentialStore.windows_store path temporary) (on_disk_as as_blob path)
    encryptable windows_save_sim windows_load_sim ops c s' He Hw).
Qed.

End Stores.

(** ** Witness *)

Module StoreEquivalenceSamples.
Import StorageSamples.

Definition renewed : HostIdentity := MkHostIdentity [x01] (Some [x03]) None 0 [] None.

Definition history : list store_op := [LoadOrCreate an_identity; Save renewed; LoadOrCreate an_identity].

(** How long the toy encoding of an identity is. *)
Definition coded_length (i : HostIdentity) : Z := Z.of_nat (length (bits_of (encode (identity_tuple i)))).

Lemma toy_encryptable i :
  (coded_length i <=? u32_max) = true -> encryptable (S := toy_serde) (D := toy_dpapi) i.
Proof.
  intros Hl. exists (bits_of (encode (identity_tuple i))), (bits_of (encode (identity_tuple i))).
  split; [done|]. unfold WindowsCredentialStore.protect, try_from, coded_length in *.
  rewrite (proj2 (Z.leb_le 0 _) (Zle_0_nat _)), Hl. simpl. by rewrite Hl.
Qed.

Lemma stores_equivalent_witness :
  session (DevelopmentStore.development_store (S := toy_serde) "state.json") history (MkFs ∅ []) =
    session (WindowsCredentialStore.windows_store (S := toy_serde) (D := toy_dpapi) "credential" "temporary")
      history (MkFs ∅ []) /\
  session (DevelopmentStore.development_store (S := toy_serde) "state.json") history (MkFs ∅ []) =
    [Loaded (Ok an_identity); Saved (Ok tt); Loaded (Ok renewed)].
Proof.
  apply (stores_equivalent (S := toy_serde) (SL := toy_serde_laws) (D := toy_dpapi) (DL := toy_dpapi_laws)
    "credential" "temporary" "state.json" history None (MkFs ∅ []) (MkFs ∅ [])).
  - repeat constructor; apply toy_encryptable; vm_compute; reflexivity.
  - by split.
  - by split.
Defined.

End StoreEquivalenceSamples.
