(* ===== verification/Power.v ===== *)
(** * Power control (host/src/power/mod.rs, power/windows.rs)

    The [PowerController] trait as a class, the mock controller, and the
    Windows controller over a record of Win32 outcomes; the state logs the
    calls that are made. *)
From stdpp Require Import base list strings.
From S2P Require Import Prelude RustStd.
Open Scope Z_scope.
Open Scope list_scope.

Record PowerError := { message : string }.

(** [async fn shutdown(&self) -> Result<(), PowerError>], with the state behind
    the controller. *)
Class PowerController (Pw : Type) := power_shutdown : Pw -> result unit PowerError * Pw.

(** ** [MockPowerController] *)

Record MockPowerController := {
  requested : bool;
  fail : bool;
}.

Definition mock_default : MockPowerController := {| requested := false; fail := false |}.
Definition mock_failing : MockPowerController := {| requested := false; fail := true |}.
Definition was_requested (m : MockPowerController) : bool := requested m.

Definition mock_shutdown (m : MockPowerController) : result unit PowerError * MockPowerController :=
  let m := {| requested := true; fail := fail m |} in
  if fail m then (Err {| message := "mock shutdown rejected" |}, m) else (Ok tt, m).

#[export] Instance mock_power : PowerController MockPowerController := mock_shutdown.

(** ** [WindowsPowerController] *)

Module WindowsPower.

(** The Win32 calls, in the order they are made. *)
Inductive call :=
| OpenProcessToken
| LookupPrivilegeValueW
| AdjustTokenPrivileges
| GetLastError
| CloseHandle
| InitiateShutdownW.

(** What the calls return: an error message, or nothing, and for the last two
    the values the code tests. *)
Record Win32 := {
  open_process_token : result unit string;
  lookup_privilege_value : result unit string;
  adjust_token_privileges : result unit string;
  not_all_assigned : bool;
  initiate_shutdown : Z;
}.

Record state := { api : Win32; calls : list call }.

Definition log (c : call) (s : state) : state := {| api := api s; calls := calls s ++ [c] |}.

Definition windows_error {A} (text detail : string) : result A PowerError :=
  Err {| message := text +:+ detail |}.

(** The closure of [enable_shutdown_privilege]. *)
Definition adjust (s : state) : result unit PowerError * state :=
  let s := log LookupPrivilegeValueW s in
  match lookup_privilege_value (api s) with
  | Err e => (windows_error "could not find SeShutdownPrivilege: " e, s)
  | Ok _ =>
      let s := log AdjustTokenPrivileges s in
      match adjust_token_privileges (api s) with
      | Err e => (windows_error "could not enable SeShutdownPrivilege: " e, s)
      | Ok _ =>
          let s := log GetLastError s in
          if not_all_assigned (api s)
          then (windows_error "the service account does not hold SeShutdownPrivilege" "", s)
          else (Ok tt, s)
      end
  end.

Definition enable_shutdown_privilege (s : state) : result unit PowerError * state :=
  let s := log OpenProcessToken s in
  match open_process_token (api s) with
  | Err e => (windows_error "could not open service token: " e, s)
  | Ok _ =>
      let '(operation, s) := adjust s in
      (operation, log CloseHandle s)
  end.

Definition windows_shutdown (s : state) : result unit PowerError * state :=
  match enable_shutdown_privilege s with
  | (Err e, s) => (Err e, s)
  | (Ok _, s) =>
      let s := log InitiateShutdownW s in
      let result := initiate_shutdown (api s) in
      if result =? 0 then (Ok tt, s)
      else (windows_error "InitiateShutdownW failed with Windows error " (to_string result), s)
  end.

#[export] Instance windows_power : PowerController state := windows_shutdown.

(** Whether a call occurs in the log. *)
Definition called (c : call) (l : list call) : Prop := c ∈ l.

(** The Windows controller reports success exactly when every step of
    enabling the privilege succeeded, the privilege was really assigned and
    [InitiateShutdownW] returned zero; the shutdown call is made only with the
    privilege enabled, and the token is closed exactly when it was opened, on
    every path. *)
Theorem windows_shutdown_spec (w : Win32) :
  let '(r, s') := windows_shutdown {| api := w; calls := [] |} in
  (r = Ok tt <->
    open_process_token w = Ok tt /\ lookup_privilege_value w = Ok tt /\
    adjust_token_privileges w = Ok tt /\ not_all_assigned w = false /\ initiate_shutdown w = 0) /\
  (called InitiateShutdownW (calls s') <->
    open_process_token w = Ok tt /\ lookup_privilege_value w = Ok tt /\
    adjust_token_privileges w = Ok tt /\ not_all_assigned w = false) /\
  (called CloseHandle (calls s') <-> open_process_token w = Ok tt) /\
  (calls s' = [OpenProcessToken] \/ exists mid, calls s' = OpenProcessToken :: mid ++ [CloseHandle] \/
     calls s' = OpenProcessToken :: mid ++ [CloseHandle; InitiateShutdownW]).
Proof.
  destruct w as [[[]|eo] [[]|el] [[]|ea] na rc]; cbn.
  all: try (destruct na; cbn).
  all: try (destruct (rc =? 0) eqn:E; bool_to_prop; cbn).
  all: unfold called; rewrite ?elem_of_cons, ?elem_of_nil.
  all: repeat split; intros; destruct_and?; try done; try (by intuition eauto); try lia.
  all: try (by left).
  all: right;
    first [ by exists [LookupPrivilegeValueW]; left
          | by exists [LookupPrivilegeValueW; AdjustTokenPrivileges]; left
          | by exists [LookupPrivilegeValueW; AdjustTokenPrivileges; GetLastError]; left
          | by exists [LookupPrivilegeValueW; AdjustTokenPrivileges; GetLastError]; right ].
Qed.

End WindowsPower.
