(* ===== verification/Wire.v ===== *)
(** * Messages and HTTP

    The Protobuf messages of proto/decky_my_rig.proto as records, with the
    encoder and decoder that prost generates as parameters; the pieces of the
    http and hex crates the server uses, also as parameters. *)
From stdpp Require Import base list strings.
From S2P Require Import Prelude RustStd.
Open Scope Z_scope.

Record StatusRequest := {
  status_protocol_version : Z;
  status_client_version : string;
}.

Record StatusResponse := {
  status_hostname : string;
  status_host_version : string;
  status_response_protocol_version : Z;
  status_paired : bool;
  status_host_id : string;
}.

Record PairRequest := {
  pair_protocol_version : Z;
  client_spake2_message : bytes;
  pair_session_id : bytes;
  client_confirmation : bytes;
  pair_client_version : string;
}.

Record PairResponse := {
  host_spake2_message : bytes;
  encryption_nonce : bytes;
  pair_encrypted_credential : bytes;
  pair_hostname : string;
  pair_host_version : string;
  pair_response_protocol_version : Z;
  pair_host_id : string;
  pair_response_session_id : bytes;
}.

Record ShutdownRequest := {
  shutdown_protocol_version : Z;
  shutdown_client_version : string;
}.

Record ShutdownResponse := { accepted : bool }.

Inductive ErrorCode :=
| Unspecified
| Unauthorized
| ErrorPairingExpired
| AlreadyPaired
| ShutdownFailed
| ProtocolMismatch
| ErrorRateLimited
| MalformedRequest
| HostIdentityMismatch.

#[export] Instance ErrorCode_eq_dec : EqDecision ErrorCode.
Proof. solve_decision. Defined.

(** [code as i32]. *)
Definition error_code_i32 (c : ErrorCode) : Z :=
  match c with
  | Unspecified => 0
  | Unauthorized => 1
  | ErrorPairingExpired => 2
  | AlreadyPaired => 3
  | ShutdownFailed => 4
  | ProtocolMismatch => 5
  | ErrorRateLimited => 6
  | MalformedRequest => 7
  | HostIdentityMismatch => 8
  end.

Record ErrorResponse := {
  error_code : Z;
  error_message : string;
}.

(** ** prost *)

(** [encode_to_vec] and [decode] of one message type. *)
Class Message (M : Type) := {
  encode_to_vec : M -> bytes;
  decode : bytes -> option M;
}.

Class Wire := {
  wire_status_request :: Message StatusRequest;
  wire_status_response :: Message StatusResponse;
  wire_pair_request :: Message PairRequest;
  wire_pair_response :: Message PairResponse;
  wire_shutdown_request :: Message ShutdownRequest;
  wire_shutdown_response :: Message ShutdownResponse;
  wire_error_response :: Message ErrorResponse;
}.

(** The messages Rust can hold: [u32] and [i32] fields in range, [String]
    fields that are UTF-8. *)
Definition str_wf (s : string) : Prop := utf8_valid (as_bytes s) = true.

Definition StatusRequest_wf (m : StatusRequest) : Prop :=
  in_range u32_max (status_protocol_version m) /\ str_wf (status_client_version m).
Definition StatusResponse_wf (m : StatusResponse) : Prop :=
  in_range u32_max (status_response_protocol_version m) /\ str_wf (status_hostname m) /\
  str_wf (status_host_version m) /\ str_wf (status_host_id m).
Definition PairRequest_wf (m : PairRequest) : Prop :=
  in_range u32_max (pair_protocol_version m) /\ str_wf (pair_client_version m).
Definition PairResponse_wf (m : PairResponse) : Prop :=
  in_range u32_max (pair_response_protocol_version m) /\ str_wf (pair_hostname m) /\
  str_wf (pair_host_version m) /\ str_wf (pair_host_id m).
Definition ShutdownRequest_wf (m : ShutdownRequest) : Prop :=
  in_range u32_max (shutdown_protocol_version m) /\ str_wf (shutdown_client_version m).
Definition ErrorResponse_wf (m : ErrorResponse) : Prop :=
  0 <= error_code m < 2 ^ 31 /\ str_wf (error_message m).

Class WireLaws (W : Wire) : Prop := {
  decode_status_request (m : StatusRequest) :
    StatusRequest_wf m -> decode (encode_to_vec m) = Some m;
  decode_status_response (m : StatusResponse) :
    StatusResponse_wf m -> decode (encode_to_vec m) = Some m;
  decode_pair_request (m : PairRequest) :
    PairRequest_wf m -> decode (encode_to_vec m) = Some m;
  decode_pair_response (m : PairResponse) :
    PairResponse_wf m -> decode (encode_to_vec m) = Some m;
  decode_shutdown_request (m : ShutdownRequest) :
    ShutdownRequest_wf m -> decode (encode_to_vec m) = Some m;
  decode_shutdown_response (m : ShutdownResponse) : decode (encode_to_vec m) = Some m;
  decode_error_response (m : ErrorResponse) :
    ErrorResponse_wf m -> decode (encode_to_vec m) = Some m;
}.

(** ** http and hex *)

(** The answers axum gives on its own: no route, no such method on the route, a
    body over the limit, a body that breaks off. *)
Inductive Rejection := NoRoute | MethodNotAllowed | LengthLimit | UnreadBody.

Class Http := {
  HeaderMap : Type;
  (** the headers and the body of such an answer *)
  rejection_headers : Rejection -> list (string * bytes);
  rejection_body : Rejection -> bytes;
  (** [HeaderMap::get] with a lower-case name: the first value of that name *)
  headers_get : HeaderMap -> string -> option bytes;
  (** [HeaderValue::to_str] *)
  header_to_str : bytes -> option string;
  (** [str::parse::<HeaderValue>] *)
  header_value_parse : string -> option bytes;
  hex_encode : bytes -> string;
  hex_decode : string -> option bytes;
}.

(** A string of visible ASCII characters, spaces included. *)
Definition visible_ascii (s : string) : bool := str_all (fun c => (32 <=? code c) && (code c <=? 126)) s.

Class HttpLaws (H : Http) : Prop := {
  header_parse_visible s : visible_ascii s = true ->
    exists v, header_value_parse s = Some v /\ header_to_str v = Some s;
  hex_round_trip l : hex_decode (hex_encode l) = Some l;
  hex_visible l : visible_ascii (hex_encode l) = true;
  hex_unspaced l : str_all (fun c => negb (is_ascii_space c)) (hex_encode l) = true;
}.
