(* ===== verification/HttpText.v ===== *)
(** * Text of HTTP/1.1 messages

    The string functions of Rust's standard library the command line client
    takes a response apart with ([chars], [is_whitespace], [trim],
    [split_whitespace], [split_once], [lines], the search for the empty line),
    and the layout of requests and responses of RFC 9112 they are used on. *)
From stdpp Require Import base list strings.
From Stdlib Require Import Ascii ZArith Lia.
From Stdlib Require Strings.String.
From S2P Require Import Prelude RustStd Wire.
Open Scope string_scope.
Open Scope Z_scope.
Open Scope list_scope.

(** ** Characters of a UTF-8 string *)

(** [str::chars], each character as its UTF-8 bytes. *)
Fixpoint chars (s : string) : list string :=
  match s with
  | EmptyString => []
  | String a s1 =>
      if code a <? 128 then String a EmptyString :: chars s1
      else match s1 with
      | EmptyString => [s]
      | String b s2 =>
          if code a <? 224 then String a (String b EmptyString) :: chars s2
          else match s2 with
          | EmptyString => [s]
          | String c s3 =>
              if code a <? 240 then String a (String b (String c EmptyString)) :: chars s3
              else match s3 with
              | EmptyString => [s]
              | String d s4 => String a (String b (String c (String d EmptyString))) :: chars s4
              end
          end
      end
  end.

(** [char::is_whitespace]: the characters with the property [White_Space]. *)
Definition unicode_spaces : list bytes :=
  [[xc2; x85]; [xc2; xa0]; [xe1; x9a; x80];
   [xe2; x80; x80]; [xe2; x80; x81]; [xe2; x80; x82]; [xe2; x80; x83]; [xe2; x80; x84];
   [xe2; x80; x85]; [xe2; x80; x86]; [xe2; x80; x87]; [xe2; x80; x88]; [xe2; x80; x89];
   [xe2; x80; x8a]; [xe2; x80; xa8]; [xe2; x80; xa9]; [xe2; x80; xaf]; [xe2; x81; x9f];
   [xe3; x80; x80]].

Definition is_whitespace (c : string) : bool :=
  match c with
  | String a EmptyString => is_ascii_space a
  | _ => existsb (fun l => bool_decide (as_bytes c = l)) unicode_spaces
  end.

Fixpoint str_concat (l : list string) : string :=
  match l with
  | [] => EmptyString
  | s :: l => s +:+ str_concat l
  end.

(** [s.chars().filter(|c| !c.is_whitespace()).collect::<String>()]. *)
Definition remove_whitespace (s : string) : string :=
  str_concat (List.filter (fun c => negb (is_whitespace c)) (chars s)).

(** [str::trim]. *)
Definition trim_text (s : string) : string :=
  str_concat (rev (drop_while is_whitespace (rev (drop_while is_whitespace (chars s))))).

(** [str::split_whitespace]: the maximal runs of other characters. *)
Fixpoint runs (cs : list string) : list string :=
  match cs with
  | [] => [EmptyString]
  | c :: cs =>
      if is_whitespace c then EmptyString :: runs cs
      else match runs cs with
           | [] => [c]
           | w :: ws => (c +:+ w) :: ws
           end
  end.

Definition split_whitespace (s : string) : list string :=
  List.filter (fun w => negb (bool_decide (w = EmptyString))) (runs (chars s)).

(** [str::split_once(c)]. *)
Fixpoint split_once (sep : ascii) (s : string) : option (string * string) :=
  match s with
  | EmptyString => None
  | String c s' =>
      if Ascii.eqb c sep then Some (EmptyString, s')
      else match split_once sep s' with
           | Some (a, b) => Some (String c a, b)
           | None => None
           end
  end.

Definition CR : ascii := "013"%char.
Definition LF : ascii := "010"%char.

(** [strip_suffix('\r')], when there is one. *)
Fixpoint strip_cr (s : string) : string :=
  match s with
  | EmptyString => EmptyString
  | String c EmptyString => if Ascii.eqb c CR then EmptyString else s
  | String c s' => String c (strip_cr s')
  end.

(** [str::lines]: the last piece counts only when it is not empty, and keeps a
    carriage return. *)
Fixpoint lines_of (pieces : list string) : list string :=
  match pieces with
  | [] => []
  | [last] => if bool_decide (last = EmptyString) then [] else [last]
  | p :: ps => strip_cr p :: lines_of ps
  end.

Definition lines (s : string) : list string := lines_of (split_char LF s).

(** [response.windows(4).position(|w| w == b"\r\n\r\n")]. *)
Definition blank_line : bytes := [x0d; x0a; x0d; x0a].

Fixpoint position_blank (l : bytes) : option nat :=
  match l with
  | [] => None
  | _ :: l' =>
      if bool_decide (take 4 l = blank_line) then Some O
      else match position_blank l' with Some n => Some (S n) | None => None end
  end.

(** ** Layout of messages (RFC 9112) *)

Definition CRLF : string := String CR (String LF EmptyString).

(** A header field as it is written on its line. *)
Definition field_line (f : string * string) : string := f.1 +:+ ": " +:+ f.2.

(** The start line and the lines of the fields, with [CRLF] between them. *)
Fixpoint join_lines (first : string) (rest : list string) : string :=
  match rest with
  | [] => first
  | l :: rest => first +:+ CRLF +:+ join_lines l rest
  end.

Definition message_head (start_line : string) (fields : list (string * string)) : string :=
  join_lines start_line (map field_line fields).

Definition message_text (start_line : string) (fields : list (string * string)) (body : bytes) : bytes :=
  as_bytes (message_head start_line fields) ++ blank_line ++ body.

Definition request_line (method path : string) : string := method +:+ " " +:+ path +:+ " HTTP/1.1".
Definition status_line (status : Z) (reason : string) : string :=
  "HTTP/1.1 " +:+ to_string status +:+ " " +:+ reason.

(** A visible character that is not a space, and a string of such. *)
Definition graphic (s : string) : bool := str_all (fun c => (33 <=? code c) && (code c <=? 126)) s.

(** A field a message can carry: a name without a colon, and a visible value
    without white space at its ends. *)
Definition field_ok (f : string * string) : Prop :=
  f.1 <> "" /\ graphic f.1 = true /\ str_all (fun c => negb (Ascii.eqb c ":"%char)) f.1 = true /\
  visible_ascii f.2 = true /\ trim_text f.2 = f.2.

(** ** Lemmas *)

Lemma graphic_visible s : graphic s = true -> visible_ascii s = true.
Proof. apply str_all_impl. intros c Hc. bool_to_prop. apply andb_true_iff; rewrite !Z.leb_le; lia. Qed.

Lemma visible_is_ascii s : visible_ascii s = true -> is_ascii s = true.
Proof. apply str_all_impl. intros c Hc. bool_to_prop. unfold char_is_ascii. apply Z.ltb_lt; lia. Qed.

Lemma is_ascii_app a b : is_ascii (a +:+ b) = is_ascii a && is_ascii b.
Proof. apply str_all_app. Qed.

Lemma visible_app a b : visible_ascii (a +:+ b) = visible_ascii a && visible_ascii b.
Proof. apply str_all_app. Qed.

(** *** Splitting *)

Lemma split_once_app sep a b :
  str_all (fun c => negb (Ascii.eqb c sep)) a = true ->
  split_once sep (a +:+ String sep b) = Some (a, b).
Proof.
  induction a as [|c a IH]; intros Ha.
  - change ("" +:+ String sep b) with (String sep b). simpl. by rewrite Ascii.eqb_refl.
  - change (String c a +:+ String sep b) with (String c (a +:+ String sep b)).
    simpl in *. bool_to_prop. by rewrite H, IH.
Qed.

Lemma split_once_field f : field_ok f -> split_once ":"%char (field_line f) = Some (f.1, " " +:+ f.2).
Proof.
  intros (_ & _ & Hc & _). unfold field_line.
  change (": " +:+ f.2) with (String ":"%char (" " +:+ f.2)). by apply split_once_app.
Qed.

Lemma trim_text_space v : trim_text v = v -> trim_text (" " +:+ v) = v.
Proof. intros H. rewrite <- H at 2. done. Qed.

Lemma field_line_visible f : field_ok f -> visible_ascii (field_line f) = true.
Proof.
  intros (_ & Hg & _ & Hv & _). unfold field_line. rewrite !visible_app, Hv.
  by rewrite (graphic_visible _ Hg).
Qed.

Lemma field_line_nonempty f : field_ok f -> field_line f <> "".
Proof. intros (Hn & _). unfold field_line. by destruct f as [[|c n] v]. Qed.

Lemma visible_no_char sep s :
  code sep < 32 -> visible_ascii s = true -> str_all (fun c => negb (Ascii.eqb c sep)) s = true.
Proof.
  intros Hs. apply str_all_impl. intros c Hc. bool_to_prop.
  destruct (Ascii.eqb_spec c sep) as [->|]; [lia|done].
Qed.

Lemma strip_cr_app s : strip_cr (s +:+ String CR EmptyString) = s.
Proof.
  induction s as [|c s IH]; [done|].
  change (String c s +:+ String CR "") with (String c (s +:+ String CR "")).
  cbn [strip_cr]. rewrite IH. by destruct s.
Qed.

(** Lines that were joined are found again. *)
Lemma lines_join first rest :
  Forall (fun l => visible_ascii l = true /\ l <> "") (first :: rest) ->
  lines (join_lines first rest) = first :: rest.
Proof.
  unfold lines. revert first; induction rest as [|l rest IH]; intros first HF;
    apply Forall_cons in HF as [[Hv Hn] HF]; cbn [join_lines].
  - rewrite split_char_none by (by apply visible_no_char). simpl.
    by rewrite bool_decide_eq_false_2.
  - replace (first +:+ CRLF +:+ join_lines l rest)
      with ((first +:+ String CR "") +:+ String LF (join_lines l rest))
      by (rewrite str_app_assoc; done).
    rewrite split_char_app.
    2:{ rewrite str_all_app, (visible_no_char LF first) by done. done. }
    specialize (IH l HF). destruct (split_char LF (join_lines l rest)) as [|q qs] eqn:E.
    { by apply split_char_nonempty in E. }
    change (strip_cr (first +:+ String CR "") :: lines_of (q :: qs) = first :: l :: rest).
    by rewrite strip_cr_app, IH.
Qed.

(** *** The end of the head *)

Lemma as_bytes_app a b : as_bytes (a +:+ b) = as_bytes a ++ as_bytes b.
Proof. induction a as [|c a IH]; [done|]. exact (f_equal (cons (byte_of_ascii c)) IH). Qed.

Lemma byte_not_cr c : negb (Ascii.eqb c CR) = true -> byte_of_ascii c <> x0d.
Proof.
  intros H E. apply (f_equal ascii_of_byte) in E. rewrite ascii_of_byte_of_ascii in E.
  subst c. done.
Qed.

Lemma position_blank_cons b l : position_blank (b :: l) =
  if bool_decide (take 4 (b :: l) = blank_line) then Some O
  else match position_blank l with Some n => Some (S n) | None => None end.
Proof. done. Qed.

Lemma position_blank_skip b l :
  b <> x0d -> position_blank (b :: l) =
    match position_blank l with Some n => Some (S n) | None => None end.
Proof. intros Hb. rewrite position_blank_cons, bool_decide_eq_false_2; [done|]. by intros [= -> _]. Qed.

(** No empty line begins inside a visible text. *)
Lemma position_blank_text s l n :
  visible_ascii s = true -> position_blank l = Some n ->
  position_blank (as_bytes s ++ l) = Some (str_len s + n)%nat.
Proof.
  intros Hs Hl. induction s as [|c s IH]; [done|].
  unfold visible_ascii in *. simpl in Hs. apply andb_true_iff in Hs as [Hc Hs].
  change (as_bytes (String c s) ++ l) with (byte_of_ascii c :: (as_bytes s ++ l)).
  rewrite position_blank_skip, IH by (try apply byte_not_cr; try done;
    bool_to_prop; destruct (Ascii.eqb_spec c CR) as [->|]; done).
  done.
Qed.

Lemma position_blank_crlf s l n :
  visible_ascii s = true -> s <> "" -> position_blank (as_bytes s ++ l) = Some n ->
  position_blank (as_bytes CRLF ++ as_bytes s ++ l) = Some (2 + n)%nat.
Proof.
  intros Hs Hn Hl. destruct s as [|c s]; [done|].
  unfold visible_ascii in Hs. simpl in Hs. bool_to_prop.
  change (as_bytes CRLF ++ as_bytes (String c s) ++ l)
    with (x0d :: x0a :: byte_of_ascii c :: (as_bytes s ++ l)).
  rewrite position_blank_cons, bool_decide_eq_false_2.
  2:{ intros [= E _]. revert E. apply byte_not_cr. by destruct (Ascii.eqb_spec c CR) as [->|]. }
  rewrite position_blank_skip by done.
  change (byte_of_ascii c :: as_bytes s ++ l) with (as_bytes (String c s) ++ l).
  by rewrite Hl.
Qed.

Lemma position_blank_join first rest body :
  Forall (fun l => visible_ascii l = true /\ l <> "") (first :: rest) ->
  position_blank (as_bytes (join_lines first rest) ++ blank_line ++ body) =
    Some (str_len (join_lines first rest)).
Proof.
  revert first; induction rest as [|l rest IH]; intros first HF;
    apply Forall_cons in HF as [[Hv Hn] HF]; cbn [join_lines].
  - rewrite (position_blank_text _ _ 0) by done. f_equal. lia.
  - specialize (IH l HF). apply Forall_cons in HF as [[Hv' Hn'] _].
    rewrite !as_bytes_app, <- !app_assoc, !str_len_app.
    apply (position_blank_text first); [done|].
    assert (exists t, join_lines l rest = l +:+ t) as [t Et].
    { destruct rest; [exists ""; by rewrite str_app_nil_r|by eexists]. }
    rewrite Et, as_bytes_app, <- app_assoc in IH |- *.
    by apply position_blank_crlf.
Qed.

(** *** ASCII text is UTF-8 *)

Lemma from_utf8_ascii s : is_ascii s = true -> from_utf8 (as_bytes s) = Some s.
Proof.
  intros Hs. unfold from_utf8. rewrite is_ascii_utf8 by done. f_equal.
  apply String.string_of_list_byte_of_string.
Qed.

Lemma join_lines_ascii first rest :
  Forall (fun l => visible_ascii l = true /\ l <> "") (first :: rest) ->
  is_ascii (join_lines first rest) = true.
Proof.
  revert first; induction rest as [|l rest IH]; intros first HF;
    apply Forall_cons in HF as [[Hv Hn] HF]; cbn [join_lines].
  - by apply visible_is_ascii.
  - rewrite !is_ascii_app, IH, (visible_is_ascii first) by done. done.
Qed.

(** *** Words *)

Lemma runs_word w c cs :
  graphic w = true -> is_whitespace c = true -> runs (chars w ++ c :: cs) = w :: runs cs.
Proof.
  intros Hw Hc. induction w as [|a w IH].
  - simpl. by rewrite Hc.
  - unfold graphic in *. simpl in Hw. bool_to_prop.
    cbn [chars]. rewrite (proj2 (Z.ltb_lt _ _)) by lia. cbn [app runs].
    assert (is_whitespace (String a "") = false) as ->.
    { cbn [is_whitespace]. unfold is_ascii_space. apply orb_false_iff.
      rewrite andb_false_iff, !Z.leb_gt, Z.eqb_neq. lia. }
    by rewrite IH.
Qed.

Lemma chars_app_ascii a b : is_ascii a = true -> chars (a +:+ b) = chars a ++ chars b.
Proof.
  unfold is_ascii, char_is_ascii. induction a as [|c a IH]; [done|].
  change (String c a +:+ b) with (String c (a +:+ b)). cbn [str_all chars]. intros Hs.
  apply andb_true_iff in Hs as [-> Hs]. by rewrite IH.
Qed.

(** The first two words of a text. *)
Lemma split_whitespace_two w1 w2 rest :
  graphic w1 = true -> graphic w2 = true -> w1 <> "" -> w2 <> "" ->
  exists ws, split_whitespace (w1 +:+ " " +:+ w2 +:+ " " +:+ rest) = w1 :: w2 :: ws.
Proof.
  intros H1 H2 N1 N2. unfold split_whitespace.
  rewrite (chars_app_ascii w1), (chars_app_ascii " "), (chars_app_ascii w2), (chars_app_ascii " ")
    by (done || by apply visible_is_ascii, graphic_visible).
  change (chars " ") with [" "]. cbn [app].
  rewrite runs_word, runs_word by done. cbn [List.filter].
  rewrite !bool_decide_eq_false_2 by done. eauto.
Qed.

Lemma digits_graphic s : str_all is_ascii_digit s = true -> graphic s = true.
Proof.
  apply str_all_impl. unfold is_ascii_digit. intros c Hc. bool_to_prop.
  apply andb_true_iff; rewrite !Z.leb_le; lia.
Qed.

Lemma graphic_trim s : graphic s = true -> trim_text s = s.
Proof.
  assert (forall l, Forall (fun c => is_whitespace c = false) l -> drop_while is_whitespace l = l) as Hd.
  { intros [|c l] HF; [done|]. simpl. by rewrite (Forall_inv HF). }
  intros Hs. assert (Forall (fun c => is_whitespace c = false) (chars s) /\ str_concat (chars s) = s)
    as [HF Hc].
  { unfold graphic in Hs. induction s as [|a s IH]; [done|]. simpl in Hs. bool_to_prop.
    destruct IH as [IH1 IH2]; [done|]. cbn [chars]. rewrite (proj2 (Z.ltb_lt _ _)) by lia. split.
    - constructor; [|done]. cbn [is_whitespace]. unfold is_ascii_space. apply orb_false_iff.
      rewrite andb_false_iff, !Z.leb_gt, Z.eqb_neq. lia.
    - cbn [str_concat]. by rewrite IH2. }
  unfold trim_text. rewrite (Hd (chars s)) by done. rewrite Hd by (by apply Forall_rev). by rewrite rev_involutive.
Qed.
