(* ===== verification/Proto3.v ===== *)
(** * The Protobuf wire format

    The encoding document of Protocol Buffers: varints, records of the six wire
    types, the two of groups among them, and what it means for a sequence of
    records to carry a message of proto/decky_my_rig.proto.  It is what the
    host's encoder (prost, a parameter) and the plugin's own codec both have to
    follow. *)
From stdpp Require Import base gmap list strings.
From Stdlib Require Import Ascii ZArith Lia.
From S2P Require Import Prelude RustStd Wire.
Open Scope string_scope.
Open Scope Z_scope.
Open Scope list_scope.

(** ** Varints: groups of seven bits, the least significant first, every byte
    but the last with its high bit set *)
Fixpoint is_varint (l : bytes) (v : Z) : Prop :=
  match l with
  | [] => False
  | b :: l' =>
      match l' with
      | [] => byte_to_Z b < 128 /\ v = byte_to_Z b
      | _ => 128 <= byte_to_Z b /\ exists w, v = byte_to_Z b - 128 + 128 * w /\ is_varint l' w
      end
  end.

(** A varint of the format: an integer of 64 bits, in at most ten bytes. *)
Definition varint (l : bytes) (v : Z) : Prop := is_varint l v /\ (length l <= 10)%nat /\ v < 2 ^ 64.

(** ** Records *)

Inductive payload :=
| Varint (v : Z)
| Fixed64 (l : bytes)
| Len (l : bytes)
| Fixed32 (l : bytes).

#[export] Instance payload_eq_dec : EqDecision payload.
Proof. solve_decision. Defined.

Definition wire_type (p : payload) : Z :=
  match p with Varint _ => 0 | Fixed64 _ => 1 | Len _ => 2 | Fixed32 _ => 5 end.

Inductive payload_bytes : payload -> bytes -> Prop :=
| bytes_varint v l : varint l v -> payload_bytes (Varint v) l
| bytes_fixed64 l : length l = 8%nat -> payload_bytes (Fixed64 l) l
| bytes_len n l : varint n (Z.of_nat (length l)) -> payload_bytes (Len l) (n ++ l)
| bytes_fixed32 l : length l = 4%nat -> payload_bytes (Fixed32 l) l.

(** Field numbers have 29 bits, and zero is none. *)
Definition field_number (n : Z) : Prop := 1 <= n < 2 ^ 29.

(** A record is a field number with a payload. *)
Definition proto_record : Type := Z * payload.

Inductive record_bytes : proto_record -> bytes -> Prop :=
| bytes_record n p tag l :
    field_number n -> varint tag (n * 8 + wire_type p) -> payload_bytes p l -> record_bytes (n, p) (tag ++ l).

(** A message without groups is a sequence of records. *)
Inductive serialized : list proto_record -> bytes -> Prop :=
| serialized_nil : serialized [] []
| serialized_cons r rs l k : record_bytes r l -> serialized rs k -> serialized (r :: rs) (l ++ k).

(** The whole format: a group is a message between the tags of wire types 3 and
    4 of its number. *)
Inductive proto_field :=
| Scalar (p : payload)
| Group (fs : list (Z * proto_field)).

Inductive wire_format : list (Z * proto_field) -> bytes -> Prop :=
| wire_nil : wire_format [] []
| wire_scalar n p fs l k :
    record_bytes (n, p) l -> wire_format fs k -> wire_format ((n, Scalar p) :: fs) (l ++ k)
| wire_group n inner fs start body finish k :
    field_number n -> varint start (n * 8 + 3) -> wire_format inner body -> varint finish (n * 8 + 4) ->
    wire_format fs k -> wire_format ((n, Group inner) :: fs) (start ++ body ++ finish ++ k).

(** The records of a message that has no groups. *)
Fixpoint scalars (fs : list (Z * proto_field)) : option (list proto_record) :=
  match fs with
  | [] => Some []
  | (n, Scalar p) :: fs => cons (n, p) <$> scalars fs
  | (_, Group _) :: _ => None
  end.

(** ** Messages

    Scalar fields of proto3: a field with its default value is not written. *)
Inductive field_value :=
| UInt (z : Z)
| Bool (b : bool)
| Text (s : string)
| Blob (l : bytes).

Definition field_payload (v : field_value) : option payload :=
  match v with
  | UInt z => if z =? 0 then None else Some (Varint z)
  | Bool b => if b then Some (Varint 1) else None
  | Text s => if bool_decide (s = "") then None else Some (Len (as_bytes s))
  | Blob l => if bool_decide (l = []) then None else Some (Len l)
  end.

Definition records_of (fs : list (Z * field_value)) : list proto_record :=
  omap (fun f => match field_payload f.2 with Some p => Some (f.1, p) | None => None end) fs.

(** The fields of a message with their numbers. *)
Class Proto (M : Type) := proto_fields : M -> list (Z * field_value).

#[export] Instance StatusRequest_proto : Proto StatusRequest := fun m =>
  [(1, UInt (status_protocol_version m)); (2, Text (status_client_version m))].

#[export] Instance StatusResponse_proto : Proto StatusResponse := fun m =>
  [(1, Text (status_hostname m)); (2, Text (status_host_version m));
   (3, UInt (status_response_protocol_version m)); (4, Bool (status_paired m));
   (5, Text (status_host_id m))].

#[export] Instance PairRequest_proto : Proto PairRequest := fun m =>
  [(1, UInt (pair_protocol_version m)); (2, Blob (client_spake2_message m));
   (3, Blob (pair_session_id m)); (4, Blob (client_confirmation m));
   (5, Text (pair_client_version m))].

#[export] Instance PairResponse_proto : Proto PairResponse := fun m =>
  [(1, Blob (host_spake2_message m)); (2, Blob (encryption_nonce m));
   (3, Blob (pair_encrypted_credential m)); (4, Text (pair_hostname m));
   (5, Text (pair_host_version m)); (6, UInt (pair_response_protocol_version m));
   (7, Text (pair_host_id m)); (8, Blob (pair_response_session_id m))].

#[export] Instance ShutdownRequest_proto : Proto ShutdownRequest := fun m =>
  [(1, UInt (shutdown_protocol_version m)); (2, Text (shutdown_client_version m))].

#[export] Instance ShutdownResponse_proto : Proto ShutdownResponse := fun m =>
  [(1, Bool (accepted m))].

#[export] Instance ErrorResponse_proto : Proto ErrorResponse := fun m =>
  [(1, UInt (error_code m)); (2, Text (error_message m))].

(** A [String] or a [Vec] holds at most [isize::MAX] bytes. *)
Definition isize_max : Z := 9223372036854775807.

Definition value_sized (v : field_value) : bool :=
  match v with
  | Text s => Z.of_nat (str_len s) <=? isize_max
  | Blob l => Z.of_nat (length l) <=? isize_max
  | _ => true
  end.

Definition message_sized {M} {F : Proto M} (m : M) : bool :=
  forallb (fun f => value_sized f.2) (proto_fields m).

(** ** prost as an encoder and decoder of this format

    The records of a message may come in any order: an encoder writes them in
    some order, and a decoder accepts every order. *)
Class Proto3 {M} (C : Message M) (F : Proto M) (wf : M -> Prop) : Prop := {
  proto3_encodes m : wf m -> message_sized m = true ->
    exists rs, rs ≡ₚ records_of (proto_fields m) /\ serialized rs (encode_to_vec m);
  proto3_decodes m rs l : wf m -> message_sized m = true ->
    rs ≡ₚ records_of (proto_fields m) -> serialized rs l -> decode l = Some m;
}.

Class ProstLaws (W : Wire) : Prop := {
  prost_status_request :: Proto3 wire_status_request _ StatusRequest_wf;
  prost_status_response :: Proto3 wire_status_response _ StatusResponse_wf;
  prost_pair_request :: Proto3 wire_pair_request _ PairRequest_wf;
  prost_pair_response :: Proto3 wire_pair_response _ PairResponse_wf;
  prost_shutdown_request :: Proto3 wire_shutdown_request _ ShutdownRequest_wf;
  prost_shutdown_response :: Proto3 wire_shutdown_response _ (fun _ => True);
  prost_error_response :: Proto3 wire_error_response _ ErrorResponse_wf;
}.

(** ** Lemmas *)

Lemma is_varint_nonneg l v : is_varint l v -> 0 <= v.
Proof.
  revert v; induction l as [|b [|c l] IH]; intros v; [done| |]; cbn [is_varint].
  - intros [? ->]. apply byte_to_Z_range.
  - intros (? & w & -> & Hw). specialize (IH w Hw). lia.
Qed.

Lemma is_varint_nonempty l v : is_varint l v -> (0 < length l)%nat.
Proof. destruct l; [done|]. simpl. lia. Qed.

Lemma is_varint_bound l v : is_varint l v -> v < 128 ^ Z.of_nat (length l).
Proof.
  revert v; induction l as [|b [|c l] IH]; intros v; [done| |]; cbn [is_varint].
  - intros [? ->]. simpl. lia.
  - intros (? & w & -> & Hw). specialize (IH w Hw). pose proof (byte_to_Z_range b).
    change (length (b :: c :: l)) with (S (length (c :: l))).
    rewrite Nat2Z.inj_succ, Z.pow_succ_r by lia. lia.
Qed.

(** A message without groups is one of the whole format. *)
Lemma serialized_wire rs l :
  serialized rs l -> wire_format (map (fun r => (r.1, Scalar r.2)) rs) l.
Proof. induction 1 as [|[n p] rs l k Hr _ IH]; cbn [map fst snd]; by constructor. Qed.

(** Varints are self-delimiting. *)
Lemma is_varint_app_inj l v l' v' k k' :
  is_varint l v -> is_varint l' v' -> l ++ k = l' ++ k' -> l = l' /\ v = v' /\ k = k'.
Proof.
  revert l' v v'; induction l as [|b [|c l] IH]; intros [|b' [|c' l']] v v' H H'; try done; cbn [is_varint] in *.
  - intros [= -> ->]. destruct H, H'. by subst.
  - intros [= -> _]. lia.
  - intros [= -> _]. lia.
  - intros [= -> -> E]. destruct H as (_ & w & -> & Hw), H' as (_ & w' & -> & Hw').
    destruct (IH (c' :: l') w w' Hw Hw') as ([= ->] & -> & ->); [simpl; congruence|]. done.
Qed.

Lemma record_bytes_nonempty r l : record_bytes r l -> (0 < length l)%nat.
Proof. intros [n p tag k _ [Ht _] _]. rewrite length_app. apply is_varint_nonempty in Ht. lia. Qed.

Lemma serialized_app rs rs' l l' : serialized rs l -> serialized rs' l' -> serialized (rs ++ rs') (l ++ l').
Proof. induction 1; [done|]. intros. rewrite <- app_assoc. simpl. constructor; auto. Qed.

Lemma serialized_singleton r l : record_bytes r l -> serialized [r] l.
Proof. intros H. rewrite <- (app_nil_r l). constructor; [done|constructor]. Qed.

(** ** Sizes: a record takes at most twenty bytes besides its contents *)

Definition payload_bound (p : payload) : nat := match p with Len l => 20 + length l | _ => 20 end.

Definition field_bound (v : field_value) : nat :=
  match v with Text s => 20 + str_len s | Blob l => 20 + length l | _ => 20 end.

Lemma record_bytes_bound r l : record_bytes r l -> (length l <= payload_bound r.2)%nat.
Proof.
  intros [n p tag k _ (_ & Ht & _) Hp]. rewrite length_app. simpl.
  destruct Hp as [v k (_ & Hk & _)|k Hk|n' k (_ & Hk & _)|k Hk]; simpl; rewrite ?length_app; lia.
Qed.

Lemma serialized_bound rs l : serialized rs l -> (length l <= sum_list_with (fun r => payload_bound r.2) rs)%nat.
Proof.
  induction 1 as [|r rs l k Hr _ IH]; simpl; [lia|]. rewrite length_app. apply record_bytes_bound in Hr. lia.
Qed.

Lemma records_of_bound fs :
  (sum_list_with (fun r => payload_bound r.2) (records_of fs) <= sum_list_with (fun f => field_bound f.2) fs)%nat.
Proof.
  induction fs as [|[n v] fs IH]; [done|].
  assert (records_of ((n, v) :: fs) =
    match field_payload v with Some p => (n, p) :: records_of fs | None => records_of fs end) as ->.
  { unfold records_of. cbn [omap list_omap fst snd]. by destruct (field_payload v). }
  assert (forall p, field_payload v = Some p -> payload_bound p = field_bound v) as Hv.
  { destruct v as [z|[]|s|k]; simpl; intros p; repeat case_match; intros [= <-]; simpl; by rewrite ?as_bytes_length. }
  destruct (field_payload v) as [p|]; simpl; [rewrite (Hv p eq_refl)|]; lia.
Qed.

Lemma serialized_fields_bound rs fs l :
  rs ≡ₚ records_of fs -> serialized rs l -> (length l <= sum_list_with (fun f => field_bound f.2) fs)%nat.
Proof.
  intros Hp Hs. apply serialized_bound in Hs. rewrite Hp in Hs. pose proof (records_of_bound fs). lia.
Qed.

Lemma encoded_bound {M} {C : Message M} {F : Proto M} {wf} {L : Proto3 C F wf} m :
  wf m -> message_sized m = true -> (length (encode_to_vec m) <= sum_list_with (fun f => field_bound f.2) (proto_fields m))%nat.
Proof. intros H1 H2. destruct (proto3_encodes m H1 H2) as (rs & Hp & Hs). by eapply serialized_fields_bound. Qed.
