(* ===== verification/PyStd.v ===== *)
(** * The parts of Python the plugin's backend is written in

    Exceptions with the subclass tests the handlers make, the values of the
    dictionaries the codec builds, and the exceptions' texts.  A [str] is its
    UTF-8 encoding, as everywhere in this library. *)
From stdpp Require Import base gmap list strings.
From Stdlib Require Import Ascii ZArith Lia.
From Stdlib Require Strings.String.
From S2P Require Import Prelude RustStd Hex HttpText.
Open Scope string_scope.
Open Scope Z_scope.
Open Scope list_scope.

(** ** Exceptions *)

Inductive exn :=
(* subclasses of ValueError *)
| DecodeError (message : string)
| ValidationError (message : string)
| StoreError (message : string)
| DiscoveryError (message : string)
| ValueError (message : string)
| UnicodeError
| JSONDecodeError
(* subclasses of OSError *)
| OSError (message : string)
| FileNotFoundError
| TimeoutError
| GaiError
| URLError
(* others *)
| HostError (kind message : string) (status : option Z)
| TypeError
| KeyError
| AttributeError
| StopIteration
| UnboundLocalError
| StructError
| InvalidTag
(** a loop that did not end within its fuel; shown never to happen *)
| Diverges.

#[export] Instance exn_eq_dec : EqDecision exn.
Proof. solve_decision. Defined.

(** [except ValueError]. *)
Definition is_ValueError (e : exn) : bool :=
  match e with
  | DecodeError _ | ValidationError _ | StoreError _ | DiscoveryError _ | ValueError _ | UnicodeError
  | JSONDecodeError => true
  | _ => false
  end.

(** [except OSError]; [socket.gaierror], [URLError] and [TimeoutError] are
    subclasses. *)
Definition is_OSError (e : exn) : bool :=
  match e with
  | OSError _ | FileNotFoundError | TimeoutError | GaiError | URLError => true
  | _ => false
  end.

(** ** Values *)

Inductive py_value :=
| PyInt (z : Z)
| PyBytes (l : bytes)
| PyStr (s : string)
| PyBool (b : bool).

#[export] Instance py_value_eq_dec : EqDecision py_value.
Proof. solve_decision. Defined.

(** [bytes.decode("utf-8")] and [str.encode("utf-8")]. *)
Definition utf8_decode (l : bytes) : result string exn := ok_or (from_utf8 l) UnicodeError.
Definition utf8_encode (s : string) : bytes := as_bytes s.

(** [str.encode("ascii")]. *)
Definition ascii_encode (s : string) : result bytes exn :=
  if is_ascii s then Ok (as_bytes s) else Err UnicodeError.

(** [str.upper().encode("ascii")].  Beside the ASCII letters, ten characters of
    Unicode have an upper case of ASCII letters; every other character keeps
    the text out of ASCII. *)
Definition upper_to_ascii : list (string * string) :=
  [("ß", "SS"); ("ı", "I"); ("ſ", "S"); ("ﬀ", "FF"); ("ﬁ", "FI"); ("ﬂ", "FL"); ("ﬃ", "FFI");
   ("ﬄ", "FFL"); ("ﬅ", "ST"); ("ﬆ", "ST")].

Definition char_upper (c : string) : option string :=
  if is_ascii c then Some (to_ascii_uppercase c)
  else snd <$> List.find (fun e : string * string => String.eqb e.1 c) upper_to_ascii.

Fixpoint chars_upper (l : list string) : option string :=
  match l with
  | [] => Some EmptyString
  | c :: l =>
      match char_upper c, chars_upper l with
      | Some a, Some b => Some (a +:+ b)
      | _, _ => None
      end
  end.

Definition upper (s : string) : option string := chars_upper (chars s).

Definition upper_ascii_encode (s : string) : result bytes exn :=
  match upper s with Some u => Ok (as_bytes u) | None => Err UnicodeError end.

(** [struct.pack] of an unsigned big-endian integer of [n] bytes, and
    [int.to_bytes(n, "big")]. *)
Definition pack (n : nat) (z : Z) : result bytes exn :=
  if (0 <=? z) && (z <? 256 ^ Z.of_nat n) then Ok (to_be_bytes n z) else Err StructError.

Lemma pack_Ok n z l : pack n z = Ok l <-> l = to_be_bytes n z /\ 0 <= z < 256 ^ Z.of_nat n.
Proof.
  unfold pack. destruct ((0 <=? z) && (z <? 256 ^ Z.of_nat n)) eqn:E.
  - bool_to_prop. split; [intros [= <-]; done|]. by intros [-> _].
  - split; [done|]. intros [_ H]. exfalso.
    rewrite (proj2 (Z.leb_le _ _)), (proj2 (Z.ltb_lt _ _)) in E by lia. done.
Qed.

(** ** Text *)

(** [str.isspace] of one character: the white space of Unicode and the four
    separators U+001C to U+001F. *)
Definition isspace (c : string) : bool :=
  is_whitespace c ||
  match c with String a EmptyString => (28 <=? code a) && (code a <=? 31) | _ => false end.

(** [str.strip()]. *)
Definition strip (s : string) : string :=
  str_concat (rev (drop_while isspace (rev (drop_while isspace (chars s))))).

(** ["".join(s.split())]: the characters that are not white space. *)
Definition join_split (s : string) : string :=
  str_concat (List.filter (fun c => negb (isspace c)) (chars s)).

(** [str.removesuffix(".")]. *)
Fixpoint remove_dot (s : string) : string :=
  match s with
  | EmptyString => EmptyString
  | String c EmptyString => if Ascii.eqb c "."%char then EmptyString else s
  | String c s' => String c (remove_dot s')
  end.

(** [str(n)] of an integer: as many digits as needed. *)
Definition decimal (n : Z) : string := print_digits (S (Z.to_nat (Z.log2 n))) n "".

Definition str_int (z : Z) : string := if z <? 0 then "-" +:+ decimal (- z) else decimal z.

(** The digits of [int(s, 10)]. *)
Fixpoint digits_value (acc : Z) (s : string) : option Z :=
  match s with
  | EmptyString => Some acc
  | String c s => match digit_value c with Some d => digits_value (acc * 10 + d) s | None => None end
  end.

Definition nonempty_digits (s : string) : option Z :=
  match s with EmptyString => None | _ => digits_value 0 s end.

(** [int(s, 10)] on the numerals of ASCII digits.  Python also takes
    underscores and the digits of other scripts; the plugin refuses those
    numerals afterwards, with the message it has for no numeral at all. *)
Definition py_int (s : string) : option Z :=
  match strip s with
  | String "-"%char t => match nonempty_digits t with Some n => Some (- n) | None => None end
  | String "+"%char t => nonempty_digits t
  | t => nonempty_digits t
  end.

(** ** JSON documents *)

Inductive json :=
| JNull
| JBool (b : bool)
| JInt (z : Z)
| JFloat (text : string)
| JStr (s : string)
| JArr (l : list json)
| JObj (l : list (string * json)).

(** [repr] of a list, of a dictionary and of a string. *)
Class Repr := { repr_container : json -> string; repr_str : string -> string }.

Class ReprLaws (R : Repr) : Prop := {
  repr_list l : exists s, repr_container (JArr l) = String "["%char s;
  repr_dict l : exists s, repr_container (JObj l) = String "{"%char s;
}.

(** [str(value)]. *)
Definition py_str {R : Repr} (v : json) : string :=
  match v with
  | JNull => "None"
  | JBool b => if b then "True" else "False"
  | JInt z => str_int z
  | JFloat t => t
  | JStr s => s
  | JArr _ | JObj _ => repr_container v
  end.

(** [repr(value)]. *)
Definition py_repr {R : Repr} (v : json) : string :=
  match v with JStr s => repr_str s | _ => py_str v end.

(** [bool(value)]. *)
Definition truthy (v : json) : bool :=
  match v with
  | JNull => false
  | JBool b => b
  | JInt z => negb (z =? 0)
  | JFloat t => negb (bool_decide (t = "0.0") || bool_decide (t = "-0.0"))
  | JStr s => negb (bool_decide (s = ""))
  | JArr l => match l with [] => false | _ => true end
  | JObj l => match l with [] => false | _ => true end
  end.

(** The dictionary of an object; of two entries with one name the later counts. *)
Definition dict_of (l : list (string * json)) : gmap string json :=
  fold_left (fun d kv => <[kv.1 := kv.2]> d) l ∅.

(** Iteration: over the elements of a list, the keys of a dictionary, the
    characters of a string. *)
Definition py_iter (v : json) : result (list json) exn :=
  match v with
  | JArr l => Ok l
  | JObj l => Ok (map (fun kv => JStr kv.1) l)
  | JStr s => Ok (map JStr (chars s))
  | _ => Err TypeError
  end.

(** The pairs [dict(value)] takes from a list; keys that are not strings are
    refused when the result is used for keyword arguments. *)
Fixpoint dict_pairs (l : list json) (d : gmap string json) : result (gmap string json) exn :=
  match l with
  | [] => Ok d
  | v :: l =>
      let? kv := py_iter v in
      match kv with
      | [JStr k; x] => dict_pairs l (<[k := x]> d)
      | [_; _] => Err TypeError
      | _ => Err (ValueError "dictionary update sequence element has the wrong length")
      end
  end.

(** [dict(value)]. *)
Definition py_dict (v : json) : result (gmap string json) exn :=
  match v with
  | JObj l => Ok (dict_of l)
  | _ => let? l := py_iter v in dict_pairs l ∅
  end.

(** ** Lemmas *)

Lemma chars_ascii s : is_ascii s = true -> chars s = map (fun c => String c EmptyString) (String.list_ascii_of_string s).
Proof.
  unfold is_ascii, char_is_ascii. induction s as [|c s IH]; [done|]. cbn [str_all]. intros Hs. bool_to_prop.
  cbn [chars String.list_ascii_of_string map]. rewrite (proj2 (Z.ltb_lt _ _)) by done. by rewrite IH.
Qed.

Lemma concat_singletons l : str_concat (map (fun c => String c EmptyString) l) = String.string_of_list_ascii l.
Proof.
  induction l as [|c l IH]; [done|]. cbn [map str_concat String.string_of_list_ascii]. by rewrite IH.
Qed.

(** *** Upper case *)

Lemma str_map_app f a b : str_map f (a +:+ b) = str_map f a +:+ str_map f b.
Proof. induction a as [|c a IH]; simpl; [done|]. by rewrite IH. Qed.

(** ASCII text in upper case. *)
Definition upper_cased (s : string) : Prop := is_ascii s = true /\ to_ascii_uppercase s = s.

Lemma char_upper_cased c u : char_upper c = Some u -> upper_cased u.
Proof.
  unfold char_upper. destruct (is_ascii c) eqn:E.
  - intros [= <-]. split; [by apply is_ascii_uppercase|apply uppercase_idem].
  - destruct (List.find _ _) as [[x y]|] eqn:Ef; [|done]. intros [= <-].
    apply List.find_some in Ef as [Hin _]. simpl in Hin.
    repeat (destruct Hin as [[= <- <-]|Hin]; [by vm_compute|]). done.
Qed.

Lemma upper_is_cased s u : upper s = Some u -> upper_cased u.
Proof.
  unfold upper. generalize (chars s) as l. intros l. revert u; induction l as [|c l IH]; intros u; simpl.
  { by intros [= <-]. }
  destruct (char_upper c) as [a|] eqn:Ec; [|done]. destruct (chars_upper l) as [b|]; [|done].
  intros [= <-]. apply char_upper_cased in Ec as [Ha Hb]. destruct (IH b eq_refl) as [Hc Hd].
  unfold upper_cased, is_ascii, to_ascii_uppercase in *. by rewrite str_all_app, str_map_app, Ha, Hb, Hc, Hd.
Qed.

Lemma upper_of_ascii s : is_ascii s = true -> upper s = Some (to_ascii_uppercase s).
Proof.
  intros H. unfold upper. rewrite chars_ascii by done. unfold is_ascii in H.
  induction s as [|c s IH]; [done|]. cbn [str_all] in H. apply andb_true_iff in H as [Hc Hs].
  cbn [String.list_ascii_of_string map chars_upper]. rewrite IH by done.
  unfold char_upper, is_ascii. cbn [str_all]. by rewrite Hc.
Qed.

(** Characters that are neither white space nor separators: 33 to 127. *)
Definition plain (c : ascii) : bool := (33 <=? code c) && (code c <? 128).

Lemma plain_not_space c : plain c = true -> isspace (String c EmptyString) = false.
Proof.
  unfold plain, isspace, is_whitespace, is_ascii_space. intros H. bool_to_prop.
  rewrite !orb_false_iff, !andb_false_iff, !Z.leb_gt, Z.eqb_neq. lia.
Qed.

Lemma plain_is_ascii s : str_all plain s = true -> is_ascii s = true.
Proof. apply str_all_impl. unfold plain, char_is_ascii. intros c H. by bool_to_prop; apply Z.ltb_lt. Qed.

Lemma plain_list s : str_all plain s = true -> Forall (fun c => plain c = true) (String.list_ascii_of_string s).
Proof. induction s as [|c s IH]; simpl; [constructor|]. intros H. bool_to_prop. constructor; auto. Qed.

Lemma drop_while_none {A} (p : A -> bool) l : Forall (fun x => p x = false) l -> drop_while p l = l.
Proof. destruct 1 as [|x l H]; simpl; [done|]. by rewrite H. Qed.

Lemma plain_chars s :
  str_all plain s = true -> Forall (fun c => isspace c = false) (chars s).
Proof.
  intros H. rewrite chars_ascii by by apply plain_is_ascii. apply Forall_map.
  eapply Forall_impl; [by apply plain_list|]. apply plain_not_space.
Qed.

Lemma strip_plain s : str_all plain s = true -> strip s = s.
Proof.
  intros H. pose proof (plain_chars s H) as HF. unfold strip.
  rewrite (drop_while_none _ (chars s)), drop_while_none, rev_involutive by (try apply Forall_rev; done).
  rewrite chars_ascii by by apply plain_is_ascii. rewrite concat_singletons. apply String.string_of_list_ascii_of_string.
Qed.

Lemma digits_plain s : str_all is_ascii_digit s = true -> str_all plain s = true.
Proof. apply str_all_impl. unfold is_ascii_digit, plain. intros c H. bool_to_prop. rewrite andb_true_iff, Z.leb_le, Z.ltb_lt. lia. Qed.

Lemma decimal_digits n : str_all is_ascii_digit (decimal n) = true.
Proof. by apply print_digits_digits. Qed.

Lemma decimal_nonempty n : decimal n <> "".
Proof. apply print_digits_nonempty. Qed.

Lemma digits_value_print fuel n acc :
  0 <= n < 10 ^ Z.of_nat fuel ->
  digits_value 0 (print_digits fuel n acc) =
    match fuel with O => digits_value 0 acc | S _ => digits_value n acc end.
Proof.
  revert n acc; induction fuel as [|f IH]; intros n acc Hn; [done|].
  rewrite Nat2Z.inj_succ, Z.pow_succ_r in Hn by lia.
  pose proof (Z.mod_pos_bound n 10 eq_refl) as Hm. pose proof (Z.div_mod n 10 ltac:(lia)) as Hd.
  assert (0 <= n / 10 < 10 ^ Z.of_nat f) as Hq.
  { split; [apply Z.div_pos; lia | apply Z.div_lt_upper_bound; lia]. }
  cbn [print_digits]. destruct (n / 10 =? 0) eqn:E; bool_to_prop.
  - cbn [digits_value]. rewrite digit_value_char by lia. f_equal. lia.
  - rewrite IH by lia. destruct f as [|f']; [simpl in Hq; lia|].
    cbn [digits_value]. rewrite digit_value_char by lia. f_equal. lia.
Qed.

Lemma decimal_fuel n : 0 <= n -> n < 10 ^ Z.of_nat (S (Z.to_nat (Z.log2 n))).
Proof.
  intros Hn. rewrite Nat2Z.inj_succ, Z2Nat.id by apply Z.log2_nonneg.
  destruct (Z.eq_dec n 0) as [->|Hz]; [done|]. pose proof (Z.log2_spec n ltac:(lia)) as [_ H].
  eapply Z.lt_le_trans; [exact H|]. apply Z.pow_le_mono_l. lia.
Qed.

Lemma nonempty_digits_decimal n : 0 <= n -> nonempty_digits (decimal n) = Some n.
Proof.
  intros Hn. unfold nonempty_digits. destruct (decimal n) eqn:E; [by apply decimal_nonempty in E|]. rewrite <- E.
  unfold decimal. rewrite digits_value_print; [done|]. split; [done|]. by apply decimal_fuel.
Qed.

Lemma py_int_decimal n : 0 <= n -> py_int (decimal n) = Some n.
Proof.
  intros Hn. unfold py_int. pose proof (decimal_digits n) as Hd.
  rewrite strip_plain by by apply digits_plain. rewrite <- (nonempty_digits_decimal n) by done.
  destruct (decimal n) as [|c s]; [done|]. cbn [str_all] in Hd. bool_to_prop.
  destruct c as [[] [] [] [] [] [] [] []]; done.
Qed.

(** ** Stripping twice *)

(** The first character of a text: a whole one, that stays itself in front of
    any other text, or an incomplete one at the end. *)
Lemma chars_cons s c cs :
  chars s = c :: cs ->
  (exists s', s = c +:+ s' /\ chars s' = cs /\ forall t, chars (c +:+ t) = c :: chars t) \/ (s = c /\ cs = []).
Proof.
  destruct s as [|a s1]; [done|]. cbn [chars]. destruct (code a <? 128) eqn:E1.
  { intros [= <- <-]. left. exists s1. repeat split. intros t.
    change (chars (String a t) = String a "" :: chars t). cbn [chars]. by rewrite E1. }
  destruct s1 as [|b s2]; [intros [= <- <-]; by right|]. destruct (code a <? 224) eqn:E2.
  { intros [= <- <-]. left. exists s2. repeat split. intros t.
    change (chars (String a (String b t)) = String a (String b "") :: chars t). cbn [chars]. by rewrite E1, E2. }
  destruct s2 as [|d s3]; [intros [= <- <-]; by right|]. destruct (code a <? 240) eqn:E3.
  { intros [= <- <-]. left. exists s3. repeat split. intros t.
    change (chars (String a (String b (String d t))) = String a (String b (String d "")) :: chars t).
    cbn [chars]. by rewrite E1, E2, E3. }
  destruct s3 as [|e s4]; [intros [= <- <-]; by right|].
  intros [= <- <-]. left. exists s4. repeat split. intros t.
  change (chars (String a (String b (String d (String e t)))) = String a (String b (String d (String e ""))) :: chars t).
  cbn [chars]. by rewrite E1, E2, E3.
Qed.

Lemma chars_nonempty c cs s : chars s = c :: cs -> c <> "".
Proof.
  destruct s as [|a s]; [done|]. cbn [chars]. intros H. repeat (case_hyp H; simplify_eq); done.
Qed.

(** Any run of consecutive characters of a text is read back from its text. *)
Lemma chars_prefix l1 l2 s : chars s = l1 ++ l2 -> chars (str_concat l1) = l1.
Proof.
  revert s; induction l1 as [|c l1 IH]; intros s H; [done|]. cbn [app] in H. cbn [str_concat].
  destruct (chars_cons _ _ _ H) as [(s' & -> & Hs' & Hc)|[-> Hnil]].
  - rewrite Hc. f_equal. by apply (IH s').
  - apply app_eq_nil in Hnil as [-> ->]. cbn [str_concat]. rewrite str_app_nil_r. done.
Qed.

Lemma chars_suffix l1 l2 s : chars s = l1 ++ l2 -> exists s', chars s' = l2.
Proof.
  revert s; induction l1 as [|c l1 IH]; intros s H; [by exists s|]. cbn [app] in H.
  destruct (chars_cons _ _ _ H) as [(s' & _ & Hs' & _)|[_ Hnil]].
  - by apply (IH s').
  - apply app_eq_nil in Hnil as [-> ->]. by exists "".
Qed.

Lemma drop_while_idem {A} (p : A -> bool) l : drop_while p (drop_while p l) = drop_while p l.
Proof. induction l as [|x l IH]; [done|]. simpl. destruct (p x) eqn:E; [done|]. simpl. by rewrite E. Qed.

Lemma strip_chars s : chars (strip s) = rev (drop_while isspace (rev (drop_while isspace (chars s)))).
Proof.
  unfold strip. destruct (drop_while_suffix isspace (chars s)) as (k & E & _).
  destruct (chars_suffix _ _ _ E) as [s' Hs'].
  destruct (drop_while_suffix isspace (rev (drop_while isspace (chars s)))) as (k2 & E2 & _).
  apply (f_equal (@rev _)) in E2. rewrite rev_involutive, rev_app_distr in E2.
  apply (chars_prefix _ (rev k2) s'). congruence.
Qed.

Lemma drop_while_app_stay {A} (p : A -> bool) l k :
  drop_while p (l ++ k) = l ++ k -> l <> [] -> drop_while p l = l.
Proof.
  destruct l as [|x l]; [done|]. simpl. destruct (p x) eqn:E; [|done]. intros H _. exfalso.
  pose proof (drop_while_length p (l ++ k)) as Hl. rewrite H in Hl. simpl in Hl. lia.
Qed.

Lemma strip_idempotent s : strip (strip s) = strip s.
Proof.
  unfold strip at 1. rewrite strip_chars. unfold strip. f_equal. f_equal.
  set (l := drop_while isspace (chars s)).
  assert (drop_while isspace l = l) as Hl by apply drop_while_idem.
  destruct (drop_while_suffix isspace (rev l)) as (k & E & _).
  pose proof E as E'. apply (f_equal (@rev _)) in E'. rewrite rev_involutive, rev_app_distr in E'.
  assert (drop_while isspace (rev (drop_while isspace (rev l))) = rev (drop_while isspace (rev l))) as H2.
  { set (m := rev (drop_while isspace (rev l))) in *. clearbody m. destruct m as [|x m]; [done|].
    apply (drop_while_app_stay _ _ (rev k)); [by rewrite <- E'|done]. }
  rewrite H2, rev_involutive. apply drop_while_idem.
Qed.
