(* ===== verification/PluginProtobuf.v ===== *)
(** * The plugin's Protobuf codec (decky/py_modules/decky_my_rig/protobuf.py)

    The schema-driven codec the plugin ships instead of the Protobuf runtime:
    varints, the field loop, the typed messages, and the requests it builds.
    The field loop is proved to read every message of the wire format of
    [Proto3], except that it refuses groups, and what it accepts beyond the
    format is given as a relation. *)
From stdpp Require Import base gmap list strings.
From Stdlib Require Import Ascii ZArith Lia.
From S2P Require Import Prelude RustStd PyStd Wire Proto3.
Open Scope string_scope.
Open Scope Z_scope.
Open Scope list_scope.

Module Protobuf.

Definition PROTOCOL_VERSION : Z := 1.
Definition PLUGIN_VERSION : string := "0.1.0".

(** ** generated_schema.py *)

Inductive field_type := uint32_type | string_type | bytes_type | bool_type | enum_type.

#[export] Instance field_type_eq_dec : EqDecision field_type.
Proof. solve_decision. Defined.

Definition schema : Type := list (string * (Z * field_type)).

Definition MESSAGES (message : string) : result schema exn :=
  if bool_decide (message = "StatusRequest") then Ok
    [("protocol_version", (1, uint32_type)); ("client_version", (2, string_type))]
  else if bool_decide (message = "StatusResponse") then Ok
    [("hostname", (1, string_type)); ("host_version", (2, string_type));
     ("protocol_version", (3, uint32_type)); ("paired", (4, bool_type)); ("host_id", (5, string_type))]
  else if bool_decide (message = "PairRequest") then Ok
    [("protocol_version", (1, uint32_type)); ("client_spake2_message", (2, bytes_type));
     ("session_id", (3, bytes_type)); ("client_confirmation", (4, bytes_type));
     ("client_version", (5, string_type))]
  else if bool_decide (message = "PairResponse") then Ok
    [("host_spake2_message", (1, bytes_type)); ("encryption_nonce", (2, bytes_type));
     ("encrypted_credential", (3, bytes_type)); ("hostname", (4, string_type));
     ("host_version", (5, string_type)); ("protocol_version", (6, uint32_type));
     ("host_id", (7, string_type)); ("session_id", (8, bytes_type))]
  else if bool_decide (message = "ShutdownRequest") then Ok
    [("protocol_version", (1, uint32_type)); ("client_version", (2, string_type))]
  else if bool_decide (message = "ShutdownResponse") then Ok
    [("accepted", (1, bool_type))]
  else if bool_decide (message = "ErrorResponse") then Ok
    [("code", (1, enum_type)); ("message", (2, string_type))]
  else Err KeyError.

(** ** Encoding *)

(** The loop of [_varint]; [bytearray.append] refuses negative numbers. *)
Fixpoint varint_loop (fuel : nat) (value : Z) (output : bytes) : result bytes exn :=
  if 0x7f <? value then
    match fuel with
    | O => Err Diverges
    | S fuel => varint_loop fuel (Z.shiftr value 7)
                  (output ++ [byte_of_Z (Z.lor (Z.land value 0x7f) 0x80)])
    end
  else if value <? 0 then Err (ValueError "byte must be in range(0, 256)")
  else Ok (output ++ [byte_of_Z value]).

Definition encode_varint (value : Z) : result bytes exn :=
  varint_loop (Z.to_nat (Z.log2 value)) value [].

Definition uint (field value : Z) : result bytes exn :=
  let? tag := encode_varint (Z.shiftl field 3) in
  let? value := encode_varint value in
  Ok (tag ++ value).

Definition blob (field : Z) (value : bytes) : result bytes exn :=
  let? tag := encode_varint (Z.lor (Z.shiftl field 3) 2) in
  let? size := encode_varint (Z.of_nat (length value)) in
  Ok (tag ++ size ++ value).

Definition text (field : Z) (value : string) : result bytes exn := blob field (utf8_encode value).

(** [str(value)], [bytes(value)] and [int(value)] at a value that already has
    the type; no caller converts between types. *)
Definition to_str (v : py_value) : result string exn :=
  match v with PyStr s => Ok s | _ => Err TypeError end.
Definition to_bytes (v : py_value) : result bytes exn :=
  match v with PyBytes l => Ok l | _ => Err TypeError end.
Definition to_int (v : py_value) : result Z exn :=
  match v with PyInt z => Ok z | PyBool b => Ok (if b then 1 else 0) | _ => Err TypeError end.

Definition schema_get (s : schema) (name : string) : result (Z * field_type) exn :=
  match List.find (fun f => bool_decide (f.1 = name)) s with
  | Some f => Ok f.2
  | None => Err KeyError
  end.

Definition encode_field (number : Z) (type : field_type) (value : py_value) : result bytes exn :=
  match type with
  | string_type => let? s := to_str value in text number s
  | bytes_type => let? l := to_bytes value in blob number l
  | _ => let? z := to_int value in uint number z
  end.

(** The loop of [encode_message] over the items of the dictionary, in the
    order they were put in. *)
Fixpoint encode_items (s : schema) (values : list (string * py_value)) (output : bytes)
    : result bytes exn :=
  match values with
  | [] => Ok output
  | (name, value) :: values =>
      let? (number, type) := schema_get s name in
      let? l := encode_field number type value in
      encode_items s values (output ++ l)
  end.

Definition encode_message (message : string) (values : list (string * py_value)) : result bytes exn :=
  match values with
  | [] => Ok []
  | _ => let? s := MESSAGES message in encode_items s values []
  end.

(** ** Decoding *)

Fixpoint read_varint_loop (shifts : list Z) (data : bytes) (offset : nat) (value : Z)
    : result (Z * nat) exn :=
  match shifts with
  | [] => Err (DecodeError "oversized varint")
  | shift :: shifts =>
      match data !! offset with
      | None => Err (DecodeError "truncated varint")
      | Some byte =>
          let offset := S offset in
          let value := Z.lor value (Z.shiftl (Z.land (byte_to_Z byte) 0x7f) shift) in
          if byte_to_Z byte <? 0x80 then Ok (value, offset)
          else read_varint_loop shifts data offset value
      end
  end.

(** [range(0, 70, 7)]. *)
Definition shifts : list Z := [0; 7; 14; 21; 28; 35; 42; 49; 56; 63].

Definition read_varint (data : bytes) (offset : nat) : result (Z * nat) exn :=
  read_varint_loop shifts data offset 0.

(** [data[offset:end]]. *)
Definition slice (data : bytes) (offset finish : nat) : bytes := take (finish - offset) (drop offset data).

(** The value of a field of wire type [wire], and the offset after it. *)
Definition read_value (data : bytes) (wire : Z) (offset : nat) : result (py_value * nat) exn :=
  if wire =? 0 then
    let? (value, offset) := read_varint data offset in Ok (PyInt value, offset)
  else if wire =? 2 then
    let? (size, offset) := read_varint data offset in
    if Z.of_nat (length data) <? Z.of_nat offset + size then Err (DecodeError "truncated field")
    else let finish := (offset + Z.to_nat size)%nat in Ok (PyBytes (slice data offset finish), finish)
  else if (wire =? 1) || (wire =? 5) then
    let width := if wire =? 1 then 8%nat else 4%nat in
    let finish := (offset + width)%nat in
    if (length data <? finish)%nat then Err (DecodeError "truncated fixed-width field")
    else Ok (PyBytes (slice data offset finish), finish)
  else Err (DecodeError "unsupported wire type").

(** The loop of [fields]; every round moves the offset forward. *)
Fixpoint fields_loop (fuel : nat) (data : bytes) (offset : nat) (res : gmap Z (Z * py_value))
    : result (gmap Z (Z * py_value)) exn :=
  if (offset <? length data)%nat then
    match fuel with
    | O => Err Diverges
    | S fuel =>
        let? (tag, offset) := read_varint data offset in
        let number := Z.shiftr tag 3 in
        let wire := Z.land tag 7 in
        if number =? 0 then Err (DecodeError "invalid field zero")
        else
          let? (value, offset) := read_value data wire offset in
          fields_loop fuel data offset (<[number := (wire, value)]> res)
    end
  else Ok res.

Definition fields (data : bytes) : result (gmap Z (Z * py_value)) exn :=
  fields_loop (length data) data 0 ∅.

Definition string_of (value : py_value) : result string exn :=
  match value with
  | PyBytes l =>
      match utf8_decode l with
      | Ok s => Ok s
      | Err _ => Err (DecodeError "invalid UTF-8")
      end
  | _ => Err (DecodeError "expected string")
  end.

Definition expected_wire (type : field_type) : Z :=
  match type with string_type | bytes_type => 2 | _ => 0 end.

Definition decode_field (type : field_type) (value : py_value) : result py_value exn :=
  match type with
  | string_type => let? s := string_of value in Ok (PyStr s)
  | bytes_type => match value with PyBytes l => Ok (PyBytes l) | _ => Err (DecodeError "expected bytes") end
  | bool_type =>
      match value with
      | PyInt z => Ok (PyBool (negb (z =? 0)))
      | _ => Err (DecodeError "expected boolean")
      end
  | _ => match value with PyInt z => Ok (PyInt z) | _ => Err (DecodeError "expected integer") end
  end.

Fixpoint decode_items (message : string) (s : schema) (encoded : gmap Z (Z * py_value))
    (decoded : gmap string py_value) : result (gmap string py_value) exn :=
  match s with
  | [] => Ok decoded
  | (name, (number, type)) :: s =>
      match encoded !! number with
      | None => decode_items message s encoded decoded
      | Some (wire, value) =>
          if negb (wire =? expected_wire type) then
            Err (DecodeError ("invalid wire type for " +:+ message +:+ "." +:+ name))
          else
            let? v := decode_field type value in
            decode_items message s encoded (<[name := v]> decoded)
      end
  end.

Definition decode_message (message : string) (data : bytes) : result (gmap string py_value) exn :=
  let? encoded := fields data in
  let? s := MESSAGES message in
  decode_items message s encoded ∅.

(** ** Messages *)

(** [_required] for a [str] and for [bytes]. *)
Definition missing (name : string) : exn := DecodeError ("missing or invalid field: " +:+ name).

Definition required_str (values : gmap string py_value) (name : string) : result string exn :=
  match values !! name with
  | Some (PyStr s) => if bool_decide (s = "") then Err (missing name) else Ok s
  | _ => Err (missing name)
  end.

Definition required_bytes (values : gmap string py_value) (name : string) : result bytes exn :=
  match values !! name with
  | Some (PyBytes l) => if bool_decide (l = []) then Err (missing name) else Ok l
  | _ => Err (missing name)
  end.

(** [int(values.get(name, 0))] and [bool(values.get(name, False))] of a field
    that, when it is present, has that type. *)
Definition int_get (values : gmap string py_value) (name : string) : result Z exn :=
  match values !! name with None => Ok 0 | Some v => to_int v end.

Definition bool_get (values : gmap string py_value) (name : string) : bool :=
  match values !! name with
  | None => false
  | Some (PyBool b) => b
  | Some (PyInt z) => negb (z =? 0)
  | Some (PyStr s) => negb (bool_decide (s = ""))
  | Some (PyBytes l) => negb (bool_decide (l = []))
  end.

Definition byte_value (values : gmap string py_value) (name : string) : bytes :=
  match values !! name with Some (PyBytes l) => l | _ => [] end.

Record StatusResponse := {
  hostname : string;
  host_version : string;
  protocol_version : Z;
  paired : bool;
  host_id : string;
}.

Definition decode_status_response (data : bytes) : result StatusResponse exn :=
  let? values := decode_message "StatusResponse" data in
  let? hostname := required_str values "hostname" in
  let? host_version := required_str values "host_version" in
  let? protocol_version := int_get values "protocol_version" in
  let paired := bool_get values "paired" in
  let? host_id := required_str values "host_id" in
  Ok {| hostname := hostname; host_version := host_version; protocol_version := protocol_version;
        paired := paired; host_id := host_id |}.

Record PairResponse := {
  host_message : bytes;
  nonce : bytes;
  ciphertext : bytes;
  pair_hostname : string;
  pair_host_version : string;
  pair_protocol_version : Z;
  pair_host_id : string;
  session_id : bytes;
}.

Definition decode_pair_response (data : bytes) : result PairResponse exn :=
  let? values := decode_message "PairResponse" data in
  let? host_message := required_bytes values "host_spake2_message" in
  let nonce := byte_value values "encryption_nonce" in
  let ciphertext := byte_value values "encrypted_credential" in
  let? hostname := required_str values "hostname" in
  let? host_version := required_str values "host_version" in
  let? protocol_version := int_get values "protocol_version" in
  let? host_id := required_str values "host_id" in
  let? session_id := required_bytes values "session_id" in
  Ok {| host_message := host_message; nonce := nonce; ciphertext := ciphertext;
        pair_hostname := hostname; pair_host_version := host_version;
        pair_protocol_version := protocol_version; pair_host_id := host_id; session_id := session_id |}.

(** The loop of [pairing_credential_aad]. *)
Fixpoint append_fields (fs : list bytes) (output : bytes) : result bytes exn :=
  match fs with
  | [] => Ok output
  | field :: fs =>
      if 65535 <? Z.of_nat (length field) then Err (DecodeError "pairing metadata is too large")
      else let? size := pack 2 (Z.of_nat (length field)) in
           append_fields fs ((output ++ size) ++ field)
  end.

(** [int.to_bytes] raises [OverflowError], which nothing in the plugin tells
    apart from [struct.error]. *)
Definition pairing_credential_aad (response : PairResponse) : result bytes exn :=
  let? output := append_fields
    [host_message response; session_id response; utf8_encode (pair_hostname response);
     utf8_encode (pair_host_version response); utf8_encode (pair_host_id response)]
    (as_bytes "deckymyrig-pairing-credential-aad-v1" ++ [x00]) in
  let? version := pack 4 (pair_protocol_version response) in
  Ok (output ++ version).

Record ErrorResponse := { code : Z; message : string }.

Definition decode_error_response (data : bytes) : result ErrorResponse exn :=
  let? values := decode_message "ErrorResponse" data in
  let? code := int_get values "code" in
  let? message := match values !! "message" with None => Ok "" | Some v => to_str v end in
  Ok {| code := code; message := message |}.

Definition status_request : result bytes exn :=
  encode_message "StatusRequest"
    [("protocol_version", PyInt PROTOCOL_VERSION); ("client_version", PyStr PLUGIN_VERSION)].

Definition shutdown_request : result bytes exn :=
  encode_message "ShutdownRequest"
    [("protocol_version", PyInt PROTOCOL_VERSION); ("client_version", PyStr PLUGIN_VERSION)].

Definition pair_request (client_message session_id confirmation : bytes) : result bytes exn :=
  let values := [("protocol_version", PyInt PROTOCOL_VERSION); ("client_version", PyStr PLUGIN_VERSION)] in
  let values := if bool_decide (client_message = []) then values
                else values ++ [("client_spake2_message", PyBytes client_message)] in
  let values := if bool_decide (session_id = []) then values
                else values ++ [("session_id", PyBytes session_id)] in
  let values := if bool_decide (confirmation = []) then values
                else values ++ [("client_confirmation", PyBytes confirmation)] in
  encode_message "PairRequest" values.

Example status_request_bytes :
  status_request = Ok [x08; x01; x12; x05; x30; x2e; x31; x2e; x30].
Proof. vm_compute. done. Qed.

Example varint_300 : encode_varint 300 = Ok [xac; x02] /\ read_varint [xff; xac; x02] 1 = Ok (300, 3%nat).
Proof. vm_compute. done. Qed.

Example unknown_field_skipped :
  fields [x08; x96; x01; x3d; x01; x02; x03; x04; x12; x01; x61] =
    Ok {[1 := (0, PyInt 150); 7 := (5, PyBytes [x01; x02; x03; x04]); 2 := (2, PyBytes [x61])]}.
Proof. vm_compute. done. Qed.

(** ** Varints are read and written as the format has them *)

Lemma lor_shiftl_add a b n : 0 <= n -> 0 <= a < 2 ^ n -> Z.lor a (Z.shiftl b n) = a + b * 2 ^ n.
Proof.
  intros Hn Ha. rewrite <- Z.shiftl_mul_pow2 by done.
  assert (Z.land a (Z.shiftl b n) = 0) as Hl.
  { apply Z.bits_inj'. intros i Hi. rewrite Z.land_spec, Z.bits_0, Z.shiftl_spec by done.
    destruct (Z.lt_ge_cases i n) as [Hlt|Hge].
    - by rewrite (Z.testbit_neg_r b (i - n)), andb_false_r by lia.
    - rewrite <- (Z.mod_small a (2 ^ n)) by done. by rewrite Z.mod_pow2_bits_high. }
  pose proof (Z.add_lor_land a (Z.shiftl b n)). lia.
Qed.

Lemma low_seven z : Z.land z 0x7f = z mod 128.
Proof. apply (Z.land_ones z 7). lia. Qed.

Lemma low_bits b : 128 <= byte_to_Z b -> Z.land (byte_to_Z b) 0x7f = byte_to_Z b - 128.
Proof.
  intros H. rewrite low_seven. pose proof (byte_to_Z_range b).
  replace (byte_to_Z b) with (byte_to_Z b - 128 + 1 * 128) at 1 by lia.
  rewrite Z.mod_add, Z.mod_small by lia. done.
Qed.

Lemma low_bits_small b : byte_to_Z b < 128 -> Z.land (byte_to_Z b) 0x7f = byte_to_Z b.
Proof. intros H. rewrite low_seven. apply Z.mod_small. pose proof (byte_to_Z_range b). lia. Qed.

Fixpoint shifts_from (n : nat) (k : Z) : list Z :=
  match n with O => [] | S n => 7 * k :: shifts_from n (k + 1) end.

Lemma drop_lookup {A} (l : list A) o x r : drop o l = x :: r -> l !! o = Some x /\ drop (S o) l = r.
Proof.
  intros E. split.
  - rewrite <- (Nat.add_0_r o), <- lookup_drop, E. done.
  - rewrite <- Nat.add_1_r, <- drop_drop, E. done.
Qed.

Lemma read_loop_complete n k data o value t v rest :
  0 <= k -> is_varint t v -> (length t <= n)%nat -> 0 <= value < 2 ^ (7 * k) ->
  drop o data = t ++ rest ->
  read_varint_loop (shifts_from n k) data o value = Ok (value + v * 2 ^ (7 * k), (o + length t)%nat).
Proof.
  revert k o value t v; induction n as [|n IH]; intros k o value t v Hk Ht Hn Hv E.
  { destruct t; simpl in *; [done|lia]. }
  destruct t as [|b t]; [done|]. destruct (drop_lookup _ _ _ _ E) as [Hb E'].
  cbn [shifts_from read_varint_loop]. rewrite Hb. pose proof (byte_to_Z_range b) as Hr.
  rewrite lor_shiftl_add by lia. destruct t as [|c t]; cbn [is_varint] in Ht.
  - destruct Ht as [Hlt ->]. rewrite (proj2 (Z.ltb_lt _ _)), low_bits_small by done.
    simpl length. f_equal. f_equal; lia.
  - destruct Ht as (Hge & w & -> & Hw). rewrite (proj2 (Z.ltb_ge _ _)), low_bits by done.
    assert (2 ^ (7 * (k + 1)) = 128 * 2 ^ (7 * k)) as Hpow.
    { replace (7 * (k + 1)) with (7 + 7 * k) by lia. rewrite Z.pow_add_r by lia. done. }
    rewrite (IH (k + 1) (S o) _ (c :: t) w); [|lia|done|simpl in *; lia|nia|done].
    f_equal. f_equal; [rewrite Hpow; ring|simpl; lia].
Qed.

Lemma read_loop_sound n k data o value v' o' :
  0 <= k -> 0 <= value < 2 ^ (7 * k) ->
  read_varint_loop (shifts_from n k) data o value = Ok (v', o') ->
  exists t v rest, drop o data = t ++ rest /\ is_varint t v /\ (length t <= n)%nat /\
    v' = value + v * 2 ^ (7 * k) /\ o' = (o + length t)%nat.
Proof.
  revert k o value; induction n as [|n IH]; intros k o value Hk Hv; [done|].
  cbn [shifts_from read_varint_loop]. destruct (data !! o) as [b|] eqn:Hb; [|done].
  rewrite lor_shiftl_add by lia. pose proof (byte_to_Z_range b) as Hr.
  pose proof (drop_S _ _ _ Hb) as Hd. destruct (byte_to_Z b <? 0x80) eqn:E; bool_to_prop.
  - rewrite low_bits_small by done. intros [= <- <-]. exists [b], (byte_to_Z b), (drop (S o) data).
    rewrite Hd. simpl. repeat split; lia || done.
  - rewrite low_bits by done. intros Hl.
    assert (2 ^ (7 * (k + 1)) = 128 * 2 ^ (7 * k)) as Hpow.
    { replace (7 * (k + 1)) with (7 + 7 * k) by lia. rewrite Z.pow_add_r by lia. done. }
    apply IH in Hl as (t & v & rest & E1 & Ht & Hn & -> & ->); [|lia|nia].
    exists (b :: t), (byte_to_Z b - 128 + 128 * v), rest.
    rewrite Hd, E1. split; [done|]. split.
    + destruct t as [|c t]; [done|]. cbn [is_varint]. split; [done|]. by exists v.
    + simpl. split; [lia|]. split; [rewrite Hpow; ring|lia].
Qed.

(** What [_read_varint] reads: ten bytes hold seventy bits, and it does not
    check that the value has 64. *)
Definition wide_varint (l : bytes) (v : Z) : Prop := is_varint l v /\ (length l <= 10)%nat.

Lemma varint_wide l v : varint l v -> wide_varint l v.
Proof. intros (H1 & H2 & _). by split. Qed.

Lemma read_varint_iff data o v o' :
  read_varint data o = Ok (v, o') <->
  exists t rest, drop o data = t ++ rest /\ wide_varint t v /\ o' = (o + length t)%nat.
Proof.
  change (read_varint data o) with (read_varint_loop (shifts_from 10 0) data o 0). split.
  - intros Hl. apply read_loop_sound in Hl as (t & w & rest & E & Ht & Hn & -> & ->); [|lia|lia].
    exists t, rest. replace (0 + w * 2 ^ (7 * 0)) with w by (simpl; lia). done.
  - intros (t & rest & E & [Ht Hn] & ->).
    rewrite (read_loop_complete 10 0 data o 0 t v rest) by (done || lia).
    f_equal. f_equal. simpl. lia.
Qed.

(** The offset after a varint that was read is past the one before it, and
    within the data. *)
Lemma split_offset (data : bytes) o t rest :
  drop o data = t ++ rest -> (0 < length t)%nat -> drop (o + length t) data = rest /\ (o + length t <= length data)%nat.
Proof.
  intros E Ht. split.
  - rewrite <- drop_drop, E. by rewrite drop_app_length.
  - apply (f_equal length) in E. rewrite length_drop, length_app in E. lia.
Qed.

Lemma varint_loop_spec fuel value output :
  0 <= value < 2 ^ Z.of_nat (S fuel) ->
  exists l, varint_loop fuel value output = Ok (output ++ l) /\ is_varint l value /\
    forall k, (0 < k)%nat -> value < 128 ^ Z.of_nat k -> (length l <= k)%nat.
Proof.
  revert value output; induction fuel as [|fuel IH]; intros value output Hv; cbn [varint_loop].
  all: destruct (0x7f <? value) eqn:E; bool_to_prop;
    [|rewrite (proj2 (Z.ltb_ge _ _)) by lia; exists [byte_of_Z value]; split; [done|]; split;
      [cbn [is_varint]; rewrite byte_to_of_Z, Z.mod_small by lia; lia|intros k Hk _; simpl; lia]].
  - simpl in Hv. lia.
  - rewrite (Nat2Z.inj_succ (S fuel)), Z.pow_succ_r in Hv by lia.
    rewrite Z.shiftr_div_pow2 by lia. change (2 ^ 7) with 128.
    destruct (IH (value / 128) (output ++ [byte_of_Z (Z.lor (Z.land value 0x7f) 0x80)]))
      as (l & -> & Hl & Hlen).
    { split; [apply Z.div_pos; lia|]. apply Z.div_lt_upper_bound; lia. }
    exists (byte_of_Z (Z.lor (Z.land value 0x7f) 0x80) :: l). rewrite <- app_assoc. split; [done|].
    pose proof (Z.mod_pos_bound value 128 ltac:(lia)) as Hm.
    assert (byte_to_Z (byte_of_Z (Z.lor (Z.land value 0x7f) 0x80)) = value mod 128 + 128) as Hb.
    { rewrite low_seven, byte_to_of_Z.
      pose proof (lor_shiftl_add (value mod 128) 1 7 ltac:(lia) ltac:(simpl; lia)) as Hl'.
      change (Z.shiftl 1 7) with 0x80 in Hl'. rewrite Hl'. simpl. rewrite Z.mod_small; lia. }
    split.
    + destruct l as [|c l]; [done|]. cbn [is_varint]. rewrite Hb. split; [lia|].
      exists (value / 128). split; [|done]. pose proof (Z.div_mod value 128). lia.
    + intros [|k] Hk Hlt; [lia|]. rewrite Nat2Z.inj_succ, Z.pow_succ_r in Hlt by lia.
      destruct k as [|k]; [simpl in Hlt; lia|]. simpl. apply le_n_S, Hlen; [lia|].
      apply Z.div_lt_upper_bound; lia.
Qed.

Lemma encode_varint_spec value :
  0 <= value < 2 ^ 64 -> exists l, encode_varint value = Ok l /\ varint l value.
Proof.
  intros Hv. unfold encode_varint.
  destruct (varint_loop_spec (Z.to_nat (Z.log2 value)) value []) as (l & E & Hl & Hn).
  - split; [lia|]. rewrite Nat2Z.inj_succ, Z2Nat.id by apply Z.log2_nonneg.
    destruct (Z.eq_dec value 0) as [->|Hz]; [done|]. apply Z.log2_spec. lia.
  - exists l. split; [done|]. split; [done|]. split; [|lia]. apply Hn; [lia|].
    change (128 ^ Z.of_nat 10) with (2 ^ 70). lia.
Qed.

(** ** The field loop and the wire format *)

Definition payload_value (p : payload) : py_value :=
  match p with Varint v => PyInt v | Fixed64 l | Len l | Fixed32 l => PyBytes l end.

(** What the field loop accepts: the records of the format, but with the wider
    varints of [_read_varint], and so with field numbers of up to 67 bits. *)
Inductive payload_read : payload -> bytes -> Prop :=
| read_as_varint v l : wide_varint l v -> payload_read (Varint v) l
| read_as_fixed64 l : length l = 8%nat -> payload_read (Fixed64 l) l
| read_as_len n l : wide_varint n (Z.of_nat (length l)) -> payload_read (Len l) (n ++ l)
| read_as_fixed32 l : length l = 4%nat -> payload_read (Fixed32 l) l.

Inductive record_read : proto_record -> bytes -> Prop :=
| read_as_record n p tag l :
    1 <= n -> wide_varint tag (n * 8 + wire_type p) -> payload_read p l -> record_read (n, p) (tag ++ l).

Inductive accepted_by_fields : list proto_record -> bytes -> Prop :=
| accepted_nil : accepted_by_fields [] []
| accepted_cons r rs l k :
    record_read r l -> accepted_by_fields rs k -> accepted_by_fields (r :: rs) (l ++ k).

Lemma record_is_read r l : record_bytes r l -> record_read r l.
Proof.
  intros [n p tag k [Hn _] Ht Hp]. constructor; [done|by apply varint_wide|].
  destruct Hp; constructor; try done; by apply varint_wide.
Qed.

Lemma serialized_accepted rs l : serialized rs l -> accepted_by_fields rs l.
Proof. induction 1; constructor; auto using record_is_read. Qed.

Lemma record_read_nonempty r l : record_read r l -> (0 < length l)%nat.
Proof. intros [n p tag k _ [Ht _] _]. rewrite length_app. apply is_varint_nonempty in Ht. lia. Qed.

(** The dictionary of a sequence of records: the last record of a number wins. *)
Definition collect (rs : list proto_record) (m : gmap Z (Z * py_value)) : gmap Z (Z * py_value) :=
  fold_left (fun m r => <[r.1 := (wire_type r.2, payload_value r.2)]> m) rs m.

Lemma tag_parts n w : 0 <= w < 8 -> Z.shiftr (n * 8 + w) 3 = n /\ Z.land (n * 8 + w) 7 = w.
Proof.
  intros Hw. rewrite Z.shiftr_div_pow2 by lia. change (2 ^ 3) with 8.
  change 7 with (Z.ones 3). rewrite Z.land_ones by lia. change (2 ^ 3) with 8. split.
  - rewrite Z.div_add_l, Z.div_small; lia.
  - rewrite Z.add_comm, Z.mod_add, Z.mod_small; lia.
Qed.

Lemma wire_type_range p : 0 <= wire_type p < 8.
Proof. destruct p; simpl; lia. Qed.

Lemma tag_join tag : tag = Z.shiftr tag 3 * 8 + Z.land tag 7.
Proof.
  rewrite Z.shiftr_div_pow2 by lia. change 7 with (Z.ones 3). rewrite Z.land_ones by lia.
  change (2 ^ 3) with 8. pose proof (Z.div_mod tag 8). lia.
Qed.

Lemma slice_at data o l rest : drop o data = l ++ rest -> slice data o (o + length l) = l.
Proof.
  intros E. unfold slice. rewrite E. replace (o + length l - o)%nat with (length l) by lia.
  apply take_app_length.
Qed.

Lemma read_value_complete data p o l rest :
  payload_read p l -> drop o data = l ++ rest ->
  read_value data (wire_type p) o = Ok (payload_value p, (o + length l)%nat).
Proof.
  intros Hp E. unfold read_value.
  assert (length data = o + length (l ++ rest) \/ (length data <= o)%nat /\ l ++ rest = [])%nat as Hlen.
  { rewrite <- E, length_drop. destruct (Nat.le_gt_cases (length data) o) as [Hle|Hgt]; [right|left; lia].
    split; [done|]. by apply drop_ge. }
  destruct Hp as [v l Hv|l Hl|n l Hn|l Hl]; simpl.
  - rewrite (proj2 (read_varint_iff data o v (o + length l))); [done|]. by exists l, rest.
  - rewrite length_app in Hlen. destruct Hlen as [Hlen|[_ Hlen]].
    2:{ apply app_eq_nil in Hlen as [-> _]. done. }
    replace (length data <? o + 8)%nat with false by (symmetry; apply Nat.ltb_ge; lia).
    rewrite <- Hl, (slice_at _ _ l rest) by done. done.
  - rewrite <- app_assoc in E. rewrite (proj2 (read_varint_iff data o (Z.of_nat (length l)) (o + length n)));
      [|by exists n, (l ++ rest)].
    pose proof (is_varint_nonempty _ _ (proj1 Hn)) as Hpos.
    destruct (split_offset _ _ _ _ E Hpos) as [E2 Hle].
    assert (length (drop (o + length n) data) = length l + length rest)%nat as Hd by (by rewrite E2, length_app).
    rewrite length_drop in Hd. rewrite (proj2 (Z.ltb_ge _ _)) by lia.
    rewrite Nat2Z.id, (slice_at _ _ l rest), length_app by done. f_equal. f_equal. lia.
  - rewrite length_app in Hlen. destruct Hlen as [Hlen|[_ Hlen]].
    2:{ apply app_eq_nil in Hlen as [-> _]. done. }
    replace (length data <? o + 4)%nat with false by (symmetry; apply Nat.ltb_ge; lia).
    rewrite <- Hl, (slice_at _ _ l rest) by done. done.
Qed.

Lemma drop_slice (data : bytes) o n :
  (o + n <= length data)%nat -> drop o data = slice data o (o + n) ++ drop (o + n) data /\
  length (slice data o (o + n)) = n.
Proof.
  intros H. unfold slice. replace (o + n - o)%nat with n by lia. split.
  - rewrite <- drop_drop. symmetry. apply take_drop.
  - rewrite length_take, length_drop. lia.
Qed.

Lemma read_value_sound data w o value o' :
  (o <= length data)%nat -> read_value data w o = Ok (value, o') ->
  exists p l rest, w = wire_type p /\ value = payload_value p /\ payload_read p l /\
    drop o data = l ++ rest /\ o' = (o + length l)%nat.
Proof.
  intros Ho. unfold read_value. destruct (w =? 0) eqn:E0; bool_to_prop.
  { destruct (read_varint data o) as [[v o1]|] eqn:Ev; [|done]. intros [= <- <-].
    apply read_varint_iff in Ev as (t & rest & E & Ht & ->).
    exists (Varint v), t, rest. repeat split; try done. by constructor. }
  destruct (w =? 2) eqn:E2; bool_to_prop.
  { destruct (read_varint data o) as [[v o1]|] eqn:Ev; [|done].
    apply read_varint_iff in Ev as (t & rest & E & Ht & ->).
    pose proof (is_varint_nonneg _ _ (proj1 Ht)) as Hv.
    destruct (split_offset _ _ _ _ E (is_varint_nonempty _ _ (proj1 Ht))) as [Er Hle].
    destruct (Z.of_nat (length data) <? _) eqn:El; [done|]. bool_to_prop. intros [= <- <-].
    destruct (drop_slice data (o + length t) (Z.to_nat v)) as [Ed Hl]; [lia|].
    exists (Len (slice data (o + length t) (o + length t + Z.to_nat v))),
      (t ++ slice data (o + length t) (o + length t + Z.to_nat v)), (drop (o + length t + Z.to_nat v) data).
    do 2 (split; [done|]). split; [constructor; by rewrite Hl, Z2Nat.id|]. split.
    - rewrite E, <- app_assoc, <- Ed, <- Er. done.
    - rewrite length_app, Hl. lia. }
  destruct ((w =? 1) || (w =? 5)) eqn:E15; [|done].
  destruct (length data <? _)%nat eqn:El; [done|]. bool_to_prop. intros [= <- <-].
  destruct (drop_slice data o (if w =? 1 then 8%nat else 4%nat)) as [Ed Hl]; [done|].
  destruct (w =? 1) eqn:E1; bool_to_prop.
  - exists (Fixed64 (slice data o (o + 8))), (slice data o (o + 8)), (drop (o + 8) data).
    rewrite Hl. repeat split; try done. by constructor.
  - exists (Fixed32 (slice data o (o + 4))), (slice data o (o + 4)), (drop (o + 4) data).
    rewrite Hl. destruct E15; [lia|]. bool_to_prop. repeat split; try done. by constructor.
Qed.

Lemma fields_loop_complete rs l fuel data o m :
  accepted_by_fields rs l -> drop o data = l -> (o <= length data)%nat -> (length l <= fuel)%nat ->
  fields_loop fuel data o m = Ok (collect rs m).
Proof.
  intros Hs. revert fuel o m; induction Hs as [|r rs l k Hr Hs IH]; intros fuel o m E Ho Hf.
  - apply (f_equal length) in E. rewrite length_drop in E. simpl in E.
    destruct fuel; cbn [fields_loop]; rewrite (proj2 (Nat.ltb_ge _ _)) by lia; done.
  - pose proof (record_read_nonempty _ _ Hr) as Hpos.
    destruct Hr as [n p tag l Hn Ht Hp]. rewrite !length_app in Hf. rewrite length_app in Hpos.
    assert (length data = o + (length tag + length l + length k))%nat as Hlen.
    { pose proof (f_equal length E) as El. rewrite length_drop, !length_app in El. lia. }
    pose proof (is_varint_nonempty _ _ (proj1 Ht)) as Htpos. rewrite <- app_assoc in E.
    destruct (split_offset _ _ _ _ E Htpos) as [E2 _].
    destruct fuel as [|fuel]; [lia|]. cbn [fields_loop]. rewrite (proj2 (Nat.ltb_lt _ _)) by lia.
    rewrite (proj2 (read_varint_iff data o _ (o + length tag)%nat)) by (by exists tag, (l ++ k)).
    destruct (tag_parts n (wire_type p) (wire_type_range p)) as [-> ->].
    rewrite (proj2 (Z.eqb_neq _ _)) by lia.
    rewrite (read_value_complete data p (o + length tag) l k Hp E2).
    rewrite IH; [done| |lia|lia].
    by rewrite <- drop_drop, E2, drop_app_length.
Qed.

Lemma fields_loop_sound fuel data o m m' :
  (o <= length data)%nat -> (length data - o <= fuel)%nat -> fields_loop fuel data o m = Ok m' ->
  exists rs, accepted_by_fields rs (drop o data) /\ m' = collect rs m.
Proof.
  revert o m; induction fuel as [|fuel IH]; intros o m Ho Hf; cbn [fields_loop];
    destruct (o <? length data)%nat eqn:El; bool_to_prop; try lia.
  1,3: intros [= <-]; exists []; rewrite drop_ge by lia; split; [constructor|done].
  destruct (read_varint data o) as [[tag o1]|] eqn:Et; [|done].
  apply read_varint_iff in Et as (t & rest & E & Ht & ->).
  pose proof (is_varint_nonempty _ _ (proj1 Ht)) as Htpos.
  destruct (split_offset _ _ _ _ E Htpos) as [Er Hle].
  destruct (Z.shiftr tag 3 =? 0) eqn:En; [done|]. bool_to_prop.
  destruct (read_value data _ _) as [[value o2]|] eqn:Ev; [|done].
  apply read_value_sound in Ev as (p & l & rest' & Hw & -> & Hp & E2 & ->); [|done].
  assert (o + length t + length l <= length data)%nat as Hle2.
  { pose proof (f_equal length E2) as El2. rewrite length_drop, length_app in El2. lia. }
  intros Hl. apply IH in Hl as (rs & Hs & ->); [|lia|lia].
  exists ((Z.shiftr tag 3, p) :: rs). split; [|by rewrite Hw].
  assert (drop (o + length t + length l) data = rest') as E3 by (by rewrite <- drop_drop, E2, drop_app_length).
  rewrite E3 in Hs. rewrite E, <- Er, E2, app_assoc. constructor; [|done]. constructor; [| |done].
  - pose proof (is_varint_nonneg _ _ (proj1 Ht)). pose proof (Z.shiftr_nonneg tag 3). lia.
  - rewrite <- Hw, <- tag_join. done.
Qed.

Lemma read_varint_error data o e : read_varint data o = Err e -> exists m, e = DecodeError m.
Proof.
  unfold read_varint. generalize 0 at 1. revert o. induction shifts as [|k ks IH]; intros o value; simpl.
  { intros [= <-]. eauto. }
  destruct (data !! o); [|intros [= <-]; eauto]. case_match; [done|]. apply IH.
Qed.

Lemma read_value_error data w o e : read_value data w o = Err e -> exists m, e = DecodeError m.
Proof.
  unfold read_value. intros H. repeat (case_hyp H; simplify_eq); eauto;
    eapply read_varint_error; eassumption.
Qed.

Lemma fields_loop_error fuel data o m e :
  (length data - o <= fuel)%nat -> fields_loop fuel data o m = Err e -> exists s, e = DecodeError s.
Proof.
  revert o m; induction fuel as [|fuel IH]; intros o m Hf; cbn [fields_loop];
    destruct (o <? length data)%nat eqn:El; bool_to_prop; try lia; try done.
  destruct (read_varint data o) as [[tag o1]|] eqn:Et;
    [|intros [= <-]; by apply read_varint_error in Et].
  apply read_varint_iff in Et as (t & rest & E & Ht & ->).
  pose proof (is_varint_nonempty _ _ (proj1 Ht)) as Htpos.
  destruct (split_offset _ _ _ _ E Htpos) as [Er Hle].
  case_match; [intros [= <-]; eauto|].
  destruct (read_value data _ _) as [[value o2]|] eqn:Ev;
    [|intros [= <-]; by apply read_value_error in Ev].
  apply read_value_sound in Ev as (p & l & rest' & _ & _ & _ & _ & ->); [|done].
  apply IH. lia.
Qed.

(** One round of the loop on a record. *)
Lemma fields_loop_record n p l rest fuel data o m :
  record_read (n, p) l -> drop o data = l ++ rest -> (length (drop o data) <= fuel)%nat ->
  exists fuel', fields_loop fuel data o m =
    fields_loop fuel' data (o + length l) (<[n := (wire_type p, payload_value p)]> m) /\
    (length (drop (o + length l) data) <= fuel')%nat /\ drop (o + length l) data = rest.
Proof.
  intros Hr E Hf. pose proof (record_read_nonempty _ _ Hr) as Hpos.
  destruct (split_offset _ _ _ _ E Hpos) as [Er _].
  pose proof (f_equal length E) as El. rewrite length_app in El. rewrite El in Hf.
  rewrite length_drop in El. inversion Hr as [n' p' tag k Hn Ht Hp]; subst n' p' l.
  pose proof (is_varint_nonempty _ _ (proj1 Ht)) as Htpos. rewrite length_app in *. rewrite <- app_assoc in E.
  destruct (split_offset _ _ _ _ E Htpos) as [E2 _].
  destruct fuel as [|fuel]; [lia|]. exists fuel. cbn [fields_loop].
  rewrite (proj2 (Nat.ltb_lt _ _)) by lia.
  rewrite (proj2 (read_varint_iff data o _ (o + length tag)%nat)) by (by exists tag, (k ++ rest)).
  destruct (tag_parts n (wire_type p) (wire_type_range p)) as [-> ->].
  rewrite (proj2 (Z.eqb_neq _ _)) by lia.
  rewrite (read_value_complete data p (o + length tag) k rest Hp E2).
  split; [by rewrite Nat.add_assoc|]. rewrite Er. split; [lia|done].
Qed.

(** The start of a group ends the loop. *)
Lemma fields_loop_group n tag rest fuel data o m :
  field_number n -> varint tag (n * 8 + 3) -> drop o data = tag ++ rest -> (length (drop o data) <= fuel)%nat ->
  fields_loop fuel data o m = Err (DecodeError "unsupported wire type").
Proof.
  intros [Hn _] Ht%varint_wide E Hf. pose proof (is_varint_nonempty _ _ (proj1 Ht)) as Htpos.
  pose proof (f_equal length E) as El. rewrite length_app in El. rewrite El in Hf. rewrite length_drop in El.
  destruct fuel as [|fuel]; [lia|]. cbn [fields_loop]. rewrite (proj2 (Nat.ltb_lt _ _)) by lia.
  rewrite (proj2 (read_varint_iff data o _ (o + length tag)%nat)) by (by exists tag, rest).
  destruct (tag_parts n 3 ltac:(lia)) as [-> ->]. by rewrite (proj2 (Z.eqb_neq _ _)) by lia.
Qed.

(** Messages of the format. *)
Definition read_message (fs : list (Z * proto_field)) (m : gmap Z (Z * py_value))
    : result (gmap Z (Z * py_value)) exn :=
  match scalars fs with
  | Some rs => Ok (collect rs m)
  | None => Err (DecodeError "unsupported wire type")
  end.

Lemma fields_loop_wire fs l fuel data o m :
  wire_format fs l -> drop o data = l -> (length (drop o data) <= fuel)%nat ->
  fields_loop fuel data o m = read_message fs m.
Proof.
  intros Hw. revert fuel o m; induction Hw as [|n p fs l k Hr Hw IH|n inner fs start body finish k Hn Ht _ _ _ _ _];
    intros fuel o m E Hf.
  - pose proof (f_equal length E) as El. rewrite length_drop in El. simpl in El.
    destruct fuel; cbn [fields_loop]; rewrite (proj2 (Nat.ltb_ge _ _)) by lia; done.
  - apply record_is_read in Hr. destruct (fields_loop_record n p l k fuel data o m Hr E Hf) as (fuel' & -> & Hf' & E').
    rewrite (IH fuel' _ _ E' Hf'). unfold read_message. cbn [scalars]. by destruct (scalars fs).
  - by rewrite (fields_loop_group n start (body ++ finish ++ k)).
Qed.

Lemma fields_iff data m :
  fields data = Ok m <-> exists rs, accepted_by_fields rs data /\ m = collect rs ∅.
Proof.
  unfold fields. split.
  - intros H. apply fields_loop_sound in H; [done|lia|lia].
  - intros (rs & Hs & ->). apply (fields_loop_complete rs data); done || lia.
Qed.

(** C33: the plugin's field loop on the Protobuf wire format.  A message without
    groups gives the dictionary that maps every field number to the last record
    that carries it, unknown fields included; a message with a group is
    refused.  Beyond the format, the loop accepts exactly the same records with
    varints of up to seventy bits, field numbers included; and on every input
    it does not accept it ends with [DecodeError]. *)
Theorem fields_accept_wire_format data :
  (forall fs, wire_format fs data ->
    fields data = match scalars fs with
                  | Some rs => Ok (collect rs ∅)
                  | None => Err (DecodeError "unsupported wire type")
                  end) /\
  (forall m, fields data = Ok m <-> exists rs, accepted_by_fields rs data /\ m = collect rs ∅) /\
  (forall e, fields data = Err e -> exists text, e = DecodeError text).
Proof.
  split; [|split].
  - intros fs Hw. by apply (fields_loop_wire fs data).
  - apply fields_iff.
  - intros e. apply fields_loop_error. lia.
Qed.

(** A group of an unknown field, which the format has. *)
Example group_refused :
  wire_format [(6, Group [])] [x33; x34] /\ fields [x33; x34] = Err (DecodeError "unsupported wire type").
Proof.
  split; [|by vm_compute].
  apply (wire_group 6 [] [] [x33] [] [x34] []); [|  |constructor| |constructor]; unfold varint, field_number;
    simpl; repeat split; try done; lia.
Qed.

Lemma fields_serialized rs data : serialized rs data -> fields data = Ok (collect rs ∅).
Proof. intros Hs. apply fields_iff. exists rs. split; [by apply serialized_accepted|done]. Qed.

(** ** Typed messages *)

Lemma collect_list_to_map rs m :
  NoDup rs.*1 -> (forall n, n ∈ rs.*1 -> m !! n = None) ->
  collect rs m = list_to_map (map (fun r => (r.1, (wire_type r.2, payload_value r.2))) rs) ∪ m.
Proof.
  revert m; induction rs as [|[n p] rs IH]; intros m Hnd Hm; cbn [collect fold_left map].
  - simpl. by rewrite (left_id_L ∅ _).
  - inversion Hnd as [|? ? Hn Hnd']; subst. cbn [fst snd].
    change (fold_left _ rs ?m) with (collect rs m). rewrite IH; [|done|].
    + simpl. rewrite <- insert_union_l, <- insert_union_r; [done|].
      apply not_elem_of_list_to_map_1. rewrite <- list_fmap_compose. done.
    + intros k Hk. rewrite lookup_insert_ne by (intros ->; done). apply Hm. by apply list_elem_of_further.
Qed.

Lemma records_of_numbers fs : (records_of fs).*1 ⊆ fs.*1.
Proof.
  induction fs as [|[n v] fs IH]; [done|]. unfold records_of in *. cbn [omap list_omap fst snd].
  destruct (field_payload v); cbn [fmap list_fmap fst]; set_solver.
Qed.

Lemma records_of_NoDup fs : NoDup fs.*1 -> NoDup (records_of fs).*1.
Proof.
  induction fs as [|[n v] fs IH]; [done|]. intros Hnd. inversion Hnd as [|? ? Hn Hnd']; subst.
  unfold records_of in *. cbn [omap list_omap fst snd]. destruct (field_payload v); [|by apply IH].
  cbn [fmap list_fmap fst]. constructor; [|by apply IH]. intros Hin. by apply Hn, records_of_numbers.
Qed.

Lemma records_of_lookup fs n v :
  NoDup fs.*1 -> (n, v) ∈ fs ->
  (list_to_map (map (fun r => (r.1, (wire_type r.2, payload_value r.2))) (records_of fs)) : gmap Z _) !! n =
    match field_payload v with Some p => Some (wire_type p, payload_value p) | None => None end.
Proof.
  induction fs as [|[k u] fs IH]; intros Hnd Hin; [by apply elem_of_nil in Hin|].
  inversion Hnd as [|? ? Hn Hnd']; subst. apply elem_of_cons in Hin as [[= <- <-]|Hin].
  - unfold records_of. cbn [omap list_omap fst snd]. destruct (field_payload v) as [p|] eqn:E.
    + cbn. by rewrite lookup_insert_eq.
    + apply not_elem_of_list_to_map_1. intros Hin. apply Hn, records_of_numbers.
      rewrite <- list_fmap_compose in Hin. done.
  - assert (k <> n) as Hne. { intros ->. apply Hn. apply list_elem_of_fmap. by exists (n, v). }
    unfold records_of. cbn [omap list_omap fst snd]. destruct (field_payload u) as [p|].
    + cbn. rewrite lookup_insert_ne by done. by apply IH.
    + by apply IH.
Qed.

(** The entry of field [n] in the dictionary of a message, whatever the order
    of its records. *)
Lemma collect_lookup rs fs n v :
  rs ≡ₚ records_of fs -> NoDup fs.*1 -> (n, v) ∈ fs ->
  collect rs ∅ !! n =
    match field_payload v with Some p => Some (wire_type p, payload_value p) | None => None end.
Proof.
  intros Hp Hnd Hin. pose proof (records_of_NoDup fs Hnd) as Hr.
  assert (NoDup rs.*1) as Hrs by (by rewrite Hp).
  rewrite collect_list_to_map, (right_id_L ∅ (∪)) by (done || intros; apply lookup_empty).
  rewrite <- (records_of_lookup fs n v) by done. f_equal. apply list_to_map_proper.
  - rewrite <- list_fmap_compose. done.
  - by rewrite Hp.
Qed.

(** The Python value of a field, absent when it has its default. *)
Definition py_field (v : field_value) : option py_value :=
  match v with
  | UInt z => if z =? 0 then None else Some (PyInt z)
  | Bool b => if b then Some (PyBool true) else None
  | Text s => if bool_decide (s = "") then None else Some (PyStr s)
  | Blob l => if bool_decide (l = []) then None else Some (PyBytes l)
  end.

Definition has_type (type : field_type) (v : field_value) : Prop :=
  match v, type with
  | UInt _, (uint32_type | enum_type) => True
  | Bool _, bool_type => True
  | Text s, string_type => str_wf s
  | Blob _, bytes_type => True
  | _, _ => False
  end.

Lemma from_utf8_wf s : str_wf s -> from_utf8 (as_bytes s) = Some s.
Proof. unfold str_wf, from_utf8. intros ->. by rewrite String.string_of_list_byte_of_string. Qed.

Lemma decode_items_fields message (s : schema) fs encoded decoded :
  Forall2 (fun f v => f.2.1 = v.1 /\ has_type f.2.2 v.2) s fs ->
  (forall n v, (n, v) ∈ fs -> encoded !! n =
    match field_payload v with Some p => Some (wire_type p, payload_value p) | None => None end) ->
  NoDup s.*1 -> (forall name, name ∈ s.*1 -> decoded !! name = None) ->
  exists values, decode_items message s encoded decoded = Ok values /\
    (forall k, k ∉ s.*1 -> values !! k = decoded !! k) /\
    forall name v, (name, v) ∈ zip s.*1 fs.*2 -> values !! name = py_field v.
Proof.
  intros HF. revert decoded. induction HF as [|[name [number type]] [n v] s fs [Hn Ht] HF IH];
    intros decoded He Hnd Hd.
  { exists decoded. split; [done|]. split; [done|]. intros ? ? Hin. by apply elem_of_nil in Hin. }
  simpl in Hn, Ht. subst n. inversion Hnd as [|? ? Hnew Hnd']; subst. cbn [decode_items].
  rewrite (He number v) by apply list_elem_of_here.
  assert (exists decoded', (match field_payload v with
      | Some p => if negb (wire_type p =? expected_wire type)
          then Err (DecodeError ("invalid wire type for " +:+ message +:+ "." +:+ name))
          else let? x := decode_field type (payload_value p) in Ok (<[name := x]> decoded)
      | None => Ok decoded end) = Ok decoded' /\ decoded' !! name = py_field v /\
      forall k, k <> name -> decoded' !! k = decoded !! k) as (decoded' & E & Hname & Hrest).
  { specialize (Hd name ltac:(apply list_elem_of_here)). destruct v as [z|b|t|l], type; try done; simpl.
    1,2: destruct (z =? 0) eqn:Ez. 5: destruct b. 7: destruct (bool_decide (t = "")).
    9: destruct (bool_decide (l = [])).
    all: simpl; try (unfold utf8_decode; rewrite (from_utf8_wf _ Ht); simpl); try rewrite Ez.
    all: eexists; split; [reflexivity|]; rewrite ?lookup_insert_eq; split; [done|];
      intros k Hk; rewrite ?lookup_insert_ne by done; done. }
  destruct (IH decoded') as (values & Ev & Hkeep & Hval).
  { intros k u Hin. apply He. by apply list_elem_of_further. }
  { done. }
  { intros k Hk. rewrite Hrest by (intros ->; done). apply Hd. by apply list_elem_of_further. }
  exists values. split; [|split].
  - destruct (field_payload v) as [p|]; [|by injection E as <-].
    destruct (negb _); [done|]. destruct (decode_field _ _); [|done]. injection E as <-. done.
  - intros k Hk. cbn in Hk. apply not_elem_of_cons in Hk as [Hk1 Hk2]. rewrite Hkeep, Hrest by done. done.
  - intros k u Hin. cbn in Hin. apply elem_of_cons in Hin as [[= -> ->]|Hin]; [|by apply Hval].
    rewrite Hkeep; done.
Qed.

Lemma decode_message_fields name s fs rs data :
  MESSAGES name = Ok s -> serialized rs data -> rs ≡ₚ records_of fs ->
  Forall2 (fun f v => f.2.1 = v.1 /\ has_type f.2.2 v.2) s fs -> NoDup fs.*1 -> NoDup s.*1 ->
  exists values, decode_message name data = Ok values /\
    forall name v, (name, v) ∈ zip s.*1 fs.*2 -> values !! name = py_field v.
Proof.
  intros Hm Hs Hp HF Hnd Hnames. unfold decode_message. rewrite (fields_serialized rs) by done. rewrite Hm.
  destruct (decode_items_fields name s fs (collect rs ∅) ∅ HF) as (values & Hv & _ & Hval); [|done|done|eauto].
  intros n v Hin. by apply (collect_lookup rs fs).
Qed.

Ltac decode_fields fs Hs Hp :=
  match goal with |- context [decode_message ?name _] =>
    let Hval := fresh "Hval" in
    destruct (decode_message_fields name _ fs _ _ eq_refl Hs Hp) as (values & -> & Hval);
      [repeat constructor; simpl; done
      |by apply (bool_decide_unpack _); vm_compute|by apply (bool_decide_unpack _); vm_compute|];
    cbn in Hval
  end.

(** An empty field is not written, so [_required] does not find it. *)
Lemma required_str_field (values : gmap string py_value) name s :
  values !! name = py_field (Text s) ->
  required_str values name = if bool_decide (s = "") then Err (missing name) else Ok s.
Proof. intros H. unfold required_str. rewrite H. cbn [py_field]. case_bool_decide as E; [done|]. by rewrite bool_decide_eq_false_2. Qed.

Lemma required_bytes_field (values : gmap string py_value) name l :
  values !! name = py_field (Blob l) ->
  required_bytes values name = if bool_decide (l = []) then Err (missing name) else Ok l.
Proof. intros H. unfold required_bytes. rewrite H. cbn [py_field]. case_bool_decide as E; [done|]. by rewrite bool_decide_eq_false_2. Qed.

Lemma byte_value_field (values : gmap string py_value) name l :
  values !! name = py_field (Blob l) -> byte_value values name = l.
Proof. intros H. unfold byte_value. rewrite H. simpl. case_bool_decide; by subst. Qed.

Lemma int_get_field (values : gmap string py_value) name z :
  values !! name = py_field (UInt z) -> int_get values name = Ok z.
Proof. intros H. unfold int_get. rewrite H. cbn [py_field]. destruct (Z.eqb_spec z 0) as [->|]; done. Qed.

Lemma bool_get_field (values : gmap string py_value) name b :
  values !! name = py_field (Bool b) -> bool_get values name = b.
Proof. intros H. unfold bool_get. rewrite H. by destruct b. Qed.

(** The plugin's view of the host's messages. *)
Definition plugin_status (m : Wire.StatusResponse) : StatusResponse :=
  {| hostname := status_hostname m; host_version := status_host_version m;
     protocol_version := status_response_protocol_version m; paired := status_paired m;
     host_id := status_host_id m |}.

Definition plugin_pair (m : Wire.PairResponse) : PairResponse :=
  {| host_message := host_spake2_message m; nonce := encryption_nonce m;
     ciphertext := pair_encrypted_credential m; pair_hostname := Wire.pair_hostname m;
     pair_host_version := Wire.pair_host_version m;
     pair_protocol_version := pair_response_protocol_version m; pair_host_id := Wire.pair_host_id m;
     session_id := pair_response_session_id m |}.

(** The fields the plugin requires, in the order it looks for them, with
    whether they are empty. *)
Definition required_status (m : Wire.StatusResponse) : list (string * bool) :=
  [("hostname", bool_decide (status_hostname m = "")); ("host_version", bool_decide (status_host_version m = ""));
   ("host_id", bool_decide (status_host_id m = ""))].

Definition required_pair (m : Wire.PairResponse) : list (string * bool) :=
  [("host_spake2_message", bool_decide (host_spake2_message m = []));
   ("hostname", bool_decide (Wire.pair_hostname m = ""));
   ("host_version", bool_decide (Wire.pair_host_version m = ""));
   ("host_id", bool_decide (Wire.pair_host_id m = ""));
   ("session_id", bool_decide (pair_response_session_id m = []))].

(** The first required field that is empty is reported. *)
Definition unless_missing {A} (required : list (string * bool)) (a : A) : result A exn :=
  match List.find snd required with Some (name, _) => Err (missing name) | None => Ok a end.

Lemma decode_status_records m rs data :
  StatusResponse_wf m -> rs ≡ₚ records_of (proto_fields m) -> serialized rs data ->
  decode_status_response data = unless_missing (required_status m) (plugin_status m).
Proof.
  intros (Hv & H1 & H2 & H3) Hp Hs. unfold decode_status_response.
  decode_fields (proto_fields m) Hs Hp.
  rewrite (required_str_field _ _ (status_hostname m)), (required_str_field _ _ (status_host_version m)),
    (int_get_field _ _ (status_response_protocol_version m)), (bool_get_field _ _ (status_paired m)),
    (required_str_field _ _ (status_host_id m)) by (done || apply Hval; set_solver).
  unfold unless_missing, required_status. cbn [List.find snd]. by repeat case_bool_decide.
Qed.

Lemma decode_pair_records m rs data :
  PairResponse_wf m -> rs ≡ₚ records_of (proto_fields m) -> serialized rs data ->
  decode_pair_response data = unless_missing (required_pair m) (plugin_pair m).
Proof.
  intros (Hv & H1 & H2 & H3) Hp Hs. unfold decode_pair_response.
  decode_fields (proto_fields m) Hs Hp.
  rewrite (required_bytes_field _ _ (host_spake2_message m)), (byte_value_field _ _ (encryption_nonce m)),
    (byte_value_field _ _ (pair_encrypted_credential m)), (required_str_field _ _ (Wire.pair_hostname m)),
    (required_str_field _ _ (Wire.pair_host_version m)), (int_get_field _ _ (pair_response_protocol_version m)),
    (required_str_field _ _ (Wire.pair_host_id m)), (required_bytes_field _ _ (pair_response_session_id m))
    by (done || apply Hval; set_solver).
  unfold unless_missing, required_pair. cbn [List.find snd]. by repeat case_bool_decide.
Qed.

Lemma decode_error_records m rs data :
  ErrorResponse_wf m -> rs ≡ₚ records_of (proto_fields m) -> serialized rs data ->
  decode_error_response data = Ok {| code := error_code m; message := error_message m |}.
Proof.
  intros (Hv & H1) Hp Hs. unfold decode_error_response. decode_fields (proto_fields m) Hs Hp.
  rewrite (int_get_field _ _ (error_code m)) by (apply Hval; set_solver).
  rewrite (Hval "message" (Text (error_message m))) by set_solver. simpl.
  case_bool_decide as E; [by rewrite E|done].
Qed.

(** ** Requests *)

Lemma lor_tag n w : 0 <= w < 8 -> Z.lor (Z.shiftl n 3) w = n * 8 + w.
Proof. intros Hw. rewrite Z.lor_comm, lor_shiftl_add by (simpl; lia). simpl. lia. Qed.

Definition encodable (z : Z) : Prop := 0 <= z < 2 ^ 64.

Lemma uint_record n z :
  1 <= n < 128 -> encodable z -> exists l, uint n z = Ok l /\ record_bytes (n, Varint z) l.
Proof.
  intros Hn Hz. unfold uint. rewrite Z.shiftl_mul_pow2 by lia. change (2 ^ 3) with 8.
  destruct (encode_varint_spec (n * 8)) as (t & -> & Ht); [lia|].
  destruct (encode_varint_spec z Hz) as (l & -> & Hl). eexists. split; [done|].
  constructor; [unfold field_number; lia|by rewrite Z.add_0_r|by constructor].
Qed.

Lemma blob_record n k :
  1 <= n < 128 -> encodable (Z.of_nat (length k)) -> exists l, blob n k = Ok l /\ record_bytes (n, Len k) l.
Proof.
  intros Hn Hz. unfold blob. rewrite lor_tag by lia.
  destruct (encode_varint_spec (n * 8 + 2)) as (t & -> & Ht); [lia|].
  destruct (encode_varint_spec _ Hz) as (l & -> & Hl). eexists. split; [done|].
  constructor; [unfold field_number; lia|done|by constructor].
Qed.

(** The items of a request, as records. *)
Definition item_payload (v : py_value) : payload :=
  match v with
  | PyInt z => Varint z
  | PyBool b => Varint (if b then 1 else 0)
  | PyStr s => Len (as_bytes s)
  | PyBytes l => Len l
  end.

Definition item_ok (s : schema) (item : string * py_value) (r : proto_record) : Prop :=
  exists type, schema_get s item.1 = Ok (r.1, type) /\ 1 <= r.1 < 128 /\ r.2 = item_payload item.2 /\
    match item.2, type with
    | PyInt z, (uint32_type | enum_type) => encodable z
    | PyStr s, string_type => encodable (Z.of_nat (str_len s))
    | PyBytes l, bytes_type => encodable (Z.of_nat (length l))
    | _, _ => False
    end.

Lemma encode_items_records s items rs output :
  Forall2 (item_ok s) items rs ->
  exists l, encode_items s items output = Ok (output ++ l) /\ serialized rs l.
Proof.
  intros HF. revert output. induction HF as [|[name v] [n p] items rs (type & Hg & Hn & Hp & Ht) HF IH]; intros output.
  { exists []. rewrite app_nil_r. split; [done|constructor]. }
  simpl in Hg, Hn, Hp, Ht. subst p. cbn [encode_items]. rewrite Hg.
  assert (exists l, encode_field n type v = Ok l /\ record_bytes (n, item_payload v) l) as (l & -> & Hl).
  { destruct v as [z|l|t|b], type; try done; simpl; try by apply uint_record.
    - by apply blob_record.
    - apply blob_record; [done|]. by rewrite as_bytes_length. }
  destruct (IH (output ++ l)) as (k & -> & Hk). exists (l ++ k). rewrite <- app_assoc. split; [done|].
  by constructor.
Qed.

Ltac item_ok_tac := repeat constructor; eexists; (split; [vm_compute; reflexivity|]);
  (split; [simpl; lia|]); (split; [reflexivity|]); simpl; try done; unfold encodable; simpl; lia.

Lemma status_request_records :
  exists l, status_request = Ok l /\ serialized (records_of (proto_fields
    {| status_protocol_version := PROTOCOL_VERSION; status_client_version := PLUGIN_VERSION |})) l.
Proof.
  destruct (encode_items_records
    [("protocol_version", (1, uint32_type)); ("client_version", (2, string_type))]
    [("protocol_version", PyInt PROTOCOL_VERSION); ("client_version", PyStr PLUGIN_VERSION)]
    [(1, Varint 1); (2, Len (as_bytes PLUGIN_VERSION))] []) as (l & E & Hs); [|by exists l].
  item_ok_tac.
Qed.

Lemma shutdown_request_records :
  exists l, shutdown_request = Ok l /\ serialized (records_of (proto_fields
    {| shutdown_protocol_version := PROTOCOL_VERSION; shutdown_client_version := PLUGIN_VERSION |})) l.
Proof. exact status_request_records. Qed.

(** The request the plugin means. *)
Definition pair_message (client_message session_id confirmation : bytes) : PairRequest :=
  {| Wire.pair_protocol_version := PROTOCOL_VERSION; client_spake2_message := client_message;
     pair_session_id := session_id; client_confirmation := confirmation;
     pair_client_version := PLUGIN_VERSION |}.

Lemma pair_request_records cm sid conf :
  message_sized (pair_message cm sid conf) = true ->
  exists l rs, pair_request cm sid conf = Ok l /\ serialized rs l /\
    rs ≡ₚ records_of (proto_fields (pair_message cm sid conf)).
Proof.
  intros Hz.
  assert (encodable (Z.of_nat (length cm)) /\ encodable (Z.of_nat (length sid)) /\
    encodable (Z.of_nat (length conf))) as (H1 & H2 & H3).
  { unfold message_sized in Hz. cbn [forallb proto_fields PairRequest_proto pair_message value_sized
      fst snd client_spake2_message pair_session_id client_confirmation] in Hz.
    bool_to_prop. unfold isize_max in *. unfold encodable. lia. }
  unfold pair_request. unfold proto_fields, PairRequest_proto, records_of.
  cbn [omap list_omap fst snd field_payload pair_message Wire.pair_protocol_version client_spake2_message
    pair_session_id client_confirmation pair_client_version].
  set (opt (n : Z) (l : bytes) := if bool_decide (l = []) then [] else [(n, Len l)]).
  destruct (encode_items_records
    [("protocol_version", (1, uint32_type)); ("client_spake2_message", (2, bytes_type));
     ("session_id", (3, bytes_type)); ("client_confirmation", (4, bytes_type));
     ("client_version", (5, string_type))]
    (let values := [("protocol_version", PyInt PROTOCOL_VERSION); ("client_version", PyStr PLUGIN_VERSION)] in
     let values := if bool_decide (cm = []) then values else values ++ [("client_spake2_message", PyBytes cm)] in
     let values := if bool_decide (sid = []) then values else values ++ [("session_id", PyBytes sid)] in
     if bool_decide (conf = []) then values else values ++ [("client_confirmation", PyBytes conf)])
    ([(1, Varint 1); (5, Len (as_bytes PLUGIN_VERSION))] ++ opt 2 cm ++ opt 3 sid ++ opt 4 conf) [])
    as (l & E & Hs).
  { unfold opt. repeat case_bool_decide; item_ok_tac. }
  exists l. eexists. split; [|split; [exact Hs|]].
  - unfold encode_message. change (Ok l) with (Ok (E := exn) ([] ++ l)). rewrite <- E.
    repeat case_bool_decide; done.
  - unfold opt. change (bool_decide (PLUGIN_VERSION = "")) with false. cbv iota.
    repeat case_bool_decide; simpl; solve_Permutation.
Qed.

(** ** The codec and the host's encoder understand each other *)

Section Interoperation.
Context {W : Wire} {PL : ProstLaws W}.

Lemma reads_status (m : Wire.StatusResponse) :
  StatusResponse_wf m -> message_sized m = true ->
  decode_status_response (encode_to_vec m) = unless_missing (required_status m) (plugin_status m).
Proof.
  intros Hm Hz. destruct (proto3_encodes m Hm Hz) as (rs & Hp & Hs). by apply (decode_status_records m rs).
Qed.

Lemma reads_pair (m : Wire.PairResponse) :
  PairResponse_wf m -> message_sized m = true ->
  decode_pair_response (encode_to_vec m) = unless_missing (required_pair m) (plugin_pair m).
Proof.
  intros Hm Hz. destruct (proto3_encodes m Hm Hz) as (rs & Hp & Hs). by apply (decode_pair_records m rs).
Qed.

Lemma reads_status_response (m : Wire.StatusResponse) :
  StatusResponse_wf m -> message_sized m = true -> status_hostname m <> "" -> status_host_version m <> "" -> status_host_id m <> "" ->
  decode_status_response (encode_to_vec m) = Ok (plugin_status m).
Proof.
  intros Hm Hz N1 N2 N3. rewrite reads_status by done. unfold unless_missing, required_status.
  by rewrite !bool_decide_eq_false_2.
Qed.

Lemma reads_pair_response (m : Wire.PairResponse) :
  PairResponse_wf m -> message_sized m = true -> host_spake2_message m <> [] -> Wire.pair_hostname m <> "" ->
  Wire.pair_host_version m <> "" -> Wire.pair_host_id m <> "" -> pair_response_session_id m <> [] ->
  decode_pair_response (encode_to_vec m) = Ok (plugin_pair m).
Proof.
  intros Hm Hz N1 N2 N3 N4 N5. rewrite reads_pair by done. unfold unless_missing, required_pair.
  by rewrite !bool_decide_eq_false_2.
Qed.

Lemma reads_error_response (m : Wire.ErrorResponse) :
  ErrorResponse_wf m -> message_sized m = true ->
  decode_error_response (encode_to_vec m) = Ok {| code := error_code m; message := error_message m |}.
Proof.
  intros Hm Hz. destruct (proto3_encodes m Hm Hz) as (rs & Hp & Hs). by apply (decode_error_records m rs).
Qed.

Lemma status_request_read :
  exists l, status_request = Ok l /\ decode l = Some
    {| status_protocol_version := PROTOCOL_VERSION; status_client_version := PLUGIN_VERSION |}.
Proof.
  destruct status_request_records as (l & E & Hs). exists l. split; [done|].
  eapply proto3_decodes; [| |done|exact Hs]; done.
Qed.

Lemma shutdown_request_read :
  exists l, shutdown_request = Ok l /\ decode l = Some
    {| shutdown_protocol_version := PROTOCOL_VERSION; shutdown_client_version := PLUGIN_VERSION |}.
Proof.
  destruct shutdown_request_records as (l & E & Hs). exists l. split; [done|].
  eapply proto3_decodes; [| |done|exact Hs]; done.
Qed.

Lemma pair_request_read cm sid conf :
  message_sized (pair_message cm sid conf) = true ->
  exists l, pair_request cm sid conf = Ok l /\ decode l = Some (pair_message cm sid conf).
Proof.
  intros Hz. destruct (pair_request_records cm sid conf Hz) as (l & rs & E & Hs & Hp).
  exists l. split; [done|]. by eapply proto3_decodes.
Qed.

(** C7: the plugin's codec and an encoder that follows proto3 understand each
    other on messages of the sizes Rust can hold: the host decodes every request
    the plugin builds to the message the plugin means, although the plugin
    writes the fields of a pairing request out of order; the plugin decodes
    every error message of the host to the values it carries, and every status
    and pairing message whose required fields are all filled; one with an empty
    required field, which proto3 does not write, it refuses, naming the first
    of them. *)
Theorem codec_interoperates :
  (exists l, status_request = Ok l /\ decode l = Some
    {| status_protocol_version := PROTOCOL_VERSION; status_client_version := PLUGIN_VERSION |}) /\
  (exists l, shutdown_request = Ok l /\ decode l = Some
    {| shutdown_protocol_version := PROTOCOL_VERSION; shutdown_client_version := PLUGIN_VERSION |}) /\
  (forall cm sid conf,
    message_sized (pair_message cm sid conf) = true ->
    exists l, pair_request cm sid conf = Ok l /\ decode l = Some (pair_message cm sid conf)) /\
  (forall m : Wire.StatusResponse, StatusResponse_wf m -> message_sized m = true ->
    decode_status_response (encode_to_vec m) =
      match List.find snd (required_status m) with
      | None => Ok (plugin_status m)
      | Some (name, _) => Err (DecodeError ("missing or invalid field: " +:+ name))
      end) /\
  (forall m : Wire.PairResponse, PairResponse_wf m -> message_sized m = true ->
    decode_pair_response (encode_to_vec m) =
      match List.find snd (required_pair m) with
      | None => Ok (plugin_pair m)
      | Some (name, _) => Err (DecodeError ("missing or invalid field: " +:+ name))
      end) /\
  (forall m : Wire.ErrorResponse, ErrorResponse_wf m -> message_sized m = true ->
    decode_error_response (encode_to_vec m) = Ok {| code := error_code m; message := error_message m |}).
Proof.
  split; [apply status_request_read|]. split; [apply shutdown_request_read|].
  split; [exact pair_request_read|]. split; [|split; [|exact reads_error_response]].
  - intros m Hm Hz. rewrite reads_status by done. unfold unless_missing. by destruct (List.find _ _) as [[]|].
  - intros m Hm Hz. rewrite reads_pair by done. unfold unless_missing. by destruct (List.find _ _) as [[]|].
Qed.

End Interoperation.

End Protobuf.
