(* ===== verification/Samples.v ===== *)
(** * Executable instances of the parameters

    Concrete functions for the crates the host calls, with proofs that they
    satisfy the laws the theorems assume: a message encoding, header maps and
    hexadecimal digits, and a store in memory that can be told to fail.  They
    serve the witnesses and the concrete runs only. *)
From stdpp Require Import base gmap list strings.
From Stdlib Require Import Ascii.
From Stdlib Require Strings.String.
From S2P Require Import Prelude RustStd Hex Fs Primitives Storage Power Wire.
Open Scope string_scope.
Open Scope Z_scope.
Open Scope list_scope.

(** ** A message encoding

    A byte string is written as its bytes, each after a one, and a final zero;
    a number as its four bytes, so that fields can be read back one by one. *)

Fixpoint put (l : bytes) (rest : bytes) : bytes :=
  match l with
  | [] => x00 :: rest
  | b :: l => x01 :: b :: put l rest
  end.

Fixpoint get_field (l : bytes) : option (bytes * bytes) :=
  match l with
  | x00 :: rest => Some ([], rest)
  | x01 :: b :: l =>
      match get_field l with Some (f, rest) => Some (b :: f, rest) | None => None end
  | _ => None
  end.

Lemma get_put l rest : get_field (put l rest) = Some (l, rest).
Proof. induction l as [|b l IH]; simpl; [done|]. by rewrite IH. Qed.

Definition put_str (s : string) : bytes -> bytes := put (as_bytes s).
Definition put_num (z : Z) : bytes -> bytes := put (to_be_bytes 4 z).
Definition put_bool (b : bool) : bytes -> bytes := put (if b then [x01] else []).

(** A decoder reads one field and goes on with the rest. *)
Definition field {A B} (f : bytes -> A) (k : A -> bytes -> option B) (l : bytes) : option B :=
  match get_field l with Some (x, rest) => k (f x) rest | None => None end.

Definition str_of (l : bytes) : string := String.string_of_list_byte l.
Definition num_of (l : bytes) : Z := from_be_bytes l.
Definition bool_of (l : bytes) : bool := match l with [] => false | _ => true end.
Definition bytes_of (l : bytes) : bytes := l.

Definition stop {A} (a : A) (rest : bytes) : option A :=
  match rest with [] => Some a | _ => None end.

Lemma str_of_as_bytes s : str_of (as_bytes s) = s.
Proof. apply String.string_of_list_byte_of_string. Qed.

Lemma num_of_be z : in_range u32_max z -> num_of (to_be_bytes 4 z) = z.
Proof.
  intros [H1 H2]. apply from_to_be_bytes. unfold u32_max in H2. simpl. lia.
Qed.

Lemma field_put {A B} (f : bytes -> A) (k : A -> bytes -> option B) l rest :
  field f k (put l rest) = k (f l) rest.
Proof. unfold field. by rewrite get_put. Qed.

Definition toy_wire : Wire := {|
  wire_status_request := {|
    encode_to_vec m := put_num (status_protocol_version m) (put_str (status_client_version m) []);
    decode := field num_of (fun v => field str_of (fun c => stop
      {| status_protocol_version := v; status_client_version := c |})) |};
  wire_status_response := {|
    encode_to_vec m := put_str (status_hostname m) (put_str (status_host_version m)
      (put_num (status_response_protocol_version m) (put_bool (status_paired m)
      (put_str (status_host_id m) []))));
    decode := field str_of (fun h => field str_of (fun v => field num_of (fun n =>
      field bool_of (fun p => field str_of (fun i => stop
      {| status_hostname := h; status_host_version := v; status_response_protocol_version := n;
         status_paired := p; status_host_id := i |}))))) |};
  wire_pair_request := {|
    encode_to_vec m := put_num (pair_protocol_version m) (put (client_spake2_message m)
      (put (pair_session_id m) (put (client_confirmation m) (put_str (pair_client_version m) []))));
    decode := field num_of (fun n => field bytes_of (fun s => field bytes_of (fun i =>
      field bytes_of (fun c => field str_of (fun v => stop
      {| pair_protocol_version := n; client_spake2_message := s; pair_session_id := i;
         client_confirmation := c; pair_client_version := v |}))))) |};
  wire_pair_response := {|
    encode_to_vec m := put (host_spake2_message m) (put (encryption_nonce m)
      (put (pair_encrypted_credential m) (put_str (pair_hostname m) (put_str (pair_host_version m)
      (put_num (pair_response_protocol_version m) (put_str (pair_host_id m)
      (put (pair_response_session_id m) [])))))));
    decode := field bytes_of (fun a => field bytes_of (fun b => field bytes_of (fun c =>
      field str_of (fun h => field str_of (fun v => field num_of (fun n => field str_of (fun i =>
      field bytes_of (fun s => stop
      {| host_spake2_message := a; encryption_nonce := b; pair_encrypted_credential := c;
         pair_hostname := h; pair_host_version := v; pair_response_protocol_version := n;
         pair_host_id := i; pair_response_session_id := s |})))))))) |};
  wire_shutdown_request := {|
    encode_to_vec m := put_num (shutdown_protocol_version m) (put_str (shutdown_client_version m) []);
    decode := field num_of (fun v => field str_of (fun c => stop
      {| shutdown_protocol_version := v; shutdown_client_version := c |})) |};
  wire_shutdown_response := {|
    encode_to_vec m := put_bool (accepted m) [];
    decode := field bool_of (fun b => stop {| accepted := b |}) |};
  wire_error_response := {|
    encode_to_vec m := put_num (error_code m) (put_str (error_message m) []);
    decode := field num_of (fun v => field str_of (fun c => stop
      {| error_code := v; error_message := c |})) |};
|}.

Lemma toy_wire_laws : WireLaws toy_wire.
Proof.
  constructor; intros []; simpl; unfold put_num, put_str, put_bool; intros; rewrite !field_put;
    unfold stop, bytes_of; rewrite ?str_of_as_bytes, ?num_of_be; try done; try apply H.
  - by destruct status_paired.
  - by destruct accepted.
  - destruct H as [H _]. simpl in H. unfold in_range, u32_max. lia.
Qed.

(** ** Headers *)

Definition visible (s : string) : bool := str_all (fun c => (32 <=? code c) && (code c <=? 126)) s.

Definition toy_http : Http := {|
  HeaderMap := list (string * bytes);
  rejection_headers _ := [];
  rejection_body x :=
    match x with LengthLimit => as_bytes "length limit exceeded" | UnreadBody => as_bytes "unread" | _ => [] end;
  headers_get hs name := snd <$> List.find (fun kv => bool_decide (kv.1 = name)) hs;
  header_to_str v := if visible (str_of v) then Some (str_of v) else None;
  header_value_parse s := if visible s then Some (as_bytes s) else None;
  hex_encode := to_hex;
  hex_decode := of_hex;
|}.

Lemma toy_http_laws : HttpLaws toy_http.
Proof.
  constructor; simpl.
  - intros s Hs. exists (as_bytes s). rewrite str_of_as_bytes.
    change (visible_ascii s) with (visible s) in Hs. by rewrite Hs.
  - exact of_hex_to_hex.
  - intros l. eapply str_all_impl, to_hex_graphic. intros c Hc. cbv beta in Hc. bool_to_prop.
    rewrite andb_true_iff, !Z.leb_le. lia.
  - intros l. eapply str_all_impl, to_hex_graphic. intros c Hc. cbv beta in Hc. bool_to_prop.
    unfold is_ascii_space. rewrite negb_true_iff, orb_false_iff, andb_false_iff, !Z.leb_gt, Z.eqb_neq. lia.
Qed.

(** ** A store in memory *)

(** What is stored, and which of the next saves fail. *)
Record MemoryStore := { memory : option HostIdentity; failing : list bool }.

Definition memory_save (i : HostIdentity) (s : MemoryStore) : result unit io_error * MemoryStore :=
  match failing s with
  | true :: fs => (Err (OtherIo "disk full"), {| memory := memory s; failing := fs |})
  | false :: fs => (Ok tt, {| memory := Some i; failing := fs |})
  | [] => (Ok tt, {| memory := Some i; failing := [] |})
  end.

#[export] Instance memory_store : CredentialStore MemoryStore := {|
  load_or_create d s :=
    match memory s with
    | Some i => (Ok i, s)
    | None => match memory_save d s with (Ok _, s) => (Ok d, s) | (Err e, s) => (Err e, s) end
    end;
  save := memory_save;
|}.

Lemma memory_laws :
  CredentialStoreLaws MemoryStore (fun s i => memory s = Some i) (fun _ => True).
Proof.
  constructor; simpl; unfold memory_save.
  - intros i s s'. destruct (failing s) as [|[] fs]; intros [= <-]; done.
  - intros i s e s' j. destruct (failing s) as [|[] fs]; [done| |done]. by intros [= <- <-].
  - intros d s i j s' E. rewrite E. congruence.
  - intros d s i _ E. by rewrite E.
  - intros d s i E. by rewrite E.
Qed.
