(* ===== verification/ProtoSamples.v ===== *)
(** * A proto3 encoder and decoder

    An executable instance of the encoders prost generates, with the proof
    that it follows the wire format in the sense of [ProstLaws].  It serves the
    witnesses and the concrete runs of the plugin. *)
From stdpp Require Import base gmap list strings.
From Stdlib Require Import Ascii ZArith Lia.
From S2P Require Import Prelude RustStd PyStd Wire Samples Proto3 PluginProtobuf.
Import Protobuf.
Open Scope string_scope.
Open Scope Z_scope.
Open Scope list_scope.

Definition write_record (r : proto_record) : bytes :=
  match (match r.2 with
         | Varint z => uint r.1 z
         | Fixed64 l | Len l | Fixed32 l => blob r.1 l
         end) with
  | Ok l => l
  | Err _ => []
  end.

Definition write_fields (fs : list (Z * field_value)) : bytes := concat (map write_record (records_of fs)).

Definition read_uint (m : gmap Z (Z * py_value)) (n : Z) : Z :=
  match m !! n with Some (_, PyInt z) => z | _ => 0 end.
Definition read_bool (m : gmap Z (Z * py_value)) (n : Z) : bool := negb (read_uint m n =? 0).
Definition read_blob (m : gmap Z (Z * py_value)) (n : Z) : bytes :=
  match m !! n with Some (_, PyBytes l) => l | _ => [] end.
Definition read_text (m : gmap Z (Z * py_value)) (n : Z) : string := String.string_of_list_byte (read_blob m n).

(** A decoder that builds the message from the dictionary of its records.
    Messages larger than Rust can hold are marked with a byte no message starts
    with, and left to another encoding [C]. *)
Definition proto_message {M} {F : Proto M} (C : Message M) (build : gmap Z (Z * py_value) -> M) : Message M := {|
  encode_to_vec m := if message_sized m then write_fields (proto_fields m) else x07 :: encode_to_vec m;
  decode l :=
    match l with
    | x07 :: l => decode l
    | _ => match fields l with Ok m => Some (build m) | Err _ => None end
    end;
|}.

Definition build_status_request m : StatusRequest :=
  {| status_protocol_version := read_uint m 1; status_client_version := read_text m 2 |}.
Definition build_status_response m : Wire.StatusResponse :=
  {| status_hostname := read_text m 1; status_host_version := read_text m 2;
     status_response_protocol_version := read_uint m 3; status_paired := read_bool m 4;
     status_host_id := read_text m 5 |}.
Definition build_pair_request m : PairRequest :=
  {| Wire.pair_protocol_version := read_uint m 1; client_spake2_message := read_blob m 2;
     pair_session_id := read_blob m 3; client_confirmation := read_blob m 4; pair_client_version := read_text m 5 |}.
Definition build_pair_response m : Wire.PairResponse :=
  {| host_spake2_message := read_blob m 1; encryption_nonce := read_blob m 2;
     pair_encrypted_credential := read_blob m 3; Wire.pair_hostname := read_text m 4;
     Wire.pair_host_version := read_text m 5; pair_response_protocol_version := read_uint m 6;
     Wire.pair_host_id := read_text m 7; pair_response_session_id := read_blob m 8 |}.
Definition build_shutdown_request m : ShutdownRequest :=
  {| shutdown_protocol_version := read_uint m 1; shutdown_client_version := read_text m 2 |}.
Definition build_shutdown_response m : ShutdownResponse := {| accepted := read_bool m 1 |}.
Definition build_error_response m : Wire.ErrorResponse :=
  {| error_code := read_uint m 1; error_message := read_text m 2 |}.

Definition proto_wire : Wire := {|
  wire_status_request := proto_message (@wire_status_request toy_wire) build_status_request;
  wire_status_response := proto_message (@wire_status_response toy_wire) build_status_response;
  wire_pair_request := proto_message (@wire_pair_request toy_wire) build_pair_request;
  wire_pair_response := proto_message (@wire_pair_response toy_wire) build_pair_response;
  wire_shutdown_request := proto_message (@wire_shutdown_request toy_wire) build_shutdown_request;
  wire_shutdown_response := proto_message (@wire_shutdown_response toy_wire) build_shutdown_response;
  wire_error_response := proto_message (@wire_error_response toy_wire) build_error_response;
|}.

(** ** It follows the wire format *)

Definition value_ok (v : field_value) : Prop :=
  value_sized v = true /\ match v with UInt z => 0 <= z <= u32_max | _ => True end.

Lemma write_fields_serialized fs :
  Forall (fun f => 1 <= f.1 < 128 /\ value_ok f.2) fs -> serialized (records_of fs) (write_fields fs).
Proof.
  unfold write_fields. induction 1 as [|[n v] fs [Hn [Hv Hu]] HF IH]; [constructor|].
  unfold records_of in *. cbn [omap list_omap fst snd]. destruct (field_payload v) as [p|] eqn:E; [|done].
  cbn [map concat]. constructor; [|done]. simpl in Hn, Hu. unfold write_record. cbn [fst snd].
  destruct v as [z|b|s|l]; cbn [field_payload value_sized snd] in E, Hv; bool_to_prop.
  - destruct (z =? 0); [done|]. injection E as <-.
    destruct (uint_record n z) as (l & -> & Hl); [done|unfold encodable, u32_max in *; lia|done].
  - destruct b; [|done]. injection E as <-.
    destruct (uint_record n 1) as (l & -> & Hl); [done|unfold encodable; lia|done].
  - case_bool_decide; [done|]. injection E as <-.
    destruct (blob_record n (as_bytes s)) as (l & -> & Hl);
      [done|unfold encodable, isize_max in *; rewrite as_bytes_length; lia|done].
  - case_bool_decide; [done|]. injection E as <-.
    destruct (blob_record n l) as (k & -> & Hk); [done|unfold encodable, isize_max in *; lia|done].
Qed.

Section Instance.
Context {M : Type} {F : Proto M} (C : Message M) (build : gmap Z (Z * py_value) -> M) (wf : M -> Prop).
(** Every message has distinct field numbers and values of the right range, and
    is rebuilt from the dictionary of its fields. *)
Context (numbers : forall m, NoDup (proto_fields m).*1).
Context (fields_ok : forall m, wf m -> message_sized m = true ->
  Forall (fun f => 1 <= f.1 < 128 /\ value_ok f.2) (proto_fields m)).
Context (rebuild : forall m d, wf m -> (forall n v, (n, v) ∈ proto_fields m -> d !! n =
  match field_payload v with Some p => Some (wire_type p, payload_value p) | None => None end) -> build d = m).

(** No sequence of records starts with the mark. *)
Lemma serialized_mark rs l : ~ serialized rs (x07 :: l).
Proof.
  intros Hs. remember (x07 :: l) as data eqn:Hk. destruct Hs as [|r rs k k' Hr _]; [done|].
  destruct Hr as [n p tag k2 Hn [Ht _] _].
  destruct tag as [|b tag]; [done|]. cbn in Hk. injection Hk as -> _.
  destruct tag; cbn [is_varint] in Ht; [|by destruct Ht].
  destruct Ht as [_ Ht]. change (byte_to_Z x07) with 7 in Ht. pose proof (wire_type_range p). unfold field_number in Hn. lia.
Qed.

Lemma proto_message_decodes m rs l :
  wf m -> rs ≡ₚ records_of (proto_fields m) -> serialized rs l ->
  @decode M (proto_message C build) l = Some m.
Proof.
  intros Hm Hp Hs. change (match l with x07 :: k => @decode M C k | _ =>
    match fields l with Ok d => Some (build d) | Err _ => None end end = Some m).
  assert (match fields l with Ok d => Some (build d) | Err _ => None end = Some m) as E.
  { rewrite (fields_serialized rs) by done. f_equal. apply rebuild; [done|]. intros n v Hin.
    by apply (collect_lookup rs (proto_fields m)). }
  destruct l as [|b l]; [done|]. destruct (bool_decide (b = x07)) eqn:Eb; bool_to_prop; [subst; by apply serialized_mark in Hs|]. by destruct b.
Qed.

Lemma proto_message_laws : Proto3 (proto_message C build) F wf.
Proof.
  constructor.
  - intros m Hm Hz. exists (records_of (proto_fields m)). split; [done|].
    change (serialized (records_of (proto_fields m))
      (if message_sized m then write_fields (proto_fields m) else x07 :: @encode_to_vec M C m)).
    rewrite Hz. by apply write_fields_serialized, fields_ok.
  - intros m rs l Hm _. by apply proto_message_decodes.
Qed.

Lemma proto_message_round_trip m :
  wf m -> (@decode M C (@encode_to_vec M C m) = Some m) ->
  @decode M (proto_message C build) (@encode_to_vec M (proto_message C build) m) = Some m.
Proof.
  intros Hm Hc. change (@encode_to_vec M (proto_message C build) m) with
    (if message_sized m then write_fields (proto_fields m) else x07 :: @encode_to_vec M C m).
  destruct (message_sized m) eqn:Hz; [|done].
  apply (proto_message_decodes m (records_of (proto_fields m))); [done|done|].
  by apply write_fields_serialized, fields_ok.
Qed.

End Instance.

Lemma read_uint_field (d : gmap Z (Z * py_value)) n z :
  d !! n = match field_payload (UInt z) with Some p => Some (wire_type p, payload_value p) | None => None end ->
  read_uint d n = z.
Proof. unfold read_uint. intros ->. cbn [field_payload]. destruct (Z.eqb_spec z 0) as [->|]; done. Qed.

Lemma read_bool_field (d : gmap Z (Z * py_value)) n b :
  d !! n = match field_payload (Bool b) with Some p => Some (wire_type p, payload_value p) | None => None end ->
  read_bool d n = b.
Proof. unfold read_bool, read_uint. intros ->. by destruct b. Qed.

Lemma read_blob_field (d : gmap Z (Z * py_value)) n l :
  d !! n = match field_payload (Blob l) with Some p => Some (wire_type p, payload_value p) | None => None end ->
  read_blob d n = l.
Proof. unfold read_blob. intros ->. cbn [field_payload]. case_bool_decide; by subst. Qed.

Lemma read_text_field (d : gmap Z (Z * py_value)) n s :
  d !! n = match field_payload (Text s) with Some p => Some (wire_type p, payload_value p) | None => None end ->
  read_text d n = s.
Proof.
  unfold read_text, read_blob. intros ->. cbn [field_payload]. case_bool_decide; [by subst|].
  apply String.string_of_list_byte_of_string.
Qed.

Ltac proto_numbers := intros ?; by apply (bool_decide_unpack _); vm_compute.
Ltac expose H :=
  cbv [proto_fields StatusRequest_proto StatusResponse_proto PairRequest_proto PairResponse_proto
    ShutdownRequest_proto ShutdownResponse_proto ErrorResponse_proto] in H.
Ltac proto_ok :=
  clear; intros m Hm Hz; unfold message_sized in Hz; rewrite forallb_forall in Hz;
  apply Forall_forall; intros f Hf;
  assert (value_sized f.2 = true) as Hs by (apply (Hz f), list_elem_of_In; done);
  expose Hf; rewrite !elem_of_cons, elem_of_nil in Hf; unfold value_ok; rewrite Hs;
  repeat (destruct Hf as [->|Hf]; [cbn; split; [lia|]; split; [done|]; try done; first [apply Hm | destruct Hm; unfold u32_max; lia]|]); done.
Ltac proto_rebuild :=
  clear; intros [] d _ Hd; expose Hd; cbn in Hd;
  unfold build_status_request, build_status_response, build_pair_request, build_pair_response,
    build_shutdown_request, build_shutdown_response, build_error_response;
  f_equal; first [eapply read_uint_field, Hd; set_solver | eapply read_bool_field, Hd; set_solver
    | eapply read_blob_field, Hd; set_solver | eapply read_text_field, Hd; set_solver].

Lemma proto_wire_prost : ProstLaws proto_wire.
Proof.
  constructor; (apply proto_message_laws; [proto_numbers | proto_ok | proto_rebuild]).
Qed.

Lemma proto_wire_laws : WireLaws proto_wire.
Proof.
  pose proof toy_wire_laws as T.
  constructor; intros m; try intros Hm.
  - eapply proto_message_round_trip with (wf := StatusRequest_wf);
      [proto_numbers | proto_ok | proto_rebuild | done | by apply decode_status_request].
  - eapply proto_message_round_trip with (wf := StatusResponse_wf);
      [proto_numbers | proto_ok | proto_rebuild | done | by apply Wire.decode_status_response].
  - eapply proto_message_round_trip with (wf := PairRequest_wf);
      [proto_numbers | proto_ok | proto_rebuild | done | by apply decode_pair_request].
  - eapply proto_message_round_trip with (wf := PairResponse_wf);
      [proto_numbers | proto_ok | proto_rebuild | done | by apply Wire.decode_pair_response].
  - eapply proto_message_round_trip with (wf := ShutdownRequest_wf);
      [proto_numbers | proto_ok | proto_rebuild | done | by apply decode_shutdown_request].
  - eapply proto_message_round_trip with (wf := fun _ => True);
      [proto_numbers | proto_ok | proto_rebuild | done | by apply decode_shutdown_response].
  - eapply proto_message_round_trip with (wf := ErrorResponse_wf);
      [proto_numbers | proto_ok | proto_rebuild | done | by apply Wire.decode_error_response].
Qed.

(** [codec_interoperates] at this encoder. *)
Lemma codec_interoperates_witness :
  exists l, pair_request [x41; x42] [] [] = Ok l /\
    @decode _ (@wire_pair_request proto_wire) l = Some (pair_message [x41; x42] [] []).
Proof.
  destruct (@codec_interoperates proto_wire proto_wire_prost) as (_ & _ & Hpair & _).
  apply Hpair. reflexivity.
Defined.

(** The bytes of a status answer, as they travel. *)
Example status_response_bytes :
  @encode_to_vec _ (@wire_status_response proto_wire)
    {| status_hostname := "pc"; status_host_version := "0.1.0"; status_response_protocol_version := 1;
       status_paired := true; status_host_id := "id" |} =
  [x0a; x02; x70; x63; x12; x05; x30; x2e; x31; x2e; x30; x18; x01; x20; x01; x2a; x02; x69; x64].
Proof. vm_compute. done. Qed.
