(* ===== verification/Runtime.v ===== *)
(** * Asynchronous tasks and mutexes

    The handlers of the host run as concurrent tasks that share data through
    [tokio::sync::Mutex] guards.  A task is a [prog]: it acquires and releases
    mutexes, works on the data behind a guard it holds, and performs effects on
    the environment (clocks, random generator, store, power).  [run] executes a
    task alone and within an instant; [run_timed] executes it alone while the
    environment moves on before each of its effects; [step] interleaves any
    number of tasks, and time, between any two operations.

    The second half is a program logic: [wp] verifies one task against an
    invariant per mutex and one for the environment, with mutexes acquired in
    the order of their rank.  Its soundness gives, for every interleaving:
    no task panics, the invariants hold of every free mutex, no deadlock. *)
From stdpp Require Import base list relations.
From S2P Require Import Prelude.
Open Scope nat_scope.

(** The data behind each mutex, as the fields of a world. *)
Class Cells (L : Type) (data : L -> Type) (W : Type) := {
  get : forall l, W -> data l;
  set : forall l, data l -> W -> W;
  get_set_same l d w : get l (set l d w) = d;
  get_set_other l l' d w : l <> l' -> get l' (set l d w) = get l' w;
}.

Inductive outcome (A : Type) : Type :=
| Done (a : A)
| Panicked.
Arguments Done {A} a.
Arguments Panicked {A}.

Section Prog.
Context {L : Type} {data : L -> Type} {Env : Type}.

Inductive prog (A : Type) : Type :=
| Ret (a : A)
| Panic
| Acquire (l : L) (k : prog A)
| Release (l : L) (k : prog A)
| Access (l : L) (B : Type) (f : data l -> B * data l) (k : B -> prog A)
| Io (B : Type) (f : Env -> B * Env) (k : B -> prog A).

Arguments Ret {A} a.
Arguments Panic {A}.
Arguments Acquire {A} l k.
Arguments Release {A} l k.
Arguments Access {A} l {B} f k.
Arguments Io {A B} f k.

Fixpoint bind {A B} (p : prog A) (k : A -> prog B) : prog B :=
  match p with
  | Ret a => k a
  | Panic => Panic
  | Acquire l p => Acquire l (bind p k)
  | Release l p => Release l (bind p k)
  | Access l f p => Access l f (fun b => bind (p b) k)
  | Io f p => Io f (fun b => bind (p b) k)
  end.

(** A guard in scope for the whole of [body], dropped at its end. *)
Definition guarded {A} (l : L) (body : prog A) : prog A :=
  Acquire l (bind body (fun a => Release l (Ret a))).

(** An access through a guard that is held. *)
Definition access {B} (l : L) (f : data l -> B * data l) : prog B := Access l f Ret.

Definition read (l : L) : prog (data l) := access l (fun d => (d, d)).

Definition write (l : L) (d : data l) : prog unit := access l (fun _ => (tt, d)).

(** A guard that lives for one expression. *)
Definition locked {B} (l : L) (f : data l -> B * data l) : prog B := guarded l (access l f).

Definition io {B} (f : Env -> B * Env) : prog B := Io f Ret.

(** ** A task alone *)

Section Run.
Context {W : Type} {C : Cells L data W}.

Fixpoint run {A} (p : prog A) (w : W) (e : Env) : outcome A * W * Env :=
  match p with
  | Ret a => (Done a, w, e)
  | Panic => (Panicked, w, e)
  | Acquire _ p | Release _ p => run p w e
  | Access l f k => let '(b, d) := f (get l w) in run (k b) (set l d w) e
  | Io f k => let '(b, e) := f e in run (k b) w e
  end.

Lemma run_bind {A B} (p : prog A) (k : A -> prog B) w e :
  run (bind p k) w e =
    match run p w e with
    | (Done a, w, e) => run (k a) w e
    | (Panicked, w, e) => (Panicked, w, e)
    end.
Proof.
  revert w e; induction p as [a| |l p IH|l p IH|l B' f p IH|B' f p IH]; intros w e; simpl; auto.
  - destruct (f (get l w)). apply IH.
  - destruct (f e). apply IH.
Qed.

Lemma run_guarded {A} l (body : prog A) w e : run (guarded l body) w e = run body w e.
Proof.
  unfold guarded. simpl. rewrite run_bind. by destruct (run body w e) as [[[]?]?].
Qed.

Lemma run_locked {B} l (f : data l -> B * data l) w e :
  run (locked l f) w e = (Done (f (get l w)).1, set l (f (get l w)).2 w, e).
Proof. unfold locked. rewrite run_guarded. simpl. by destruct (f (get l w)). Qed.

(** A task alone, in an environment that moves on by itself: before the [n]-th
    effect it has changed by [pass n].  The last component counts the effects. *)
Fixpoint run_timed (pass : nat -> Env -> Env) {A} (n : nat) (p : prog A) (w : W) (e : Env)
    : outcome A * W * Env * nat :=
  match p with
  | Ret a => (Done a, w, e, n)
  | Panic => (Panicked, w, e, n)
  | Acquire _ p | Release _ p => run_timed pass n p w e
  | Access l f k => let '(b, d) := f (get l w) in run_timed pass n (k b) (set l d w) e
  | Io f k => let '(b, e) := f (pass n e) in run_timed pass (S n) (k b) w e
  end.

Lemma run_timed_bind pass {A B} n (p : prog A) (k : A -> prog B) w e :
  run_timed pass n (bind p k) w e =
    match run_timed pass n p w e with
    | (Done a, w, e, n) => run_timed pass n (k a) w e
    | (Panicked, w, e, n) => (Panicked, w, e, n)
    end.
Proof.
  revert n w e; induction p as [a| |l p IH|l p IH|l B' f p IH|B' f p IH]; intros n w e; simpl; auto.
  - destruct (f (get l w)). apply IH.
  - destruct (f (pass n e)). apply IH.
Qed.

Lemma run_timed_guarded pass {A} n l (body : prog A) w e :
  run_timed pass n (guarded l body) w e = run_timed pass n body w e.
Proof.
  unfold guarded. simpl. rewrite run_timed_bind. by destruct (run_timed pass n body w e) as [[[[]?]?]?].
Qed.

Lemma run_timed_io pass {B} n (f : Env -> B * Env) w e :
  run_timed pass n (io f) w e = (Done (f (pass n e)).1, w, (f (pass n e)).2, S n).
Proof. simpl. by destruct (f (pass n e)). Qed.

Lemma run_timed_access pass {B} n l (f : data l -> B * data l) w e :
  run_timed pass n (access l f) w e = (Done (f (get l w)).1, set l (f (get l w)).2 w, e, n).
Proof. simpl. by destruct (f (get l w)). Qed.

Lemma run_timed_locked pass {B} n l (f : data l -> B * data l) w e :
  run_timed pass n (locked l f) w e = (Done (f (get l w)).1, set l (f (get l w)).2 w, e, n).
Proof. unfold locked. by rewrite run_timed_guarded, run_timed_access. Qed.

(** When the environment does not move, the two agree. *)
Lemma run_timed_still {A} n (p : prog A) w e : (run_timed (fun _ e => e) n p w e).1 = run p w e.
Proof.
  revert n w e; induction p as [a| |l p IH|l p IH|l B' f p IH|B' f p IH]; intros n w e; simpl; auto.
  - destruct (f (get l w)). apply IH.
  - destruct (f e). apply IH.
Qed.

(** A program all of whose effects relate the environment by [R] does so as
    a whole. *)
Fixpoint io_keeps (R : Env -> Env -> Prop) {A} (p : prog A) : Prop :=
  match p with
  | Ret _ | Panic => True
  | Acquire _ p | Release _ p => io_keeps R p
  | Access l f k => forall b, io_keeps R (k b)
  | Io f k => (forall e, R e (f e).2) /\ forall b, io_keeps R (k b)
  end.

Lemma io_keeps_bind R {A B} (p : prog A) (k : A -> prog B) :
  io_keeps R p -> (forall a, io_keeps R (k a)) -> io_keeps R (bind p k).
Proof.
  intros Hp Hk. induction p as [a| |l p IH|l p IH|l B' f p IH|B' f p IH]; simpl in *; auto.
  destruct Hp as [Hf Hp]. auto.
Qed.

Lemma io_keeps_guarded R {A} l (p : prog A) : io_keeps R p -> io_keeps R (guarded l p).
Proof. intros Hp. simpl. by apply io_keeps_bind. Qed.

Lemma io_keeps_run R `{!PreOrder R} {A} (p : prog A) w e : io_keeps R p -> R e (run p w e).2.
Proof.
  revert w e; induction p as [a| |l p IH|l p IH|l B' f p IH|B' f p IH]; intros w e Hp; simpl in *; auto.
  - reflexivity.
  - reflexivity.
  - destruct (f (get l w)). by apply IH.
  - destruct Hp as [Hf Hp]. specialize (Hf e). destruct (f e) as [b e1]. simpl in Hf.
    etransitivity; [exact Hf|]. by apply IH.
Qed.

End Run.
End Prog.

Arguments prog L data Env A : clear implicits.
Arguments Ret {L data Env A} a.
Arguments Panic {L data Env A}.
Arguments Acquire {L data Env A} l k.
Arguments Release {L data Env A} l k.
Arguments Access {L data Env A} l {B} f k.
Arguments Io {L data Env A B} f k.

Declare Scope prog_scope.
Delimit Scope prog_scope with prog.
Notation "x <- p ;; q" := (bind p (fun x => q))
  (at level 60, p at next level, right associativity) : prog_scope.
Notation "p ;;; q" := (bind p (fun _ => q))
  (at level 60, right associativity) : prog_scope.
Open Scope prog_scope.

(** ** Interleaved tasks *)

Section Concurrent.
Context {L : Type} `{!EqDecision L} {data : L -> Type} {Env W : Type} {C : Cells L data W}.
Context {A : Type}.

Record task := Task { held : list L; code : prog L data Env A }.

Record config := Config { tasks : list task; world : W; env : Env }.

(** No task holds [l]. *)
Definition free (ts : list task) (l : L) : Prop := Forall (fun t => l ∉ held t) ts.

(** One operation of the task at index [i]. *)
Inductive task_step (i : nat) : config -> config -> Prop :=
| step_acquire ts w e h l p :
    ts !! i = Some (Task h (Acquire l p)) -> free ts l ->
    task_step i (Config ts w e) (Config (<[i := Task (l :: h) p]> ts) w e)
| step_release ts w e h h' l p :
    ts !! i = Some (Task h (Release l p)) -> h = l :: h' ->
    task_step i (Config ts w e) (Config (<[i := Task h' p]> ts) w e)
| step_access ts w e h l B (f : data l -> B * data l) k b d :
    ts !! i = Some (Task h (Access l f k)) -> l ∈ h -> f (get l w) = (b, d) ->
    task_step i (Config ts w e) (Config (<[i := Task h (k b)]> ts) (set l d w) e)
| step_io ts w e h B (f : Env -> B * Env) k b e' :
    ts !! i = Some (Task h (Io f k)) -> f e = (b, e') ->
    task_step i (Config ts w e) (Config (<[i := Task h (k b)]> ts) w e')
| step_unwind ts w e l h :
    (* a panicking task drops its guards *)
    ts !! i = Some (Task (l :: h) Panic) ->
    task_step i (Config ts w e) (Config (<[i := Task [] Panic]> ts) w e).

Definition finished (t : task) : Prop :=
  held t = [] /\ ((exists a, code t = Ret a) \/ code t = Panic).

Lemma finished_dec t : {finished t} + {~ finished t}.
Proof.
  destruct t as [[|l h] p]; [|right; intros [? _]; done].
  destruct p; [left; split; eauto..|right|right|right|right]; intros [_ [[? ?]|?]]; done.
Defined.

Lemma Forall_Exists_finished ts : Forall finished ts \/ Exists (fun t => ~ finished t) ts.
Proof.
  induction ts as [|t ts [IH|IH]]; [by left|..].
  - destruct (finished_dec t); [left|right]; by constructor.
  - right. by constructor.
Qed.

(** The system: tasks run, time passes in the environment ([tick]), and new
    tasks of the program [spawn] arrive. *)
Inductive step (tick : Env -> Env -> Prop) (spawn : prog L data Env A -> Prop)
    : config -> config -> Prop :=
| step_task i c c' : task_step i c c' -> step tick spawn c c'
| step_tick ts w e e' : tick e e' -> step tick spawn (Config ts w e) (Config ts w e')
| step_spawn ts w e p : spawn p ->
    step tick spawn (Config ts w e) (Config (ts ++ [Task [] p]) w e).

(** *** Every task ends

    A task is a finite tree of operations, so no schedule lets a fixed set of
    tasks run for ever, whatever the environment does in between. *)

Definition child (p' p : prog L data Env A) : Prop :=
  match p with
  | Ret _ | Panic => False
  | Acquire _ q | Release _ q => p' = q
  | Access _ f k => exists b, p' = k b
  | Io f k => exists b, p' = k b
  end.

(** What a task is after one of its operations. *)
Definition subtask (t' t : task) : Prop :=
  child (code t') (code t) \/ (code t = Panic /\ held t <> [] /\ t' = Task [] Panic).

Lemma child_wf : well_founded child.
Proof.
  intros p. induction p as [a| |l p IH|l p IH|l B f k IH|B f k IH]; constructor; intros p' Hp;
    simpl in Hp.
  - destruct Hp.
  - destruct Hp.
  - rewrite Hp. exact IH.
  - rewrite Hp. exact IH.
  - destruct Hp as [b Hb]. rewrite Hb. apply IH.
  - destruct Hp as [b Hb]. rewrite Hb. apply IH.
Qed.

Lemma subtask_wf : well_founded subtask.
Proof.
  intros [h p]. revert h. induction (child_wf p) as [p _ IH]. intros h. constructor.
  intros [h' p'] [Hc|(Hc & Hh & [= -> ->])]; simpl in *; [by apply IH|].
  subst. constructor. intros [h'' p''] [[]|(_ & Hh' & _)]; simpl in *; done.
Qed.

Lemma task_step_subtask i c c' :
  task_step i c c' ->
  exists t t', tasks c !! i = Some t /\ subtask t' t /\ tasks c' = <[i := t']> (tasks c).
Proof.
  intros H; destruct H; simpl; do 2 eexists; (split; [done|]); (split; [|done]); unfold subtask;
    simpl; eauto 10.
Qed.

(** One component of the list of tasks steps. *)
Definition pool_step (ts' ts : list task) : Prop :=
  exists i t t', ts !! i = Some t /\ subtask t' t /\ ts' = <[i := t']> ts.

Lemma pool_step_cons t ts ts' :
  pool_step ts' (t :: ts) ->
  (exists t', subtask t' t /\ ts' = t' :: ts) \/ (exists us, pool_step us ts /\ ts' = t :: us).
Proof.
  intros (i & u & u' & E & Hs & ->). destruct i as [|i]; simpl in *.
  - left. simplify_eq. eauto.
  - right. eexists. split; [|done]. exists i, u, u'. done.
Qed.

Lemma pool_step_wf : well_founded pool_step.
Proof.
  intros ts. induction ts as [|t ts IH].
  - constructor. intros ts' (i & u & u' & E & _). done.
  - revert t. induction IH as [ts _ IHts]. intros t.
    induction (subtask_wf t) as [t _ IHt]. constructor. intros us Hu.
    apply pool_step_cons in Hu as [(t' & Hs & ->)|(us' & Hs & ->)].
    + by apply IHt.
    + by apply IHts.
Qed.

(** One operation of some task, after the rest of the system has changed the
    world and the environment in any way. *)
Definition scheduled (c' c : config) : Prop :=
  exists i w e, task_step i (Config (tasks c) w e) c'.

Lemma scheduled_wf : well_founded scheduled.
Proof.
  intros c. remember (tasks c) as ts eqn:E. revert c E.
  induction (pool_step_wf ts) as [ts _ IH]. intros c ->. constructor.
  intros c' (i & w & e & H). apply task_step_subtask in H as (t & t' & H1 & H2 & H3).
  eapply IH; [|done]. exists i, t, t'. done.
Qed.

End Concurrent.

Arguments task L data Env A : clear implicits.
Arguments config L data Env W A : clear implicits.

(** ** The logic *)

Section Logic.
Context {L : Type} `{!EqDecision L} {data : L -> Type} {Env W : Type} {C : Cells L data W}.

(** The order of acquisition, the invariant of the environment, the direction
    in which it evolves (time), the invariant of each mutex, which may refer to
    the environment as long as its evolution keeps it, and whether panics are
    allowed. *)
Context (rank : L -> nat) (bound : nat) (J : Env -> Prop) (le : Env -> Env -> Prop)
  (I : Env -> forall l, data l -> Prop) (panics : Prop).
Context (rank_bound : forall l, rank l < bound).
Context (le_refl : forall e, le e e) (le_trans : forall e1 e2 e3, le e1 e2 -> le e2 e3 -> le e1 e3).
Context (I_mono : forall e e' l d, le e e' -> I e l d -> I e' l d).

Definition agree (h : list L) (w w' : W) : Prop := forall l, l ∈ h -> get l w = get l w'.

(** [wp h p h' Q w e]: a task that holds [h] in world [w], in environment [e]
    or a later one, can run [p] whatever the other tasks do, ends holding [h'],
    and its result satisfies [Q]. *)
Fixpoint wp {A} (h : list L) (p : prog L data Env A) (h' : list L) (Q : A -> W -> Env -> Prop)
    (w : W) (e : Env) : Prop :=
  match p with
  | Ret a => h = h' /\ Q a w e
  | Panic => panics /\ forall l, l ∈ h -> I e l (get l w)
  | Acquire l p =>
      (forall l', l' ∈ h -> rank l' < rank l) /\
      forall w' e', le e e' -> J e' -> agree h w w' -> I e' l (get l w') ->
        wp (l :: h) p h' Q w' e'
  | Release l p => exists k, h = l :: k /\ I e l (get l w) /\ wp k p h' Q w e
  | Access l f p => l ∈ h /\ let '(b, d) := f (get l w) in wp h (p b) h' Q (set l d w) e
  | Io f p => forall e1, le e e1 -> J e1 ->
      let '(b, e') := f e1 in J e' /\ le e1 e' /\ wp h (p b) h' Q w e'
  end.

Definition stable {A} (h : list L) (Q : A -> W -> Env -> Prop) : Prop :=
  forall a w w' e e', agree h w w' -> le e e' -> Q a w e -> Q a w' e'.

Lemma agree_set h l d w w' : agree h w w' -> agree h (set l d w) (set l d w').
Proof.
  intros H l' Hl. destruct (decide (l = l')) as [->|Hne].
  - by rewrite !get_set_same.
  - rewrite !get_set_other by done. by apply H.
Qed.

Lemma agree_refl h w : agree h w w.
Proof. done. Qed.

Lemma agree_trans h w1 w2 w3 : agree h w1 w2 -> agree h w2 w3 -> agree h w1 w3.
Proof. intros H1 H2 l Hl. rewrite (H1 l Hl). by apply H2. Qed.

Lemma agree_tail l h w w' : agree (l :: h) w w' -> agree h w w'.
Proof. intros H l' Hl. apply H. by right. Qed.

(** Only the data behind held guards matters, and time may pass. *)
Lemma wp_agree {A} (p : prog L data Env A) h h' Q w w' e e' :
  stable h' Q -> agree h w w' -> le e e' -> wp h p h' Q w e -> wp h p h' Q w' e'.
Proof.
  intros HQ. revert h w w' e e'.
  induction p as [a| |l p IH|l p IH|l B f p IH|B f p IH]; intros h w w' e e' Ha He; simpl.
  - intros [-> Hq]. split; [done|]. by eapply HQ.
  - intros [Hp Hi]. split; [done|]. intros l Hl. rewrite <- (Ha l Hl). eapply I_mono; eauto.
  - intros [Hr Hk]. split; [done|]. intros w2 e2 He2 HJ Ha2. apply Hk; eauto using agree_trans.
  - intros (k & -> & Hi & Hk). exists k. split; [done|]. split.
    + rewrite <- (Ha l) by (by left). eapply I_mono; eauto.
    + eapply IH; [|done|done]. by eapply agree_tail.
  - intros [Hl Hk]. split; [done|]. rewrite <- (Ha l Hl). destruct (f (get l w)) as [b d].
    eapply IH; [|done|done]. by apply agree_set.
  - intros Hk e1 He1 HJ. specialize (Hk e1 (le_trans _ _ _ He He1) HJ).
    destruct (f e1) as [b e2]. destruct Hk as (HJ2 & Hle & Hk).
    split; [done|]. split; [done|]. eapply IH; [done|apply le_refl|done].
Qed.

Lemma wp_mono {A} (p : prog L data Env A) h h' (Q Q' : A -> W -> Env -> Prop) w e :
  (forall a w e, Q a w e -> Q' a w e) -> wp h p h' Q w e -> wp h p h' Q' w e.
Proof.
  intros HQ. revert h w e.
  induction p as [a| |l p IH|l p IH|l B f p IH|B f p IH]; intros h w e; simpl.
  - intros [-> Hq]. auto.
  - done.
  - intros [Hr Hk]. split; [done|]. intros w' e' He HJ Ha Hi. apply IH. by apply Hk.
  - intros (k & -> & Hi & Hk). exists k. auto.
  - intros [Hl Hk]. split; [done|]. destruct (f (get l w)). by apply IH.
  - intros Hk e1 He HJ. specialize (Hk e1 He HJ). destruct (f e1). destruct Hk as (? & ? & ?). auto.
Qed.

Lemma wp_bind {A B} (p : prog L data Env A) (k : A -> prog L data Env B) h h1 h2 Q w e :
  wp h p h1 (fun a w e => wp h1 (k a) h2 Q w e) w e -> wp h (bind p k) h2 Q w e.
Proof.
  revert h w e. induction p as [a| |l p IH|l p IH|l B' f p IH|B' f p IH]; intros h w e; simpl.
  - by intros [-> Hk].
  - done.
  - intros [Hr Hk]. split; [done|]. intros w' e' He HJ Ha Hi. apply IH. by apply Hk.
  - intros (k' & -> & Hi & Hk). exists k'. auto.
  - intros [Hl Hk]. split; [done|]. destruct (f (get l w)). by apply IH.
  - intros Hk e1 He HJ. specialize (Hk e1 He HJ). destruct (f e1). destruct Hk as (? & ? & ?). auto.
Qed.

(** The common case: the first part gives back every guard it takes. *)
Lemma wp_seq {A B} (p : prog L data Env A) (k : A -> prog L data Env B) h h2 Q w e :
  wp h p h (fun a w e => wp h (k a) h2 Q w e) w e -> wp h (bind p k) h2 Q w e.
Proof. apply wp_bind. Qed.

Lemma wp_ret {A} (a : A) h (Q : A -> W -> Env -> Prop) w e : Q a w e -> wp h (Ret a) h Q w e.
Proof. done. Qed.

(** The rule of a scoped guard: the invariant may be used when it is taken and
    must hold again when it is dropped. *)
Lemma wp_guarded {A} l (body : prog L data Env A) h Q w e :
  (forall l', l' ∈ h -> rank l' < rank l) ->
  (forall w' e', le e e' -> J e' -> agree h w w' -> I e' l (get l w') ->
     wp (l :: h) body (l :: h) (fun a w'' e'' => I e'' l (get l w'') /\ Q a w'' e'') w' e') ->
  wp h (guarded l body) h Q w e.
Proof.
  intros Hr Hb. split; [done|]. intros w' e' He HJ Ha Hi. apply (wp_bind _ _ _ (l :: h)).
  eapply wp_mono; [|by apply Hb]. intros a w2 e2 [Hi2 Hq]. simpl. exists h. done.
Qed.

Lemma wp_access {B} l (f : data l -> B * data l) h Q w e :
  l ∈ h -> Q (f (get l w)).1 (set l (f (get l w)).2 w) e -> wp h (access l f) h Q w e.
Proof. intros Hl HQ. split; [done|]. simpl. by destruct (f (get l w)). Qed.

Lemma wp_io {B} (f : Env -> B * Env) h Q w e :
  (forall e1, le e e1 -> J e1 -> J (f e1).2 /\ le e1 (f e1).2 /\ Q (f e1).1 w (f e1).2) ->
  wp h (io f) h Q w e.
Proof. intros H e1 He HJ. specialize (H e1 He HJ). destruct (f e1); simpl in *. tauto. Qed.

Lemma wp_locked {B} l (f : data l -> B * data l) h Q w e :
  (forall l', l' ∈ h -> rank l' < rank l) ->
  (forall w' e', le e e' -> J e' -> agree h w w' -> I e' l (get l w') ->
     I e' l (f (get l w')).2 /\ Q (f (get l w')).1 (set l (f (get l w')).2 w') e') ->
  wp h (locked l f) h Q w e.
Proof.
  intros Hr H. apply wp_guarded; [done|]. intros w' e' He HJ Ha Hi. apply wp_access; [by left|].
  rewrite get_set_same. by apply H.
Qed.

(** *** Soundness *)

Section Soundness.
Context {A : Type} (R : A -> Prop).
Implicit Types (ts : list (task L data Env A)) (c : config L data Env W A).

Definition task_ok (w : W) (e : Env) (t : task L data Env A) : Prop :=
  NoDup (held t) /\ wp (held t) (code t) [] (fun a _ _ => R a) w e.

(** Two tasks never hold the same mutex. *)
Definition exclusive ts : Prop :=
  forall i j t u l, ts !! i = Some t -> ts !! j = Some u -> l ∈ held t -> l ∈ held u -> i = j.

Record config_ok c : Prop := {
  ok_tasks : Forall (task_ok (world c) (env c)) (tasks c);
  ok_exclusive : exclusive (tasks c);
  ok_free l : free (tasks c) l -> I (env c) l (get l (world c));
  ok_env : J (env c);
}.

Lemma result_stable h : stable h (fun (a : A) (_ : W) (_ : Env) => R a).
Proof. by intros a w w' e e' _ _ Ha. Qed.

Lemma task_ok_agree w w' e e' t :
  agree (held t) w w' -> le e e' -> task_ok w e t -> task_ok w' e' t.
Proof.
  intros Ha He [Hn Hw]. split; [done|]. eapply wp_agree; [apply result_stable|done..].
Qed.

(** Replacing one task by one that holds no more keeps exclusivity. *)
Lemma exclusive_update ts i t t' :
  exclusive ts -> ts !! i = Some t ->
  (forall l, l ∈ held t' -> l ∈ held t \/ free ts l) -> exclusive (<[i := t']> ts).
Proof.
  intros He Hi Hsub j1 j2 u1 u2 l H1 H2 Hl1 Hl2.
  assert (forall j u, <[i := t']> ts !! j = Some u -> l ∈ held u ->
    (exists v, ts !! j = Some v /\ l ∈ held v) \/ (j = i /\ free ts l)) as Hex.
  { intros j u Hj Hl. destruct (decide (j = i)) as [->|Hne].
    - rewrite list_lookup_insert_eq in Hj by (by eapply lookup_lt_Some). simplify_eq.
      destruct (Hsub l Hl); eauto.
    - rewrite list_lookup_insert_ne in Hj by done. eauto. }
  destruct (Hex j1 u1 H1 Hl1) as [(v1 & Hv1 & Hw1)|[-> Hf1]],
    (Hex j2 u2 H2 Hl2) as [(v2 & Hv2 & Hw2)|[-> Hf2]]; try done.
  - by eapply He.
  - unfold free in Hf2. rewrite Forall_lookup in Hf2. by destruct (Hf2 j1 v1 Hv1).
  - unfold free in Hf1. rewrite Forall_lookup in Hf1. by destruct (Hf1 j2 v2 Hv2).
Qed.

Lemma free_update ts i t t' l :
  ts !! i = Some t -> free (<[i := t']> ts) l ->
  (l ∉ held t') /\ ((l ∉ held t) -> free ts l).
Proof.
  intros Hi Hf. unfold free in *. rewrite Forall_lookup in Hf. split.
  - apply (Hf i). apply list_lookup_insert_eq. by eapply lookup_lt_Some.
  - intros Hn. apply Forall_lookup. intros j u Hj. destruct (decide (j = i)) as [->|Hne].
    + by simplify_eq.
    + apply (Hf j). by rewrite list_lookup_insert_ne.
Qed.

(** A task's step, in three parts: its own new state, the world change is
    confined to what it holds, and what becomes free satisfies its invariant. *)
Lemma config_ok_update ts w e i t t' w' e' :
  config_ok (Config ts w e) -> ts !! i = Some t ->
  task_ok w' e' t' -> J e' -> le e e' ->
  (forall l, l ∈ held t' -> l ∈ held t \/ free ts l) ->
  (forall l, (l ∉ held t) -> get l w' = get l w) ->
  (forall l, l ∈ held t -> (l ∉ held t') -> I e' l (get l w')) ->
  config_ok (Config (<[i := t']> ts) w' e').
Proof.
  intros [Ht He Hf HJ] Hi Hok HJ' Hle Hsub Hw Hrel. simpl in *. constructor; simpl; auto.
  - apply Forall_lookup. intros j u Hj. destruct (decide (j = i)) as [->|Hne].
    + rewrite list_lookup_insert_eq in Hj by (by eapply lookup_lt_Some). by simplify_eq.
    + rewrite list_lookup_insert_ne in Hj by done. rewrite Forall_lookup in Ht.
      eapply task_ok_agree; [|done|by eapply Ht]. intros l Hl. symmetry. apply Hw.
      intros Hl'. by destruct (Hne (He j i u t l Hj Hi Hl Hl')).
  - by eapply exclusive_update.
  - intros l Hl. destruct (free_update ts i t t' l Hi Hl) as [Hn Hfree].
    destruct (decide (l ∈ held t)) as [Hin|Hnin]; [by apply Hrel|].
    rewrite Hw by done. eapply I_mono; [done|]. by apply Hf, Hfree.
Qed.

Lemma task_step_ok i c c' : task_step i c c' -> config_ok c -> config_ok c'.
Proof.
  intros Hs Hc. pose proof (ok_tasks c Hc) as Ht. pose proof (ok_env c Hc) as HJ.
  pose proof (ok_free c Hc) as Hfree.
  destruct Hs as [ts w e h l p Hi Hl|ts w e h h' l p Hi ->|ts w e h l B f k b d Hi Hl Hf
    |ts w e h B f k b e' Hi Hf|ts w e l h Hi]; simpl in *;
    rewrite Forall_lookup in Ht; destruct (Ht i _ Hi) as [Hn Hw]; simpl in Hn, Hw.
  - eapply (config_ok_update ts w e i _ _ w e Hc Hi); [|done|done|..]; simpl.
    + split; [|by apply Hw; auto using agree_refl]. constructor; [|done].
      unfold free in Hl. rewrite Forall_lookup in Hl. exact (Hl i _ Hi).
    + intros l' [->|Hin]%elem_of_cons; auto.
    + done.
    + intros l' Hin Hnin. destruct Hnin. by right.
  - destruct Hw as (k & [= <-] & HI & Hk).
    eapply (config_ok_update ts w e i _ _ w e Hc Hi); [|done|done|..]; simpl.
    + split; [|done]. by inversion Hn.
    + intros l' Hin. left. by right.
    + done.
    + intros l' [->|Hin]%elem_of_cons Hnin; done.
  - destruct Hw as [_ Hk]. rewrite Hf in Hk.
    eapply (config_ok_update ts w e i _ _ (set l d w) e Hc Hi); [done|done|done|..]; simpl; auto.
    + intros l' Hn'. apply get_set_other. by intros ->.
    + done.
  - specialize (Hw e (le_refl e) HJ). rewrite Hf in Hw. destruct Hw as (HJ' & Hle & Hk).
    eapply (config_ok_update ts w e i _ _ w e' Hc Hi); [done|done|done|..]; simpl; auto. done.
  - destruct Hw as [Hp HI].
    eapply (config_ok_update ts w e i _ _ w e Hc Hi); [|done|done|..]; simpl.
    + split; [constructor|]. split; [done|]. intros l' Hl'. by apply elem_of_nil in Hl'.
    + intros l' Hl'. by apply elem_of_nil in Hl'.
    + done.
    + auto.
Qed.

Context (tick : Env -> Env -> Prop) (spawn : prog L data Env A -> Prop).
Context (tick_ok : forall e e', tick e e' -> J e -> J e' /\ le e e').
Context (spawn_ok : forall p, spawn p -> forall w e, wp [] p [] (fun a _ _ => R a) w e).

Lemma step_ok c c' : step tick spawn c c' -> config_ok c -> config_ok c'.
Proof.
  intros Hs Hc. destruct Hs as [i c c' Hs|ts w e e' Htick|ts w e p Hp].
  - by eapply task_step_ok.
  - destruct Hc as [Ht He Hf HJ]; simpl in *. destruct (tick_ok e e' Htick HJ) as [HJ' Hle].
    constructor; simpl; eauto. eapply Forall_impl; [done|]. intros t Ht'.
    eapply task_ok_agree; [apply agree_refl|done|done].
  - destruct Hc as [Ht He Hf HJ]; simpl in *. constructor; simpl; auto.
    + apply Forall_app. split; [done|]. repeat constructor. by apply spawn_ok.
    + intros i j t u l Hi Hj Hl Hl'.
      apply lookup_app_Some in Hi as [Hi|[_ Hi]], Hj as [Hj|[_ Hj]]; [by eapply He|..];
        apply list_lookup_singleton_Some in Hj as [_ <-] || apply list_lookup_singleton_Some in Hi as [_ <-];
        by apply elem_of_nil in Hl || by apply elem_of_nil in Hl'.
    + intros l Hl. apply Hf. unfold free in *. by apply Forall_app in Hl as [Hl _].
Qed.

Lemma steps_ok c c' : rtc (step tick spawn) c c' -> config_ok c -> config_ok c'.
Proof. intros H. induction H; eauto using step_ok. Qed.

(** A configuration with no task yet, whose data satisfies the invariants. *)
Lemma initial_ok w e : (forall l, I e l (get l w)) -> J e -> config_ok (Config [] w e).
Proof. intros HI HJ. constructor; simpl; auto. intros i j t u l Hi. done. Qed.

(** Where panics are not allowed there are none. *)
Lemma config_ok_no_panic c t : ~ panics -> config_ok c -> t ∈ tasks c -> code t <> Panic.
Proof.
  intros Hnp Hc Ht E. pose proof (ok_tasks c Hc) as H. rewrite Forall_forall in H.
  destruct (H t Ht) as [_ Hw]. rewrite E in Hw. by destruct Hw.
Qed.

Lemma config_ok_result c t a : config_ok c -> t ∈ tasks c -> code t = Ret a -> R a.
Proof.
  intros Hc Ht E. pose proof (ok_tasks c Hc) as H. rewrite Forall_forall in H.
  destruct (H t Ht) as [_ Hw]. rewrite E in Hw. by destruct Hw.
Qed.

(** *** Progress *)

#[local] Instance free_dec ts l : Decision (free ts l).
Proof. unfold free. apply _. Defined.

Definition can_step c : Prop := exists i c', task_step i c c'.

Lemma unfinished_or_blocked c i t :
  config_ok c -> tasks c !! i = Some t -> finished t \/ can_step c \/
  exists l p, code t = Acquire l p /\ ~ free (tasks c) l.
Proof.
  intros Hc Hi. pose proof (ok_tasks c Hc) as H. rewrite Forall_lookup in H.
  destruct (H i t Hi) as [_ Hw]. destruct c as [ts w e], t as [h p]; simpl in *.
  destruct p as [a| |l p|l p|l B f p|B f p]; simpl in Hw.
  - left. destruct Hw as [-> _]. split; eauto.
  - destruct h as [|l h]; [left; split; auto|]. right; left. do 2 eexists. by eapply step_unwind.
  - destruct (decide (free ts l)); [|by right; right; eauto].
    right; left. do 2 eexists. by eapply step_acquire.
  - right; left. destruct Hw as (k & -> & _). do 2 eexists. by eapply step_release.
  - right; left. destruct Hw as [Hl Hk]. destruct (f (get l w)) as [b d] eqn:E.
    do 2 eexists. by eapply step_access.
  - right; left. destruct (f e) as [b e'] eqn:E. do 2 eexists. by eapply step_io.
Qed.

(** A chain of waiting tasks climbs in rank, so it ends. *)
Lemma blocked_can_step c n : config_ok c ->
  forall i t l p, tasks c !! i = Some t -> code t = Acquire l p -> ~ free (tasks c) l ->
    bound <= rank l + n -> can_step c.
Proof.
  intros Hc. induction n as [|n IH]; intros i t l p Hi Et Hnf Hb.
  { specialize (rank_bound l). lia. }
  unfold free in Hnf. apply not_Forall_Exists in Hnf; [|apply _].
  apply Exists_exists in Hnf as (u & Hu & Hl). simpl in Hl.
  apply dec_stable in Hl. apply list_elem_of_lookup in Hu as [j Hj].
  destruct (unfinished_or_blocked c j u Hc Hj) as [[Hh _]|[?|(l2 & p2 & E2 & Hf2)]]; [|done|].
  - rewrite Hh in Hl. by apply elem_of_nil in Hl.
  - eapply (IH j u l2 p2); eauto.
    pose proof (ok_tasks c Hc) as H. rewrite Forall_lookup in H.
    destruct (H j u Hj) as [_ Hw]. rewrite E2 in Hw. destruct Hw as [Hr _].
    specialize (Hr l Hl). lia.
Qed.

(** No deadlock: while some task is unfinished, some task can move. *)
Lemma no_deadlock c t : config_ok c -> t ∈ tasks c -> ~ finished t -> can_step c.
Proof.
  intros Hc Ht Hnf. apply list_elem_of_lookup in Ht as [i Hi].
  destruct (unfinished_or_blocked c i t Hc Hi) as [?|[?|(l & p & E & Hf)]]; [done|done|].
  eapply (blocked_can_step c bound); eauto. lia.
Qed.

(** Running a task alone is one of its schedules. *)
Lemma run_steps (p : prog L data Env A) h w e :
  config_ok (Config [Task h p] w e) ->
  rtc (task_step 0) (Config [Task h p] w e)
    (let '(o, w', e') := run p w e in
     Config [Task [] (match o with Done a => Ret a | Panicked => Panic end)] w' e').
Proof.
  revert h w e. induction p as [a| |l p IH|l p IH|l B f p IH|B f p IH]; intros h w e Hc;
    pose proof (ok_tasks _ Hc) as Ht; simpl in Ht;
    apply Forall_cons in Ht as [[_ Hw] _]; simpl in Hw |- *.
  - destruct Hw as [-> _]. apply rtc_refl.
  - destruct h as [|l h]; [apply rtc_refl|]. apply rtc_once.
    exact (step_unwind 0 [Task (l :: h) Panic] w e l h eq_refl).
  - assert (free [Task h (Acquire l p)] l) as Hf.
    { repeat constructor. simpl. intros Hl. destruct Hw as [Hr _]. specialize (Hr l Hl). lia. }
    pose proof (step_acquire 0 [Task h (Acquire l p)] w e h l p eq_refl Hf) as Hs.
    eapply rtc_l; [exact Hs|]. apply IH. by eapply task_step_ok.
  - destruct Hw as (k & -> & _).
    pose proof (step_release 0 [Task (l :: k) (Release l p)] w e (l :: k) k l p eq_refl eq_refl) as Hs.
    eapply rtc_l; [exact Hs|]. apply IH. by eapply task_step_ok.
  - destruct Hw as [Hl _]. destruct (f (get l w)) as [b d] eqn:E.
    pose proof (step_access 0 [Task h (Access l f p)] w e h l B f p b d eq_refl Hl E) as Hs.
    eapply rtc_l; [exact Hs|]. apply IH. by eapply task_step_ok.
  - destruct (f e) as [b e'] eqn:E.
    pose proof (step_io 0 [Task h (Io f p)] w e h B f p b e' eq_refl E) as Hs.
    eapply rtc_l; [exact Hs|]. apply IH. by eapply task_step_ok.
Qed.

End Soundness.
End Logic.

Arguments wp : simpl never.
Arguments bind : simpl never.
Arguments guarded : simpl never.
Arguments locked : simpl never.
