(* ===== verification/Server.v ===== *)
(** * The HTTP server (host/src/server.rs)

    The shared state, [Authenticator::verify] with its mutexes, request
    authentication with the persisted shutdown nonces, and the three handlers,
    as tasks of [Runtime].  Each guard of the source is a [guarded] block (or a
    [locked] expression when it is a temporary), so early returns drop it as
    Rust does.  Logging is left out. *)
From stdpp Require Import base gmap list strings.
From Stdlib Require Import Ascii.
From S2P Require Import Prelude RustStd Fs Primitives Auth Pairing Storage Power Versioning Wire Runtime.
Open Scope string_scope.
Open Scope Z_scope.
Open Scope list_scope.

Definition PROTOCOL_VERSION : Z := 1.
Definition HOST_VERSION : string := "0.1.0".
Definition CONTENT_TYPE : string := "application/x-protobuf".

(** ** Shared state *)

(** The mutexes of [AppState] and of its [Authenticator]. *)
Inductive lock := LPairing | LIdentity | LLatest | LNonces | LFailures.

#[export] Instance lock_eq_dec : EqDecision lock.
Proof. solve_decision. Defined.

Definition data (l : lock) : Type :=
  match l with
  | LPairing => PairingCode
  | LIdentity => HostIdentity
  | LLatest => option string
  | LNonces => gmap bytes Z
  | LFailures => list Z
  end.

Record AppState := MkAppState {
  identity : HostIdentity;
  pairing : PairingCode;
  latest_client_version : option string;
  accepted_nonces : gmap bytes Z;
  failures : list Z;
}.

Definition get_cell (l : lock) : AppState -> data l :=
  match l with
  | LPairing => pairing
  | LIdentity => identity
  | LLatest => latest_client_version
  | LNonces => accepted_nonces
  | LFailures => failures
  end.

Definition set_cell (l : lock) : data l -> AppState -> AppState :=
  match l with
  | LPairing => fun d w => MkAppState (identity w) d (latest_client_version w) (accepted_nonces w) (failures w)
  | LIdentity => fun d w => MkAppState d (pairing w) (latest_client_version w) (accepted_nonces w) (failures w)
  | LLatest => fun d w => MkAppState (identity w) (pairing w) d (accepted_nonces w) (failures w)
  | LNonces => fun d w => MkAppState (identity w) (pairing w) (latest_client_version w) d (failures w)
  | LFailures => fun d w => MkAppState (identity w) (pairing w) (latest_client_version w) (accepted_nonces w) d
  end.

#[export] Program Instance app_cells : Cells lock data AppState :=
  {| get := get_cell; set := set_cell |}.
Next Obligation. by intros [] d w. Qed.
Next Obligation. by intros [] [] d w ?. Qed.

(** The order in which nested guards are taken. *)
Definition rank (l : lock) : nat :=
  match l with LPairing => 0 | LIdentity => 1 | LLatest => 2 | LNonces => 3 | LFailures => 4 end.

(** Clocks, generator, store and power controller.  [system_time] is the wall
    clock in nanoseconds since the Unix epoch, [monotonic] the clock of
    [Instant]. *)
Record Env {P : Primitives} {St Pw : Type} := MkEnv {
  system_time : Z;
  monotonic : Z;
  generator : rng;
  store : St;
  power : Pw;
}.
Arguments Env {P} St Pw.
Arguments MkEnv {P St Pw}.

(** [HeaderMap] and the response of a handler. *)
Record Response := {
  status_code : Z;
  headers : list (string * bytes);
  response_body : bytes;
}.

Record AuthenticationContext := {
  context_credential : bytes;
  context_nonce : bytes;
}.

Section Server.
Context {P : Primitives} {H : Http} {Wi : Wire}.
Context {St : Type} {CS : CredentialStore St} {Pw : Type} {PC : PowerController Pw}.
Context (pf : platform) (hostname : string).

Abbreviation task A := (prog lock data (Env St Pw) A).

(** ** Effects *)

(** [now_unix]: seconds since the epoch, zero before it. *)
Definition now_unix (e : Env St Pw) : Z := as_secs (Z.max 0 (system_time e)).

Definition unix_now : task Z := io (fun e => (now_unix e, e)).

(** [state.store.save(&identity)]. *)
Definition store_save (i : HostIdentity) : task (result unit io_error) :=
  io (fun e => let '(r, s) := save i (store e) in
    (r, MkEnv (system_time e) (monotonic e) (generator e) s (power e))).

(** [state.power.shutdown().await]. *)
Definition shutdown_power : task (result unit PowerError) :=
  io (fun e => let '(r, p) := power_shutdown (power e) in
    (r, MkEnv (system_time e) (monotonic e) (generator e) (store e) p)).

(** An operation of the guarded [PairingCode], with the monotonic clock and
    the random generator. *)
Definition pairing_call {R} (f : Z -> PairingCode -> rng -> R * PairingCode * rng) : task R :=
  self <- read LPairing ;;
  out <- io (fun e => let '(r, self', g) := f (monotonic e) self (generator e) in
    ((r, self'), MkEnv (system_time e) (monotonic e) g (store e) (power e))) ;;
  write LPairing out.2 ;;;
  Ret out.1.

Definition expect {A} (o : option A) : task A :=
  match o with Some a => Ret a | None => Panic end.

(** ** Responses *)

Definition protobuf {M} `{Message M} (status : Z) (message : M) : option Response :=
  match header_value_parse CONTENT_TYPE with
  | None => None
  | Some v => Some {| status_code := status; headers := [("content-type", v)];
                      response_body := encode_to_vec message |}
  end.

Definition authenticated_protobuf {M} `{Message M} (status : Z) (message : M)
    (authentication : AuthenticationContext) (path : string) : option Response :=
  let body := encode_to_vec message in
  match sign_response (context_credential authentication) (context_nonce authentication)
          path status body with
  | Err _ => None
  | Ok signature =>
      match header_value_parse CONTENT_TYPE, header_value_parse (hex_encode signature) with
      | Some v, Some s =>
          Some {| status_code := status;
                  headers := [("content-type", v); ("x-decky-response-signature", s)];
                  response_body := body |}
      | _, _ => None
      end
  end.

Definition error (status : Z) (code : ErrorCode) (message : string) : option Response :=
  protobuf status {| error_code := error_code_i32 code; error_message := message |}.

Definition authenticated_error (status : Z) (code : ErrorCode) (message : string)
    (authentication : AuthenticationContext) (path : string) : option Response :=
  authenticated_protobuf status {| error_code := error_code_i32 code; error_message := message |}
    authentication path.

Definition mismatch_message : string :=
  "DeckyMyRigHost and the Decky plugin use incompatible protocol versions.".

Definition protocol_mismatch : option Response := error 426 ProtocolMismatch mismatch_message.

Definition authenticated_protocol_mismatch (authentication : AuthenticationContext) (path : string)
    : option Response :=
  authenticated_error 426 ProtocolMismatch mismatch_message authentication path.

Definition unauthorized (reason : AuthError) : option Response :=
  if bool_decide (reason = Persistence)
  then error 500 Unspecified "Authentication state could not be saved."
  else if bool_decide (reason = RateLimited)
  then error 429 ErrorRateLimited "Too many authentication failures."
  else error (if bool_decide (reason = Replay) then 409 else 401) Unauthorized
         "Request authentication failed.".

(** ** Headers *)

Definition header (hs : HeaderMap) (name : string) : option string :=
  match headers_get hs name with Some v => header_to_str v | None => None end.

Definition is_protobuf (hs : HeaderMap) : bool :=
  match header hs "content-type" with
  | None => false
  | Some value =>
      match split_char ";"%char value with
      | mime :: _ => eq_ignore_ascii_case (trim mime) CONTENT_TYPE
      | [] => false
      end
  end.

(** ** [Authenticator] (host/src/auth.rs) *)

Definition failed (now : Z) (error : AuthError) : task AuthError :=
  locked LFailures (failed_section now error).

Definition verify (secret : bytes) (request : AuthenticatedRequest) (now : Z)
    : task (result unit AuthError) :=
  if CLOCK_WINDOW <? abs_diff now (timestamp request) then
    e <- failed now Stale ;; Ret (Err e)
  else
    match hmac_new_from_slice secret with
    | None => Ret (Err Malformed)
    | Some mac =>
        match canonical_message (timestamp request) (nonce request) (method request)
                (path request) (body request) with
        | Err error => e <- failed now error ;; Ret (Err e)
        | Ok message =>
            if hmac_verify_slice mac message (signature request)
            then locked LNonces (nonce_section now (nonce request))
            else e <- failed now Invalid ;; Ret (Err e)
        end
    end.

(** ** Authentication of a request *)

Definition with_nonces (l : list AcceptedShutdownNonce) (i : HostIdentity) : HostIdentity :=
  MkHostIdentity (host_id i) (credential i) (identity_pairing_code i) (pairing_created_at i) l
    (last_client_version i).

(** [retain]: the clock is read for every element. *)
Fixpoint retain_nonces (l : list AcceptedShutdownNonce) : task (list AcceptedShutdownNonce) :=
  match l with
  | [] => Ret []
  | seen :: l =>
      now <- unix_now ;;
      kept <- retain_nonces l ;;
      Ret (if saturating_sub now (accepted_timestamp seen) <=? CLOCK_WINDOW
           then seen :: kept else kept)
  end.

(** The persisted part of the replay protection, under the identity guard. *)
Definition record_shutdown_nonce (timestamp : Z) (nonce : bytes) : task (result unit AuthError) :=
  i <- read LIdentity ;;
  retained <- retain_nonces (accepted_shutdown_nonces i) ;;
  write LIdentity (with_nonces retained i) ;;;
  if existsb (fun seen => bool_decide (accepted_nonce seen = nonce)) retained then Ret (Err Replay)
  else
    let pushed := retained ++
      [{| accepted_timestamp := timestamp; accepted_nonce := nonce |}] in
    write LIdentity (with_nonces pushed i) ;;;
    saved <- store_save (with_nonces pushed i) ;;
    match saved with
    | Ok _ => Ret (Ok tt)
    | Err _ =>
        write LIdentity (with_nonces (removelast pushed) i) ;;;
        Ret (Err Persistence)
    end.

(** The three authentication headers. *)
Definition timestamp_header (hs : HeaderMap) : option Z :=
  match header hs "x-decky-timestamp" with Some v => parse_u64 v | None => None end.

Definition hex_header (hs : HeaderMap) (name : string) : option bytes :=
  match header hs name with Some v => hex_decode v | None => None end.

Definition authenticate (hs : HeaderMap) (method path : string) (body : bytes)
    : task (result AuthenticationContext AuthError) :=
  match timestamp_header hs with
  | None => Ret (Err Malformed)
  | Some timestamp =>
  match hex_header hs "x-decky-nonce" with
  | None => Ret (Err Malformed)
  | Some nonce =>
  match hex_header hs "x-decky-signature" with
  | None => Ret (Err Malformed)
  | Some signature =>
  held <- locked LIdentity (fun i => (credential i, i)) ;;
  match held with
  | None => Ret (Err Invalid)
  | Some credential =>
  now <- unix_now ;;
  verified <- verify credential
    {| timestamp := timestamp; nonce := nonce; signature := signature; method := method;
       path := path; body := body |} now ;;
  match verified with
  | Err e => Ret (Err e)
  | Ok _ =>
  match try_into_array NONCE_LENGTH nonce with
  | None => Ret (Err Malformed)
  | Some nonce =>
      let authentication := {| context_credential := credential; context_nonce := nonce |} in
      if bool_decide (path = "/v1/shutdown") then
        recorded <- guarded LIdentity (record_shutdown_nonce timestamp nonce) ;;
        match recorded with
        | Err e => Ret (Err e)
        | Ok _ => Ret (Ok authentication)
        end
      else Ret (Ok authentication)
  end end end end end end.

(** ** The plugin's version *)

Definition with_client_version (v : string) (i : HostIdentity) : HostIdentity :=
  MkHostIdentity (host_id i) (credential i) (identity_pairing_code i) (pairing_created_at i)
    (accepted_shutdown_nonces i) (Some v).

Definition record_client_version (version : string) : task unit :=
  if bool_decide (compare version HOST_VERSION = UnknownVersion) then Ret tt
  else
    latest <- locked LLatest (fun v => (v, v)) ;;
    if bool_decide (latest = Some version) then Ret tt
    else
      guarded LIdentity (
        i <- read LIdentity ;;
        (if bool_decide (last_client_version i <> Some version) then
           let updated := with_client_version version i in
           saved <- store_save updated ;;
           match saved with
           | Err _ => Ret tt
           | Ok _ => write LIdentity updated
           end
         else Ret tt) ;;;
        locked LLatest (fun _ => (tt, Some version))).

(** ** Handlers *)

Definition malformed_media := "Content-Type must be application/x-protobuf.".
Definition malformed_body := "Malformed Protobuf request.".

Definition status (hs : HeaderMap) (body : bytes) : task Response :=
  auth <- authenticate hs "POST" "/v1/status" body ;;
  match auth with
  | Err reason => expect (unauthorized reason)
  | Ok authentication =>
      if negb (is_protobuf hs) then
        expect (authenticated_error 415 MalformedRequest malformed_media authentication "/v1/status")
      else match decode (M := StatusRequest) body with
      | None => expect (authenticated_error 400 MalformedRequest malformed_body authentication "/v1/status")
      | Some request =>
          if negb (status_protocol_version request =? PROTOCOL_VERSION) then
            expect (authenticated_protocol_mismatch authentication "/v1/status")
          else
            record_client_version (status_client_version request) ;;;
            guarded LIdentity (
              i <- read LIdentity ;;
              expect (authenticated_protobuf 200
                {| status_hostname := hostname; status_host_version := HOST_VERSION;
                   status_response_protocol_version := PROTOCOL_VERSION;
                   status_paired := bool_decide (is_Some (credential i));
                   status_host_id := uuid_to_string (host_id i) |}
                authentication "/v1/status"))
      end
  end.

Definition shutdown (hs : HeaderMap) (body : bytes) : task Response :=
  auth <- authenticate hs "POST" "/v1/shutdown" body ;;
  match auth with
  | Err reason => expect (unauthorized reason)
  | Ok authentication =>
      if negb (is_protobuf hs) then
        expect (authenticated_error 415 MalformedRequest malformed_media authentication "/v1/shutdown")
      else match decode (M := ShutdownRequest) body with
      | None => expect (authenticated_error 400 MalformedRequest malformed_body authentication "/v1/shutdown")
      | Some request =>
          if negb (shutdown_protocol_version request =? PROTOCOL_VERSION) then
            expect (authenticated_protocol_mismatch authentication "/v1/shutdown")
          else
            record_client_version (shutdown_client_version request) ;;;
            r <- shutdown_power ;;
            match r with
            | Ok _ => expect (authenticated_protobuf 202 {| accepted := true |} authentication "/v1/shutdown")
            | Err _ => expect (authenticated_error 500 ShutdownFailed
                         "Windows rejected the shutdown request." authentication "/v1/shutdown")
            end
      end
  end.

(** The answers to [PairingError], shared by both rounds of [pair]. *)
Definition pairing_failure (e : PairingError) : option Response :=
  match e with
  | PairingExpired => error 410 ErrorPairingExpired "The pairing code expired."
  | PairingRateLimited => error 429 ErrorRateLimited "Too many pairing attempts."
  | _ => error 401 Unauthorized "Pairing failed."
  end.

Definition pairing_response (i : HostIdentity) (session_id : bytes) (r : PairingResult)
    : option Response :=
  protobuf 200 {| host_spake2_message := host_message r; encryption_nonce := result_nonce r;
                  pair_encrypted_credential := encrypted_credential r; pair_hostname := hostname;
                  pair_host_version := HOST_VERSION;
                  pair_response_protocol_version := PROTOCOL_VERSION;
                  pair_host_id := uuid_to_string (host_id i);
                  pair_response_session_id := session_id |}.

(** The identity once paired with credential [c]. *)
Definition paired_identity (c : bytes) (i : HostIdentity) : HostIdentity :=
  MkHostIdentity (host_id i) (Some c) None 0 [] (last_client_version i).

(** The first round: an empty session id. *)
Definition pair_start (request : PairRequest) (source : option IpAddr) : task Response :=
  conflict <- locked LIdentity (fun i =>
    (bool_decide (is_Some (credential i)) && bool_decide (identity_pairing_code i = None), i)) ;;
  if conflict then expect (error 409 AlreadyPaired "This host is already paired.")
  else
    started <- guarded LPairing (pairing_call (fun now self g =>
      start_for_source now (client_spake2_message request) source self g)) ;;
    match started with
    | Err e => expect (pairing_failure e)
    | Ok st =>
        guarded LIdentity (
          i <- read LIdentity ;;
          expect (protobuf 200
            {| host_spake2_message := start_host_message st; encryption_nonce := [];
               pair_encrypted_credential := []; pair_hostname := hostname;
               pair_host_version := HOST_VERSION;
               pair_response_protocol_version := PROTOCOL_VERSION;
               pair_host_id := uuid_to_string (host_id i);
               pair_response_session_id := start_session_id st |}))
    end.

(** [pairing.commit(..).expect(..)]: a panic of its own or an [Err]. *)
Definition commit_expect (session_id conf : bytes) (r : PairingResult) : task unit :=
  out <- pairing_call (fun now self g =>
    let '(o, self') := commit pf now session_id conf r self in (o, self', g)) ;;
  match out with
  | Some (Ok _) => Ret tt
  | _ => Panic
  end.

(** The second round: the pairing guard is held to the end. *)
Definition pair_finish (request : PairRequest) : task Response :=
  host_id <- locked LIdentity (fun i => (uuid_to_string (host_id i), i)) ;;
  guarded LPairing (
    self <- read LPairing ;;
    let was_completed := is_completed (pair_session_id request) self in
    finished <- pairing_call (fun now self g =>
      finish now (pair_session_id request) (client_confirmation request)
        {| context_hostname := hostname; context_host_version := HOST_VERSION;
           context_protocol_version := PROTOCOL_VERSION; context_host_id := host_id |} self g) ;;
    match finished with
    | Err e => expect (pairing_failure e)
    | Ok r =>
        if was_completed : bool then
          guarded LIdentity (
            i <- read LIdentity ;; expect (pairing_response i (pair_session_id request) r))
        else
          guarded LIdentity (
            previous_identity <- read LIdentity ;;
            let updated := paired_identity (result_credential r) previous_identity in
            write LIdentity updated ;;;
            saved <- store_save updated ;;
            match saved with
            | Err _ =>
                write LIdentity previous_identity ;;;
                expect (error 500 Unspecified "Could not save pairing state.")
            | Ok _ =>
                commit_expect (pair_session_id request) (client_confirmation request) r ;;;
                i <- read LIdentity ;;
                expect (pairing_response i (pair_session_id request) r)
            end)
    end).

Definition pair (source : option IpAddr) (hs : HeaderMap) (body : bytes) : task Response :=
  if negb (is_protobuf hs) then expect (error 415 MalformedRequest malformed_media)
  else match decode (M := PairRequest) body with
  | None => expect (error 400 MalformedRequest malformed_body)
  | Some request =>
      if negb (pair_protocol_version request =? PROTOCOL_VERSION) then expect protocol_mismatch
      else if bool_decide (pair_session_id request = []) then pair_start request source
      else pair_finish request
  end.

(** axum answers an unknown path with 404, another method with 405, a body over
    the limit with 413 and one that cannot be read to its end with 400; the
    headers and texts of these answers are its own. *)
Definition rejection_status (x : Rejection) : Z :=
  match x with NoRoute => 404 | MethodNotAllowed => 405 | LengthLimit => 413 | UnreadBody => 400 end.

Definition rejection (x : Rejection) : Response :=
  {| status_code := rejection_status x; headers := rejection_headers x; response_body := rejection_body x |}.

(** [router]: three POST routes, bodies of at most 64 KiB. *)
Definition router (http_method path : string) (source : option IpAddr) (hs : HeaderMap)
    (body : bytes) : task Response :=
  let post (handler : task Response) : task Response :=
    if negb (bool_decide (http_method = "POST")) then Ret (rejection MethodNotAllowed)
    else if 64 * 1024 <? Z.of_nat (length body) then Ret (rejection LengthLimit)
    else handler in
  if bool_decide (path = "/v1/status") then post (status hs body)
  else if bool_decide (path = "/v1/pair") then post (pair source hs body)
  else if bool_decide (path = "/v1/shutdown") then post (shutdown hs body)
  else Ret (rejection NoRoute).

(** [router] for a request whose body breaks off within the limit: the [Bytes]
    extractor of the handlers rejects it. *)
Definition router_unread (http_method path : string) : task Response :=
  if bool_decide (path ∈ ["/v1/status"; "/v1/pair"; "/v1/shutdown"]) then
    Ret (rejection (if bool_decide (http_method = "POST") then UnreadBody else MethodNotAllowed))
  else Ret (rejection NoRoute).

End Server.
