(* ===== verification/Management.v ===== *)
(** * Local management (host/src/management.rs)

    The pairing state the control application shows, the generation of a new
    code, and the restoration of the shared state when the host starts. *)
From stdpp Require Import base gmap list strings.
From S2P Require Import Prelude RustStd Fs Primitives Auth Pairing Storage Power Versioning Wire Runtime Server.
Open Scope string_scope.
Open Scope Z_scope.
Open Scope list_scope.

Definition persisted_code_age (created_at now : Z) : Z :=
  if (created_at =? 0) || (now <? created_at) then from_secs 301
  else from_secs (now - created_at).

Record PairingState := {
  paired : bool;
  state_code : option string;
  state_expires_in : Z;
}.

Section Management.
Context {P : Primitives} {St : Type} {CS : CredentialStore St} {Pw : Type}.
Context (pf : platform).

Abbreviation task A := (prog lock data (Env St Pw) A).

Definition instant_now : task Z := io (fun e => (monotonic e, e)).

Definition pairing_state : task PairingState :=
  guarded LPairing (
    self <- read LPairing ;;
    guarded LIdentity (
      i <- read LIdentity ;;
      now <- instant_now ;;
      Ret {| paired := bool_decide (is_Some (credential i));
             state_code := match identity_pairing_code i with
                           | Some _ => Some (display_code self) | None => None end;
             state_expires_in := expires_in now self |})).

Definition with_code (code : string) (now : Z) (i : HostIdentity) : HostIdentity :=
  MkHostIdentity (host_id i) (credential i) (Some code) now (accepted_shutdown_nonces i)
    (last_client_version i).

Definition generate_code : task PairingCode :=
  io (fun e => let '(self, g) := generate (monotonic e) (generator e) in
    (self, MkEnv (system_time e) (monotonic e) g (store e) (power e))).

Definition generate_pairing_code : task (result PairingState io_error) :=
  guarded LPairing (
    guarded LIdentity (
      i <- read LIdentity ;;
      generated <- generate_code ;;
      created_at <- unix_now ;;
      let updated := with_code (display_code generated) created_at i in
      saved <- store_save updated ;;
      match saved with
      | Err e => Ret (Err e)
      | Ok _ =>
          write LIdentity updated ;;;
          write LPairing generated ;;;
          now <- instant_now ;;
          Ret (Ok {| paired := bool_decide (is_Some (credential updated));
                     state_code := identity_pairing_code updated;
                     state_expires_in := expires_in now generated |})
      end)).

(** ** Starting

    What [state_for_test], the service and the development host do with the
    loaded identity: restore the code with its age, or generate one.  [None] is
    a panic, [Err] a stored code that is not six digits. *)
Definition restore_pairing (now now_unix : Z) (i : HostIdentity) (g : rng)
    : option (result PairingCode PairingError) * rng :=
  match identity_pairing_code i with
  | Some code =>
      (from_code_with_age pf now code (persisted_code_age (pairing_created_at i) now_unix), g)
  | None => let '(self, g) := generate now g in (Some (Ok self), g)
  end.

(** [AppState] as it is built at start: only the identity and the restored code
    survive; nonces and failures start empty. *)
Definition initial_state (i : HostIdentity) (self : PairingCode) : AppState :=
  MkAppState i self (last_client_version i) ∅ [].

(** [state_for_test]: load, restore, build. *)
Definition state_for_test (e : Env St Pw) : option (result AppState io_error) * Env St Pw :=
  let '(d, g) := default_identity (now_unix e) (generator e) in
  match load_or_create d (store e) with
  | (Err x, s) => (Some (Err x), MkEnv (system_time e) (monotonic e) g s (power e))
  | (Ok i, s) =>
      let '(o, g) := restore_pairing (monotonic e) (now_unix e) i g in
      let e' := MkEnv (system_time e) (monotonic e) g s (power e) in
      match o with
      | None => (None, e')
      | Some (Err _) => (Some (Err (OtherIo "invalid pairing exchange")), e')
      | Some (Ok self) => (Some (Ok (initial_state i self)), e')
      end
  end.

End Management.

(** ** Lifetime of a persisted code *)

(** With a wall clock that has run on the age is the elapsed time; without a
    creation time or after the clock was set back, it is past the lifetime. *)
Lemma persisted_code_age_eq created_at now :
  0 <= created_at -> 0 <= now ->
  persisted_code_age created_at now =
    if (1 <=? created_at) && (created_at <=? now) then from_secs (now - created_at)
    else PAIRING_LIFETIME + from_secs 1.
Proof.
  intros Hc Hn. unfold persisted_code_age.
  destruct (created_at =? 0) eqn:E1, (now <? created_at) eqn:E2, (1 <=? created_at) eqn:E3,
    (created_at <=? now) eqn:E4; simpl; bool_to_prop; try lia; try done.
Qed.

(** A restart does not revive a pairing code: the restored code is the
    stored one, what is left of it is the five minutes minus its age by the
    wall clock, and nothing if its creation time is missing or lies in the
    future (a clock that was set back). *)
Theorem restored_code_lifetime {P : Primitives} pf now now_unix i g self g' code :
  identity_pairing_code i = Some code -> 0 <= pairing_created_at i -> 0 <= now_unix ->
  restore_pairing pf now now_unix i g = (Some (Ok self), g') ->
  display_code self = code /\
  expires_in now self =
    if (1 <=? pairing_created_at i) && (pairing_created_at i <=? now_unix)
    then Z.max 0 (PAIRING_LIFETIME - from_secs (now_unix - pairing_created_at i)) else 0.
Proof.
  intros Hcode Hc Hn H. unfold restore_pairing in H. rewrite Hcode in H. injection H as H <-.
  rewrite persisted_code_age_eq in H by done.
  case_match eqn:E; bool_to_prop.
  - apply (restored_code_keeps_age _ _ _ _ _ now) in H as (_ & Hd & He); [|unfold from_secs, nanos_per_sec; lia|lia].
    split; [done|]. rewrite He. f_equal. lia.
  - apply (restored_code_keeps_age _ _ _ _ _ now) in H as (_ & Hd & He);
      [|unfold PAIRING_LIFETIME, from_secs, nanos_per_sec; lia|lia].
    split; [done|]. rewrite He. unfold PAIRING_LIFETIME, from_secs, nanos_per_sec. lia.
Qed.

(** ** Witness *)

Definition stored_code : HostIdentity := MkHostIdentity [] None (Some "123456") 900 [] None.

Lemma restored_code_lifetime_witness :
  exists self, restore_pairing (P := toy) Windows (from_secs 400) 1000 stored_code 0 = (Some (Ok self), 0) /\
    display_code self = "123456".
Proof.
  eexists. split; [vm_compute; reflexivity|].
  refine (proj1 (restored_code_lifetime (P := toy) Windows (from_secs 400) 1000 stored_code 0 _ 0 "123456"
    eq_refl _ _ _)).
  - vm_compute. discriminate.
  - vm_compute. discriminate.
  - vm_compute. reflexivity.
Defined.
