(* ===== verification/Answers.v ===== *)
(** * The answers of the HTTP server are well typed

    Which message a client finds in the body of an answer, for every status
    the three routes can give.  The property is about the leaves of a task, so
    it holds of every interleaving of requests. *)
From stdpp Require Import base gmap list strings relations.
From S2P Require Import Prelude RustStd Fs Primitives Auth Pairing Storage Power Versioning Wire Samples Runtime Server Management.
Open Scope string_scope.
Open Scope Z_scope.
Open Scope list_scope.

(** ** What a task can return *)

Section Returns.
Context {L : Type} {data : L -> Type} {Env : Type}.







End Returns.

(** ** The answers *)


Section Answers.
Context {P : Primitives} {PL : PrimitivesLaws P} {H : Http} {Wi : Wire} {WL : WireLaws Wi}.
Context {St : Type} {CS : CredentialStore St} {Pw : Type} {PC : PowerController Pw}.
Context (pf : platform) (hostname : string).
Context (hostname_wf : str_wf hostname).

Abbreviation task A := (prog lock data (Env St Pw) A).



(** *** Building answers *)











(** *** The handlers *)







(** *** Any number of requests *)







End Answers.

(** ** Witness *)

Module AnswersSamples.
#[local] Existing Instances toy toy_laws toy_http toy_wire toy_wire_laws memory_store mock_power.

Abbreviation toy_env := (Env (P := toy) MemoryStore MockPowerController).







End AnswersSamples.
