(* ===== verification/ManagementIpc.v ===== *)
(** * The management pipe (host/src/management_ipc.rs)

    One connection of the named pipe as a task, from the bytes the client sends
    to the bytes it receives, with the writes that fail when it goes away.  The
    JSON text of requests and responses is a parameter.  The pipe itself and
    the accept loop are in [PipeServer]. *)
From stdpp Require Import base gmap list strings.
From S2P Require Import Prelude RustStd Fs Primitives Auth Pairing Storage Power Versioning Wire Runtime Server Management.
Open Scope string_scope.
Open Scope Z_scope.
Open Scope list_scope.

Inductive Operation := GetServiceInfo | GetPairingState | GeneratePairingCode.

Record ManagementRequest := { operation : Operation }.

Record ManagementResponse := {
  ok : bool;
  response_error : option string;
  service_running : bool;
  response_port : Z;
  response_paired : bool;
  response_pairing_code : option string;
  expires_in_seconds : Z;
  response_host_version : string;
  plugin_version : option string;
  version_status : string;
}.

(** [serde_json] on the two types; an error is its message. *)
Class ManagementJson := {
  request_from_slice : bytes -> result ManagementRequest string;
  response_to_vec : ManagementResponse -> result bytes string;
}.

(** [std::io::Error::to_string]. *)
Definition io_error_to_string (e : io_error) : string :=
  match e with
  | NotFound => "entity not found"
  | InvalidData m => m
  | UnexpectedEof => "unexpected end of file"
  | OtherIo m => m
  end.

(** [read_exact] into [n] bytes of what the client sends before it closes. *)
Definition read_exact (n : nat) (input : bytes) : result (bytes * bytes) io_error :=
  if (n <=? length input)%nat then Ok (take n input, drop n input)
  else Err UnexpectedEof.

(** The other end of the pipe: what it sends before it closes or stops, and
    what the two writes of a response and the flush meet; a failing write may
    have sent a part. *)
Record PipeClient := {
  pipe_input : bytes;
  write_length : fault;
  write_body : fault;
  flush : fault;
}.

(** [write_all]: what reached the client. *)
Definition pipe_write (f : fault) (l : bytes) : result unit io_error * bytes :=
  match f with
  | Fine => (Ok tt, l)
  | Fails None => (Err (OtherIo "write"), [])
  | Fails (Some n) => (Err (OtherIo "write"), take n l)
  end.

(** [len as u32]. *)
Definition as_u32 (z : Z) : Z := z mod 2 ^ 32.

Definition version_status_of (v : option string) : string :=
  match v with
  | Some version =>
      match compare version HOST_VERSION with
      | Compatible => "compatible"
      | UpdateHost => "update_host"
      | UpdatePlugin => "update_plugin"
      | Incompatible => "incompatible"
      | UnknownVersion => "unknown"
      end
  | None => "unknown"
  end.

Section Pipe.
Context {P : Primitives} {J : ManagementJson} {St : Type} {CS : CredentialStore St} {Pw : Type}.

Abbreviation task A := (prog lock data (Env St Pw) A).

(** The operation of a request. *)
Definition perform (o : Operation) : task (result PairingState io_error) :=
  match o with
  | GetServiceInfo | GetPairingState => s <- pairing_state ;; Ret (Ok s)
  | GeneratePairingCode => generate_pairing_code
  end.

Definition respond (port : Z) (pairing : result PairingState io_error) : task ManagementResponse :=
  match pairing with
  | Ok pairing =>
      plugin_version <- locked LLatest (fun v => (v, v)) ;;
      Ret {| ok := true; response_error := None; service_running := true; response_port := port;
             response_paired := paired pairing; response_pairing_code := state_code pairing;
             expires_in_seconds := as_secs (state_expires_in pairing);
             response_host_version := HOST_VERSION; plugin_version := plugin_version;
             version_status := version_status_of plugin_version |}
  | Err error =>
      Ret {| ok := false; response_error := Some (io_error_to_string error); service_running := true;
             response_port := port; response_paired := false; response_pairing_code := None;
             expires_in_seconds := 0; response_host_version := HOST_VERSION;
             plugin_version := None; version_status := "unknown" |}
  end.

(** The frame of a response: its length as four little-endian bytes first. *)
Definition frame (response_bytes : bytes) : bytes :=
  to_le_bytes 4 (as_u32 (Z.of_nat (length response_bytes))) ++ response_bytes.

(** The length, the body and the flush; a failure ends the connection. *)
Definition send_response (client : PipeClient) (response_bytes : bytes) : result unit io_error * bytes :=
  match pipe_write (write_length client) (to_le_bytes 4 (as_u32 (Z.of_nat (length response_bytes)))) with
  | (Err e, sent) => (Err e, sent)
  | (Ok _, sent) =>
      match pipe_write (write_body client) response_bytes with
      | (Err e, more) => (Err e, sent ++ more)
      | (Ok _, more) =>
          (match flush client with Fine => Ok tt | Fails _ => Err (OtherIo "flush") end, sent ++ more)
      end
  end.

(** The request of a connection: its length, checked before anything is
    allocated for it, and that many bytes. *)
Definition read_request (input : bytes) : result bytes io_error :=
  match read_exact 4 input with
  | Err e => Err e
  | Ok (length_bytes, input) =>
      let request_length := from_le_bytes length_bytes in
      if (request_length =? 0) || (4096 <? request_length)
      then Err (InvalidData "invalid management request length")
      else match read_exact (Z.to_nat request_length) input with
      | Err e => Err e
      | Ok (request_bytes, _) => Ok request_bytes
      end
  end.

(** The result of the connection, and the bytes the client got. *)
Definition handle (client : PipeClient) (port : Z) : task (result unit io_error * bytes) :=
  match read_request (pipe_input client) with
  | Err e => Ret (Err e, [])
  | Ok request_bytes =>
      match request_from_slice request_bytes with
      | Err m => Ret (Err (InvalidData m), [])
      | Ok request =>
          pairing <- perform (operation request) ;;
          response <- respond port pairing ;;
          Ret (match response_to_vec response with
               | Err m => (Err (OtherIo m), [])
               | Ok response_bytes => send_response client response_bytes
               end)
      end
  end.

End Pipe.

(** ** Framing *)

(** The client gets the frame, or a beginning of it when the connection fails. *)
Lemma send_response_prefix client l :
  let '(r, sent) := send_response client l in
  sent `prefix_of` frame l /\ (r = Ok tt -> sent = frame l).
Proof.
  unfold send_response, frame. generalize (to_le_bytes 4 (as_u32 (Z.of_nat (length l)))). intros len.
  assert (forall f x, (pipe_write f x).2 `prefix_of` x /\ ((pipe_write f x).1 = Ok tt -> (pipe_write f x).2 = x))
    as Hw.
  { intros [|[n|]] x; simpl; (split; [|done]); [done|apply prefix_take|apply prefix_nil]. }
  pose proof (Hw (write_length client) len) as [Hp1 He1].
  destruct (pipe_write (write_length client) len) as [[[]|e] s1]; simpl in *.
  2:{ split; [by apply prefix_app_r|done]. }
  specialize (He1 eq_refl). subst s1. pose proof (Hw (write_body client) l) as [Hp2 He2].
  destruct (pipe_write (write_body client) l) as [[[]|e] s2]; simpl in *.
  - rewrite (He2 eq_refl). done.
  - split; [by apply prefix_app|done].
Qed.

Lemma read_exact_app l rest : read_exact (length l) (l ++ rest) = Ok (l, rest).
Proof.
  unfold read_exact. rewrite take_app_length, drop_app_length, length_app.
  destruct (Nat.leb_spec (length l) (length l + length rest)); [done|lia].
Qed.

Lemma frame_length l : Z.of_nat (length l) < 2 ^ 32 -> from_le_bytes (take 4 (frame l)) = Z.of_nat (length l).
Proof.
  intros Hl. unfold frame. rewrite take_app_le; [|unfold to_le_bytes; by rewrite length_rev, to_be_bytes_length].
  rewrite take_ge; [|unfold to_le_bytes; by rewrite length_rev, to_be_bytes_length].
  unfold as_u32. rewrite Z.mod_small by lia. apply from_to_le_bytes. simpl. lia.
Qed.

(** A framed request is read back as it was sent, whatever follows it on
    the pipe; and every input the host reads a request from is the frame of
    that request, of 1 to 4096 bytes, so nothing longer is ever allocated. *)
Theorem read_request_iff_framed input l :
  read_request input = Ok l <->
  1 <= Z.of_nat (length l) <= 4096 /\ exists rest, input = frame l ++ rest.
Proof.
  split.
  - unfold read_request. destruct (read_exact 4 input) as [[len tail]|] eqn:E1; [|done].
    unfold read_exact in E1. case_match eqn:L1; [|done]. injection E1 as <- <-.
    destruct (_ || _) eqn:Eb; [done|]. apply orb_false_iff in Eb as [B1 B2]. bool_to_prop.
    destruct (read_exact _ (drop 4 input)) as [[x y]|] eqn:E2; [|done].
    unfold read_exact in E2. case_match eqn:L2; [|done]. injection E2 as <- <-. intros [= <-].
    set (n := from_le_bytes (take 4 input)) in *.
    assert (0 <= n) by (pose proof (from_le_bytes_range (take 4 input)); lia).
    assert (Z.of_nat (length (take (Z.to_nat n) (drop 4 input))) = n) as Hlen.
    { rewrite length_take. rewrite Nat.leb_le in L2. lia. }
    split; [lia|]. exists (drop (Z.to_nat n) (drop 4 input)). unfold frame.
    rewrite Hlen. unfold as_u32. rewrite Z.mod_small by lia.
    assert (length (take 4 input) = 4%nat) as H4 by (rewrite length_take; lia).
    pose proof (to_from_le_bytes (take 4 input)) as Ht. rewrite H4 in Ht. unfold n. rewrite Ht.
    by rewrite <- app_assoc, !take_drop.
  - intros [Hl [rest ->]]. unfold read_request, frame. unfold as_u32. rewrite Z.mod_small by lia.
    set (n := Z.of_nat (length l)) in *.
    assert (length (to_le_bytes 4 n) = 4%nat) as H4.
    { unfold to_le_bytes. by rewrite length_rev, to_be_bytes_length. }
    pose proof (read_exact_app (to_le_bytes 4 n) (l ++ rest)) as Hr. rewrite H4 in Hr.
    rewrite <- app_assoc, Hr, from_to_le_bytes by (simpl; lia).
    destruct (_ || _) eqn:Eb; [apply orb_true_iff in Eb as [?|?]; bool_to_prop; lia|].
    unfold n. rewrite Nat2Z.id, read_exact_app. done.
Qed.
