(* ===== verification/PipeServer.v ===== *)
(** * The named pipe of the management service (host/src/management_ipc.rs)

    The Win32 calls that create an instance of the pipe, and the accept loop
    with its retries, over a record of what the operating system returns.  The
    loop gives the list of calls it makes.  The text of a security descriptor is
    read as Windows documents it, into the access each account has. *)
From Stdlib Require Import Ascii String.
From stdpp Require Import base list strings.
From S2P Require Import Prelude RustStd Fs.
Open Scope string_scope.
Open Scope Z_scope.
Open Scope list_scope.

(** ** Creating an instance *)

Definition PIPE_NAME : string := "\\.\pipe\DeckyMyRigHostControl".

(** The security descriptor of the pipe, in Windows' text form. *)
Definition PIPE_SDDL : string := "D:P(A;;GA;;;SY)(A;;GA;;;BA)".

(** Flags of [CreateNamedPipeW], from the Windows headers. *)
Definition PIPE_ACCESS_DUPLEX : Z := 3.
Definition FILE_FLAG_OVERLAPPED : Z := 2 ^ 30.
Definition FILE_FLAG_FIRST_PIPE_INSTANCE : Z := 2 ^ 19.
Definition PIPE_TYPE_BYTE : Z := 0.
Definition PIPE_WAIT : Z := 0.
Definition PIPE_REJECT_REMOTE_CLIENTS : Z := 8.
Definition PIPE_UNLIMITED_INSTANCES : Z := 255.

(** [SECURITY_ATTRIBUTES]: the descriptor, by the text it was made from. *)
Record SecurityAttributes := { descriptor : string; inherit_handle : bool }.

Record PipeArguments := {
  pipe_name : string;
  open_mode : Z;
  pipe_mode : Z;
  max_instances : Z;
  out_buffer_size : Z;
  in_buffer_size : Z;
  default_timeout : Z;
  attributes : SecurityAttributes;
}.

Inductive call :=
| ConvertStringSecurityDescriptor (sddl : string) (converted : bool)
| CreateNamedPipeW (arguments : PipeArguments)
| LocalFree
| FromRawHandle
| Connect
| Sleep (milliseconds : Z)
| SpawnHandle.

(** What the system returns in one round of the loop. *)
Record Round := {
  convert : result unit io_error;
  create : result unit io_error;
  from_raw_handle : result unit io_error;
  connect : result unit io_error;
}.

Definition open_mode_of (first : bool) : Z :=
  let open_mode := Z.lor PIPE_ACCESS_DUPLEX FILE_FLAG_OVERLAPPED in
  if first then Z.lor open_mode FILE_FLAG_FIRST_PIPE_INSTANCE else open_mode.

Definition pipe_arguments (first : bool) : PipeArguments :=
  {| pipe_name := PIPE_NAME; open_mode := open_mode_of first;
     pipe_mode := Z.lor (Z.lor PIPE_TYPE_BYTE PIPE_WAIT) PIPE_REJECT_REMOTE_CLIENTS;
     max_instances := PIPE_UNLIMITED_INSTANCES; out_buffer_size := 4096; in_buffer_size := 4096;
     default_timeout := 0;
     attributes := {| descriptor := PIPE_SDDL; inherit_handle := false |} |}.

Definition create_pipe (first : bool) (r : Round) : result unit io_error * list call :=
  let calls := [ConvertStringSecurityDescriptor PIPE_SDDL (is_ok (convert r))] in
  match convert r with
  | Err e => (Err e, calls)
  | Ok _ =>
      let calls := calls ++ [CreateNamedPipeW (pipe_arguments first); LocalFree] in
      match create r with
      | Err e => (Err e, calls)
      | Ok _ => (from_raw_handle r, calls ++ [FromRawHandle])
      end
  end.

(** ** The accept loop *)

(** [100_u64.saturating_mul(1 << attempt.min(4))] milliseconds. *)
Definition retry_delay (attempt : Z) : Z :=
  saturating_mul u64_max 100 (Z.shiftl 1 (Z.min attempt 4)).

(** [serve] over its rounds: the calls it makes, and its error return; [None]
    when it is still looping. *)
Fixpoint serve_loop (first : bool) (consecutive_failures : Z) (rounds : list Round)
    : list call * option io_error :=
  match rounds with
  | [] => ([], None)
  | r :: rest =>
      match create_pipe first r with
      | (Err error, calls) =>
          let failures := consecutive_failures + 1 in
          if 5 <=? failures then (calls, Some error)
          else let '(more, out) := serve_loop first failures rest in
               (calls ++ Sleep (retry_delay failures) :: more, out)
      | (Ok _, calls) =>
          match connect r with
          | Err error =>
              let failures := consecutive_failures + 1 in
              if 5 <=? failures then (calls ++ [Connect], Some error)
              else let '(more, out) := serve_loop false failures rest in
                   (calls ++ Connect :: Sleep (retry_delay failures) :: more, out)
          | Ok _ =>
              let '(more, out) := serve_loop false 0 rest in
              (calls ++ Connect :: SpawnHandle :: more, out)
          end
      end
  end.

Definition serve (rounds : list Round) : list call * option io_error := serve_loop true 0 rounds.

(** *** One round *)

(** Whether the round makes an instance, and whether it ends in a connection. *)
Definition creates (r : Round) : bool := is_ok (convert r) && is_ok (create r) && is_ok (from_raw_handle r).
Definition failing_round (r : Round) : bool := negb (creates r && is_ok (connect r)).

(** The calls of a round up to its pause or its hand-over. *)
Definition round_calls (first : bool) (r : Round) : list call :=
  snd (create_pipe first r) ++ (if creates r then [Connect] else []).

Lemma create_pipe_creates first r : is_ok (fst (create_pipe first r)) = creates r.
Proof.
  unfold create_pipe, creates. destruct (convert r) as [[]|]; [|done].
  by destruct (create r) as [[]|].
Qed.

(** The loop, with its two kinds of failure together. *)
Lemma serve_loop_cons first count r rest :
  exists e, serve_loop first count (r :: rest) =
    if failing_round r && (5 <=? count + 1) then (round_calls first r, Some e)
    else
      let count' := if failing_round r then count + 1 else 0 in
      let '(more, out) := serve_loop (first && negb (creates r)) count' rest in
      (round_calls first r ++ (if failing_round r then Sleep (retry_delay count') else SpawnHandle) :: more, out).
Proof.
  cbn [serve_loop]. unfold failing_round, round_calls. rewrite <- (create_pipe_creates first r).
  destruct (create_pipe first r) as [[[]|e] calls]; cbn [is_ok andb negb fst snd].
  - rewrite andb_false_r. destruct (connect r) as [[]|e]; cbn [is_ok negb andb].
    + exists UnexpectedEof. destruct (serve_loop false 0 rest). by rewrite <- app_assoc.
    + exists e. destruct (5 <=? count + 1); [done|].
      destruct (serve_loop false (count + 1) rest). by rewrite <- app_assoc.
  - exists e. rewrite andb_true_r, app_nil_r. destruct (5 <=? count + 1); [done|].
    by destruct (serve_loop first (count + 1) rest).
Qed.

(** *** Giving up *)

(** The failures at the end of a list of rounds. *)
Fixpoint last_failures (count : Z) (rounds : list Round) : Z :=
  match rounds with
  | [] => count
  | r :: rest => last_failures (if failing_round r then count + 1 else 0) rest
  end.

Lemma serve_loop_gives_up first count rounds : count < 5 ->
  is_Some (snd (serve_loop first count rounds)) <-> exists k, 5 <= last_failures count (take k rounds).
Proof.
  revert first count; induction rounds as [|r rest IH]; intros first count Hc.
  - simpl. split; [by intros [? ?]|]. intros [k Hk]. rewrite take_nil in Hk. simpl in Hk. lia.
  - destruct (serve_loop_cons first count r rest) as [e ->].
    destruct (failing_round r && (5 <=? count + 1)) eqn:E.
    + split; [intros _|eauto]. apply andb_true_iff in E as [E1 E2]. bool_to_prop.
      exists 1%nat. simpl. rewrite E1. destruct rest; simpl; lia.
    + cbv zeta. specialize (IH (first && negb (creates r)) (if failing_round r then count + 1 else 0)).
      destruct (serve_loop _ _ rest) as [more out]. cbn [snd] in *. rewrite IH.
      2:{ destruct (failing_round r); simpl in E; bool_to_prop; lia. }
      split.
      * intros [k Hk]. by exists (S k).
      * intros [[|k] Hk]; simpl in Hk; [lia|]. by exists k.
Qed.

(** A property of every call of the loop, from its rounds. *)
Lemma serve_loop_calls (Q : call -> Prop) first count rounds :
  (forall f r, Forall Q (round_calls f r)) -> Q SpawnHandle ->
  (forall n, 1 <= n < 5 -> Q (Sleep (retry_delay n))) -> 0 <= count < 5 ->
  Forall Q (fst (serve_loop first count rounds)).
Proof.
  intros Hr Hs Hp. revert first count; induction rounds as [|r rest IH]; intros first count Hc; [constructor|].
  destruct (serve_loop_cons first count r rest) as [e ->].
  destruct (failing_round r) eqn:Ef; cbn [andb]; [destruct (5 <=? count + 1) eqn:E; bool_to_prop|]; cbv zeta.
  - apply Hr.
  - specialize (IH (first && negb (creates r)) (count + 1) ltac:(lia)).
    destruct (serve_loop _ _ rest). apply Forall_app_2; [apply Hr|]. constructor; [apply Hp; lia|done].
  - specialize (IH (first && negb (creates r)) 0 ltac:(lia)).
    destruct (serve_loop _ _ rest). apply Forall_app_2; [apply Hr|]. by constructor.
Qed.

(** The pauses of the loop. *)
Definition pause_ok (c : call) : Prop :=
  match c with Sleep m => m ∈ [200; 400; 800; 1600] | _ => True end.

Lemma retry_delay_ok n : 1 <= n < 5 -> pause_ok (Sleep (retry_delay n)).
Proof.
  intros Hn. simpl. assert (n = 1 \/ n = 2 \/ n = 3 \/ n = 4) as [->|[->|[->| ->]]] by lia;
    rewrite !elem_of_cons; vm_compute; tauto.
Qed.

(** One case per way through [create_pipe]. *)
Ltac round_cases r :=
  unfold round_calls, create_pipe, creates;
  destruct (convert r) as [[]|], (create r) as [[]|], (from_raw_handle r) as [[]|];
  cbn [is_ok andb negb app fst snd].

(** C31: the management service gives up exactly at the first fifth failure in a
    row, any connection in between starting the count again, and between
    failures it pauses for 200, 400, 800 or 1600 milliseconds. *)
Theorem serve_gives_up rounds :
  (is_Some (snd (serve rounds)) <-> exists k, 5 <= last_failures 0 (take k rounds)) /\
  Forall pause_ok (fst (serve rounds)).
Proof.
  split; [by apply serve_loop_gives_up|]. apply serve_loop_calls; [|done|apply retry_delay_ok|lia].
  intros f r. round_cases r; repeat constructor.
Qed.

(** *** Security descriptors *)

(** What the text of a security descriptor grants: its discretionary access
    control list is read as Windows documents the format, and checked as
    [AccessCheck] does, entry by entry.  The rights are those of a file object
    after the generic mapping. *)
Record Ace := { ace_allows : bool; ace_mask : Z; ace_sid : string }.
Record Dacl := { dacl_protected : bool; dacl_aces : list Ace }.

Definition FILE_ALL_ACCESS : Z := 0x1F01FF.

Definition right_mask (right : string) : option Z :=
  if bool_decide (right ∈ ["GA"; "FA"]) then Some FILE_ALL_ACCESS
  else if bool_decide (right ∈ ["GR"; "FR"]) then Some 0x120089
  else if bool_decide (right ∈ ["GW"; "FW"]) then Some 0x120116
  else if bool_decide (right ∈ ["GX"; "FX"]) then Some 0x1200A0
  else None.

(** The rights of an entry: codes of two letters, all of them granted. *)
Fixpoint rights_mask (text : list Ascii.ascii) : option Z :=
  match text with
  | [] => Some 0
  | a :: b :: rest =>
      match right_mask (String.string_of_list_ascii [a; b]), rights_mask rest with
      | Some m, Some more => Some (Z.lor m more)
      | _, _ => None
      end
  | [_] => None
  end.

Fixpoint split_at (c : Ascii.ascii) (field text : list Ascii.ascii) : list (list Ascii.ascii) :=
  match text with
  | [] => [rev field]
  | x :: rest => if Ascii.eqb x c then rev field :: split_at c [] rest else split_at c (x :: field) rest
  end.

(** [type;flags;rights;object;inherited object;account]; an entry that is only
    inherited ([IO]) does not apply to the object, and object entries are not
    for files. *)
Definition parse_ace (text : list Ascii.ascii) : option Ace :=
  match map String.string_of_list_ascii (split_at ";"%char [] text) with
  | [kind; ""; rights; ""; ""; sid] =>
      match (if String.eqb kind "A" then Some true else if String.eqb kind "D" then Some false else None),
            rights_mask (String.list_ascii_of_string rights) with
      | Some allows, Some mask => Some {| ace_allows := allows; ace_mask := mask; ace_sid := sid |}
      | _, _ => None
      end
  | _ => None
  end.

(** The entries in brackets; [open] holds the one being read, reversed. *)
Fixpoint parse_aces (open : option (list Ascii.ascii)) (text : list Ascii.ascii) : option (list Ace) :=
  match text, open with
  | [], None => Some []
  | [], Some _ => None
  | c :: rest, None => if Ascii.eqb c "(" then parse_aces (Some []) rest else None
  | c :: rest, Some entry =>
      if Ascii.eqb c ")" then
        match parse_ace (rev entry), parse_aces None rest with
        | Some ace, Some aces => Some (ace :: aces)
        | _, _ => None
        end
      else parse_aces (Some (c :: entry)) rest
  end.

(** [D:] with or without [P], the flag that keeps inherited entries out. *)
Definition parse_dacl (text : string) : option Dacl :=
  match String.list_ascii_of_string text with
  | "D"%char :: ":"%char :: "P"%char :: rest =>
      (fun aces => {| dacl_protected := true; dacl_aces := aces |}) <$> parse_aces None rest
  | "D"%char :: ":"%char :: rest =>
      (fun aces => {| dacl_protected := false; dacl_aces := aces |}) <$> parse_aces None rest
  | _ => None
  end.

(** The entries are taken in order until every desired right is allowed, or one
    that is still wanted is denied. *)
Fixpoint access_check (token : list string) (desired : Z) (aces : list Ace) : bool :=
  if desired =? 0 then true
  else match aces with
       | [] => false
       | ace :: rest =>
           if bool_decide (ace_sid ace ∈ token) then
             if ace_allows ace then access_check token (Z.ldiff desired (ace_mask ace)) rest
             else (Z.land desired (ace_mask ace) =? 0) && access_check token desired rest
           else access_check token desired rest
       end.

(** *** Who can reach the pipe *)

(** Access to the data of the pipe: reading or writing is among the desired
    rights, and all of them are rights of a file. *)
Definition data_access (desired : Z) : Prop :=
  Z.land desired 3 <> 0 /\ Z.ldiff desired FILE_ALL_ACCESS = 0.

(** The descriptor admits the accounts of [admitted], fully, and nobody else,
    and no entry is inherited from elsewhere. *)
Definition admits_exactly (admitted : list string) (text : string) : Prop :=
  exists dacl, parse_dacl text = Some dacl /\ dacl_protected dacl = true /\
    forall token desired, data_access desired ->
      access_check token desired (dacl_aces dacl) = true <-> exists sid, sid ∈ admitted /\ sid ∈ token.

(** Every instance is the local one of this name, for the system account ([SY])
    and the administrators ([BA]), and is not inherited. *)
Definition guarded_instance (c : call) : Prop :=
  match c with
  | CreateNamedPipeW a =>
      pipe_name a = PIPE_NAME /\ admits_exactly ["SY"; "BA"] (descriptor (attributes a)) /\
      inherit_handle (attributes a) = false /\ Z.testbit (pipe_mode a) 3 = true
  | _ => True
  end.

Lemma access_check_zero token aces : access_check token 0 aces = true.
Proof. by destruct aces. Qed.

(** One entry that allows everything decides for the accounts it names. *)
Lemma access_check_all token desired sid rest : data_access desired ->
  access_check token desired ({| ace_allows := true; ace_mask := FILE_ALL_ACCESS; ace_sid := sid |} :: rest) =
  bool_decide (sid ∈ token) || access_check token desired rest.
Proof.
  intros [Hd Ha]. cbn [access_check ace_sid ace_allows ace_mask].
  destruct (Z.eqb_spec desired 0) as [->|]; [done|].
  rewrite Ha. case_bool_decide; [by rewrite access_check_zero|done].
Qed.

Lemma access_check_none token desired : data_access desired -> access_check token desired [] = false.
Proof. intros [Hd _]. cbn [access_check]. by destruct (Z.eqb_spec desired 0) as [->|]. Qed.

Lemma pipe_sddl_admits : admits_exactly ["SY"; "BA"] PIPE_SDDL.
Proof.
  eexists. split; [reflexivity|]. split; [done|]. intros token desired Hd.
  cbn [dacl_aces]. change (Z.lor FILE_ALL_ACCESS 0) with FILE_ALL_ACCESS.
  rewrite !access_check_all, access_check_none by done.
  rewrite orb_false_r, orb_true_iff, !bool_decide_eq_true. split.
  - intros [H|H]; [exists "SY"|exists "BA"]; (split; [by rewrite !elem_of_cons; auto|done]).
  - intros (sid & Hs & Ht). apply elem_of_cons in Hs as [->|Hs]; [by left|].
    apply list_elem_of_singleton in Hs as ->. by right.
Qed.

(** A list for everyone admits everyone, and an entry that denies wins over the
    later ones. *)
Example everyone_admitted :
  (access_check ["WD"] 3 ∘ dacl_aces) <$> parse_dacl "D:(A;;GA;;;WD)" = Some true.
Proof. reflexivity. Qed.

Example denied_first :
  (access_check ["BG"; "BA"] 3 ∘ dacl_aces) <$> parse_dacl "D:P(D;;GRGW;;;BG)(A;;FA;;;BA)" = Some false.
Proof. reflexivity. Qed.

(** *** The life of a descriptor *)

(** [descriptors_sound held calls]: the descriptor that is allocated, if any,
    after each call.  A creation uses the one that is allocated at the time, it
    is freed once, and the loop holds none when it goes on to anything else. *)
Fixpoint descriptors_sound (held : option string) (calls : list call) : Prop :=
  match calls with
  | [] => held = None
  | ConvertStringSecurityDescriptor s converted :: rest =>
      held = None /\ descriptors_sound (if converted then Some s else None) rest
  | CreateNamedPipeW a :: rest => held = Some (descriptor (attributes a)) /\ descriptors_sound held rest
  | LocalFree :: rest => is_Some held /\ descriptors_sound None rest
  | _ :: rest => held = None /\ descriptors_sound None rest
  end.

Lemma descriptors_sound_app held a b :
  descriptors_sound held a -> descriptors_sound None b -> descriptors_sound held (a ++ b).
Proof.
  revert held; induction a as [|c a IH]; intros held; cbn [descriptors_sound app]; [by intros ->|].
  destruct c; intros [? ?] ?; split; auto.
Qed.

Lemma round_descriptors first r : descriptors_sound None (round_calls first r).
Proof. round_cases r; cbn [descriptors_sound]; repeat split; eauto. Qed.

Lemma serve_loop_descriptors first count rounds :
  descriptors_sound None (fst (serve_loop first count rounds)).
Proof.
  revert first count; induction rounds as [|r rest IH]; intros first count; [done|].
  destruct (serve_loop_cons first count r rest) as [e ->].
  destruct (failing_round r && (5 <=? count + 1)); [apply round_descriptors|]. cbv zeta.
  specialize (IH (first && negb (creates r)) (if failing_round r then count + 1 else 0)).
  destruct (serve_loop _ _ rest) as [more out]. cbn [fst] in *.
  apply descriptors_sound_app; [apply round_descriptors|]. by destruct (failing_round r).
Qed.

(** The instance claims to be the first of its name. *)
Definition claims_first (a : PipeArguments) : bool := Z.testbit (open_mode a) 19.

(** A client is waited for. *)
Definition is_connect (c : call) : bool := match c with Connect => true | _ => false end.

(** [first_until first calls]: the instances claim to be the first until one
    was connected to, and not afterwards. *)
Fixpoint first_until (first : bool) (calls : list call) : Prop :=
  match calls with
  | [] => True
  | CreateNamedPipeW a :: rest => claims_first a = first /\ first_until first rest
  | Connect :: rest => first_until false rest
  | _ :: rest => first_until first rest
  end.

Lemma first_until_app first a b :
  first_until first a -> first_until (first && negb (existsb is_connect a)) b -> first_until first (a ++ b).
Proof.
  revert first; induction a as [|c a IH]; intros first Ha Hb; simpl in *; [by rewrite andb_true_r in Hb|].
  destruct c; simpl in *; try (by apply IH).
  - destruct Ha as [? Ha]. split; [done|]. by apply IH.
  - apply IH; [done|]. by rewrite andb_false_r in Hb.
Qed.

Lemma open_mode_claims first : Z.testbit (open_mode_of first) 19 = first.
Proof. by destruct first. Qed.

Lemma round_first first r : first_until first (round_calls first r).
Proof. round_cases r; repeat split; apply open_mode_claims. Qed.

Lemma round_connects first r : existsb is_connect (round_calls first r) = creates r.
Proof. round_cases r; done. Qed.

Lemma serve_loop_first first count rounds : first_until first (fst (serve_loop first count rounds)).
Proof.
  revert first count; induction rounds as [|r rest IH]; intros first count; [done|].
  destruct (serve_loop_cons first count r rest) as [e ->].
  destruct (failing_round r && (5 <=? count + 1)); [apply round_first|]. cbv zeta.
  specialize (IH (first && negb (creates r)) (if failing_round r then count + 1 else 0)).
  destruct (serve_loop _ _ rest) as [more out]. cbn [fst] in *.
  apply first_until_app; [apply round_first|]. rewrite round_connects.
  by destruct (failing_round r).
Qed.

(** C40: whatever the system answers, every pipe instance the service creates
    rejects remote clients, and its access control list gives every access to
    the system account and the administrators and none to the data of the pipe
    to anybody else; until an instance exists each creation insists on being
    the first of its name, so another process that already owns the name makes
    it fail, and no later one does; and every security descriptor is allocated
    while an instance is created with it, and freed once, before the service
    goes on. *)
Theorem pipe_instances_guarded rounds :
  Forall guarded_instance (fst (serve rounds)) /\ first_until true (fst (serve rounds)) /\
  descriptors_sound None (fst (serve rounds)).
Proof.
  split; [|split; [apply serve_loop_first|apply serve_loop_descriptors]].
  apply serve_loop_calls; [|done|done|lia].
  intros f r. round_cases r; repeat constructor; apply pipe_sddl_admits.
Qed.
