(* ===== verification/Startup.v ===== *)
(** * Starting the host (host/src/main.rs, host/src/service/windows.rs)

    The state the service and the development host start with, the statuses the
    service reports to the service control manager, the command line of the
    development host, and the rotation of the service log.  What the operating
    system and the async runtime answer is a record of outcomes. *)
From stdpp Require Import base gmap list strings.
From Stdlib Require Import Ascii.
From Stdlib Require Strings.String.
From S2P Require Import Prelude RustStd Fs Config Primitives Auth Pairing Storage Power Versioning Wire Runtime Server Management.
Open Scope string_scope.
Open Scope Z_scope.
Open Scope list_scope.

(** [anyhow::Error]: where the start stopped. *)
Inductive StartError :=
| StartConfig (e : ConfigError)
| StartIo (e : io_error)
| StartPairing (e : PairingError)
| StartOther (message : string).

Section Startup.
Context {P : Primitives} {St : Type} {CS : CredentialStore St} {Pw : Type}.
Context (pf : platform).

Abbreviation env := (Env St Pw).

Definition store_and_generator (s : St) (g : rng) (e : env) : env :=
  MkEnv (system_time e) (monotonic e) g s (power e).

(** *** The state of the service *)

(** Load the identity, restore its code or generate one; [None] is a panic. *)
Definition service_state (e : env) : option (result AppState StartError) * env :=
  let '(d, g) := default_identity (now_unix e) (generator e) in
  match load_or_create d (store e) with
  | (Err x, s) => (Some (Err (StartIo x)), store_and_generator s g e)
  | (Ok i, s) =>
      let '(o, g) := restore_pairing pf (monotonic e) (now_unix e) i g in
      (match o with
       | None => None
       | Some (Err x) => Some (Err (StartPairing x))
       | Some (Ok self) => Some (Ok (initial_state i self))
       end, store_and_generator s g e)
  end.

(** *** [run_service] *)

Inductive ServiceState := StartPending | Running | Stopped.

#[export] Instance ServiceState_eq_dec : EqDecision ServiceState.
Proof. solve_decision. Defined.

(** [status]: the state, whether stop and shutdown are accepted, the hint in
    milliseconds. *)
Record ServiceStatus := {
  current_state : ServiceState;
  accepts_stop : bool;
  wait_hint : Z;
}.

Definition service_status (s : ServiceState) (accepted : bool) (wait_hint_ms : Z) : ServiceStatus :=
  {| current_state := s; accepts_stop := accepted; wait_hint := wait_hint_ms |}.

(** How [select!] ends: the HTTP server, or the management pipe's task. *)
Inductive ending :=
| HttpEnds (r : result unit io_error)
| ManagementReturns (r : result unit io_error)
| ManagementPanics.

Record Outcomes := {
  register_ok : bool;
  set_status_ok : ServiceState -> bool;
  executable : result string ConfigError;
  config_at : string -> result HostConfig ConfigError;
  program_data_ok : bool;
  runtime_ok : bool;
  bind_ok : Z -> bool;
  hostname_ok : bool;
  service_ending : ending;
}.

Definition other_error {A} (m : string) : result A StartError := Err (StartOther m).

(** The future the runtime blocks on, with the statuses it reports. *)
Definition service_body (o : Outcomes) (config : HostConfig) : result unit StartError * list ServiceStatus :=
  if negb (bind_ok o (port config)) then (other_error "could not listen", [])
  else if negb (hostname_ok o) then (other_error "hostname", [])
  else if negb (set_status_ok o Running) then (other_error "status", [])
  else
    (match service_ending o with
     | HttpEnds (Ok _) => Ok tt
     | HttpEnds (Err x) => Err (StartIo x)
     | ManagementReturns (Ok _) => other_error "local management pipe stopped unexpectedly"
     | ManagementReturns (Err _) => other_error "local management pipe failed"
     | ManagementPanics => other_error "local management pipe task failed"
     end, [service_status Running true 0]).

(** The result of the service, [None] for a panic, and the statuses it has
    reported. *)
Definition run_service (o : Outcomes) (e : env) : option (result unit StartError) * list ServiceStatus :=
  if negb (register_ok o) then (Some (other_error "register"), [])
  else if negb (set_status_ok o StartPending) then (Some (other_error "status"), [])
  else
    let pending := [service_status StartPending false 15000] in
    match executable o with
    | Err x => (Some (Err (StartConfig x)), pending)
    | Ok path =>
    match config_at o path with
    | Err x => (Some (Err (StartConfig x)), pending)
    | Ok config =>
    if negb (program_data_ok o) then (Some (other_error "ProgramData is unavailable"), pending)
    else match fst (service_state e) with
    | None => (None, pending)
    | Some (Err x) => (Some (Err x), pending)
    | Some (Ok _) =>
        if negb (runtime_ok o) then (Some (other_error "runtime"), pending)
        else
          let '(r, reported) := service_body o config in
          if set_status_ok o Stopped
          then (Some r, pending ++ reported ++ [service_status Stopped false 0])
          else (Some (other_error "status"), pending ++ reported)
    end end end.

(** *** [run_portable] *)

(** [arguments.windows(2).find(|pair| pair[0] == flag).map(|pair| pair[1])]. *)
Fixpoint value_after (flag : string) (arguments : list string) : option string :=
  match arguments with
  | a :: (b :: _) as rest => if bool_decide (a = flag) then Some b else value_after flag rest
  | _ => None
  end.

Definition config_override (arguments : list string) : option string :=
  value_after "--config" arguments.

Definition has_flag (flag : string) (arguments : list string) : bool :=
  existsb (fun a => bool_decide (a = flag)) arguments.

Definition with_requested_code (self : PairingCode) (now : Z) (i : HostIdentity) : HostIdentity :=
  with_code (display_code self) now i.

(** The state the development host serves, with the port it listens on; the
    power controller is the mock. *)
Definition portable_state (arguments : list string) (o : Outcomes) (e : env)
    : option (result (AppState * Z) StartError) * env :=
  if negb (has_flag "--dev" arguments) then
    (Some (other_error "unknown arguments; use --dev --mock-shutdown for development"), e)
  else if negb (has_flag "--mock-shutdown" arguments) then
    (Some (other_error "development mode requires --mock-shutdown"), e)
  else match executable o with
  | Err x => (Some (Err (StartConfig x)), e)
  | Ok default_path =>
  match config_at o (default default_path (config_override arguments)) with
  | Err x => (Some (Err (StartConfig x)), e)
  | Ok config =>
  let listen_port := if has_flag "--ephemeral-port" arguments then 0 else port config in
  let '(d, g) := default_identity (now_unix e) (generator e) in
  match load_or_create d (store e) with
  | (Err x, s) => (Some (Err (StartIo x)), store_and_generator s g e)
  | (Ok i, s) =>
      match value_after "--pairing-code-value" arguments with
      | Some code =>
          match from_code pf (monotonic e) code with
          | None => (None, store_and_generator s g e)
          | Some (Err x) => (Some (Err (StartPairing x)), store_and_generator s g e)
          | Some (Ok self) =>
              let i := with_requested_code self (now_unix e) i in
              match save i s with
              | (Err x, s) => (Some (Err (StartIo x)), store_and_generator s g e)
              | (Ok _, s) => (Some (Ok (initial_state i self, listen_port)), store_and_generator s g e)
              end
          end
      | None =>
          let '(o, g) := restore_pairing pf (monotonic e) (now_unix e) i g in
          (match o with
           | None => None
           | Some (Err x) => Some (Err (StartPairing x))
           | Some (Ok self) => Some (Ok (initial_state i self, listen_port))
           end, store_and_generator s g e)
      end
  end end end.

End Startup.
Arguments Outcomes : clear implicits.

(** *** The service log *)

(** [Path::with_extension]: what follows the last dot of the file name is
    replaced; a name without one, or with only a leading one, is extended. *)
Definition is_separator (c : ascii) : bool := Ascii.eqb c "/"%char || Ascii.eqb c "\"%char.

(** The path before its extension, both read from the end. *)
Fixpoint before_dot (r : list ascii) : option (list ascii) :=
  match r with
  | [] => None
  | c :: r =>
      if is_separator c then None
      else if Ascii.eqb c "."%char then
        match r with d :: _ => if is_separator d then None else Some r | [] => None end
      else before_dot r
  end.

Definition with_extension (path extension : string) : string :=
  match before_dot (rev (String.list_ascii_of_string path)) with
  | Some r => String.string_of_list_ascii (rev r)
  | None => path
  end +:+ "." +:+ extension.

Example archive_name : with_extension "C:\ProgramData\DeckyMyRigHost.log" "log.1" =
  "C:\ProgramData\DeckyMyRigHost.log.1".
Proof. reflexivity. Qed.

Definition rotate_log_if_needed (path : string) (maximum_bytes : Z) (s : Fs)
    : result unit io_error * Fs :=
  match fs_metadata_len path s with
  | (Err _, s) => (Ok tt, s)
  | (Ok len, s) =>
      if len <? maximum_bytes then (Ok tt, s)
      else
        let archived := with_extension path "log.1" in
        if fs_exists archived s then
          match fs_remove_file archived s with
          | (Err x, s) => (Err x, s)
          | (Ok _, s) => fs_rename path archived s
          end
        else fs_rename path archived s
  end.

(** What a rotation may do to the files: nothing, remove the archive, or make
    the log the archive. *)
Lemma rotate_log_cases path maximum s r s' :
  rotate_log_if_needed path maximum s = (r, s') ->
  let archived := with_extension path "log.1" in
  files s' = files s \/
  files s' = delete archived (files s) /\ r <> Ok tt \/
  exists data, files s !! path = Some data /\ maximum <= Z.of_nat (length data) /\ r = Ok tt /\
    files s' = <[archived := data]> (delete path (delete archived (files s))).
Proof.
  unfold rotate_log_if_needed, fs_metadata_len. cbv zeta.
  destruct (next_fault s) as [[|k] s1] eqn:E1; apply next_fault_files in E1.
  2:{ intros [= <- <-]. by left. }
  destruct (files s !! path) as [data|] eqn:Ed; [|intros [= <- <-]; by left].
  destruct (_ <? _) eqn:El; [intros [= <- <-]; by left|]. bool_to_prop.
  assert (forall s2, files s2 = files s \/ files s2 = delete (with_extension path "log.1") (files s) ->
    forall r s', fs_rename path (with_extension path "log.1") s2 = (r, s') ->
    r <> Ok tt /\ files s' = files s2 \/ exists data', files s2 !! path = Some data' /\ r = Ok tt /\
      files s' = <[with_extension path "log.1" := data']> (delete path (files s2))) as Hren.
  { intros s2 _ r2 s3 Hr. destruct r2 as [[]|x].
    - right. apply fs_rename_ok in Hr as (d' & H1 & H2). eauto.
    - left. split; [done|]. by eapply fs_rename_err. }
  destruct (fs_exists _ s1) eqn:Ex.
  - unfold fs_remove_file. destruct (next_fault s1) as [[|k] s2] eqn:E2; apply next_fault_files in E2.
    2:{ intros [= <- <-]. left. congruence. }
    rewrite E1. destruct (files s !! with_extension path "log.1") as [old|] eqn:Eo.
    2:{ intros [= <- <-]. left. congruence. }
    intros Hr. apply Hren in Hr as [[Hx Hf]|(d' & H1 & H2 & H3)]; [| |by right].
    + right; left. by rewrite Hf.
    + right; right. simpl in *. apply lookup_delete_Some in H1 as [_ H1]. rewrite Ed in H1.
      simplify_eq. eauto 10.
  - unfold fs_exists in Ex. case_bool_decide as Hn; [done|].
    intros Hr. apply Hren in Hr as [[Hx Hf]|(d' & H1 & H2 & H3)]; [| |by left].
    + left. congruence.
    + right; right. rewrite E1 in H1, H3, Hn. rewrite Ed in H1. simplify_eq. exists d'.
      repeat split; auto. rewrite H3, (delete_id (files s) (with_extension path "log.1")); [done|]. by apply eq_None_not_Some.
Qed.

(** Rotation never loses the log: a log that is small or cannot be inspected
    stays; otherwise it becomes the only archive, byte for byte; when a step
    fails the log stays; and no other file is touched. *)
Theorem rotation_keeps_log path maximum s r s' data :
  rotate_log_if_needed path maximum s = (r, s') -> with_extension path "log.1" <> path ->
  files s !! path = Some data ->
  (files s' !! path = Some data \/
   files s' !! path = None /\ files s' !! with_extension path "log.1" = Some data /\
   maximum <= Z.of_nat (length data)) /\
  forall q, q <> path -> q <> with_extension path "log.1" -> files s' !! q = files s !! q.
Proof.
  intros Hr Hne Hd. apply rotate_log_cases in Hr. cbv zeta in Hr.
  destruct Hr as [->|[[-> _]|(data' & Hd' & Hm & _ & ->)]].
  - auto.
  - split; [left; by rewrite lookup_delete_ne|]. intros q _ Hq. by rewrite lookup_delete_ne.
  - rewrite Hd in Hd'. simplify_eq. split.
    + right. rewrite lookup_insert_ne, lookup_delete_eq, lookup_insert_eq by done. done.
    + intros q H1 H2. by rewrite lookup_insert_ne, !lookup_delete_ne.
Qed.

(** ** The service *)

Section ServiceTheorems.
Context {P : Primitives} {St : Type} {CS : CredentialStore St} {Pw : Type}.
Context (pf : platform).

Abbreviation env := (Env St Pw).

(** The statuses are reported in order, and what each one means. *)
Definition reported (states : list ServiceState) (l : list ServiceStatus) : Prop :=
  map current_state l = states.

(** One way through [run_service]. *)
Ltac report :=
  intros [= <- <-]; split; [simpl; rewrite !elem_of_cons; tauto|]; split;
    [intros s Hs Ha; simpl in Hs; rewrite ?elem_of_cons, ?elem_of_nil in Hs;
     destruct_or? Hs; subst; try done; (split; [done|]; eauto 10)
    |intros Hr; by (discriminate Hr || auto)].

(** The service reports to the control manager in order, [StartPending], then
    [Running], then [Stopped], possibly stopping short; [Running], the only
    status in which it accepts a stop, only with the configuration loaded, the
    state restored and the port bound; and it ends without an error only if
    the HTTP server did, after all three reports. *)
Theorem service_reports_in_order (o : Outcomes) (e : env) r l :
  run_service pf o e = (r, l) ->
  (map current_state l ∈ [[]; [StartPending]; [StartPending; Running]; [StartPending; Stopped];
                          [StartPending; Running; Stopped]]) /\
  (forall s, s ∈ l -> accepts_stop s = true ->
     current_state s = Running /\
     exists path config w, executable o = Ok path /\ config_at o path = Ok config /\
       fst (service_state pf e) = Some (Ok w) /\ bind_ok o (port config) = true) /\
  (r = Some (Ok tt) -> map current_state l = [StartPending; Running; Stopped] /\
     service_ending o = HttpEnds (Ok tt)).
Proof.
  unfold run_service.
  destruct (register_ok o); simpl negb; cbv iota; [|report].
  destruct (set_status_ok o StartPending); simpl negb; cbv iota zeta; [|report].
  destruct (executable o) as [path|]; [|report].
  destruct (config_at o path) as [config|] eqn:Ec; [|report].
  destruct (program_data_ok o); simpl negb; cbv iota; [|report].
  destruct (service_state pf e).1 as [[w|]|] eqn:Es; [|report|report].
  destruct (runtime_ok o); simpl negb; cbv iota; [|report].
  unfold service_body. destruct (bind_ok o (port config)) eqn:Eb; simpl negb; cbv iota;
    [|destruct (set_status_ok o Stopped); report].
  destruct (hostname_ok o); simpl negb; cbv iota; [|destruct (set_status_ok o Stopped); report].
  destruct (set_status_ok o Running); simpl negb; cbv iota;
    [|destruct (set_status_ok o Stopped); report].
  destruct (set_status_ok o Stopped), (service_ending o) as [[[]|]|[[]|]|] eqn:Ee; report.
Qed.

Lemma service_state_panics_iff (e : env) :
  fst (service_state pf e) = None <->
  exists i s code, load_or_create (default_identity (now_unix e) (generator e)).1 (store e) = (Ok i, s) /\
    identity_pairing_code i = Some code /\ code_wf code = true /\
    monotonic e - Z.min (persisted_code_age (pairing_created_at i) (now_unix e)) (from_secs 301)
      < instant_min pf.
Proof.
  unfold service_state. destruct (default_identity _ _) as [d g]. cbn [fst].
  destruct (load_or_create d (store e)) as [[i|x] s]; [|split; [done|by intros (? & ? & ? & ? & _)]].
  unfold restore_pairing. destruct (identity_pairing_code i) as [code|] eqn:Ec.
  - pose proof (from_code_panics_iff pf (monotonic e) code
      (persisted_code_age (pairing_created_at i) (now_unix e))) as Hp.
    destruct (from_code_with_age _ _ _ _) as [[self|x]|]; cbn [fst].
    + split; [done|]. intros (i' & s' & c & [= <- <-] & E & H1 & H2). rewrite Ec in E. simplify_eq.
      discriminate (proj2 Hp (conj H1 H2)).
    + split; [done|]. intros (i' & s' & c & [= <- <-] & E & H1 & H2). rewrite Ec in E. simplify_eq.
      discriminate (proj2 Hp (conj H1 H2)).
    + split; [intros _|done]. destruct (proj1 Hp eq_refl) as [H1 H2]. eauto 10.
  - destruct (generate _ _) as [self g']. split; [done|].
    intros (i' & s' & c & [= <- <-] & E & _). congruence.
Qed.

(** C30: the service panics while starting exactly when it finds a stored code whose
    age, cut to 301 seconds, reaches back before the earliest instant: on
    Windows, when the machine has been up for less than that. *)
Theorem service_start_panics_iff (o : Outcomes) (e : env) :
  fst (run_service pf o e) = None <->
  register_ok o = true /\ set_status_ok o StartPending = true /\ program_data_ok o = true /\
  (exists path config, executable o = Ok path /\ config_at o path = Ok config) /\
  exists i s code, load_or_create (default_identity (now_unix e) (generator e)).1 (store e) = (Ok i, s) /\
    identity_pairing_code i = Some code /\ code_wf code = true /\
    monotonic e - Z.min (persisted_code_age (pairing_created_at i) (now_unix e)) (from_secs 301)
      < instant_min pf.
Proof.
  rewrite <- service_state_panics_iff. unfold run_service.
  destruct (register_ok o); simpl; [|split; [done|by intros [? _]]].
  destruct (set_status_ok o StartPending); simpl; [|split; [done|by intros (_ & ? & _)]].
  destruct (executable o) as [path|]; [|split; [done|by intros (_ & _ & _ & (? & ? & ? & _) & _)]].
  destruct (config_at o path) as [config|] eqn:Ec.
  2:{ split; [done|]. intros (_ & _ & _ & (path' & c & [= <-] & E) & _). congruence. }
  destruct (program_data_ok o); simpl; [|split; [done|by intros (_ & _ & ? & _)]].
  destruct (service_state pf e).1 as [[w|x]|]; simpl; [| |split; [eauto 10|done]].
  - split; [|by intros (_ & _ & _ & _ & ?)]. destruct (runtime_ok o); simpl; [|done].
    destruct (service_body o config). by destruct (set_status_ok o Stopped).
  - split; [done|]. by intros (_ & _ & _ & _ & ?).
Qed.

(** The development host never drives real power: it starts only with both
    [--dev] and [--mock-shutdown], and its state is the stored identity. *)
Theorem portable_requires_flags arguments (o : Outcomes) (e : env) w p e' :
  portable_state pf arguments o e = (Some (Ok (w, p)), e') ->
  "--dev" ∈ arguments /\ "--mock-shutdown" ∈ arguments /\
  (exists config, config_at o (default (match executable o with Ok x => x | Err _ => "" end)
                                 (config_override arguments)) = Ok config /\
     p = if has_flag "--ephemeral-port" arguments then 0 else port config) /\
  accepted_nonces w = ∅ /\ failures w = [].
Proof.
  assert (forall flag, has_flag flag arguments = true -> flag ∈ arguments) as Hflag.
  { intros flag (a & Ha & Hb)%existsb_exists. apply bool_decide_eq_true in Hb as ->.
    by apply list_elem_of_In. }
  unfold portable_state. destruct (has_flag "--dev" arguments) eqn:E1; simpl negb; cbv iota; [|done].
  destruct (has_flag "--mock-shutdown" arguments) eqn:E2; simpl negb; cbv iota; [|done].
  destruct (executable o) as [path|]; [|done]. destruct (config_at o _) as [config|] eqn:Ec; [|done].
  cbv zeta. destruct (default_identity _ _) as [d g].
  destruct (load_or_create d (store e)) as [[i|x] s]; [|done]. intros Hrun.
  split; [by apply Hflag|]. split; [by apply Hflag|].
  assert (exists i self, w = initial_state i self /\
    p = if has_flag "--ephemeral-port" arguments then 0 else port config) as (i' & self & -> & Hp).
  { destruct (value_after _ _) as [code|].
    - destruct (from_code _ _ _) as [[self|x]|]; [|done|done].
      destruct (save _ _) as [[[]|x] s']; simplify_eq. eauto.
    - destruct (restore_pairing _ _ _ _ _) as [[[self|x]|] g']; simplify_eq. eauto. }
  split; [by exists config|done].
Qed.

End ServiceTheorems.
