(* ===== verification/Entry.v ===== *)
(** * Entry point, logging and paths (host/src/main.rs, config.rs, storage/windows.rs)

    [main] with its choice of mode, the set-up of the log, and the paths of the
    configuration, the credentials and the log.  The subscriber that writes the
    log is a library; what is modelled is where it writes. *)
From stdpp Require Import base gmap list strings.
From Stdlib Require Import Ascii.
From Stdlib Require Strings.String.
From S2P Require Import Prelude RustStd Fs Config Primitives Auth Pairing Storage Power Versioning Wire Runtime Server Management Startup.
Open Scope string_scope.
Open Scope Z_scope.
Open Scope list_scope.

(** ** Paths *)

Definition ends_in_separator (path : string) : bool :=
  match rev (String.list_ascii_of_string path) with
  | c :: _ => is_separator c
  | [] => false
  end.

(** [PathBuf::join] with one relative component, on Windows. *)
Definition join (path component : string) : string :=
  if bool_decide (path = "") || ends_in_separator path then path +:+ component
  else path +:+ "\" +:+ component.

(** The path up to its last separator, both read from the end. *)
Fixpoint drop_name (r : list ascii) : list ascii :=
  match r with
  | [] => []
  | c :: r' => if is_separator c then r else drop_name r'
  end.

(** [Path::with_file_name], for a path that ends in a file name. *)
Definition with_file_name (path name : string) : string :=
  String.string_of_list_ascii (rev (drop_name (rev (String.list_ascii_of_string path)))) +:+ name.

(** [WindowsCredentialStore::program_data], from the environment variable. *)
Definition program_data (variable : option string) : result string io_error :=
  match variable with
  | None => Err NotFound
  | Some root => Ok (join (join root "DeckyMyRigHost") "credentials.dpapi")
  end.

(** [HostConfig::next_to_executable], from [current_exe]. *)
Definition next_to_executable (current_exe : result string io_error) : result string ConfigError :=
  match current_exe with
  | Err e => Err (ConfigExecutable e)
  | Ok executable => Ok (with_file_name executable "DeckyMyRigHost.toml")
  end.

(** ** Logging *)

(** [OpenOptions::new().create(true).append(true).open]: what is there stays. *)
Definition fs_open_append (path : string) (s : Fs) : result unit io_error * Fs :=
  match next_fault s with
  | (Fine, s') =>
      (Ok tt, with_files (<[path := default [] (files s !! path)]> (files s)) s')
  | (Fails _, s') => (Err (OtherIo "open"), s')
  end.

Inductive LogTarget :=
| LogFile (path : string)
| LogStderr.

Definition log_limit : Z := 5 * 1024 * 1024.

Definition service_log (root : string) : string :=
  join (join root "DeckyMyRigHost") "DeckyMyRigHost.log".

Definition init_logging (pf : platform) (variable : option string) (arguments : list string) (s : Fs)
    : result LogTarget StartError * Fs :=
  match pf with
  | Unix => (Ok LogStderr, s)
  | Windows =>
      if negb (has_flag "--service" arguments) then (Ok LogStderr, s)
      else match variable with
      | None => (other_error "ProgramData is unavailable", s)
      | Some root =>
          let log_path := service_log root in
          match rotate_log_if_needed log_path log_limit s with
          | (Err e, s) => (Err (StartIo e), s)
          | (Ok _, s) =>
              match fs_create_dir_all s with
              | (Err _, s) => (Ok LogStderr, s)
              | (Ok _, s) =>
                  match fs_open_append log_path s with
                  | (Err _, s) => (Ok LogStderr, s)
                  | (Ok _, s) => (Ok (LogFile log_path), s)
                  end
              end
          end
      end
  end.

(** ** [main] *)

(** What [main] hands over to. *)
Inductive Mode :=
| DispatchService
| RunPortable (arguments : list string).

Definition host_main (pf : platform) (variable : option string) (arguments : list string) (s : Fs)
    : result Mode StartError * Fs :=
  match init_logging pf variable arguments s with
  | (Err e, s) => (Err e, s)
  | (Ok _, s) =>
      (if has_flag "--service" arguments then
         match pf with
         | Windows => Ok DispatchService
         | Unix => other_error "service mode is only supported on Windows"
         end
       else Ok (RunPortable arguments), s)
  end.

(** ** Theorems *)

Example credential_path :
  program_data (Some "C:\ProgramData") = Ok "C:\ProgramData\DeckyMyRigHost\credentials.dpapi".
Proof. reflexivity. Qed.

Example config_path :
  next_to_executable (Ok "C:\Program Files\DeckyMyRigHost\host.exe") =
    Ok "C:\Program Files\DeckyMyRigHost\DeckyMyRigHost.toml".
Proof. reflexivity. Qed.

Lemma list_ascii_app a b :
  String.list_ascii_of_string (a +:+ b) = String.list_ascii_of_string a ++ String.list_ascii_of_string b.
Proof. induction a as [|c a IH]; [done|]. exact (f_equal (cons c) IH). Qed.

(** The archive of the service log is the file with a suffix. *)
Lemma archive_of_log path : with_extension (path +:+ "DeckyMyRigHost.log") "log.1" =
  (path +:+ "DeckyMyRigHost") +:+ ".log.1".
Proof.
  unfold with_extension. f_equal. rewrite list_ascii_app, rev_app_distr.
  change (rev (String.list_ascii_of_string "DeckyMyRigHost.log"))
    with (["g"; "o"; "l"; "."]%char ++ rev (String.list_ascii_of_string "DeckyMyRigHost")).
  rewrite <- app_assoc, <- rev_app_distr, <- list_ascii_app.
  assert (exists d r, rev (String.list_ascii_of_string (path +:+ "DeckyMyRigHost")) = d :: r /\
    is_separator d = false) as (d & r & E & Hd).
  { rewrite list_ascii_app, rev_app_distr. by do 2 eexists. }
  cbn [app]. rewrite E. cbn [before_dot]. cbn. rewrite Hd, <- E, rev_involutive.
  apply String.string_of_list_ascii_of_string.
Qed.

Lemma service_log_archive root : exists base, service_log root = base +:+ ".log" /\
  with_extension (service_log root) "log.1" = base +:+ ".log.1".
Proof.
  assert (exists d, service_log root = d +:+ "DeckyMyRigHost.log") as [d E].
  { unfold service_log, join at 1. case_match; [by eexists|].
    exists (join root "DeckyMyRigHost" +:+ "\"). by rewrite str_app_assoc. }
  exists (d +:+ "DeckyMyRigHost"). rewrite E. split; [by rewrite str_app_assoc|apply archive_of_log].
Qed.

Lemma archive_differs root : with_extension (service_log root) "log.1" <> service_log root.
Proof.
  destruct (service_log_archive root) as (base & -> & ->). intros E.
  apply (f_equal str_len) in E. rewrite !str_len_app in E. simpl in E. lia.
Qed.

Lemma fs_open_append_files path s r s' :
  fs_open_append path s = (r, s') ->
  (forall q, q <> path -> files s' !! q = files s !! q) /\
  (forall data, files s !! path = Some data -> files s' !! path = Some data).
Proof.
  unfold fs_open_append. destruct (next_fault s) as [[|w] s1] eqn:E; apply next_fault_files in E;
    intros [= <- <-]; simpl.
  - split; [intros q Hq; by rewrite lookup_insert_ne|]. intros data ->. by rewrite lookup_insert_eq.
  - by rewrite E.
Qed.

Lemma fs_create_dir_all_files s : files (fs_create_dir_all s).2 = files s.
Proof.
  unfold fs_create_dir_all. destruct (next_fault s) as [[|w] s1] eqn:E; by apply next_fault_files in E.
Qed.

(** Where the log of an earlier run is after the set-up, and what else changed. *)
Definition log_survives (root : string) (data : bytes) (s s' : Fs) : Prop :=
  let log := service_log root in
  let archive := with_extension log "log.1" in
  (files s' !! log = Some data \/ files s' !! archive = Some data /\ log_limit <= Z.of_nat (length data)) /\
  forall q, q <> log -> q <> archive -> files s' !! q = files s !! q.

Lemma init_logging_survives pf root arguments s r s' data :
  init_logging pf (Some root) arguments s = (r, s') -> files s !! service_log root = Some data ->
  log_survives root data s s'.
Proof.
  intros Hi Hd. assert (log_survives root data s s) as Hsame by (split; auto).
  unfold init_logging in Hi. destruct pf; [by injection Hi as <- <-|].
  destruct (negb _); [by injection Hi as <- <-|]. cbv zeta in Hi.
  destruct (rotate_log_if_needed (service_log root) log_limit s) as [rr s1] eqn:Er.
  pose proof (rotation_keeps_log _ _ _ _ _ _ Er (archive_differs root) Hd) as [Hkeep Hframe].
  assert (log_survives root data s s1) as Hs1.
  { split; [|done]. destruct Hkeep as [?|(_ & ? & ?)]; [by left|by right]. }
  destruct rr as [[]|e]; [|by injection Hi as <- <-].
  pose proof (fs_create_dir_all_files s1) as Hc. destruct (fs_create_dir_all s1) as [[[]|e] s2]; simpl in Hc.
  2:{ injection Hi as <- <-. unfold log_survives in *. by rewrite Hc. }
  destruct (fs_open_append (service_log root) s2) as [ro s3] eqn:Eo.
  apply fs_open_append_files in Eo as [Ho1 Ho2]. assert (s' = s3) as -> by (destruct ro; by injection Hi).
  rewrite Hc in Ho1, Ho2. destruct Hs1 as [Hl Hf]. split.
  - destruct Hl as [Hl|[Hl Hm]]; [left; by apply Ho2|right; split; [|done]].
    rewrite Ho1; [done|]. apply archive_differs.
  - intros q Hq Ha. rewrite Ho1 by done. by apply Hf.
Qed.

(** Starting the host never loses the service's log: whatever fails, the
    log of earlier runs is still there, appended to, or, when it had reached
    five megabytes, has become the archive; no other file changes; and [main]
    refuses to start only in service mode, off Windows or when the rotation
    itself failed. *)
Theorem start_keeps_log pf root arguments s r s' data :
  host_main pf (Some root) arguments s = (r, s') -> files s !! service_log root = Some data ->
  log_survives root data s s' /\
  (forall e, r = Err e -> has_flag "--service" arguments = true /\
     (pf = Unix \/ exists x, e = StartIo x /\ (rotate_log_if_needed (service_log root) log_limit s).1 = Err x)).
Proof.
  intros Hm Hd. unfold host_main in Hm.
  destruct (init_logging pf (Some root) arguments s) as [ri s1] eqn:Ei.
  pose proof (init_logging_survives _ _ _ _ _ _ _ Ei Hd) as Hs.
  unfold init_logging in Ei. destruct ri as [t|e].
  - injection Hm as <- <-. split; [done|]. intros e.
    destruct (has_flag "--service" arguments); [|done]. destruct pf; [auto|done].
  - injection Hm as <- <-. split; [done|]. intros e' [= <-]. destruct pf; [done|].
    destruct (has_flag "--service" arguments); [|done]. split; [done|]. right. simpl in Ei.
    destruct (rotate_log_if_needed _ _ s) as [[[]|x] s2]; [|injection Ei as <- <-; by exists x].
    destruct (fs_create_dir_all s2) as [[[]|x] s3]; [|done].
    by destruct (fs_open_append _ s3) as [[[]|x] s4].
Qed.

(** A host whose log is small and one whose log has to be archived. *)
Definition logs (data : bytes) : Fs := MkFs {[ service_log "C:\ProgramData" := data ]} [].

Lemma start_keeps_log_witness :
  log_survives "C:\ProgramData" [x41] (logs [x41])
    (host_main Windows (Some "C:\ProgramData") ["host.exe"; "--service"] (logs [x41])).2.
Proof.
  refine (proj1 (start_keeps_log Windows "C:\ProgramData" ["host.exe"; "--service"] (logs [x41]) _ _ [x41]
    (surjective_pairing _) _)).
  reflexivity.
Defined.
