(* ===== verification/Concurrency.v ===== *)
(** * The handlers under concurrency

    Every task of the host (an HTTP request through [router], a connection to
    the management pipe through [handle]) is verified once with the logic of
    [Runtime]; the theorems at the end hold for any number of them, interleaved
    in any way. *)
From stdpp Require Import base gmap list strings relations.
From S2P Require Import Prelude RustStd Fs Primitives Auth Pairing Storage Power Versioning Wire Runtime Server Management ManagementIpc.
Open Scope string_scope.
Open Scope Z_scope.
Open Scope list_scope.

(** ** Invariants of the shared data *)

Definition version_ok (v : option string) : Prop :=
  forall s, v = Some s -> compare s HOST_VERSION <> UnknownVersion.

Record identity_wf (i : HostIdentity) : Prop := {
  wf_credential c : credential i = Some c -> length c = 32%nat;
  wf_identity_code code : identity_pairing_code i = Some code -> code_wf code = true;
  wf_nonces : Forall (fun n => length (accepted_nonce n) = NONCE_LENGTH) (accepted_shutdown_nonces i);
  wf_version : version_ok (last_client_version i);
}.

Section Concurrency.
Context {P : Primitives} {PL : PrimitivesLaws P} {H : Http} {HL : HttpLaws H} {Wi : Wire}.
Context {J : ManagementJson} {St : Type} {CS : CredentialStore St} {Pw : Type} {PC : PowerController Pw}.
Context (pf : platform) (hostname : string).

Abbreviation env := (Env St Pw).

(** The invariant of each mutex, at the current monotonic time. *)
Definition lock_inv (e : env) (l : lock) : data l -> Prop :=
  match l with
  | LPairing => fun self => pairing_wf (monotonic e) self
  | LIdentity => identity_wf
  | LLatest => version_ok
  | LNonces => map_Forall (fun k _ => length k = NONCE_LENGTH)
  | LFailures => fun failures => (length failures <= 20)%nat
  end.

(** The host has been up for 301 seconds, or its platform can represent the
    instants before that. *)
Definition up_long_enough (e : env) : Prop := instant_min pf + from_secs 301 <= monotonic e.

Definition later (e e' : env) : Prop := monotonic e <= monotonic e'.

(** The status codes the host answers with. *)
Definition known (s : Z) : bool :=
  existsb (Z.eqb s) [200; 202; 400; 401; 404; 405; 409; 410; 413; 415; 426; 429; 500].

Definition known_status (r : Response) : Prop := known (status_code r) = true.

Abbreviation WP := (wp rank up_long_enough later lock_inv False).

Lemma lock_inv_mono e e' l d : later e e' -> lock_inv e l d -> lock_inv e' l d.
Proof. destruct l; simpl; auto. intros Hle. by apply pairing_wf_mono. Qed.

Lemma later_refl e : later e e.
Proof. unfold later. lia. Qed.

Lemma later_trans e1 e2 e3 : later e1 e2 -> later e2 e3 -> later e1 e3.
Proof. unfold later. lia. Qed.

(** *** Rules for the host's effects *)

Lemma wp_unix_now h Q w e :
  (forall now e', later e e' -> Q now w e') -> WP h unix_now h Q w e.
Proof. intros HQ. apply wp_io. intros e1 He HJ. simpl. auto using later_refl. Qed.

Lemma wp_store_save i h Q w e :
  (forall r e', later e e' -> Q r w e') -> WP h (store_save i) h Q w e.
Proof.
  intros HQ. apply wp_io. intros e1 He HJ. destruct (save i (store e1)) as [r s]; simpl.
  split; [done|]. split; [unfold later; simpl; lia|]. by apply HQ.
Qed.

Lemma wp_shutdown_power h Q w e :
  (forall r e', later e e' -> Q r w e') -> WP h shutdown_power h Q w e.
Proof.
  intros HQ. apply wp_io. intros e1 He HJ. destruct (power_shutdown (power e1)) as [r s]; simpl.
  split; [done|]. split; [unfold later; simpl; lia|]. by apply HQ.
Qed.

Lemma wp_instant_now h Q w e :
  (forall e', later e e' -> Q (monotonic e') w e') -> WP h instant_now h Q w e.
Proof. intros HQ. apply wp_io. intros e1 He HJ. simpl. auto using later_refl. Qed.

Lemma set_get_cell l (w : AppState) : set l (get l w) w = w.
Proof. by destruct l, w. Qed.

Lemma wp_read l h Q w e : l ∈ h -> Q (get l w) w e -> WP h (read l) h Q w e.
Proof. intros Hl HQ. apply wp_access; simpl; [done|]. by rewrite set_get_cell. Qed.

Lemma wp_write l d h Q w e : l ∈ h -> Q tt (set l d w) e -> WP h (write l d) h Q w e.
Proof. intros Hl HQ. by apply wp_access. Qed.

Lemma wp_pairing_call {R} (f : Z -> PairingCode -> rng -> R * PairingCode * rng) h Q w e :
  LPairing ∈ h ->
  (forall e1 e', later e e1 -> up_long_enough e1 -> monotonic e' = monotonic e1 ->
     let '(r, self', _) := f (monotonic e1) (pairing w) (generator e1) in
     Q r (set LPairing self' w) e') ->
  WP h (pairing_call f) h Q w e.
Proof.
  intros Hl HQ. apply wp_seq, wp_read; [done|].
  apply wp_seq, wp_io. intros e1 He HJ.
  specialize (HQ e1). simpl in *.
  destruct (f (monotonic e1) (pairing w) (generator e1)) as [[r self'] g]. simpl.
  split; [done|]. split; [unfold later; simpl; lia|].
  apply wp_seq, wp_write; [done|]. apply wp_ret. by apply HQ.
Qed.

Lemma wp_expect (o : option Response) r h Q w e :
  o = Some r -> Q r w e -> WP h (expect o) h Q w e.
Proof. intros -> HQ. by apply wp_ret. Qed.

(** *** Responses are always built *)

Lemma content_type_parses : is_Some (header_value_parse CONTENT_TYPE).
Proof. destruct (header_parse_visible CONTENT_TYPE) as (v & -> & _); [done|eauto]. Qed.

Lemma protobuf_total {M} `{Message M} s (m : M) :
  exists r, protobuf s m = Some r /\ status_code r = s.
Proof. unfold protobuf. destruct content_type_parses as [v ->]. eauto. Qed.

Lemma error_total s c m : exists r, error s c m = Some r /\ status_code r = s.
Proof. apply protobuf_total. Qed.

Lemma authenticated_protobuf_total {M} `{Message M} s (m : M) auth p :
  length (context_nonce auth) = NONCE_LENGTH -> is_ascii p = true ->
  Z.of_nat (str_len p) <= u16_max ->
  exists r, authenticated_protobuf s m auth p = Some r /\ status_code r = s.
Proof.
  intros Hn Hp Hl. unfold authenticated_protobuf.
  destruct (sign_response_total (context_credential auth) (context_nonce auth) p s
    (encode_to_vec m) Hn Hp Hl) as (sig & -> & _).
  destruct content_type_parses as [v ->].
  destruct (header_parse_visible (hex_encode sig) (hex_visible sig)) as (sv & -> & _). eauto.
Qed.

Lemma wp_expect_plain (f : Z -> option Response) s h Q w e :
  (exists r, f s = Some r /\ status_code r = s) ->
  (forall r, status_code r = s -> Q r w e) -> WP h (expect (f s)) h Q w e.
Proof. intros (r & E & Hs) HQ. eapply wp_expect; eauto. Qed.

(** *** The authenticator *)

Lemma wp_failed now err Q w e :
  (forall x w' e', later e e' -> Q x w' e') -> WP [] (failed now err) [] Q w e.
Proof.
  intros HQ. apply wp_locked; [by intros ? ?%elem_of_nil|].
  intros w' e' He HJ _ HI. split; [|by apply HQ]. by apply failed_section_bound.
Qed.

Lemma nonce_section_keys now n m :
  length n = NONCE_LENGTH -> map_Forall (fun k (_ : Z) => length k = NONCE_LENGTH) m ->
  map_Forall (fun k (_ : Z) => length k = NONCE_LENGTH) (nonce_section now n m).2.
Proof.
  intros Hn Hm. unfold nonce_section. case_match; simpl;
    (apply map_Forall_insert_2; [done|]);
    intros k v [Hk _]%map_lookup_filter_Some; by apply (Hm k v).
Qed.

Lemma wp_verify secret request now Q w e :
  (forall x w' e', later e e' -> (x = Ok tt -> length (nonce request) = NONCE_LENGTH) -> Q x w' e') ->
  WP [] (verify secret request now) [] Q w e.
Proof.
  intros HQ. unfold verify. case_match.
  { apply wp_seq, wp_failed. intros x w' e' He. apply wp_ret. by apply HQ. }
  destruct (hmac_new_from_slice secret) as [mac|]; [|apply wp_ret, HQ; auto using later_refl; done].
  destruct (canonical_message _ _ _ _ _) as [msg|err] eqn:Ec.
  2:{ apply wp_seq, wp_failed. intros x w' e' He. apply wp_ret. by apply HQ. }
  apply canonical_message_Ok in Ec as (Hn & _).
  case_match.
  - apply wp_locked; [by intros ? ?%elem_of_nil|]. intros w' e' He HJ _ HI.
    split; [|by apply HQ]. by apply nonce_section_keys.
  - apply wp_seq, wp_failed. intros x w' e' He. apply wp_ret. by apply HQ.
Qed.

(** *** Authentication *)

Lemma with_nonces_wf l i :
  identity_wf i -> Forall (fun n => length (accepted_nonce n) = NONCE_LENGTH) l ->
  identity_wf (with_nonces l i).
Proof. intros [] Hl. by constructor. Qed.

Lemma wp_retain_nonces (ok : AcceptedShutdownNonce -> Prop) l h Q w e :
  Forall ok l -> (forall l' e', later e e' -> Forall ok l' -> Q l' w e') ->
  WP h (retain_nonces l) h Q w e.
Proof.
  intros Hl. revert e Q. induction Hl as [|n l Hn Hl IH]; intros e Q HQ; cbn [retain_nonces].
  { apply wp_ret, HQ; [apply later_refl|done]. }
  apply wp_seq, wp_unix_now. intros now e1 He1. apply wp_seq, IH. intros l' e2 He2 Hl'.
  apply wp_ret, HQ; [by eapply later_trans|]. case_match; [by constructor|done].
Qed.

Lemma wp_record_shutdown_nonce ts n Q w e :
  identity_wf (identity w) -> length n = NONCE_LENGTH ->
  (forall x i w' e', later e e' -> identity_wf i -> w' = set LIdentity i w -> Q x w' e') ->
  WP [LIdentity] (record_shutdown_nonce ts n) [LIdentity] Q w e.
Proof.
  intros HI Hn HQ. unfold record_shutdown_nonce.
  apply wp_seq, wp_read; [by left|]. simpl.
  apply wp_seq; eapply wp_retain_nonces; [by apply wf_nonces|]. intros retained e1 He1 Hr.
  assert (Forall (fun x => length (accepted_nonce x) = NONCE_LENGTH)
    (retained ++ [{| accepted_timestamp := ts; accepted_nonce := n |}])) as Hp.
  { apply Forall_app. split; [done|]. by repeat constructor. }
  apply wp_seq, wp_write; [by left|]. case_match.
  { apply wp_ret. eapply HQ; [done| |done]. by apply with_nonces_wf. }
  apply wp_seq, wp_write; [by left|].
  apply wp_seq, wp_store_save. intros [|x] e2 He2.
  - apply wp_ret. eapply HQ; [by eapply later_trans| |done]. by apply with_nonces_wf.
  - apply wp_seq, wp_write; [by left|]. apply wp_ret.
    eapply HQ; [by eapply later_trans| |done].
    rewrite removelast_last. by apply with_nonces_wf.
Qed.

Lemma wp_authenticate hs m p body Q w e :
  (forall x w' e', later e e' ->
     (forall a, x = Ok a -> length (context_nonce a) = NONCE_LENGTH) -> Q x w' e') ->
  WP [] (authenticate hs m p body) [] Q w e.
Proof.
  intros HQ. unfold authenticate.
  destruct (timestamp_header hs); [|by apply wp_ret, HQ; [apply later_refl|]].
  destruct (hex_header hs "x-decky-nonce"); [|by apply wp_ret, HQ; [apply later_refl|]].
  destruct (hex_header hs "x-decky-signature"); [|by apply wp_ret, HQ; [apply later_refl|]].
  apply wp_seq, wp_locked; [by intros ? ?%elem_of_nil|]. intros w1 e1 He1 HJ1 _ HI1.
  split; [done|]. simpl. destruct (credential (identity w1)) as [cred|];
    [|by apply wp_ret, HQ].
  apply wp_seq, wp_unix_now. intros now e2 He2.
  apply wp_seq, wp_verify. intros x w3 e3 He3 Hx.
  assert (later e e3) as Hle by (eapply later_trans; [|done]; by eapply later_trans).
  destruct x as [[]|err]; [|by apply wp_ret, HQ].
  destruct (try_into_array NONCE_LENGTH _) as [n|] eqn:En; [|by apply wp_ret, HQ].
  apply try_into_array_Some in En as [-> En].
  case_match.
  - apply wp_seq, wp_guarded; [by intros ? ?%elem_of_nil|]. intros w4 e4 He4 HJ4 _ HI4.
    apply wp_record_shutdown_nonce; [done|done|].
    intros y i w5 e5 He5 Hi ->. simpl. split; [done|].
    assert (later e e5) as Hle5 by (eapply later_trans; [done|]; by eapply later_trans).
    destruct y as [[]|err]; apply wp_ret, HQ; try done. by intros a [= <-].
  - apply wp_ret, HQ; [done|]. by intros a [= <-].
Qed.

Lemma wp_record_client_version v Q w e :
  (forall w' e', later e e' -> Q tt w' e') -> WP [] (record_client_version v) [] Q w e.
Proof.
  intros HQ. unfold record_client_version. case_bool_decide as Hv; [apply wp_ret, HQ, later_refl|].
  assert (version_ok (Some v)) as Hok by (by intros s [= <-]).
  apply wp_seq, wp_locked; [by intros ? ?%elem_of_nil|]. intros w1 e1 He1 HJ1 _ HI1.
  split; [done|]. simpl. case_bool_decide; [by apply wp_ret, HQ|].
  apply wp_guarded; [by intros ? ?%elem_of_nil|]. intros w2 e2 He2 HJ2 _ HI2.
  apply wp_seq, wp_read; [by left|]. simpl in HI2.
  assert (forall w3 e3, later e2 e3 -> identity_wf (identity w3) ->
    WP [LIdentity] (locked LLatest (fun _ => (tt, Some v))) [LIdentity]
      (fun a w'' e'' => lock_inv e'' LIdentity (get LIdentity w'') /\ Q a w'' e'') w3 e3) as Hlast.
  { intros w3 e3 He3 Hi3. apply wp_locked.
    - intros l ->%list_elem_of_singleton. simpl. lia.
    - intros w4 e4 He4 _ Ha _. split; [done|]. simpl. split.
      + specialize (Ha LIdentity). simpl in Ha. rewrite <- Ha; [done|by left].
      + apply HQ. eapply later_trans; [done|]. eapply later_trans; [done|].
        by eapply later_trans. }
  apply wp_seq. case_bool_decide.
  - apply wp_seq, wp_store_save. intros [[]|x] e3 He3.
    + apply wp_write; [by left|]. apply Hlast; [done|]. simpl. destruct HI2. by constructor.
    + apply wp_ret. by apply Hlast.
  - apply wp_ret. apply Hlast; [apply later_refl|done].
Qed.

(** *** The handlers *)

(** An answer that is always built, with a status of the list. *)
Definition answers (o : option Response) : Prop :=
  exists r, o = Some r /\ known_status r.

Lemma wp_reply (o : option Response) h (Q : Response -> AppState -> env -> Prop) w e :
  answers o -> (forall r, known_status r -> Q r w e) -> WP h (expect o) h Q w e.
Proof. intros (r & -> & Hs) HQ. apply wp_ret. auto. Qed.

Lemma answers_status o s :
  (exists r, o = Some r /\ status_code r = s) -> known s = true -> answers o.
Proof. intros (r & -> & <-) Hk. by exists r. Qed.

Lemma error_answers s c m : known s = true -> answers (error s c m).
Proof. apply answers_status, error_total. Qed.

Lemma protobuf_answers {M} `{Message M} s (m : M) : known s = true -> answers (protobuf s m).
Proof. apply answers_status, protobuf_total. Qed.

Lemma unauthorized_answers reason : answers (unauthorized reason).
Proof. unfold unauthorized. repeat case_bool_decide; by apply error_answers. Qed.

Lemma pairing_failure_answers x : answers (pairing_failure x).
Proof. destruct x; by apply error_answers. Qed.

Definition authenticated_path (p : string) : bool :=
  bool_decide (p = "/v1/status") || bool_decide (p = "/v1/shutdown").

(** The request's nonce makes every authenticated answer well-formed. *)
Lemma authenticated_answers {M} `{Message M} s (m : M) auth p :
  length (context_nonce auth) = NONCE_LENGTH -> authenticated_path p = true ->
  known s = true -> answers (authenticated_protobuf s m auth p).
Proof.
  intros Hn Hp. apply answers_status, authenticated_protobuf_total; [done|..];
    unfold authenticated_path in Hp; repeat case_bool_decide; subst; done.
Qed.

Hint Resolve error_answers protobuf_answers unauthorized_answers pairing_failure_answers
  authenticated_answers : rig.
Hint Extern 1 (_ = true) => reflexivity : rig.

Ltac reply := apply wp_reply;
  [unfold authenticated_protocol_mismatch, authenticated_error, protocol_mismatch;
   solve [auto with rig] | solve [auto]].

Lemma wp_status hs body w e :
  WP [] (status hostname hs body) [] (fun r _ _ => known_status r) w e.
Proof.
  unfold status. apply wp_seq, wp_authenticate. intros [auth|reason] w1 e1 He1 Ha; [|reply].
  specialize (Ha auth eq_refl).
  destruct (is_protobuf hs); simpl; [|reply].
  destruct (decode body) as [request|]; [|reply].
  destruct (status_protocol_version request =? PROTOCOL_VERSION); simpl; [|reply].
  apply wp_seq, wp_record_client_version. intros w2 e2 He2.
  apply wp_guarded; [by intros ? ?%elem_of_nil|]. intros w3 e3 He3 HJ3 _ HI3.
  apply wp_seq, wp_read; [by left|]. reply.
Qed.

Lemma wp_shutdown hs body w e :
  WP [] (shutdown hs body) [] (fun r _ _ => known_status r) w e.
Proof.
  unfold shutdown. apply wp_seq, wp_authenticate. intros [auth|reason] w1 e1 He1 Ha; [|reply].
  specialize (Ha auth eq_refl).
  destruct (is_protobuf hs); simpl; [|reply].
  destruct (decode body) as [request|]; [|reply].
  destruct (shutdown_protocol_version request =? PROTOCOL_VERSION); simpl; [|reply].
  apply wp_seq, wp_record_client_version. intros w2 e2 He2.
  apply wp_seq, wp_shutdown_power. intros [[]|x] e3 He3; reply.
Qed.

Lemma wp_pair_start request src w e :
  WP [] (pair_start hostname request src) [] (fun r _ _ => known_status r) w e.
Proof.
  unfold pair_start. apply wp_seq, wp_locked; [by intros ? ?%elem_of_nil|].
  intros w1 e1 He1 HJ1 _ HI1. split; [done|]. simpl.
  destruct (_ && _); [reply|].
  apply wp_seq, wp_guarded; [by intros ? ?%elem_of_nil|]. intros w2 e2 He2 HJ2 _ HI2.
  apply wp_pairing_call; [by left|]. intros e3 e4 He3 HJ3 He4.
  pose proof (start_wf (monotonic e3) (client_spake2_message request) src (pairing w2) (generator e3)
    (lock_inv_mono _ _ LPairing _ He3 HI2)) as Hwf.
  destruct (start_for_source _ _ _ _ _) as [[r self'] g]. simpl in *. split; [by rewrite He4|].
  destruct r as [st|x]; [|reply].
  apply wp_guarded; [by intros ? ?%elem_of_nil|]. intros w5 e5 He5 HJ5 _ HI5.
  apply wp_seq, wp_read; [by left|]. reply.
Qed.

Lemma paired_identity_wf c i : length c = 32%nat -> identity_wf i -> identity_wf (paired_identity c i).
Proof. intros Hc []. constructor; simpl; [by intros ? [= <-]|done|constructor|done]. Qed.

(** [commit] succeeds: the session is pending and the host is up long enough. *)
Lemma wp_commit_expect sid conf r h Q w e :
  LPairing ∈ h -> length sid = 16%nat -> is_Some (pending (pairing w) !! sid) ->
  pairing_wf (monotonic e) (pairing w) ->
  (forall self' e', later e e' -> pairing_wf (monotonic e') self' -> Q tt (set LPairing self' w) e') ->
  WP h (commit_expect pf sid conf r) h Q w e.
Proof.
  intros Hh Hl Hp HI HQ. unfold commit_expect. apply wp_seq, wp_pairing_call; [done|].
  intros e1 e2 He1 HJ He2.
  pose proof (proj1 (commit_panics_iff pf (monotonic e1) sid conf r (pairing w))) as Hn.
  pose proof (commit_wf pf (monotonic e1) sid conf r (pairing w)
    (lock_inv_mono _ _ LPairing _ He1 HI)) as Hwf.
  pose proof (commit_err_iff pf (monotonic e1) sid conf r (pairing w)) as Hok.
  destruct (commit pf (monotonic e1) sid conf r (pairing w)) as [[[[]|x]|] self']; simpl in *.
  - apply wp_ret, HQ; [unfold later in *; lia|]. rewrite He2. by apply Hwf.
  - destruct Hok as [Hok _]. destruct (Hok ltac:(eauto)) as [?|Hok']; [done|].
    destruct Hp as [? Hp]. by rewrite Hp in Hok'.
  - destruct (Hn eq_refl) as (_ & _ & Hu). unfold up_long_enough in HJ. lia.
Qed.

Lemma wp_pair_finish request w e :
  WP [] (pair_finish pf hostname request) [] (fun r _ _ => known_status r) w e.
Proof.
  unfold pair_finish. apply wp_seq, wp_locked; [by intros ? ?%elem_of_nil|].
  intros w1 e1 He1 HJ1 _ HI1. split; [done|]. simpl.
  apply wp_guarded; [by intros ? ?%elem_of_nil|]. intros w2 e2 He2 HJ2 _ HI2.
  apply wp_seq, wp_read; [by left|].
  apply wp_seq, wp_pairing_call; [by left|]. intros e3 e4 He3 HJ3 He4. simpl.
  set (ctx := Build_CredentialContext _ _ _ _).
  pose proof (finish_wf (monotonic e3) (pair_session_id request) (client_confirmation request) ctx
    (pairing w2) (generator e3) (lock_inv_mono _ _ LPairing _ He3 HI2)) as Hwf.
  destruct (finish _ _ _ _ _ _) as [[r self'] g] eqn:Ef. simpl in Hwf. rewrite <- He4 in Hwf.
  destruct r as [r|x]; [|reply].
  assert (forall l : lock, l ∈ [LPairing] -> (rank l < rank LIdentity)%nat) as Hrank.
  { intros l ->%list_elem_of_singleton. simpl. lia. }
  destruct (is_completed _ _) eqn:Ec.
  - apply wp_guarded; [done|]. intros w5 e5 He5 HJ5 Ha5 HI5.
    assert (lock_inv e5 LPairing (get LPairing w5)) as HI6.
    { rewrite <- (Ha5 LPairing) by (by left). eapply lock_inv_mono; [done|]. exact Hwf. }
    apply wp_seq, wp_read; [by left|]. unfold pairing_response. reply.
  - destruct (finish_first_success _ _ _ _ _ _ _ _ _ Ef Ec) as (Hl & Hp & Hcl).
    apply wp_guarded; [done|]. intros w5 e5 He5 HJ5 Ha5 HI5.
    specialize (Ha5 LPairing ltac:(by left)). simpl in Ha5.
    assert (pairing_wf (monotonic e5) (pairing w5)) as HI6.
    { rewrite <- Ha5. eapply pairing_wf_mono; [exact He5|done]. }
    apply wp_seq, wp_read; [by left|]. apply wp_seq, wp_write; [by left|].
    apply wp_seq, wp_store_save. intros [[]|x] e6 He6; simpl.
    + apply wp_seq, wp_commit_expect; simpl; [right; left|done|by rewrite <- Ha5|eapply pairing_wf_mono; [exact He6|done]|].
      intros self7 e7 He7 Hwf7. apply wp_seq, wp_read; [by left|]. unfold pairing_response.
      pose proof (paired_identity_wf (result_credential r) _ Hcl HI5). reply.
    + pose proof (pairing_wf_mono _ _ _ He6 HI6).
      apply wp_seq, wp_write; [by left|]. simpl in *. reply.
Qed.

Lemma wp_router m p src hs body w e :
  WP [] (router pf hostname m p src hs body) [] (fun r _ _ => known_status r) w e.
Proof.
  unfold router. repeat case_bool_decide; simpl; try (by apply wp_ret);
    destruct (_ <? _); try (by apply wp_ret).
  - apply wp_status.
  - unfold pair. destruct (is_protobuf hs); simpl; [|reply].
    destruct (decode body) as [request|]; [|reply].
    destruct (_ =? _); simpl; [|reply].
    case_bool_decide; [apply wp_pair_start|apply wp_pair_finish].
  - apply wp_shutdown.
Qed.

(** *** The management operations *)

(** What the control application is shown: a well-formed code and at most
    five minutes. *)
Definition shown_ok (s : PairingState) : Prop :=
  0 <= state_expires_in s <= PAIRING_LIFETIME /\
  forall c, state_code s = Some c -> code_wf c = true.

Lemma expires_in_bounds now self : 0 <= expires_in now self <= PAIRING_LIFETIME.
Proof.
  unfold expires_in, elapsed, saturating_sub, PAIRING_LIFETIME, from_secs, nanos_per_sec. lia.
Qed.

Lemma rank_identity l : l ∈ [LPairing] -> (rank l < rank LIdentity)%nat.
Proof. intros ->%list_elem_of_singleton. simpl. lia. Qed.

Lemma wp_pairing_state w e : WP [] pairing_state [] (fun s _ _ => shown_ok s) w e.
Proof.
  unfold pairing_state. apply wp_guarded; [by intros ? ?%elem_of_nil|].
  intros w1 e1 He1 HJ1 _ HI1. apply wp_seq, wp_read; [by left|].
  apply wp_guarded; [apply rank_identity|]. intros w2 e2 He2 HJ2 Ha2 HI2.
  apply wp_seq, wp_read; [by left|]. apply wp_seq, wp_instant_now. intros e3 He3.
  apply wp_ret. simpl. specialize (Ha2 LPairing ltac:(by left)). simpl in *.
  split; [done|]. split.
  - rewrite <- Ha2. eapply pairing_wf_mono; [|done]. unfold later in *. lia.
  - split; [apply expires_in_bounds|]. simpl. intros c Hc. case_match; [|done].
    simplify_eq. apply (wf_code _ _ HI1).
Qed.

Definition generated_ok (r : result PairingState io_error) : Prop :=
  match r with Ok s => shown_ok s | Err _ => True end.

Lemma wp_generate_code h Q w e :
  (forall code t e', later e e' -> code_wf code = true -> t <= monotonic e' ->
     Q (fresh_code code t) w e') -> WP h generate_code h Q w e.
Proof.
  intros HQ. apply wp_io. intros e1 He HJ. pose proof (generate_wf (monotonic e1) (generator e1)) as Hw.
  unfold generate in *. destruct (random_range 1000000 (generator e1)) as [v g]. simpl in *.
  split; [done|]. split; [unfold later; simpl; lia|]. apply HQ; auto. simpl. lia.
Qed.

Lemma wp_generate_pairing_code w e :
  WP [] generate_pairing_code [] (fun r _ _ => generated_ok r) w e.
Proof.
  unfold generate_pairing_code. apply wp_guarded; [by intros ? ?%elem_of_nil|].
  intros w1 e1 He1 HJ1 _ HI1. apply wp_guarded; [apply rank_identity|].
  intros w2 e2 He2 HJ2 Ha2 HI2. specialize (Ha2 LPairing ltac:(by left)). simpl in *.
  apply wp_seq, wp_read; [by left|]. apply wp_seq, wp_generate_code. intros code t e3 He3 Hc Ht.
  apply wp_seq, wp_unix_now. intros now e4 He4. apply wp_seq, wp_store_save.
  intros [[]|x] e5 He5.
  - apply wp_seq, wp_write; [by left|]. apply wp_seq, wp_write; [right; left|].
    apply wp_seq, wp_instant_now. intros e6 He6. apply wp_ret. simpl.
    split; [destruct HI2; constructor; simpl; auto; by intros ? [= <-]|].
    split; [apply fresh_code_wf; [done|unfold later in *; lia]|].
    split; [apply expires_in_bounds|]. simpl. by intros c [= <-].
  - apply wp_ret. simpl. split; [done|]. split; [|done]. rewrite <- Ha2.
    eapply pairing_wf_mono; [|done]. unfold later in *. lia.
Qed.

(** *** The system *)

Inductive reply :=
| HttpReply (r : Response)
| PipeReply (r : result unit io_error * bytes).

(** An answer on the pipe fits the state: a well-formed code with at most 300
    seconds left, and no code in an error. *)
Definition shown_response (r : ManagementResponse) : Prop :=
  0 <= expires_in_seconds r <= 300 /\
  (forall c, response_pairing_code r = Some c -> code_wf c = true /\ ok r = true).

Definition reply_ok (r : reply) : Prop :=
  match r with
  | HttpReply r => known_status r
  | PipeReply (r, sent) =>
      (sent = [] /\ r <> Ok tt) \/
      exists response json, response_to_vec response = Ok json /\ shown_response response /\
        sent `prefix_of` frame json /\ (r = Ok tt -> sent = frame json)
  end.

Lemma wp_perform o w e : WP [] (perform o) [] (fun r _ _ => generated_ok r) w e.
Proof.
  assert (WP [] (s <- pairing_state ;; Ret (Ok s)) [] (fun r _ _ => generated_ok r) w e) as Hstate.
  { apply wp_seq. eapply wp_mono; [|apply wp_pairing_state]. intros s w' e' Hs. by apply wp_ret. }
  destruct o; [done|done|]. eapply wp_mono; [|apply wp_generate_pairing_code].
  intros [s|x] w' e' Hr; [apply Hr|done].
Qed.

Lemma shown_seconds s : shown_ok s -> 0 <= as_secs (state_expires_in s) <= 300.
Proof.
  intros [[H1 H2] _]. unfold as_secs, PAIRING_LIFETIME, from_secs, nanos_per_sec in *.
  split; [apply Z.div_pos; lia|]. apply Z.div_le_upper_bound; lia.
Qed.

Lemma wp_respond port r w e :
  generated_ok r -> WP [] (respond port r) [] (fun x _ _ => shown_response x) w e.
Proof.
  intros Hr. destruct r as [s|x]; simpl.
  - apply wp_seq, wp_locked; [by intros ? ?%elem_of_nil|]. intros w1 e1 _ _ _ HI. split; [done|].
    apply wp_ret. split; [by apply shown_seconds|]. simpl. intros c Hc. split; [|done]. by apply Hr.
  - apply wp_ret. split; [simpl; lia|done].
Qed.

Lemma wp_handle client port w e :
  WP [] (handle client port) [] (fun r _ _ => reply_ok (PipeReply r)) w e.
Proof.
  unfold handle. destruct (read_request _) as [req|]; [|by apply wp_ret; left].
  destruct (request_from_slice req) as [request|]; [|by apply wp_ret; left].
  apply wp_seq. eapply wp_mono; [|apply wp_perform]. intros r w1 e1 Hr.
  apply wp_seq. eapply wp_mono; [|by apply wp_respond]. intros x w2 e2 Hx.
  apply wp_ret. destruct (response_to_vec x) as [json|] eqn:E; [|by left].
  pose proof (send_response_prefix client json) as Hs. destruct (send_response client json) as [o sent].
  right. exists x, json. done.
Qed.

(** The tasks that arrive: requests, with any method, path, headers and body,
    and connections to the management pipe, with any bytes. *)
Inductive host_task : prog lock data env reply -> Prop :=
| HttpTask m p src hs body :
    host_task (r <- router pf hostname m p src hs body ;; Ret (HttpReply r))
| PipeTask client port : host_task (r <- handle client port ;; Ret (PipeReply r)).

(** Time passes; the wall clock may be set to anything. *)
Definition tick (e e' : env) : Prop :=
  monotonic e <= monotonic e' /\ generator e' = generator e /\ store e' = store e /\ power e' = power e.

Lemma host_task_ok p : host_task p -> forall w e, WP [] p [] (fun a _ _ => reply_ok a) w e.
Proof.
  intros [m q src hs body|client port] w e; apply wp_seq.
  - eapply wp_mono; [|apply wp_router]. intros r w' e' Hr. by apply wp_ret.
  - eapply wp_mono; [|apply wp_handle]. intros r w' e' Hr. by apply wp_ret.
Qed.

Lemma tick_later e e' : tick e e' -> up_long_enough e -> up_long_enough e' /\ later e e'.
Proof. unfold tick, up_long_enough, later. intros [? _] ?. lia. Qed.

Abbreviation host_ok := (config_ok rank up_long_enough later lock_inv False reply_ok).

Lemma reachable_ok w e c :
  (forall l, lock_inv e l (get l w)) -> up_long_enough e ->
  rtc (step tick host_task) (Config [] w e) c -> host_ok c.
Proof.
  intros HI HJ Hs. eapply (steps_ok rank up_long_enough later lock_inv False
    later_refl later_trans lock_inv_mono reply_ok tick host_task tick_later host_task_ok);
    [exact Hs|]. by apply initial_ok.
Qed.






(** C9: whatever requests and management operations arrive, and however they
    interleave, no task ever panics: every [expect] and [unwrap] of the
    handlers holds, once the host has been up for 301 seconds. *)
Theorem host_never_panics w e c t :
  (forall l, lock_inv e l (get l w)) -> up_long_enough e ->
  rtc (step tick host_task) (Config [] w e) c -> t ∈ tasks c -> code t <> Panic.
Proof.
  intros HI HJ Hs Ht. eapply (config_ok_no_panic _ _ _ _ False); [by intros []| |done].
  by eapply reachable_ok.
Qed.



End Concurrency.
