(* ===== verification/Requests.v ===== *)
(** * One request at a time

    What each handler does when it runs alone, by [run]: who is authenticated,
    what reaches the power controller and the store, what is answered. *)
From stdpp Require Import base gmap list strings.
From S2P Require Import Prelude RustStd Fs Primitives Auth Pairing Storage Power Versioning Wire Samples Runtime Server Management.
Open Scope string_scope.
Open Scope Z_scope.
Open Scope list_scope.

Section Requests.
Context {P : Primitives} {PL : PrimitivesLaws P} {H : Http} {Wi : Wire}.
Context {St : Type} {CS : CredentialStore St} {Pw : Type} {PC : PowerController Pw}.
Context (pf : platform) (hostname : string).

Abbreviation env := (Env St Pw).
Implicit Types (w : AppState) (e : env).

(** ** Running the effects *)

Lemma set_set l (d d' : data l) w : set l d (set l d' w) = set l d w.
Proof. by destruct l. Qed.

Lemma set_get l w : set l (get l w) w = w.
Proof. by destruct l, w. Qed.

Lemma run_read l w e : run (read l) w e = (Done (get l w), w, e).
Proof. simpl. by rewrite set_get. Qed.

Lemma run_write l (d : data l) w e : run (write l d) w e = (Done tt, set l d w, e).
Proof. done. Qed.

Lemma run_io {B} (f : env -> B * env) w e : run (io f) w e = (Done (f e).1, w, (f e).2).
Proof. simpl. by destruct (f e). Qed.

Lemma run_ret {A} (a : A) w e : run (Env := env) (Ret a) w e = (Done a, w, e).
Proof. done. Qed.

Definition with_store (s : St) e : env :=
  MkEnv (system_time e) (monotonic e) (generator e) s (power e).

Definition with_power (p : Pw) e : env :=
  MkEnv (system_time e) (monotonic e) (generator e) (store e) p.

Definition with_generator (g : rng) e : env :=
  MkEnv (system_time e) (monotonic e) g (store e) (power e).

Lemma run_store_save i w e :
  run (store_save i) w e = (Done (save i (store e)).1, w, with_store (save i (store e)).2 e).
Proof. unfold store_save. rewrite run_io. by destruct (save i (store e)). Qed.

Lemma run_shutdown_power w e :
  run shutdown_power w e =
    (Done (power_shutdown (power e)).1, w, with_power (power_shutdown (power e)).2 e).
Proof. unfold shutdown_power. rewrite run_io. by destruct (power_shutdown (power e)). Qed.

Lemma run_unix_now w e : run unix_now w e = (Done (now_unix e), w, e).
Proof. done. Qed.

Lemma run_pairing_call {R} (f : Z -> PairingCode -> rng -> R * PairingCode * rng) w e :
  run (pairing_call f) w e =
    let '(r, self, g) := f (monotonic e) (pairing w) (generator e) in
    (Done r, set LPairing self w, with_generator g e).
Proof.
  unfold pairing_call. rewrite run_bind, run_read, run_bind, run_io.
  simpl. by destruct (f (monotonic e) (pairing w) (generator e)) as [[r self] g].
Qed.

Ltac run := repeat first
  [ rewrite run_bind | rewrite run_guarded | rewrite run_locked | rewrite run_read
  | rewrite run_write | rewrite run_store_save | rewrite run_shutdown_power
  | rewrite run_unix_now | rewrite run_ret | rewrite run_pairing_call ].

(** ** The authenticator *)

(** The part of the state that authentication alone may change. *)
Definition same_but_auth w w' : Prop :=
  identity w' = identity w /\ pairing w' = pairing w /\
  latest_client_version w' = latest_client_version w.

(** When [verify] accepts at time [now]. *)
Definition accepts (secret : bytes) (request : AuthenticatedRequest) (now : Z) (nonces : gmap bytes Z)
    : Prop :=
  abs_diff now (timestamp request) <= CLOCK_WINDOW /\
  sign secret (timestamp request) (nonce request) (method request) (path request) (body request)
    = Ok (signature request) /\
  ~ exists seen, nonces !! nonce request = Some seen /\ live now seen.

Lemma run_failed now err w e :
  run (failed now err) w e =
    (Done (failed_section now err (failures w)).1,
     set LFailures (failed_section now err (failures w)).2 w, e).
Proof. unfold failed. by rewrite run_locked. Qed.

(** One equation for every branch of [verify]. *)
Lemma run_verify secret request now w e :
  run (verify secret request now) w e =
    let fail err := (Done (Err (failed_section now err (failures w)).1),
                     set LFailures (failed_section now err (failures w)).2 w, e) in
    if CLOCK_WINDOW <? abs_diff now (timestamp request) then fail Stale
    else match canonical_message (timestamp request) (nonce request) (method request)
                 (path request) (body request) with
    | Err err => fail err
    | Ok message =>
        if bool_decide (hmac secret message = Some (signature request))
        then (Done (nonce_section now (nonce request) (accepted_nonces w)).1,
              set LNonces (nonce_section now (nonce request) (accepted_nonces w)).2 w, e)
        else fail Invalid
    end.
Proof.
  unfold verify. destruct (CLOCK_WINDOW <? _); [by rewrite run_bind, run_failed|].
  unfold hmac. destruct (hmac_new_total secret) as [mac ->].
  destruct (canonical_message _ _ _ _ _) as [msg|err]; [|by rewrite run_bind, run_failed].
  destruct (hmac_verify_slice mac msg (signature request)) eqn:Ev.
  - apply hmac_verify_iff in Ev. rewrite run_locked, bool_decide_eq_true_2; [done|congruence].
  - rewrite run_bind, run_failed, bool_decide_eq_false_2; [done|]. intros [= E].
    assert (hmac_verify_slice mac msg (signature request) = true); [|congruence].
    by apply hmac_verify_iff.
Qed.

Lemma verify_same_but_auth secret request now w e :
  exists r w', run (verify secret request now) w e = (Done r, w', e) /\ same_but_auth w w'.
Proof.
  rewrite run_verify. cbv zeta. case_match; [by do 2 eexists|].
  case_match; [|by do 2 eexists]. case_bool_decide; by do 2 eexists.
Qed.

Lemma verify_accepts_run secret request now w e :
  (run (verify secret request now) w e).1.1 = Done (Ok tt) <->
  accepts secret request now (accepted_nonces w).
Proof.
  rewrite run_verify. unfold accepts. simpl.
  destruct (CLOCK_WINDOW <? _) eqn:Et; bool_to_prop.
  { split; [done|]. intros (? & _). lia. }
  destruct (canonical_message _ _ _ _ _) as [msg|err] eqn:Ec.
  2:{ split; [done|]. intros (_ & Hs & _). apply sign_Ok in Hs as (x & Hx & _). congruence. }
  case_bool_decide as Hh; simpl.
  - split.
    + intros [= E]. apply nonce_section_ok in E. split; [lia|]. split; [|by rewrite <- nonce_section_result].
      apply sign_Ok. eauto.
    + intros (_ & _ & Hn). f_equal. apply nonce_section_ok. by rewrite nonce_section_result.
  - split; [done|]. intros (_ & Hs & _). apply sign_Ok in Hs as (x & Hx & Hsig). congruence.
Qed.

(** ** Authentication of a request *)

(** The signed request the headers describe. *)
Definition request_of (hs : HeaderMap) (m p : string) (b : bytes) : option AuthenticatedRequest :=
  match timestamp_header hs, hex_header hs "x-decky-nonce", hex_header hs "x-decky-signature" with
  | Some t, Some n, Some s =>
      Some {| timestamp := t; nonce := n; signature := s; method := m; path := p; body := b |}
  | _, _, _ => None
  end.

(** The shutdown nonces kept at time [now]. *)
Definition retained (now : Z) (i : HostIdentity) : list AcceptedShutdownNonce :=
  List.filter (fun seen => saturating_sub now (accepted_timestamp seen) <=? CLOCK_WINDOW)
    (accepted_shutdown_nonces i).

Lemma run_retain_nonces l w e :
  run (retain_nonces l) w e =
    (Done (List.filter (fun seen =>
       saturating_sub (now_unix e) (accepted_timestamp seen) <=? CLOCK_WINDOW) l), w, e).
Proof.
  induction l as [|seen l IH]; [done|]. cbn [retain_nonces].
  rewrite run_bind, run_unix_now, run_bind, IH. simpl. by case_match.
Qed.

Definition new_nonce (request : AuthenticatedRequest) : AcceptedShutdownNonce :=
  {| accepted_timestamp := timestamp request; accepted_nonce := nonce request |}.

Lemma run_record_shutdown_nonce t n w e :
  run (record_shutdown_nonce t n) w e =
    let i := identity w in
    let kept := retained (now_unix e) i in
    let pushed := kept ++ [{| accepted_timestamp := t; accepted_nonce := n |}] in
    if existsb (fun seen => bool_decide (accepted_nonce seen = n)) kept
    then (Done (Err Replay), set LIdentity (with_nonces kept i) w, e)
    else match save (with_nonces pushed i) (store e) with
    | (Ok _, s) => (Done (Ok tt), set LIdentity (with_nonces pushed i) w, with_store s e)
    | (Err _, s) => (Done (Err Persistence), set LIdentity (with_nonces kept i) w, with_store s e)
    end.
Proof.
  unfold record_shutdown_nonce. rewrite run_bind, run_read, run_bind, run_retain_nonces.
  cbv zeta. fold (retained (now_unix e) (get LIdentity w)).
  rewrite run_bind, run_write. cbn [get app_cells get_cell].
  destruct (existsb _ _); [done|].
  rewrite run_bind, run_write, run_bind, run_store_save.
  destruct (save _ _) as [[[]|x] s]; [done|]. cbn [fst snd].
  rewrite run_bind, run_write, removelast_last, run_ret. done.
Qed.

Lemma nonce_unseen n kept :
  existsb (fun seen => bool_decide (accepted_nonce seen = n)) kept = false <->
  Forall (fun seen => accepted_nonce seen <> n) kept.
Proof.
  induction kept as [|seen kept IH]; simpl; [done|].
  rewrite orb_false_iff, IH, Forall_cons, bool_decide_eq_false. done.
Qed.

Lemma run_authenticate hs m p b w e :
  run (authenticate hs m p b) w e =
    match request_of hs m p b with
    | None => (Done (Err Malformed), w, e)
    | Some request =>
    match credential (identity w) with
    | None => (Done (Err Invalid), w, e)
    | Some c =>
    match run (verify c request (now_unix e)) w e with
    | (Done (Ok _), w, e) =>
        let authentication := {| context_credential := c; context_nonce := nonce request |} in
        if bool_decide (p = "/v1/shutdown") then
          match run (record_shutdown_nonce (timestamp request) (nonce request)) w e with
          | (Done (Ok _), w, e) => (Done (Ok authentication), w, e)
          | (Done (Err x), w, e) => (Done (Err x), w, e)
          | (Panicked, w, e) => (Panicked, w, e)
          end
        else (Done (Ok authentication), w, e)
    | (Done (Err x), w, e) => (Done (Err x), w, e)
    | (Panicked, w, e) => (Panicked, w, e)
    end end end.
Proof.
  unfold authenticate, request_of. destruct (timestamp_header hs) as [t|]; [|done].
  destruct (hex_header hs "x-decky-nonce") as [n|]; [|done].
  destruct (hex_header hs "x-decky-signature") as [sig|]; [|done].
  rewrite run_bind, run_locked. cbn [fst snd]. rewrite set_get. cbn [get app_cells get_cell].
  destruct (credential (identity w)) as [c|]; [|done].
  rewrite run_bind, run_unix_now, run_bind.
  set (request := Build_AuthenticatedRequest _ _ _ _ _ _).
  destruct (run (verify c request (now_unix e)) w e) as [[[[[]|x]|] w1] e1] eqn:Ev; [|done..].
  assert (length n = NONCE_LENGTH) as Hn.
  { destruct (proj1 (verify_accepts_run c request (now_unix e) w e)) as (_ & Hs & _); [by rewrite Ev|].
    apply sign_Ok in Hs as (msg & Hc & _). apply canonical_message_Ok in Hc as [Hn _]. done. }
  rewrite (proj2 (try_into_array_Some NONCE_LENGTH n n)) by done.
  case_bool_decide; [|done]. rewrite run_bind, run_guarded.
  cbn [timestamp nonce request].
  by destruct (run (record_shutdown_nonce t n) w1 e1) as [[[[[]|x]|] w2] e2].
Qed.

(** What authentication leaves alone: everything but the failure window, the
    nonce cache, the list of shutdown nonces and, for a shutdown, the store. *)
Definition authentication_frame w e w' e' : Prop :=
  pairing w' = pairing w /\ latest_client_version w' = latest_client_version w /\
  (exists l, identity w' = with_nonces l (identity w)) /\
  (exists s, e' = with_store s e).

Lemma with_nonces_same i : with_nonces (accepted_shutdown_nonces i) i = i.
Proof. by destruct i. Qed.

Lemma with_store_same e : with_store (store e) e = e.
Proof. by destruct e. Qed.

Lemma authenticate_frame hs m p b w e :
  exists r w' e', run (authenticate hs m p b) w e = (Done r, w', e') /\ authentication_frame w e w' e'.
Proof.
  rewrite run_authenticate.
  assert (authentication_frame w e w e) as Hsame.
  { split; [done|]. split; [done|]. split; [exists (accepted_shutdown_nonces (identity w)); by rewrite with_nonces_same|].
    exists (store e). by rewrite with_store_same. }
  destruct (request_of hs m p b) as [request|]; [|eauto 10].
  destruct (credential (identity w)) as [c|]; [|eauto 10].
  destruct (verify_same_but_auth c request (now_unix e) w e) as (r & w1 & -> & Hi & Hp & Hl).
  assert (authentication_frame w e w1 e) as Hauth.
  { unfold authentication_frame. rewrite Hi, Hp, Hl. apply Hsame. }
  destruct r as [[]|x]; [|eauto 10]. cbv zeta. case_bool_decide; [|eauto 10].
  rewrite run_record_shutdown_nonce. cbv zeta.
  destruct (existsb _ _).
  { do 3 eexists. split; [done|]. split; [done|]. split; [done|]. rewrite <- Hi. simpl. split; [eauto|].
    exists (store e). by rewrite with_store_same. }
  destruct (save _ _) as [[[]|x] s]; do 3 eexists; (split; [done|]);
    (split; [done|]); (split; [done|]); rewrite <- Hi; simpl; eauto.
Qed.

(** Acceptance, for a status and for a shutdown request. *)
Lemma authenticate_accepted hs m p b w e ctx w' e' :
  run (authenticate hs m p b) w e = (Done (Ok ctx), w', e') ->
  exists request c, request_of hs m p b = Some request /\ credential (identity w) = Some c /\
    ctx = {| context_credential := c; context_nonce := nonce request |} /\
    accepts c request (now_unix e) (accepted_nonces w) /\
    if bool_decide (p = "/v1/shutdown") then
      let i := with_nonces (retained (now_unix e) (identity w) ++ [new_nonce request]) (identity w) in
      identity w' = i /\ (exists s, save i (store e) = (Ok tt, s) /\ e' = with_store s e) /\
      Forall (fun seen => accepted_nonce seen <> nonce request) (retained (now_unix e) (identity w))
    else identity w' = identity w /\ e' = e.
Proof.
  rewrite run_authenticate. destruct (request_of hs m p b) as [request|]; [|done].
  destruct (credential (identity w)) as [c|] eqn:Ec; [|done].
  pose proof (verify_accepts_run c request (now_unix e) w e) as Hv.
  destruct (verify_same_but_auth c request (now_unix e) w e) as (r & w1 & Er & Hi & Hp & Hl).
  rewrite Er in Hv |- *. destruct r as [[]|x]; [|done]. cbv zeta.
  intros Hrun. exists request, c. split; [done|]. split; [done|].
  assert (forall P Q R : Prop, P /\ R -> Q -> P /\ Q /\ R) as Hswap by tauto.
  apply Hswap; [|by apply Hv]. case_bool_decide.
  - rewrite run_record_shutdown_nonce in Hrun. cbv zeta in Hrun. rewrite Hi in Hrun.
    destruct (existsb _ _) eqn:Ee; [done|].
    destruct (save _ _) as [[[]|x] s] eqn:Es; [|done]. simplify_eq. simpl.
    split; [done|]. split; [done|]. split; [eauto|].
    by apply nonce_unseen.
  - by simplify_eq.
Qed.

(** The conditions under which a request is accepted are enough. *)
Lemma authenticate_accepting hs m p b w e request c :
  request_of hs m p b = Some request -> credential (identity w) = Some c ->
  accepts c request (now_unix e) (accepted_nonces w) ->
  (p = "/v1/shutdown" ->
    let kept := retained (now_unix e) (identity w) in
    Forall (fun seen => accepted_nonce seen <> nonce request) kept /\
    (save (with_nonces (kept ++ [new_nonce request]) (identity w)) (store e)).1 = Ok tt) ->
  exists w' e', run (authenticate hs m p b) w e =
    (Done (Ok {| context_credential := c; context_nonce := nonce request |}), w', e').
Proof.
  intros Hr Hc Ha Hs. rewrite run_authenticate, Hr, Hc.
  apply (verify_accepts_run c request (now_unix e) w e) in Ha.
  destruct (verify_same_but_auth c request (now_unix e) w e) as (r & w1 & Er & Hi & _ & _).
  rewrite Er in Ha |- *. simpl in Ha. injection Ha as ->. cbv zeta.
  case_bool_decide as Hp; [|eauto]. destruct (Hs Hp) as [HF Hsave].
  rewrite run_record_shutdown_nonce. cbv zeta. rewrite Hi.
  rewrite (proj2 (nonce_unseen _ _) HF).
  unfold new_nonce in Hsave. destruct (save _ _) as [[[]|x] s]; [eauto|done].
Qed.

(** C3: a request is authenticated exactly when the host is paired, its
    timestamp is within sixty seconds of the wall clock, its signature is the
    HMAC of its canonical message under the host's credential, its nonce is not
    in the cache, and, for a shutdown, its nonce is not among the persisted
    ones and could be persisted.  No failure count keeps a valid request out. *)
Theorem authenticate_iff hs m p b w e ctx :
  (run (authenticate hs m p b) w e).1.1 = Done (Ok ctx) <->
  exists request c, request_of hs m p b = Some request /\ credential (identity w) = Some c /\
    ctx = {| context_credential := c; context_nonce := nonce request |} /\
    accepts c request (now_unix e) (accepted_nonces w) /\
    (p = "/v1/shutdown" ->
      let kept := retained (now_unix e) (identity w) in
      Forall (fun seen => accepted_nonce seen <> nonce request) kept /\
      (save (with_nonces (kept ++ [new_nonce request]) (identity w)) (store e)).1 = Ok tt).
Proof.
  split.
  - destruct (run (authenticate hs m p b) w e) as [[o w'] e'] eqn:E. simpl. intros ->.
    apply authenticate_accepted in E as (request & c & Hr & Hc & Hctx & Ha & Hs).
    exists request, c. repeat (split; [done|]). intros ->. rewrite bool_decide_eq_true_2 in Hs by done.
    destruct Hs as (_ & (s & Hs & _) & HF). simpl. by rewrite Hs.
  - intros (request & c & Hr & Hc & -> & Ha & Hs).
    by destruct (authenticate_accepting hs m p b w e request c Hr Hc Ha Hs) as (w' & e' & ->).
Qed.

(** ** Answers to authenticated requests *)

(** The signature header of a response. *)
Definition response_signature (r : Response) : option bytes :=
  match List.find (fun kv => bool_decide (kv.1 = "x-decky-response-signature")) (headers r) with
  | Some (_, v) => match header_to_str v with Some s => hex_decode s | None => None end
  | None => None
  end.

(** A response that the holder of the credential can attribute to the host and
    to its own request. *)
Definition signed_for (ctx : AuthenticationContext) (p : string) (r : Response) : Prop :=
  exists sig, response_signature r = Some sig /\
    verify_response (context_credential ctx) (context_nonce ctx) p (status_code r)
      (response_body r) sig = Ok tt.

Context {HL : HttpLaws H}.

Lemma verify_response_signed secret n p s b sig :
  sign_response secret n p s b = Ok sig -> verify_response secret n p s b sig = Ok tt.
Proof.
  unfold verify_response, sign_response. destruct (response_message n p s b) as [x|x]; [|done].
  destruct (hmac_new_from_slice secret) as [k|]; simpl; [|done]. intros [= <-].
  by rewrite (proj2 (hmac_verify_iff k x _)).
Qed.

Lemma authenticated_protobuf_signed {M} `{Message M} s (msg : M) ctx p r :
  authenticated_protobuf s msg ctx p = Some r -> signed_for ctx p r.
Proof.
  unfold authenticated_protobuf. destruct (sign_response _ _ _ _ _) as [sig|] eqn:Es; [|done].
  destruct (header_value_parse CONTENT_TYPE) as [v|]; [|done].
  destruct (header_parse_visible (hex_encode sig) (hex_visible sig)) as (sv & -> & Hsv).
  intros [= <-]. exists sig. split.
  - unfold response_signature. simpl. by rewrite Hsv, hex_round_trip.
  - simpl. by apply verify_response_signed.
Qed.

Lemma run_expect (o : option Response) w e r w' e' :
  run (Env := env) (expect o) w e = (Done r, w', e') -> o = Some r /\ w' = w /\ e' = e.
Proof. destruct o; simpl; [|done]. by intros [= <- <- <-]. Qed.

Lemma run_record_client_version v w e :
  run (record_client_version v) w e =
    if bool_decide (compare v HOST_VERSION = UnknownVersion) then (Done tt, w, e)
    else if bool_decide (latest_client_version w = Some v) then (Done tt, w, e)
    else if bool_decide (last_client_version (identity w) <> Some v) then
      let updated := with_client_version v (identity w) in
      match save updated (store e) with
      | (Ok _, s) => (Done tt, set LLatest (Some v) (set LIdentity updated w), with_store s e)
      | (Err _, s) => (Done tt, set LLatest (Some v) w, with_store s e)
      end
    else (Done tt, set LLatest (Some v) w, e).
Proof.
  unfold record_client_version. case_bool_decide; [done|].
  rewrite run_bind, run_locked. cbn [fst snd]. rewrite set_get. cbn [get app_cells get_cell].
  destruct (decide (latest_client_version w = Some v)) as [E|E];
    [by rewrite !bool_decide_eq_true_2|rewrite !bool_decide_eq_false_2 by done].
  rewrite run_guarded, run_bind, run_read, run_bind.
  cbn [get app_cells get_cell]. case_bool_decide; [|by rewrite run_ret, run_locked].
  rewrite run_bind, run_store_save. destruct (save _ _) as [[[]|x] s]; cbn [fst snd].
  - by rewrite run_write, run_locked.
  - by rewrite run_ret, run_locked.
Qed.

(** The effect of recording the version: only the two version fields and the
    store change, and what memory and store agreed on they still agree on. *)
Lemma record_client_version_frame v w e :
  exists w' e', run (record_client_version v) w e = (Done tt, w', e') /\
    pairing w' = pairing w /\ accepted_nonces w' = accepted_nonces w /\
    (exists s, e' = with_store s e) /\
    (identity w' = identity w /\
       (e' = e \/ exists s x, save (with_client_version v (identity w)) (store e) = (Err x, s) /\ e' = with_store s e) \/
     identity w' = with_client_version v (identity w) /\
       exists s, save (identity w') (store e) = (Ok tt, s) /\ e' = with_store s e).
Proof.
  rewrite run_record_client_version.
  assert (e = with_store (store e) e) as He by (by rewrite with_store_same).
  repeat case_bool_decide; [by do 2 eexists; repeat (split; [by eauto|]); eauto..| |].
  - cbv zeta. destruct (save _ _) as [[[]|x] s] eqn:Es; do 2 eexists; (split; [done|]); simpl;
      (split; [done|]); (split; [done|]); (split; [eauto|]); eauto 10.
  - do 2 eexists; repeat (split; [by eauto|]); eauto.
Qed.

(** A handler's last step is a signed answer. *)
Ltac signed :=
  let Hr := fresh in intros [Hr _]%run_expect; by apply authenticated_protobuf_signed in Hr.

(** A plugin version that could not be saved is not saved later either:
    the failed attempt is remembered as done, and the same version reported
    again touches neither the store nor the identity. *)
Theorem failed_version_save_not_retried v w e x s :
  compare v HOST_VERSION <> UnknownVersion -> latest_client_version w <> Some v ->
  last_client_version (identity w) <> Some v ->
  save (with_client_version v (identity w)) (store e) = (Err x, s) ->
  exists w', run (record_client_version v) w e = (Done tt, w', with_store s e) /\
    identity w' = identity w /\
    forall e2, run (record_client_version v) w' e2 = (Done tt, w', e2).
Proof.
  intros Hv Hl Hi Hs. exists (set (LLatest : lock) (Some v : data LLatest) w).
  rewrite run_record_client_version.
  rewrite !bool_decide_eq_false_2, bool_decide_eq_true_2 by done. cbv zeta. rewrite Hs.
  split; [done|]. split; [done|]. intros e2. rewrite run_record_client_version.
  by rewrite bool_decide_eq_false_2, bool_decide_eq_true_2.
Qed.

Lemma status_signed hs b w e ctx w1 e1 r w2 e2 :
  run (authenticate hs "POST" "/v1/status" b) w e = (Done (Ok ctx), w1, e1) ->
  run (status hostname hs b) w e = (Done r, w2, e2) -> signed_for ctx "/v1/status" r.
Proof.
  intros Ha. unfold status. rewrite run_bind, Ha.
  destruct (is_protobuf hs); simpl negb; cbv iota.
  2: signed.
  destruct (decode b) as [request|].
  2: signed.
  destruct (_ =? _); simpl negb; cbv iota.
  2: signed.
  rewrite run_bind.
  destruct (record_client_version_frame (status_client_version request) w1 e1)
    as (w3 & e3 & -> & _).
  rewrite run_guarded, run_bind, run_read. signed.
Qed.

Lemma shutdown_signed hs b w e ctx w1 e1 r w2 e2 :
  run (authenticate hs "POST" "/v1/shutdown" b) w e = (Done (Ok ctx), w1, e1) ->
  run (shutdown hs b) w e = (Done r, w2, e2) -> signed_for ctx "/v1/shutdown" r.
Proof.
  intros Ha. unfold shutdown. rewrite run_bind, Ha.
  destruct (is_protobuf hs); simpl negb; cbv iota.
  2: signed.
  destruct (decode b) as [request|].
  2: signed.
  destruct (_ =? _); simpl negb; cbv iota.
  2: signed.
  rewrite run_bind.
  destruct (record_client_version_frame (shutdown_client_version request) w1 e1)
    as (w3 & e3 & -> & _).
  rewrite run_bind, run_shutdown_power. cbn [fst].
  destruct (power_shutdown _).1; signed.
Qed.

Lemma run_router_post p src hs b w e :
  Z.of_nat (length b) <= 64 * 1024 ->
  run (router pf hostname "POST" p src hs b) w e =
    if bool_decide (p = "/v1/status") then run (status hostname hs b) w e
    else if bool_decide (p = "/v1/pair") then run (pair pf hostname src hs b) w e
    else if bool_decide (p = "/v1/shutdown") then run (shutdown hs b) w e
    else (Done (rejection NoRoute), w, e).
Proof.
  intros Hb. unfold router. rewrite (bool_decide_eq_true_2 ("POST" = "POST")) by done.
  destruct (64 * 1024 <? Z.of_nat (length b)) eqn:E; bool_to_prop; [lia|]. simpl.
  by repeat case_bool_decide.
Qed.

(** C25: every answer to an authenticated request, errors included, carries a
    signature that verifies with [verify_response] under the credential, for
    the nonce, path, status and body of this very exchange. *)
Theorem authenticated_responses_verify p src hs b w e ctx w1 e1 r w2 e2 :
  p = "/v1/status" \/ p = "/v1/shutdown" -> Z.of_nat (length b) <= 64 * 1024 ->
  run (authenticate hs "POST" p b) w e = (Done (Ok ctx), w1, e1) ->
  run (router pf hostname "POST" p src hs b) w e = (Done r, w2, e2) ->
  signed_for ctx p r.
Proof.
  intros [->| ->] Hb Ha; rewrite run_router_post by done.
  - by apply (status_signed _ _ _ _ _ w1 e1).
  - by apply (shutdown_signed _ _ _ _ _ w1 e1).
Qed.

(** ** Requests that are refused *)

Lemma authenticate_refused hs m p b w e x w' e' :
  run (authenticate hs m p b) w e = (Done (Err x), w', e') -> p <> "/v1/shutdown" ->
  identity w' = identity w /\ e' = e.
Proof.
  intros Ha Hp. rewrite run_authenticate in Ha.
  destruct (request_of hs m p b) as [request|]; [|by simplify_eq].
  destruct (credential (identity w)) as [c|]; [|by simplify_eq].
  destruct (verify_same_but_auth c request (now_unix e) w e) as (r & w1 & Er & Hi & _).
  rewrite Er in Ha. rewrite bool_decide_eq_false_2 in Ha by done.
  destruct r as [[]|y]; by simplify_eq.
Qed.

Definition refusal_status (x : AuthError) : Z :=
  match x with Persistence => 500 | RateLimited => 429 | Replay => 409 | _ => 401 end.

Lemma unauthorized_status x r : unauthorized x = Some r -> status_code r = refusal_status x.
Proof.
  unfold unauthorized, error, protobuf. destruct (header_value_parse CONTENT_TYPE) as [v|];
    destruct x; simpl; by intros [= <-].
Qed.

(** C26: a request that is not authenticated gets 401, 409 for a replay, 429
    when throttled or 500 when its nonce could not be saved, and changes
    nothing: not the credential, the code, the exchanges or the power state,
    and outside /v1/shutdown not the store either. *)
Theorem refused_requests_are_harmless p src hs b w e x w1 e1 r w2 e2 :
  p = "/v1/status" \/ p = "/v1/shutdown" -> Z.of_nat (length b) <= 64 * 1024 ->
  run (authenticate hs "POST" p b) w e = (Done (Err x), w1, e1) ->
  run (router pf hostname "POST" p src hs b) w e = (Done r, w2, e2) ->
  status_code r = refusal_status x /\ pairing w2 = pairing w /\
  credential (identity w2) = credential (identity w) /\
  identity_pairing_code (identity w2) = identity_pairing_code (identity w) /\
  power e2 = power e /\ (p = "/v1/status" -> identity w2 = identity w /\ e2 = e).
Proof.
  intros Hp Hb Ha Hrun. rewrite run_router_post in Hrun by done.
  assert (run (Env := env) (expect (unauthorized x)) w1 e1 = (Done r, w2, e2)) as Hu.
  { destruct Hp as [->| ->]; simpl in Hrun; [unfold status in Hrun|unfold shutdown in Hrun];
      by rewrite run_bind, Ha in Hrun. }
  apply run_expect in Hu as (Hr & -> & ->). apply unauthorized_status in Hr.
  destruct (authenticate_frame hs "POST" p b w e) as (y & w3 & e3 & Ha' & Hpair & _ & [l Hi] & [s Hs]).
  rewrite Ha in Ha'. simplify_eq. rewrite Hpair, Hi. repeat (split; [done|]).
  intros ->. rewrite <- Hi. by apply authenticate_refused in Ha.
Qed.

(** ** What reaches the power controller *)

Definition keeps_power e e' : Prop := power e' = power e.

#[local] Instance keeps_power_preorder : PreOrder keeps_power.
Proof. split; [by intros ?|]. intros ??? E1 E2. unfold keeps_power in *. congruence. Qed.

Lemma store_save_powerless i : io_keeps keeps_power (store_save i).
Proof. split; [|done]. intros e. unfold keeps_power. by destruct (save i (store e)). Qed.

Lemma pairing_call_powerless {R} (f : Z -> PairingCode -> rng -> R * PairingCode * rng) :
  io_keeps keeps_power (pairing_call f).
Proof.
  intros self. split; [|done]. intros e. unfold keeps_power.
  by destruct (f (monotonic e) _ (generator e)) as [[? ?] ?].
Qed.

(** Programs without [shutdown_power]. *)
Ltac powerless := repeat first
  [ done | apply store_save_powerless | apply pairing_call_powerless
  | apply io_keeps_guarded | apply io_keeps_bind | progress intros | case_match
  | match goal with |- io_keeps _ (expect ?o) => by destruct o end ].

Lemma pair_powerless src hs b : io_keeps keeps_power (pair pf hostname src hs b).
Proof. unfold pair, pair_start, pair_finish, commit_expect, locked. powerless. Qed.

Lemma status_power hs b w e : power (run (status hostname hs b) w e).2 = power e.
Proof.
  unfold status. rewrite run_bind.
  destruct (authenticate_frame hs "POST" "/v1/status" b w e) as (r & w1 & e1 & -> & _ & _ & _ & s & ->).
  destruct r as [ctx|x]; [|by destruct (unauthorized x)].
  destruct (is_protobuf hs); simpl negb; cbv iota; [|by destruct (authenticated_error _ _ _ _ _)].
  destruct (decode b) as [request|]; [|by destruct (authenticated_error _ _ _ _ _)].
  destruct (_ =? _); simpl negb; cbv iota; [|by destruct (authenticated_protocol_mismatch _ _)].
  rewrite run_bind.
  destruct (record_client_version_frame (status_client_version request) w1 (with_store s e))
    as (w3 & e3 & -> & _ & _ & (s' & ->) & _).
  rewrite run_guarded, run_bind, run_read. by destruct (authenticated_protobuf _ _ _ _).
Qed.

Context {stored : St -> HostIdentity -> Prop} {fault_free : St -> Prop}
  {SL : CredentialStoreLaws St stored fault_free}.

(** Recording the version keeps memory and store in agreement. *)
Lemma record_client_version_stored v w e w' e' :
  stored (store e) (identity w) -> run (record_client_version v) w e = (Done tt, w', e') ->
  stored (store e') (identity w').
Proof.
  intros Hs Hr. destruct (record_client_version_frame v w e) as (w1 & e1 & Hr' & _ & _ & _ & Hi).
  rewrite Hr in Hr'. simplify_eq. destruct Hi as [(-> & [->|(s & x & Hx & ->)])|(Hi & s & Hx & ->)].
  - done.
  - by eapply save_err_stored.
  - by eapply save_ok_stored.
Qed.

(** The nonces of the identity are those it had before. *)
Lemma record_client_version_nonces v w e w' e' :
  run (record_client_version v) w e = (Done tt, w', e') ->
  accepted_shutdown_nonces (identity w') = accepted_shutdown_nonces (identity w) /\
  credential (identity w') = credential (identity w) /\ power e' = power e.
Proof.
  intros Hr. destruct (record_client_version_frame v w e) as (w1 & e1 & Hr' & _ & _ & (s & Hs) & Hi).
  rewrite Hr in Hr'. simplify_eq. by destruct Hi as [(-> & _)|(-> & _)].
Qed.

Lemma run_expect_world (x : option Response) w e o w' e' :
  run (Env := env) (expect x) w e = (o, w', e') -> w' = w /\ e' = e.
Proof. destruct x; simpl; by intros [= <- <- <-]. Qed.

(** A shutdown request that reaches the power controller: authenticated,
    well-formed, and its nonce stored before the controller is called. *)
Lemma shutdown_power_cases hs b w e o w' e' :
  run (shutdown hs b) w e = (o, w', e') -> power e' <> power e ->
  exists request c message, request_of hs "POST" "/v1/shutdown" b = Some request /\
    credential (identity w) = Some c /\ accepts c request (now_unix e) (accepted_nonces w) /\
    decode b = Some message /\ shutdown_protocol_version message = PROTOCOL_VERSION /\
    power e' = (power_shutdown (power e)).2 /\
    new_nonce request ∈ accepted_shutdown_nonces (identity w') /\
    stored (store e') (identity w').
Proof.
  intros Hrun Hne. unfold shutdown in Hrun. rewrite run_bind in Hrun.
  destruct (authenticate_frame hs "POST" "/v1/shutdown" b w e) as (r & w1 & e1 & Ha & _ & _ & _ & s & He).
  rewrite Ha in Hrun. subst e1.
  destruct r as [ctx|x]; [|by apply run_expect_world in Hrun as [-> ->]].
  destruct (is_protobuf hs); simpl negb in Hrun; cbv iota in Hrun;
    [|by apply run_expect_world in Hrun as [-> ->]].
  destruct (decode b) as [message|] eqn:Ed; [|by apply run_expect_world in Hrun as [-> ->]].
  destruct (shutdown_protocol_version message =? PROTOCOL_VERSION) eqn:Ev; simpl negb in Hrun;
    cbv iota in Hrun; [|by apply run_expect_world in Hrun as [-> ->]].
  apply authenticate_accepted in Ha as (request & c & Hr & Hc & -> & Hacc & Hs).
  rewrite bool_decide_eq_true_2 in Hs by done. destruct Hs as (Hi & (s' & Hsave & Hs') & _).
  exists request, c, message. repeat (split; [done|]). split; [by apply Z.eqb_eq|].
  apply save_ok_stored in Hsave. rewrite <- Hi in Hsave. rewrite Hs' in Hrun.
  rewrite run_bind in Hrun.
  destruct (run (record_client_version _) w1 (with_store s' e)) as [[[[]|] w2] e2] eqn:Erec.
  2:{ destruct (record_client_version_frame (shutdown_client_version message) w1 (with_store s' e))
        as (? & ? & ? & _). congruence. }
  pose proof (record_client_version_stored _ _ (with_store s' e) _ _ Hsave Erec) as Hst.
  apply record_client_version_nonces in Erec as (Hn & _ & Hp). simpl in Hp.
  rewrite run_bind, run_shutdown_power in Hrun. cbn [fst] in Hrun.
  assert (new_nonce request ∈ accepted_shutdown_nonces (identity w2)) as Hin.
  { rewrite Hn, Hi. simpl. apply elem_of_app. right. by apply list_elem_of_singleton. }
  rewrite Hp in Hrun.
  destruct (power_shutdown (power e)) as [[[]|x] p]; cbn [fst snd] in Hrun;
    by apply run_expect_world in Hrun as [-> ->].
Qed.

(** C2: the power controller is reached only through POST /v1/shutdown, by an
    authenticated, well-formed request of this protocol version, and only
    after its nonce has been stored. *)
Theorem power_needs_authentication m p src hs b w e o w' e' :
  run (router pf hostname m p src hs b) w e = (o, w', e') -> power e' <> power e ->
  m = "POST" /\ p = "/v1/shutdown" /\
  exists request c message, request_of hs "POST" "/v1/shutdown" b = Some request /\
    credential (identity w) = Some c /\ accepts c request (now_unix e) (accepted_nonces w) /\
    decode b = Some message /\ shutdown_protocol_version message = PROTOCOL_VERSION /\
    power e' = (power_shutdown (power e)).2 /\
    new_nonce request ∈ accepted_shutdown_nonces (identity w') /\
    stored (store e') (identity w').
Proof.
  intros Hrun Hne. unfold router in Hrun.
  repeat case_bool_decide; simpl negb in Hrun; cbv iota in Hrun;
    try (destruct (_ <? _)); try (by simplify_eq/=).
  - destruct Hne. by rewrite <- (status_power hs b w e), Hrun.
  - destruct Hne. pose proof (io_keeps_run keeps_power (pair pf hostname src hs b) w e
      (pair_powerless src hs b)) as Hk. by rewrite Hrun in Hk.
  - split; [done|]. split; [done|]. by eapply shutdown_power_cases.
Qed.

End Requests.
