(* ===== verification/PairRequests.v ===== *)
(** * The pairing requests and the management operations, one at a time

    What the two rounds of POST /v1/pair and the generation of a new code do
    to the identity, the store and the exchanges, on every outcome. *)
From stdpp Require Import base gmap list strings.
From S2P Require Import Prelude RustStd Fs Primitives Auth Pairing Storage Power Versioning Wire Samples Runtime Server Management Requests.
Open Scope string_scope.
Open Scope Z_scope.
Open Scope list_scope.

Section PairRequests.
Context {P : Primitives} {PL : PrimitivesLaws P} {H : Http} {HL : HttpLaws H} {Wi : Wire}.
Context {St : Type} {CS : CredentialStore St} {Pw : Type} {PC : PowerController Pw}.
Context (pf : platform) (hostname : string).

Abbreviation env := (Env St Pw).
Implicit Types (w : AppState) (e : env).

(** ** Equations *)

Lemma run_pair_start request src w e :
  run (pair_start hostname request src) w e =
    if bool_decide (is_Some (credential (identity w))) &&
       bool_decide (identity_pairing_code (identity w) = None)
    then run (expect (error 409 AlreadyPaired "This host is already paired.")) w e
    else
      let '(r, self, g) := start_for_source (monotonic e) (client_spake2_message request) src
                             (pairing w) (generator e) in
      run (expect match r with
        | Err x => pairing_failure x
        | Ok st => protobuf 200
            {| host_spake2_message := start_host_message st; encryption_nonce := [];
               pair_encrypted_credential := []; pair_hostname := hostname;
               pair_host_version := HOST_VERSION;
               pair_response_protocol_version := PROTOCOL_VERSION;
               pair_host_id := uuid_to_string (host_id (identity w));
               pair_response_session_id := start_session_id st |}
        end) (set LPairing self w) (with_generator g e).
Proof.
  unfold pair_start. rewrite run_bind, run_locked. cbn [fst snd]. rewrite set_get.
  cbn [get app_cells get_cell]. destruct (_ && _); [done|].
  rewrite run_bind, run_guarded, run_pairing_call.
  destruct (start_for_source _ _ _ _ _) as [[[st|x] self] g]; [|done].
  by rewrite run_guarded, run_bind, run_read.
Qed.

(** The context a pairing request is finished in. *)
Definition pair_context w : CredentialContext :=
  {| context_hostname := hostname; context_host_version := HOST_VERSION;
     context_protocol_version := PROTOCOL_VERSION;
     context_host_id := uuid_to_string (host_id (identity w)) |}.

Definition finish_request (request : PairRequest) w e :=
  finish (monotonic e) (pair_session_id request) (client_confirmation request) (pair_context w)
    (pairing w) (generator e).

Lemma run_pair_finish request w e :
  run (pair_finish pf hostname request) w e =
    let sid := pair_session_id request in
    let '(r, self, g) := finish_request request w e in
    let w1 := set LPairing self w in
    let e1 := with_generator g e in
    match r with
    | Err x => run (expect (pairing_failure x)) w1 e1
    | Ok r =>
        if is_completed sid (pairing w)
        then run (expect (pairing_response hostname (identity w) sid r)) w1 e1
        else
          let updated := paired_identity (result_credential r) (identity w) in
          match save updated (store e) with
          | (Err _, s) =>
              run (expect (error 500 Unspecified "Could not save pairing state.")) w1 (with_store s e1)
          | (Ok _, s) =>
              let '(o, self') := commit pf (monotonic e) sid (client_confirmation request) r self in
              let w2 := set LPairing self' (set LIdentity updated w) in
              match o with
              | Some (Ok _) => run (expect (pairing_response hostname updated sid r)) w2 (with_store s e1)
              | _ => (Panicked, w2, with_store s e1)
              end
          end
    end.
Proof.
  unfold pair_finish, finish_request, pair_context. rewrite run_bind, run_locked.
  cbn [fst snd]. rewrite set_get. cbn [get app_cells get_cell].
  rewrite run_guarded, run_bind, run_read, run_bind, run_pairing_call.
  destruct (finish _ _ _ _ _ _) as [[[r|x] self] g]; [|done]. cbn [get app_cells get_cell].
  destruct (is_completed _ _); [by rewrite run_guarded, run_bind, run_read|].
  rewrite run_guarded, run_bind, run_read, run_bind, run_write, run_bind, run_store_save.
  cbn [get app_cells get_cell set set_cell identity store with_generator].
  destruct (save _ _) as [[[]|x] s]; cbn [fst snd].
  - unfold commit_expect. rewrite !run_bind, run_pairing_call. simpl pairing. simpl monotonic.
    destruct (commit pf _ _ _ _ _) as [[[[]|x]|] self']; [|done..].
    by rewrite run_ret, run_bind, run_read.
  - rewrite run_bind, run_write. by destruct w.
Qed.

(** ** The first round *)

(** A paired host whose code was used answers every new exchange with 409
    and changes nothing; until then the code protects it. *)
Theorem paired_host_refuses_new_exchange request src w e c :
  credential (identity w) = Some c -> identity_pairing_code (identity w) = None ->
  exists r, run (pair_start hostname request src) w e = (Done r, w, e) /\ status_code r = 409.
Proof.
  intros Hc Hn. rewrite run_pair_start, Hc, Hn. simpl.
  unfold error, protobuf. destruct (header_parse_visible CONTENT_TYPE) as (v & -> & _); [done|].
  by eexists.
Qed.

(** ** The second round *)

Context {stored : St -> HostIdentity -> Prop} {fault_free : St -> Prop}
  {SL : CredentialStoreLaws St stored fault_free}.

Lemma protobuf_status {M} `{Message M} s (m : M) r : protobuf s m = Some r -> status_code r = s.
Proof. unfold protobuf. destruct (header_value_parse _); [|done]. by intros [= <-]. Qed.

Lemma pairing_failure_not_200 x r : pairing_failure x = Some r -> status_code r <> 200.
Proof. destruct x; intros E%protobuf_status; rewrite E; done. Qed.

(** C13: when the second round answers 200 for a new session, the credential
    in the answer is the host's: in memory and on stable storage the identity
    has it, the code and the old shutdown nonces are gone, every exchange but
    this one is dropped and the code shows no time left. *)
Theorem pairing_success_is_persisted request w e r w' e' :
  run (pair_finish pf hostname request) w e = (Done r, w', e') -> status_code r = 200 ->
  is_completed (pair_session_id request) (pairing w) = false ->
  exists result g', finish_accepts (monotonic e) (pair_session_id request)
      (client_confirmation request) (pair_context w) (pairing w) (generator e) result g' /\
    pairing_response hostname (identity w') (pair_session_id request) result = Some r /\
    identity w' = paired_identity (result_credential result) (identity w) /\
    length (result_credential result) = 32%nat /\ stored (store e') (identity w') /\
    pending (pairing w') = ∅ /\ expires_in (monotonic e) (pairing w') = 0.
Proof.
  intros Hrun H200 Hnc. rewrite run_pair_finish in Hrun. cbv zeta in Hrun. rewrite Hnc in Hrun.
  destruct (finish_request request w e) as [[[result|x] self] g] eqn:Ef.
  2:{ apply run_expect in Hrun as (Hr & _). by apply pairing_failure_not_200 in Hr. }
  pose proof (finish_first_success _ _ _ _ _ _ _ _ _ Ef Hnc) as (_ & _ & Hlen).
  destruct (save _ _) as [[[]|x] s] eqn:Es.
  2:{ apply run_expect in Hrun as (Hr & _). apply protobuf_status in Hr. congruence. }
  pose proof (commit_ok_state pf (monotonic e) (pair_session_id request)
    (client_confirmation request) result self) as Hc.
  destruct (commit _ _ _ _ _ _) as [[[[]|x]|] self']; [|done..].
  apply run_expect in Hrun as (Hr & -> & ->). destruct (Hc eq_refl) as (_ & _ & Hself).
  simpl in Hself. subst self'.
  apply finish_ok_cases in Ef as (_ & _ & Ha). apply save_ok_stored in Es.
  exists result, g. repeat (split; [done|]). simpl.
  unfold expires_in, elapsed, saturating_sub, PAIRING_LIFETIME, from_secs, nanos_per_sec. simpl. lia.
Qed.

Lemma response_sent i sid r : exists reply, pairing_response hostname i sid r = Some reply /\ status_code reply = 200.
Proof.
  unfold pairing_response, protobuf. destruct (header_parse_visible CONTENT_TYPE) as (v & -> & _); [done|].
  by eexists.
Qed.

(** The end of a new session whose credential was saved: the instant 301 seconds
    ago decides between the answer and a panic. *)
Lemma run_pair_finish_saved request w e result self g s :
  finish_request request w e = (Ok result, self, g) ->
  is_completed (pair_session_id request) (pairing w) = false ->
  save (paired_identity (result_credential result) (identity w)) (store e) = (Ok tt, s) ->
  let sid := pair_session_id request in
  let w' := set LPairing (commit pf (monotonic e) sid (client_confirmation request) result self).2
              (set LIdentity (paired_identity (result_credential result) (identity w)) w) in
  exists reply, pairing_response hostname (identity w') sid result = Some reply /\ status_code reply = 200 /\
    run (pair_finish pf hostname request) w e =
      (if monotonic e - from_secs 301 <? instant_min pf then Panicked else Done reply, w',
       with_store s (with_generator g e)).
Proof.
  intros Hf Hnc Hs sid w'. pose proof (finish_first_success _ _ _ _ _ _ _ _ _ Hf Hnc) as (Hl & Hp & _).
  destruct (response_sent (identity w') sid result) as (reply & Hr & H200). exists reply.
  split; [done|]. split; [done|]. rewrite run_pair_finish, Hf. cbv zeta. rewrite Hnc, Hs.
  destruct (commit_pending pf (monotonic e) sid (client_confirmation request) result self Hl Hp) as [Hc _].
  subst sid w'. destruct (commit _ _ _ _ _ _) as [o self']. cbn [fst snd] in *. subst o.
  destruct (_ <? _); [done|]. cbn in Hr. by rewrite Hr.
Qed.

(** The session of a request that succeeds, when it was not completed before. *)
Lemma finish_request_pending request w e result self g p :
  finish_request request w e = (Ok result, self, g) -> pairing_wf (monotonic e) (pairing w) ->
  pending (pairing w) !! pair_session_id request = Some p ->
  completed (pairing w) = ∅ /\ is_completed (pair_session_id request) (pairing w) = false /\
  length (pair_session_id request) = 16%nat /\ self = prune_sessions (monotonic e) (pairing w) /\
  elapsed (monotonic e) (pending_created p) <= PAIRING_LIFETIME /\
  hmac (shared p) (confirmation_message p) = Some (client_confirmation request) /\
  prepare_credential p (pair_context w) (generator e) = (Ok result, g).
Proof.
  intros Hf Hwf Hp. destruct (wf_pending _ _ Hwf _ _ Hp) as (_ & Hl & _).
  assert (completed (pairing w) = ∅) as Hc.
  { destruct (decide (completed (pairing w) = ∅)) as [?|Hn]; [done|].
    destruct (wf_done _ _ Hwf Hn) as [Hpe _]. rewrite Hpe, lookup_empty in Hp. done. }
  apply finish_ok_cases in Hf as (_ & -> & [(c & Ec & _)|(p' & _ & Hp' & Ht' & Hm & Hpr)]).
  { by rewrite Hc, lookup_empty in Ec. }
  rewrite Hp in Hp'. injection Hp' as <-.
  split; [done|]. split; [|done]. unfold is_completed.
  by rewrite (proj2 (try_into_array_Some 16 _ _) (conj eq_refl Hl)), Hc, lookup_empty.
Qed.

(** The request sent again, to a host that only pruned its sessions since. *)
Lemma finish_request_again request w e result self g p w2 e2 :
  finish_request request w e = (Ok result, self, g) -> pairing_wf (monotonic e) (pairing w) ->
  pending (pairing w) !! pair_session_id request = Some p ->
  pairing w2 = self -> identity w2 = identity w -> elapsed (monotonic e2) (pending_created p) <= PAIRING_LIFETIME ->
  is_completed (pair_session_id request) (pairing w2) = false /\
  exists result2 self2 g2, finish_request request w2 e2 = (Ok result2, self2, g2).
Proof.
  intros Hf Hwf Hp Hw Hi Ht. destruct (finish_request_pending _ _ _ _ _ _ _ Hf Hwf Hp)
    as (Hc & Hnc & Hl & -> & Ht1 & Hm & Hpr).
  assert (completed (pairing w2) = ∅) as Hc2 by (rewrite Hw; simpl; by rewrite Hc, map_filter_empty).
  split.
  { unfold is_completed. by rewrite (proj2 (try_into_array_Some 16 _ _) (conj eq_refl Hl)), Hc2, lookup_empty. }
  destruct (prepare_credential_any p _ _ _ _ (generator e2) Hpr) as (r2 & g2 & Hpr2).
  unfold finish_request, pair_context in *. rewrite Hi. erewrite (finish_no_completed _ _ _ _ _ _ p).
  - unfold hmac in Hm. destruct (hmac_new_from_slice (shared p)) as [mac|]; [|done].
    injection Hm as Hm. rewrite (proj2 (hmac_verify_iff mac _ _)) by done. rewrite Hpr2. eauto.
  - done.
  - simpl. by rewrite Hc2, map_filter_empty, lookup_empty.
  - rewrite Hw. simpl. by apply map_lookup_filter_Some.
  - done.
Qed.

(** C14: a pairing whose credential could not be saved is answered with 500,
    leaves the identity in memory and on stable storage as it was, and keeps the
    session: the same request sent again while the session lives, to a store
    that saves and a clock that reaches 301 seconds back, is answered with 200
    and a credential that the host then holds, in memory and on stable
    storage. *)
Theorem pairing_save_failure_is_retryable request w e result self g x s p :
  finish_request request w e = (Ok result, self, g) -> pairing_wf (monotonic e) (pairing w) ->
  pending (pairing w) !! pair_session_id request = Some p ->
  save (paired_identity (result_credential result) (identity w)) (store e) = (Err x, s) ->
  exists r w' e', run (pair_finish pf hostname request) w e = (Done r, w', e') /\
    status_code r = 500 /\ identity w' = identity w /\
    (forall i, stored (store e) i -> stored (store e') i) /\
    forall e2, elapsed (monotonic e2) (pending_created p) <= PAIRING_LIFETIME ->
      (forall i, (save i (store e2)).1 = Ok tt) -> instant_min pf <= monotonic e2 - from_secs 301 ->
      exists result2 r2 w2 e3, run (pair_finish pf hostname request) w' e2 = (Done r2, w2, e3) /\
        status_code r2 = 200 /\
        pairing_response hostname (identity w2) (pair_session_id request) result2 = Some r2 /\
        identity w2 = paired_identity (result_credential result2) (identity w) /\
        stored (store e3) (identity w2).
Proof.
  intros Hf Hwf Hp Hs. destruct (finish_request_pending _ _ _ _ _ _ _ Hf Hwf Hp) as (_ & Hnc & _).
  rewrite run_pair_finish, Hf. cbv zeta. rewrite Hnc, Hs.
  unfold error, protobuf. destruct (header_parse_visible CONTENT_TYPE) as (v & -> & _); [done|].
  do 3 eexists. split; [done|]. split; [done|]. split; [done|].
  split; [intros i; by eapply save_err_stored|]. intros e2 Ht Hsv Hmin.
  set (w1 := set LPairing self w).
  destruct (finish_request_again request w e result self g p w1 e2 Hf Hwf Hp eq_refl eq_refl Ht)
    as (Hnc2 & result2 & self2 & g2 & Hf2).
  specialize (Hsv (paired_identity (result_credential result2) (identity w1))).
  destruct (save (paired_identity (result_credential result2) (identity w1)) (store e2)) as [y s2] eqn:Es2.
  cbn [fst] in Hsv. subst y.
  destruct (run_pair_finish_saved request w1 e2 result2 self2 g2 s2 Hf2 Hnc2 Es2) as (reply & Hr & H200 & Hrun).
  rewrite (proj2 (Z.ltb_ge _ _)) in Hrun by done.
  exists result2, reply. do 2 eexists. split; [exact Hrun|]. split; [done|]. split; [exact Hr|]. split; [done|].
  by apply save_ok_stored in Es2.
Qed.

(** C29: a pairing that completes when the monotonic clock cannot represent the
    instant 301 seconds ago, as on Windows within five minutes of boot, panics in
    [commit]: the client gets no answer, although the credential is in memory
    and on stable storage; with an older clock the same request does not panic.
    The session is recorded before the panic, so for five minutes the same
    request sent again is answered with the credential. *)
Theorem pairing_panics_after_boot request w e result self g s :
  finish_request request w e = (Ok result, self, g) ->
  is_completed (pair_session_id request) (pairing w) = false ->
  save (paired_identity (result_credential result) (identity w)) (store e) = (Ok tt, s) ->
  exists o w' e', run (pair_finish pf hostname request) w e = (o, w', e') /\
    (o = Panicked <-> monotonic e - from_secs 301 < instant_min pf) /\
    identity w' = paired_identity (result_credential result) (identity w) /\ stored (store e') (identity w') /\
    forall e2, elapsed (monotonic e2) (monotonic e) <= PAIRING_LIFETIME ->
      exists r, (run (pair_finish pf hostname request) w' e2).1.1 = Done r /\
        pairing_response hostname (identity w') (pair_session_id request) result = Some r.
Proof.
  intros Hf Hnc Hs. destruct (run_pair_finish_saved request w e result self g s Hf Hnc Hs) as (reply & Hr & _ & Hrun).
  pose proof (finish_first_success _ _ _ _ _ _ _ _ _ Hf Hnc) as (Hl & Hp & _).
  destruct (commit_pending pf (monotonic e) _ (client_confirmation request) result self Hl Hp) as [_ Hdone].
  do 3 eexists. split; [exact Hrun|]. split.
  { destruct (Z.ltb_spec (monotonic e - from_secs 301) (instant_min pf)); split; (done || lia). }
  split; [done|]. split; [by apply save_ok_stored in Hs|]. intros e2 Ht. rewrite run_pair_finish.
  unfold finish_request. cbn [pairing set app_cells set_cell].
  erewrite finish_retry; [|done|by rewrite Hdone; apply lookup_singleton_eq|done].
  cbn [confirmation]. rewrite bool_decide_eq_true_2 by done. cbn [completed_result]. cbv zeta.
  unfold is_completed at 1. rewrite (proj2 (try_into_array_Some 16 _ _) (conj eq_refl Hl)), Hdone, lookup_singleton_eq.
  rewrite bool_decide_eq_true_2 by eauto. cbn in Hr |- *. rewrite Hr. by exists reply.
Qed.

(** ** A new code *)

Lemma run_generate_pairing_code w e :
  run generate_pairing_code w e =
    let '(self, g) := generate (monotonic e) (generator e) in
    let updated := with_code (display_code self) (now_unix e) (identity w) in
    match save updated (store e) with
    | (Err x, s) => (Done (Err x), w, with_store s (with_generator g e))
    | (Ok _, s) =>
        (Done (Ok {| paired := bool_decide (is_Some (credential (identity w)));
                     state_code := Some (display_code self);
                     state_expires_in := expires_in (monotonic e) self |}),
         set LPairing self (set LIdentity updated w), with_store s (with_generator g e))
    end.
Proof.
  unfold generate_pairing_code. rewrite !run_guarded, run_bind, run_read, run_bind.
  unfold generate_code. rewrite run_io. cbn [get app_cells get_cell].
  destruct (generate (monotonic e) (generator e)) as [self g]. cbn [fst snd].
  rewrite run_bind, run_unix_now, run_bind, run_store_save. cbn [store].
  change (now_unix (MkEnv (system_time e) (monotonic e) g (store e) (power e))) with (now_unix e).
  by destruct (save _ _) as [[[]|x] s].
Qed.

(** Time passes while a code is generated and saved: [lag n] on the monotonic
    clock before the [n]-th effect of the task, and any change of the wall
    clock. *)

Definition pass_time (lag adjust : nat -> Z) (n : nat) e : env :=
  MkEnv (system_time e + adjust n) (monotonic e + lag n) (generator e) (store e) (power e).

Section Timed.
Context (lag adjust : nat -> Z).

Abbreviation pass := (pass_time lag adjust).

(** The environment when the code is drawn, when its creation time is read,
    when the identity was saved, and when the time left is read. *)
Definition code_drawn n e : env :=
  with_generator (generate (monotonic e + lag n) (generator e)).2 (pass n e).
Definition code_dated n e : env := pass (n + 1) (code_drawn n e).
Definition code_saved n e (s : St) : env := with_store s (pass (n + 2) (code_dated n e)).
Definition code_read n e (s : St) : env := pass (n + 3) (code_saved n e s).

(** The new code, and the identity it is saved with. *)
Definition new_code n e : PairingCode := (generate (monotonic e + lag n) (generator e)).1.
Definition recoded n w e : HostIdentity :=
  with_code (display_code (new_code n e)) (now_unix (code_dated n e)) (identity w).

Lemma run_timed_generate_pairing_code n w e :
  run_timed pass n generate_pairing_code w e =
    match save (recoded n w e) (store e) with
    | (Err x, s) => (Done (Err x), w, code_saved n e s, (n + 3)%nat)
    | (Ok _, s) =>
        (Done (Ok {| paired := bool_decide (is_Some (credential (identity w)));
                     state_code := Some (display_code (new_code n e));
                     state_expires_in := expires_in (monotonic (code_read n e s)) (new_code n e) |}),
         set LPairing (new_code n e) (set LIdentity (recoded n w e) w), code_read n e s, (n + 4)%nat)
    end.
Proof.
  unfold generate_pairing_code. rewrite !run_timed_guarded, run_timed_bind.
  unfold read. rewrite run_timed_access, run_timed_bind. cbn [fst snd]. rewrite set_get.
  cbn [get app_cells get_cell]. unfold generate_code. rewrite run_timed_io. cbn [monotonic generator pass_time].
  unfold recoded, code_read, code_saved, code_dated, code_drawn, new_code, with_generator, with_store.
  cbn [system_time monotonic generator store power pass_time].
  destruct (generate (monotonic e + lag n) (generator e)) as [code g]. cbn [fst snd].
  rewrite run_timed_bind. unfold unix_now. rewrite run_timed_io. cbn [fst snd].
  rewrite run_timed_bind. unfold store_save. rewrite run_timed_io.
  cbn [store pass_time system_time monotonic generator power]. rewrite <- (Nat.add_1_r n).
  destruct (save _ (store e)) as [[[]|x] s]; cbn [fst snd].
  - rewrite !run_timed_bind. unfold write. rewrite run_timed_access. cbn [fst snd].
    rewrite run_timed_bind, run_timed_access, run_timed_bind. unfold instant_now. rewrite run_timed_io.
    rewrite !Nat.add_succ_r, !Nat.add_0_r. reflexivity.
  - rewrite !Nat.add_succ_r, !Nat.add_0_r. reflexivity.
Qed.

(** What is left of a new code when the answer is put together. *)
Lemma new_code_lifetime n e s : (forall k, 0 <= lag k) ->
  expires_in (monotonic (code_read n e s)) (new_code n e) =
  Z.max 0 (PAIRING_LIFETIME - (lag (n + 1)%nat + lag (n + 2)%nat + lag (n + 3)%nat)).
Proof.
  intros Hl. unfold new_code, generate. destruct (random_range 1000000 (generator e)) as [v g].
  pose proof (Hl (n + 1)%nat). pose proof (Hl (n + 2)%nat). pose proof (Hl (n + 3)%nat).
  unfold expires_in, elapsed, saturating_sub. cbn. lia.
Qed.

(** C27: generating a code is all or nothing, however long its steps take:
    either the new identity cannot be saved and memory is as before, or it is
    saved, the credential is kept, the answer gives what is left of the five
    minutes since the code was drawn, and every earlier exchange is dead:
    whatever session a client still holds, [finish] refuses it. *)
Theorem generate_pairing_code_atomic n w e o w' e' n' :
  (forall k, 0 <= lag k) -> run_timed pass n generate_pairing_code w e = (o, w', e', n') ->
  (exists x, o = Done (Err x) /\ w' = w /\ forall i, stored (store e) i -> stored (store e') i) \/
  (exists s, o = Done (Ok s) /\ stored (store e') (identity w') /\
     credential (identity w') = credential (identity w) /\
     state_code s = Some (display_code (pairing w')) /\
     identity_pairing_code (identity w') = state_code s /\
     state_expires_in s = Z.max 0 (PAIRING_LIFETIME - (lag (n + 1)%nat + lag (n + 2)%nat + lag (n + 3)%nat)) /\
     forall now sid conf ctx g, (finish now sid conf ctx (pairing w') g).1.1 = Err PairingInvalid).
Proof.
  intros Hl. rewrite run_timed_generate_pairing_code.
  destruct (save _ _) as [[[]|x] s] eqn:Es; intros [= <- <- <- <-].
  - right. apply save_ok_stored in Es. eexists. repeat (split; [done|]). split; [by apply (new_code_lifetime n e s)|].
    intros now sid conf ctx g. unfold finish, new_code, generate. destruct (try_into_array 16 sid) as [k|]; [|done].
    destruct (random_range 1000000 (generator e)). simpl. by rewrite !map_filter_empty, !lookup_empty.
  - left. exists x. split; [done|]. split; [done|]. intros i. by eapply save_err_stored.
Qed.

End Timed.

End PairRequests.
