(* ===== verification/HostRounds.v ===== *)
(** * The two rounds of pairing on the host

    What a client that knows the displayed code gets from the host: the first
    round opens a session with the key the client computes, the second returns
    a credential only that key opens, and repeating the second returns it again.
    The clients' theorems are built on these lemmas. *)
From stdpp Require Import base gmap list strings.
From Stdlib Require Import Ascii.
From S2P Require Import Prelude RustStd Fs Primitives Auth Pairing Storage Power Versioning Wire Runtime Server Management Requests PairRequests.
Open Scope string_scope.
Open Scope Z_scope.
Open Scope list_scope.

(** SPAKE2 over Ed25519 sends a byte for the side and 32 for the element. *)
Class Spake2Size (P : Primitives) : Prop := {
  spake2_a_length pw ida idb g : length (spake2_start_a pw ida idb g).1.2 = 33%nat;
  spake2_b_length pw ida idb g : length (spake2_start_b pw ida idb g).1.2 = 33%nat;
}.

Section Exchange.
Context {P : Primitives} {PL : PrimitivesLaws P}.

(** A live code whose limits are not reached accepts the message of a client
    that knows the code; both have the same key. *)
Lemma start_agrees now src self g ga :
  elapsed now (created self) <= PAIRING_LIFETIME -> start_limited src (prune_sessions now self) = false ->
  let '(client, msg, _) := spake2_start_a (as_bytes (pairing_code self)) CLIENT_ID HOST_ID ga in
  exists p g', start_for_source now msg src self g =
      (Ok {| start_host_message := pending_host_message p; start_session_id := pending_session_id p |},
       with_pending (<[pending_session_id p := p]> (pending (prune_sessions now self))) (prune_sessions now self), g') /\
    spake2_finish client (pending_host_message p) = Some (shared p) /\
    pending_host_message p = (spake2_start_b (as_bytes (pairing_code self)) CLIENT_ID HOST_ID g).1.2 /\
    length (pending_session_id p) = 16%nat /\ client_message p = msg /\ pending_created p = now /\
    source p = src.
Proof.
  intros Ht Hl. unfold start_for_source.
  rewrite (proj2 (Z.ltb_ge _ _)) by done. cbv zeta. rewrite Hl. simpl pairing_code.
  pose proof (spake2_agree (as_bytes (pairing_code self)) CLIENT_ID HOST_ID ga g) as (k & H1 & H2).
  destruct (spake2_start_a _ _ _ ga) as [[client msg] ga'].
  destruct (spake2_start_b _ _ _ g) as [[st hmsg] g1]. simpl in H1, H2. rewrite H2.
  pose proof (fill_bytes_length 16 g1) as Hlen. destruct (fill_bytes 16 g1) as [sid g2]. simpl in Hlen.
  exists {| pending_session_id := sid; shared := k; client_message := msg; pending_host_message := hmsg;
            pending_created := now; source := src |}, g2. done.
Qed.

(** The credential of a confirmed exchange is the one the client opens. *)
Lemma prepare_credential_opens p ctx g :
  fields_ok (aad_fields (pending_host_message p) (pending_session_id p) ctx) ->
  exists r g' key aad, prepare_credential p ctx g = (Ok r, g') /\
    host_message r = pending_host_message p /\ length (result_credential r) = 32%nat /\
    hkdf_expand (shared p) CREDENTIAL_INFO 32 = Some key /\ length (result_nonce r) = 12%nat /\
    credential_aad (pending_host_message p) (pending_session_id p) ctx = Ok aad /\
    aead_decrypt key (result_nonce r) (encrypted_credential r) aad = Some (result_credential r).
Proof.
  intros HF. assert (exists aad, credential_aad (pending_host_message p) (pending_session_id p) ctx = Ok aad)
    as [aad Haad] by (eexists; by apply credential_aad_Ok).
  unfold prepare_credential. rewrite Haad.
  destruct (hkdf_expand_32 (shared p) CREDENTIAL_INFO) as (key & -> & Hk).
  pose proof (fill_bytes_length 32 g) as H1. destruct (fill_bytes 32 g) as [c g1].
  pose proof (fill_bytes_length 12 g1) as H2. destruct (fill_bytes 12 g1) as [n g2]. simpl in *.
  rewrite (proj2 (try_into_array_Some 12 n n)) by done.
  destruct (aead_round_trip key n c aad) as (ct & Hct & Hd); [done|done|lia|]. rewrite Hct.
  do 4 eexists. split; [done|]. simpl. done.
Qed.

(** [finish] with the right confirmation of a live session. *)
Lemma finish_confirmed now sid conf ctx self g p :
  length sid = 16%nat -> completed (prune_sessions now self) !! sid = None ->
  pending self !! sid = Some p -> elapsed now (pending_created p) <= PAIRING_LIFETIME ->
  hmac (shared p) (confirmation_message p) = Some conf ->
  finish now sid conf ctx self g =
    let '(r, g) := prepare_credential p ctx g in (r, prune_sessions now self, g).
Proof.
  intros Hl Hc Hp Ht Hm. rewrite (finish_no_completed _ _ _ _ _ _ p) by done.
  unfold hmac in Hm. destruct (hmac_new_from_slice (shared p)) as [mac|]; [|done].
  injection Hm as Hm. by rewrite (proj2 (hmac_verify_iff mac _ conf)).
Qed.

Lemma commit_succeeds pf now sid conf r self :
  length sid = 16%nat -> is_Some (pending self !! sid) -> instant_min pf <= now - from_secs 301 ->
  exists self', commit pf now sid conf r self = (Some (Ok tt), self').
Proof.
  intros Hl [p Hp] Hi. unfold commit. rewrite (proj2 (try_into_array_Some 16 sid sid)), Hp by done.
  assert (forall t d, instant_min pf <= t - d -> instant_sub pf t d = Some (t - d)) as Hsub
    by (intros t d ?; by apply instant_sub_Some).
  unfold PAIRING_LIFETIME, from_secs, nanos_per_sec in *. rewrite !Hsub by lia. eauto.
Qed.

End Exchange.

Section Rounds.
Context {P : Primitives} {PL : PrimitivesLaws P} {H : Http} {HL : HttpLaws H} {Wi : Wire}.
Context {St : Type} {CS : CredentialStore St} {stored : St -> HostIdentity -> Prop}
  {fault_free : St -> Prop} {SL : CredentialStoreLaws St stored fault_free}.
Context {Pw : Type} {PC : PowerController Pw}.
Context (pf : platform) (hostname : string) (src : option IpAddr).

Abbreviation env := (Env St Pw).
Implicit Types (w : AppState) (e : env).

(** A host that a client can pair with when its request arrives. *)
Record accepts_exchange w e : Prop := {
  exchange_wf : pairing_wf (monotonic e) (pairing w);
  exchange_unpaired : credential (identity w) = None \/ identity_pairing_code (identity w) <> None;
  exchange_live : elapsed (monotonic e) (created (pairing w)) <= PAIRING_LIFETIME;
  exchange_limits : start_limited src (prune_sessions (monotonic e) (pairing w)) = false;
}.

(** What the first round leaves on the host for the session [p]. *)
Record started_on w e (p : PendingPairing) w1 e1 : Prop := {
  started_pending : pending (pairing w1) !! pending_session_id p = Some p;
  started_completed : completed (pairing w1) = ∅;
  started_identity : identity w1 = identity w;
  started_store : store e1 = store e;
  started_time : monotonic e1 = monotonic e;
  started_wall : system_time e1 = system_time e;
  started_created : pending_created p = monotonic e1;
  started_session : length (pending_session_id p) = 16%nat;
}.

Definition started_response w (p : PendingPairing) : PairResponse :=
  {| host_spake2_message := pending_host_message p; encryption_nonce := [];
     pair_encrypted_credential := []; pair_hostname := hostname; pair_host_version := HOST_VERSION;
     pair_response_protocol_version := PROTOCOL_VERSION;
     pair_host_id := uuid_to_string (host_id (identity w)); pair_response_session_id := pending_session_id p |}.

Lemma start_run request w e ga :
  accepts_exchange w e ->
  let '(client, msg, _) := spake2_start_a (as_bytes (pairing_code (pairing w))) CLIENT_ID HOST_ID ga in
  client_spake2_message request = msg ->
  exists p w1 e1,
    run (pair_start hostname request src) w e = run (expect (protobuf 200 (started_response w p))) w1 e1 /\
    spake2_finish client (pending_host_message p) = Some (shared p) /\ client_message p = msg /\
    (exists g, pending_host_message p = (spake2_start_b (as_bytes (pairing_code (pairing w))) CLIENT_ID HOST_ID g).1.2) /\
    started_on w e p w1 e1.
Proof.
  intros R. pose proof (start_agrees (monotonic e) src (pairing w) (generator e) ga
    (exchange_live _ _ R) (exchange_limits _ _ R)) as Ha.
  destruct (spake2_start_a _ _ _ ga) as [[client msg] ga']. intros <-.
  destruct Ha as (p & g' & Hs & Hf & Hhm & Hsid & Hcm & Hpc & Hsrc).
  assert (completed (pairing w) = ∅) as Hcomp.
  { apply (completed_start (monotonic e)); [apply R|]. apply Z.ltb_ge, R. }
  exists p. do 2 eexists. split; [|split; [done|]; split; [done|]; split; [by eexists|]].
  - rewrite run_pair_start. assert (bool_decide (is_Some (credential (identity w))) &&
      bool_decide (identity_pairing_code (identity w) = None) = false) as ->.
    { apply andb_false_iff. rewrite !bool_decide_eq_false.
      destruct (exchange_unpaired _ _ R) as [E|E]; [left; rewrite E; by intros [? ?]|by right]. }
    rewrite Hs. cbn [start_host_message start_session_id]. reflexivity.
  - constructor; simpl; try done; [apply lookup_insert_eq|by rewrite Hcomp, map_filter_empty].
Qed.

(** The second round: the session is confirmed, the identity saved and the
    session committed. *)
Lemma finish_run request p w e conf :
  pair_session_id request = pending_session_id p -> client_confirmation request = conf ->
  pending (pairing w) !! pending_session_id p = Some p -> completed (pairing w) = ∅ ->
  length (pending_session_id p) = 16%nat ->
  elapsed (monotonic e) (pending_created p) <= PAIRING_LIFETIME ->
  instant_min pf <= monotonic e - from_secs 301 ->
  (forall i, (save i (store e)).1 = Ok tt) ->
  hmac (shared p) (confirmation_message p) = Some conf ->
  forall r g', prepare_credential p (pair_context hostname w) (generator e) = (Ok r, g') ->
  let updated := paired_identity (result_credential r) (identity w) in
  exists w2 e2, identity w2 = updated /\ stored (store e2) updated /\
    completed (pairing w2) !! pending_session_id p =
      Some {| confirmation := conf; completed_result := r; completed_created := monotonic e |} /\
    monotonic e2 = monotonic e /\ system_time e2 = system_time e /\
    run (pair_finish pf hostname request) w e =
      run (expect (pairing_response hostname updated (pending_session_id p) r)) w2 e2.
Proof.
  intros Hrs Hrc Hp Hcomp Hsid Hel Hinst Hsave Hconf r g' Hprep updated. set (sid := pending_session_id p) in *.
  assert (finish_request hostname request w e = (Ok r, prune_sessions (monotonic e) (pairing w), g')) as Hfin.
  { unfold finish_request. rewrite Hrs, Hrc.
    rewrite (finish_confirmed _ _ _ _ _ _ p); [by rewrite Hprep|done| |done|done|done].
    simpl. by rewrite Hcomp, map_filter_empty, lookup_empty. }
  specialize (Hsave updated). destruct (save updated (store e)) as [o s] eqn:Es. simpl in Hsave. subst o.
  destruct (commit_succeeds pf (monotonic e) sid conf r (prune_sessions (monotonic e) (pairing w)))
    as [self' Hcommit]; [done| |done|].
  { exists p. simpl. by apply map_lookup_filter_Some. }
  pose proof (commit_ok_state pf (monotonic e) sid conf r (prune_sessions (monotonic e) (pairing w))) as Hstate.
  rewrite Hcommit in Hstate. destruct (Hstate eq_refl) as (_ & _ & Eself). cbn [snd] in Eself. subst self'.
  do 2 eexists. split; [|split; [|split; [|split; [|split; [|rewrite run_pair_finish, Hfin; cbv zeta;
    rewrite Hrs, Hrc; fold sid;
    unfold is_completed at 1; rewrite (proj2 (try_into_array_Some 16 sid sid)) by done;
    rewrite Hcomp, lookup_empty, bool_decide_eq_false_2 by (by intros [? ?]);
    fold updated; rewrite Es, Hcommit; reflexivity]]]]]; try done.
  - simpl. by apply save_ok_stored in Es.
  - simpl. apply lookup_singleton_eq.
Qed.

(** The second round repeated: the same answer, and nothing else. *)
Lemma retry_run request w e c :
  length (pair_session_id request) = 16%nat ->
  completed (pairing w) !! pair_session_id request = Some c -> confirmation c = client_confirmation request ->
  elapsed (monotonic e) (completed_created c) <= PAIRING_LIFETIME ->
  exists w', identity w' = identity w /\
    run (pair_finish pf hostname request) w e =
      run (expect (pairing_response hostname (identity w) (pair_session_id request) (completed_result c))) w' e.
Proof.
  intros Hsid Hc Hconf Hel. eexists. split; [|rewrite run_pair_finish; cbv zeta; unfold finish_request;
    rewrite (finish_retry _ _ _ _ _ _ c), bool_decide_eq_true_2 by done;
    unfold is_completed; rewrite (proj2 (try_into_array_Some 16 _ _) (conj eq_refl Hsid)), Hc, bool_decide_eq_true_2 by eauto;
    by destruct e]. done.
Qed.

End Rounds.
