(* ===== verification/Replay.v ===== *)
(** * Shutdown requests are not replayed

    A trace of the host: requests, new codes, time and restarts.  Once a
    shutdown request has been authenticated, the same timestamp and nonce are
    refused in every later state of the trace, restarts included, as long as the
    wall clock is not set back and the host is not paired anew. *)
From stdpp Require Import base gmap list strings relations.
From S2P Require Import Prelude RustStd Fs Primitives Auth Pairing Storage Power Versioning Wire Samples Runtime Server Management Startup Requests PairRequests.
Open Scope string_scope.
Open Scope Z_scope.
Open Scope list_scope.

Section Replay.
Context {P : Primitives} {PL : PrimitivesLaws P} {H : Http} {HL : HttpLaws H} {Wi : Wire}.
Context {St : Type} {CS : CredentialStore St} {Pw : Type} {PC : PowerController Pw}.
Context {stored : St -> HostIdentity -> Prop} {fault_free : St -> Prop}
  {SL : CredentialStoreLaws St stored fault_free}.
Context (pf : platform) (hostname : string).

Abbreviation env := (Env St Pw).
Implicit Types (w : AppState) (e : env) (n : AcceptedShutdownNonce).

(** The nonces of the identity in memory. *)
Abbreviation nonces_of w := (accepted_shutdown_nonces (identity w)).

(** One event.  A request may be any but a pairing request that completes a
    pairing, which replaces the credential and clears the list of nonces; time
    passes, but the wall clock is not set back, after which a request whose nonce
    is no longer kept could be within the window again. *)
Inductive host_step : AppState * env -> AppState * env -> Prop :=
| host_request m p src hs b w e o w' e' :
    run (router pf hostname m p src hs b) w e = (o, w', e') ->
    (p = "/v1/pair" -> nonces_of w' = nonces_of w) ->
    host_step (w, e) (w', e')
| host_generate w e o w' e' :
    run generate_pairing_code w e = (o, w', e') -> host_step (w, e) (w', e')
| host_time w e e' :
    system_time e <= system_time e' -> store e' = store e -> host_step (w, e) (w, e')
| host_restart w e w' e' :
    service_state pf e = (Some (Ok w'), e') -> host_step (w, e) (w', e').

(** [n] is in memory and on stable storage. *)
Definition recorded n w e : Prop :=
  n ∈ nonces_of w /\ exists i, stored (store e) i /\ n ∈ accepted_shutdown_nonces i.

(** The protection: recorded, or too old to be accepted. *)
Definition protected n w e : Prop :=
  recorded n w e \/ CLOCK_WINDOW < now_unix e - accepted_timestamp n.

(** *** Programs that do not set the clock *)

Definition keeps_clock e e' : Prop := system_time e' = system_time e.

#[local] Instance keeps_clock_preorder : PreOrder keeps_clock.
Proof. split; [by intros ?|]. intros ??? E1 E2. unfold keeps_clock in *. congruence. Qed.

Lemma io_keeps_clock {B} (f : env -> B * env) :
  (forall e, system_time (f e).2 = system_time e) -> io_keeps keeps_clock (io f : prog lock data env B).
Proof. intros Hf. split; [exact Hf|done]. Qed.

Lemma retain_keeps_clock l : io_keeps keeps_clock (retain_nonces l).
Proof.
  induction l as [|n l IH]; [done|]. cbn [retain_nonces].
  apply io_keeps_bind; [by apply io_keeps_clock|]. intros now. by apply io_keeps_bind.
Qed.

Ltac effect := apply io_keeps_clock; intros ?; repeat case_match; done.

Ltac timeless := repeat first
  [ done | apply retain_keeps_clock | progress intros | effect
  | apply io_keeps_guarded | apply io_keeps_bind | case_match
  | match goal with |- io_keeps _ (expect ?o) => by destruct o end ].

Lemma router_keeps_clock m p src hs b : io_keeps keeps_clock (router pf hostname m p src hs b).
Proof.
  unfold router, status, shutdown, pair, pair_start, pair_finish, commit_expect, authenticate,
    record_shutdown_nonce, record_client_version, verify, failed, unix_now, store_save,
    shutdown_power, pairing_call, locked.
  timeless.
Qed.

Lemma generate_keeps_clock : io_keeps keeps_clock generate_pairing_code.
Proof. unfold generate_pairing_code, generate_code, unix_now, store_save, instant_now. timeless. Qed.

(** *** The protection is kept *)

Lemma now_unix_clock e e' : system_time e' = system_time e -> now_unix e' = now_unix e.
Proof. unfold now_unix. by intros ->. Qed.

Lemma now_unix_mono e e' : system_time e <= system_time e' -> now_unix e <= now_unix e'.
Proof. intros Hle. unfold now_unix, as_secs. apply Z.div_le_mono; [done|lia]. Qed.

Lemma retained_keeps n now i :
  n ∈ accepted_shutdown_nonces i -> n ∈ retained now i \/ CLOCK_WINDOW < now - accepted_timestamp n.
Proof.
  intros Hn. destruct (decide (saturating_sub now (accepted_timestamp n) <= CLOCK_WINDOW)) as [Hl|Hl].
  - left. apply list_elem_of_In, List.filter_In. split; [by apply list_elem_of_In|by apply Z.leb_le].
  - right. unfold saturating_sub, CLOCK_WINDOW in *. lia.
Qed.

(** A save, successful or not, of an identity that has the nonce. *)
Lemma save_keeps_recorded n j s r s' :
  save j s = (r, s') -> n ∈ accepted_shutdown_nonces j ->
  (exists i, stored s i /\ n ∈ accepted_shutdown_nonces i) ->
  exists i, stored s' i /\ n ∈ accepted_shutdown_nonces i.
Proof.
  intros Hs Hj (i & Hi & Hn). destruct r as [[]|x].
  - exists j. split; [by eapply save_ok_stored|done].
  - exists i. split; [by eapply save_err_stored|done].
Qed.

Lemma authenticate_protected n hs m p b w e r w' e' :
  run (authenticate hs m p b) w e = (r, w', e') -> recorded n w e -> protected n w' e'.
Proof.
  intros Hrun [Hn Hst]. rewrite run_authenticate in Hrun.
  destruct (request_of hs m p b) as [request|]; [|by simplify_eq; left].
  destruct (credential (identity w)) as [c|]; [|by simplify_eq; left].
  destruct (verify_same_but_auth c request (now_unix e) w e) as (v & w1 & Ev & Hi & _).
  rewrite Ev in Hrun.
  assert (recorded n w1 e) as Hw1 by (split; [by rewrite Hi|done]).
  destruct v as [[]|x]; [|by simplify_eq; left]. cbv zeta in Hrun.
  case_bool_decide; [|by simplify_eq; left].
  rewrite run_record_shutdown_nonce in Hrun. cbv zeta in Hrun. rewrite Hi in Hrun.
  destruct (retained_keeps n (now_unix e) (identity w) Hn) as [Hr|Hr].
  2:{ right. destruct (existsb _ _); [by simplify_eq|].
      destruct (save _ _) as [[[]|x] s]; by simplify_eq. }
  left. destruct (existsb _ _).
  { simplify_eq. by split. }
  pose proof (save_keeps_recorded n (with_nonces (retained (now_unix e) (identity w) ++
    [{| accepted_timestamp := timestamp request; accepted_nonce := nonce request |}]) (identity w))
    (store e)) as Hsave.
  destruct (save _ _) as [[[]|x] s]; simplify_eq; (split; [simpl; try done|]).
  - apply elem_of_app. by left.
  - eapply Hsave; [done|apply elem_of_app; by left|done].
  - eapply Hsave; [done|apply elem_of_app; by left|done].
Qed.

Lemma record_client_version_recorded n v w e r w' e' :
  run (record_client_version v) w e = (r, w', e') -> recorded n w e -> recorded n w' e'.
Proof.
  intros Hrun [Hn Hst]. destruct (record_client_version_frame v w e) as (w1 & e1 & Hr & _ & _ & _ & Hi).
  rewrite Hrun in Hr. simplify_eq.
  destruct Hi as [(Hi & [->|(s & x & Hx & ->)])|(Hi & s & Hx & ->)]; unfold recorded; rewrite Hi;
    (split; [done|]); [done|..]; rewrite ?Hi in Hx; by eapply save_keeps_recorded.
Qed.

(** Protection is about [recorded] states only: the clock takes care of the rest. *)
Lemma protected_by n w e w' e' :
  now_unix e <= now_unix e' -> (recorded n w e -> protected n w' e') ->
  protected n w e -> protected n w' e'.
Proof. intros Hle Hr [Hp|Hp]; [by apply Hr|]. right. lia. Qed.

Lemma record_client_version_protected n v w e r w' e' :
  run (record_client_version v) w e = (r, w', e') -> protected n w e -> protected n w' e'.
Proof.
  intros Hrun. destruct (record_client_version_frame v w e) as (w1 & e1 & Hr & _ & _ & (s & Hs) & _).
  pose proof Hrun as Hrun'. rewrite Hr in Hrun'. simplify_eq.
  apply protected_by; [done|]. left. by eapply record_client_version_recorded.
Qed.

Lemma expect_protected n (x : option Response) w e o w' e' :
  run (Env := env) (expect x) w e = (o, w', e') -> protected n w e -> protected n w' e'.
Proof. by intros [-> ->]%run_expect_world. Qed.

Lemma status_protected n hs b w e o w' e' :
  run (status hostname hs b) w e = (o, w', e') -> recorded n w e -> protected n w' e'.
Proof.
  intros Hrun Hn. unfold status in Hrun. rewrite run_bind in Hrun.
  destruct (authenticate_frame hs "POST" "/v1/status" b w e) as (r & w1 & e1 & Ha & _).
  rewrite Ha in Hrun. pose proof (authenticate_protected _ _ _ _ _ _ _ _ _ _ Ha Hn) as Hp.
  destruct r as [ctx|x]; [|by eapply expect_protected].
  destruct (is_protobuf hs); simpl negb in Hrun; cbv iota in Hrun; [|by eapply expect_protected].
  destruct (decode b) as [request|]; [|by eapply expect_protected].
  destruct (_ =? _); simpl negb in Hrun; cbv iota in Hrun; [|by eapply expect_protected].
  rewrite run_bind in Hrun.
  destruct (record_client_version_frame (status_client_version request) w1 e1) as (w2 & e2 & Hr & _).
  rewrite Hr in Hrun. rewrite run_guarded, run_bind, run_read in Hrun.
  eapply expect_protected; [exact Hrun|]. by eapply record_client_version_protected.
Qed.

Lemma shutdown_protected n hs b w e o w' e' :
  run (shutdown hs b) w e = (o, w', e') ->
  (forall r w1 e1, run (authenticate hs "POST" "/v1/shutdown" b) w e = (r, w1, e1) -> protected n w1 e1) ->
  protected n w' e'.
Proof.
  intros Hrun Hn. unfold shutdown in Hrun. rewrite run_bind in Hrun.
  destruct (authenticate_frame hs "POST" "/v1/shutdown" b w e) as (r & w1 & e1 & Ha & _).
  rewrite Ha in Hrun. pose proof (Hn _ _ _ Ha) as Hp.
  destruct r as [ctx|x]; [|by eapply expect_protected].
  destruct (is_protobuf hs); simpl negb in Hrun; cbv iota in Hrun; [|by eapply expect_protected].
  destruct (decode b) as [request|]; [|by eapply expect_protected].
  destruct (_ =? _); simpl negb in Hrun; cbv iota in Hrun; [|by eapply expect_protected].
  rewrite run_bind in Hrun.
  destruct (record_client_version_frame (shutdown_client_version request) w1 e1) as (w2 & e2 & Hr & _).
  rewrite Hr in Hrun. rewrite run_bind, run_shutdown_power in Hrun. cbn [fst] in Hrun.
  assert (protected n w2 (with_power (power_shutdown (power e2)).2 e2)) as Hp2.
  { exact (record_client_version_protected _ _ _ _ _ _ _ Hr Hp). }
  destruct (power_shutdown (power e2)).1; by eapply expect_protected.
Qed.

Lemma pair_protected n src hs b w e o w' e' :
  run (pair pf hostname src hs b) w e = (o, w', e') -> nonces_of w' = nonces_of w ->
  recorded n w e -> protected n w' e'.
Proof.
  intros Hrun Hkeep [Hn Hst]. unfold pair in Hrun.
  assert (forall w1 e1, identity w1 = identity w -> store e1 = store e -> protected n w1 e1) as Hsame.
  { intros w1 e1 Hi Hs. left. unfold recorded. by rewrite Hi, Hs. }
  destruct (is_protobuf hs); simpl negb in Hrun; cbv iota in Hrun;
    [|eapply expect_protected; [exact Hrun|by apply Hsame]].
  destruct (decode b) as [request|]; [|eapply expect_protected; [exact Hrun|by apply Hsame]].
  destruct (_ =? _); simpl negb in Hrun; cbv iota in Hrun;
    [|eapply expect_protected; [exact Hrun|by apply Hsame]].
  case_bool_decide.
  - rewrite run_pair_start in Hrun.
    destruct (_ && _); [eapply expect_protected; [exact Hrun|by apply Hsame]|].
    destruct (start_for_source _ _ _ _ _) as [[r self] g].
    eapply expect_protected; [exact Hrun|by apply Hsame].
  - rewrite run_pair_finish in Hrun. cbv zeta in Hrun.
    destruct (finish_request _ _ _ _) as [[[r|x] self] g];
      [|eapply expect_protected; [exact Hrun|by apply Hsame]].
    destruct (is_completed _ _); [eapply expect_protected; [exact Hrun|by apply Hsame]|].
    destruct (save _ _) as [[[]|x] s] eqn:Es.
    + exfalso. assert (nonces_of w' = []) as E; [|rewrite <- Hkeep, E in Hn; by apply elem_of_nil in Hn].
      destruct (commit _ _ _ _ _ _) as [[[[]|x]|] self']; [|by simplify_eq..].
      by apply run_expect_world in Hrun as [-> _].
    + eapply expect_protected; [exact Hrun|]. left. split; [done|].
      destruct Hst as (i & Hi & Hin). exists i. split; [|done]. simpl. by eapply save_err_stored.
Qed.

Lemma generate_protected n w e o w' e' :
  run generate_pairing_code w e = (o, w', e') -> recorded n w e -> protected n w' e'.
Proof.
  intros Hrun [Hn Hst]. rewrite run_generate_pairing_code in Hrun.
  destruct (generate _ _) as [self g]. cbv zeta in Hrun. left.
  destruct (save _ _) as [[[]|x] s] eqn:Es; simplify_eq; (split; [done|]); simpl;
    by eapply save_keeps_recorded.
Qed.

Lemma restart_protected n w e w' e' :
  service_state pf e = (Some (Ok w'), e') -> recorded n w e -> protected n w' e'.
Proof.
  intros Hr [Hn (i & Hi & Hin)]. unfold service_state in Hr.
  destruct (default_identity _ _) as [d g].
  destruct (load_or_create d (store e)) as [[j|x] s] eqn:El; [|done].
  pose proof (load_keeps d _ _ Hi) as Hk. rewrite El in Hk. simpl in Hk.
  assert (j = i) as -> by exact (load_ok_stored d _ _ _ _ Hi El).
  destruct (restore_pairing _ _ _ _ _) as [[[self|x]|] g']; simplify_eq.
  left. split; [done|]. by exists i.
Qed.

Lemma host_step_clock w e w' e' : host_step (w, e) (w', e') -> now_unix e <= now_unix e'.
Proof.
  intros Hs. inversion Hs as [m p src hs b ? ? o ? ? Hrun _|? ? o ? ? Hrun|? ? ? Hle _|? ? ? ? Hr]; subst.
  - pose proof (io_keeps_run keeps_clock _ w e (router_keeps_clock m p src hs b)) as Hk.
    rewrite Hrun in Hk. rewrite (now_unix_clock e e'); [lia|exact Hk].
  - pose proof (io_keeps_run keeps_clock _ w e generate_keeps_clock) as Hk.
    rewrite Hrun in Hk. rewrite (now_unix_clock e e'); [lia|exact Hk].
  - by apply now_unix_mono.
  - unfold service_state in Hr. destruct (default_identity _ _) as [d g].
    destruct (load_or_create d (store e)) as [[j|x] s]; [|done].
    destruct (restore_pairing _ _ _ _ _) as [[[self|x]|] g']; simplify_eq.
    unfold now_unix. simpl. lia.
Qed.

Lemma host_step_protected n w e w' e' :
  host_step (w, e) (w', e') -> protected n w e -> protected n w' e'.
Proof.
  intros Hs. apply protected_by; [by eapply host_step_clock|]. intros Hn.
  inversion Hs as [m p src hs b ? ? o ? ? Hrun Hp|? ? o ? ? Hrun|? ? ? Hle Hst|? ? ? ? Hr]; subst.
  - unfold router in Hrun. repeat case_bool_decide; simpl negb in Hrun; cbv iota in Hrun;
      try (destruct (_ <? _)); try (by simplify_eq/=; left).
    + by eapply status_protected.
    + eapply pair_protected; [exact Hrun|by apply Hp|done].
    + eapply shutdown_protected; [exact Hrun|]. intros r w1 e1 Ha. by eapply authenticate_protected.
  - by eapply generate_protected.
  - left. destruct Hn as [Hn Hs']. split; [done|]. by rewrite Hst.
  - by eapply restart_protected.
Qed.

Lemma host_steps_protected n s s' :
  rtc host_step s s' -> protected n s.1 s.2 -> protected n s'.1 s'.2.
Proof.
  induction 1 as [|[w e] [w1 e1] s' Hs _ IH]; [done|]. intros Hp. apply IH.
  by eapply host_step_protected.
Qed.

(** A protected nonce is refused: its timestamp is too old, or it is found. *)
Lemma protected_refused n hs b w e request ctx :
  protected n w e -> request_of hs "POST" "/v1/shutdown" b = Some request ->
  new_nonce request = n -> (run (authenticate hs "POST" "/v1/shutdown" b) w e).1.1 <> Done (Ok ctx).
Proof.
  intros Hp Hr Hn. destruct (run (authenticate _ _ _ _) w e) as [[o w'] e'] eqn:Ha. simpl. intros ->.
  apply authenticate_accepted in Ha as (request' & c & Hr' & Hc & _ & (Ht & _) & Hs).
  rewrite Hr in Hr'. simplify_eq. rewrite bool_decide_eq_true_2 in Hs by done.
  destruct Hs as (_ & _ & HF). destruct Hp as [[Hin _]|Hd].
  - destruct (retained_keeps _ (now_unix e) _ Hin) as [Hret|Hd].
    + rewrite Forall_forall in HF. by apply (HF _ Hret).
    + simpl in Hd. unfold abs_diff in Ht. lia.
  - simpl in Hd. unfold abs_diff in Ht. lia.
Qed.

(** C1: an authenticated shutdown request is accepted once: in every state
    the host can reach afterwards, through other requests, failed saves, new
    codes, the passing of time and restarts from stable storage, a request
    with the same timestamp and nonce is refused, as long as the wall clock is
    not set back and the host is not paired anew. *)
Theorem shutdown_not_replayed src hs b w e ctx wa ea o w1 e1 w2 e2 request hs' b' request' ctx' :
  Z.of_nat (length b) <= 64 * 1024 ->
  run (authenticate hs "POST" "/v1/shutdown" b) w e = (Done (Ok ctx), wa, ea) ->
  request_of hs "POST" "/v1/shutdown" b = Some request ->
  run (router pf hostname "POST" "/v1/shutdown" src hs b) w e = (o, w1, e1) ->
  rtc host_step (w1, e1) (w2, e2) ->
  request_of hs' "POST" "/v1/shutdown" b' = Some request' ->
  timestamp request' = timestamp request -> nonce request' = nonce request ->
  (run (authenticate hs' "POST" "/v1/shutdown" b') w2 e2).1.1 <> Done (Ok ctx').
Proof.
  intros Hb Ha Hr Hrun Hsteps Hr' Ht Hn. rewrite run_router_post in Hrun by done. simpl in Hrun.
  eapply (protected_refused (new_nonce request)); [|exact Hr'|unfold new_nonce; congruence].
  apply (host_steps_protected _ (w1, e1) (w2, e2) Hsteps). simpl.
  eapply shutdown_protected; [exact Hrun|]. intros r wb eb Hb'. rewrite Ha in Hb'. simplify_eq.
  apply authenticate_accepted in Ha as (request2 & c & Hr2 & _ & _ & _ & Hs).
  rewrite Hr in Hr2. simplify_eq. rewrite bool_decide_eq_true_2 in Hs by done.
  destruct Hs as (Hi & (s & Hsave & ->) & _).
  assert (new_nonce request2 ∈ accepted_shutdown_nonces (identity wb)) as Hin.
  { rewrite Hi. simpl. apply elem_of_app. right. by apply list_elem_of_singleton. }
  left. split; [done|]. exists (identity wb). split; [|done]. rewrite Hi. simpl.
  by eapply save_ok_stored.
Qed.

End Replay.
