(* ===== verification/Scenarios.v ===== *)
(** * Concrete runs

    A host with the executable instances of [Primitives] and [Samples]: paired
    and unpaired states, signed requests, a pairing in its two rounds.  They
    show that the hypotheses of the theorems about requests can hold, and two
    runs in which the host does what its documentation does not say. *)
From stdpp Require Import base gmap list strings relations.
From S2P Require Import Prelude RustStd Hex Fs Primitives Auth Pairing Storage Power Versioning Wire Samples Runtime Server Management ManagementIpc Startup Concurrency Requests PairRequests Replay.
Open Scope string_scope.
Open Scope Z_scope.
Open Scope list_scope.

#[local] Existing Instances toy toy_laws toy_http toy_http_laws toy_wire memory_store mock_power.
#[local] Existing Instance memory_laws.

Abbreviation toy_env := (Env (P := toy) MemoryStore MockPowerController).

(** An environment at wall-clock second [sys] and monotonic second [mono]. *)
Definition env_at (sys mono : Z) (g : Z) (s : MemoryStore) : toy_env :=
  MkEnv (P := toy) (from_secs sys) (from_secs mono) g s mock_default.

Definition healthy (i : HostIdentity) : MemoryStore := {| memory := Some i; failing := [] |}.
Definition fails_once (i : HostIdentity) : MemoryStore := {| memory := Some i; failing := [true] |}.

(** ** A paired host *)

Definition secret : bytes := repeat x07 32.

Definition paired_i : HostIdentity := MkHostIdentity (repeat x01 16) (Some secret) None 0 [] None.

Definition paired_w : AppState := initial_state paired_i (fresh_code "123456" 0).

Definition paired_e : toy_env := env_at 1000 400 0 (healthy paired_i).

Definition a_nonce : bytes := repeat x05 16.

(** The headers of a request signed at [ts]. *)
Definition signed_headers (ts : Z) (path : string) (body : bytes) : @HeaderMap toy_http :=
  [("x-decky-timestamp", as_bytes (to_string ts));
   ("x-decky-nonce", as_bytes (to_hex a_nonce));
   ("x-decky-signature", as_bytes (to_hex
      match sign secret ts a_nonce "POST" path body with Ok s => s | Err _ => [] end));
   ("content-type", as_bytes "application/x-protobuf")].

Definition shutdown_body : bytes :=
  encode_to_vec {| shutdown_protocol_version := 1; shutdown_client_version := "0.1.0" |}.

Definition status_body : bytes :=
  encode_to_vec {| status_protocol_version := 1; status_client_version := "0.1.0" |}.

Definition send (path : string) (hs : @HeaderMap toy_http) (body : bytes) (w : AppState) (e : toy_env) :=
  run (router Windows "rig" "POST" path None hs body) w e.

Example shutdown_runs :
  let '(o, w, e) := send "/v1/shutdown" (signed_headers 1000 "/v1/shutdown" shutdown_body) shutdown_body
                      paired_w paired_e in
  match o with Done r => status_code r = 202 | Panicked => False end /\
  was_requested (power e) = true /\ length (accepted_shutdown_nonces (identity w)) = 1%nat.
Proof. vm_compute. done. Qed.

(** A second, identical request is refused, also sixty seconds later. *)
Example replay_runs :
  let hs := signed_headers 1000 "/v1/shutdown" shutdown_body in
  let '(_, w, e) := send "/v1/shutdown" hs shutdown_body paired_w paired_e in
  match (send "/v1/shutdown" hs shutdown_body w (env_at 1060 460 0 (store e))).1.1 with
  | Done r => status_code r = 409 | Panicked => False end.
Proof. vm_compute. done. Qed.

(** ** A request dated in the future *)

(** The nonce cache keeps a nonce for sixty seconds from its acceptance,
    while a request stays valid for sixty seconds from its own timestamp: a
    status request dated one minute ahead is accepted twice. *)
Theorem future_status_accepted_twice :
  let hs := signed_headers 1060 "/v1/status" status_body in
  let '(o1, w, e) := send "/v1/status" hs status_body paired_w paired_e in
  let '(o2, _, _) := send "/v1/status" hs status_body w (env_at 1061 461 0 (store e)) in
  match o1, o2 with Done r1, Done r2 => status_code r1 = 200 /\ status_code r2 = 200 | _, _ => False end.
Proof. vm_compute. done. Qed.

(** ** A pairing *)

Definition unpaired_i : HostIdentity :=
  MkHostIdentity (repeat x01 16) None (Some "123456") 900 [] None.

Definition unpaired_w : AppState := initial_state unpaired_i (fresh_code "123456" (from_secs 40)).

Definition plain_headers : @HeaderMap toy_http := [("content-type", as_bytes "application/x-protobuf")].

Definition start_request : PairRequest :=
  {| pair_protocol_version := 1; client_spake2_message := Limits.client_msg; pair_session_id := [];
     client_confirmation := []; pair_client_version := "0.1.0" |}.

(** The host [mono] seconds after boot, once the first round is done. *)
Definition started (mono : Z) (s : MemoryStore) : AppState * toy_env :=
  let '(_, w, e) := send "/v1/pair" plain_headers (encode_to_vec start_request) unpaired_w
                      (env_at 1000 mono 0 s) in (w, e).

(** The second round of the client that knows the code. *)
Definition finish_request_of (w : AppState) : PairRequest :=
  let sid := Limits.sid_of 1 in
  {| pair_protocol_version := 1; client_spake2_message := []; pair_session_id := sid;
     client_confirmation := match pending (pairing w) !! sid with
       | Some p => default [] (hmac (shared p) (confirmation_message p)) | None => [] end;
     pair_client_version := "0.1.0" |}.

Definition second_round (mono : Z) (s : MemoryStore) :=
  let '(w, e) := started mono s in
  send "/v1/pair" plain_headers (encode_to_vec (finish_request_of w)) w e.

Example pairing_runs :
  let '(o, w, e) := second_round 330 (healthy unpaired_i) in
  match o with Done r => status_code r = 200 | Panicked => False end /\
  is_Some (credential (identity w)) /\ memory (store e) = Some (identity w).
Proof. vm_compute. split; [done|]. split; [by eexists|done]. Qed.

(** A hundred seconds after boot the task panics; the credential is saved, the
    code keeps its remaining time, and the same request sent again is
    answered. *)
Example pairing_panics_runs :
  let '(o, w, e) := second_round 100 (healthy unpaired_i) in
  o = Panicked /\ is_Some (credential (identity w)) /\ memory (store e) = Some (identity w) /\
  0 < expires_in (monotonic e) (pairing w) /\
  match (send "/v1/pair" plain_headers (encode_to_vec (finish_request_of (started 100 (healthy unpaired_i)).1)) w e).1.1 with
  | Done r => status_code r = 200 | Panicked => False end.
Proof. vm_compute. split; [done|]. split; [by eexists|]. done. Qed.

(** A service that starts twenty seconds after boot and finds a code created
    an hour ago does not start. *)
Definition all_well : Outcomes :=
  {| register_ok := true; set_status_ok _ := true; executable := Ok "DeckyMyRigHost.toml";
     config_at _ := Ok {| Config.port := 47991 |}; program_data_ok := true; runtime_ok := true;
     bind_ok _ := true; hostname_ok := true; service_ending := HttpEnds (Ok tt) |}.

Example service_panics_after_boot :
  fst (run_service Windows all_well (env_at 4500 20 0 (healthy unpaired_i))) = None /\
  fst (run_service Windows all_well (env_at 4500 302 0 (healthy unpaired_i))) = Some (Ok tt).
Proof. vm_compute. done. Qed.

(** The same moment on Unix, where instants go back further. *)
Example no_panic_on_unix :
  let '(w, e) := started 100 (healthy unpaired_i) in
  match (run (router Unix "rig" "POST" "/v1/pair" None plain_headers
           (encode_to_vec (finish_request_of w))) w e).1.1 with
  | Done r => status_code r = 200 | Panicked => False end.
Proof. vm_compute. done. Qed.

(** ** Witnesses: interleaved tasks *)

Lemma paired_inv l : lock_inv paired_e l (get l paired_w).
Proof.
  destruct l; simpl.
  - apply fresh_code_wf; [reflexivity|]. vm_compute. discriminate.
  - constructor; simpl; try done. by intros c [= <-].
  - done.
  - apply map_Forall_empty.
  - lia.
Qed.

Lemma paired_up : up_long_enough Windows paired_e.
Proof. vm_compute. discriminate. Qed.

Definition shutdown_task : prog lock data toy_env reply :=
  r <- router Windows "rig" "POST" "/v1/shutdown" None
         (signed_headers 1000 "/v1/shutdown" shutdown_body) shutdown_body ;; Ret (HttpReply r).

(** A JSON text reduced to what the runs need: the request is one letter, the
    response the code that is shown. *)
Definition toy_json : ManagementJson := {|
  request_from_slice l := match l with
    | [x47] => Ok {| operation := GeneratePairingCode |}
    | [x53] => Ok {| operation := GetPairingState |}
    | _ => Err "unknown variant"
    end;
  response_to_vec r := Ok (as_bytes (default "" (response_pairing_code r)));
|}.
#[local] Existing Instance toy_json.

(** A client that asks for a new code and reads the answer. *)
Definition asking : PipeClient :=
  {| pipe_input := frame [x47]; write_length := Fine; write_body := Fine; flush := Fine |}.

Definition generate_task : prog lock data toy_env reply :=
  r <- handle asking 47991 ;; Ret (PipeReply r).

Example pipe_runs :
  (run (W := AppState) (handle asking 47991) paired_w paired_e).1.1 = Done (Ok tt, frame (as_bytes "000000")).
Proof. vm_compute. reflexivity. Qed.

(** Two tasks have arrived. *)
Definition two_tasks : config lock data toy_env AppState reply :=
  Config [Task [] shutdown_task; Task [] generate_task] paired_w paired_e.

Lemma two_tasks_reached :
  rtc (step tick (host_task Windows "rig")) (Config [] paired_w paired_e) two_tasks.
Proof.
  eapply rtc_l; [apply (step_spawn _ _ [] _ _ shutdown_task); constructor|].
  apply rtc_once. apply (step_spawn _ _ [Task [] shutdown_task] _ _ generate_task). constructor.
Qed.

Lemma host_never_panics_witness : code (Task [] generate_task) <> Panic.
Proof.
  apply (host_never_panics (PL := toy_laws) (HL := toy_http_laws) Windows "rig" paired_w paired_e two_tasks
    (Task [] generate_task) paired_inv paired_up two_tasks_reached).
  right. left.
Defined.



(** ** Witnesses: requests *)

(** A run by its outcome. *)
Lemma run_split {A} (x : outcome A * AppState * toy_env) o : x.1.1 = o -> x = (o, x.1.2, x.2).
Proof. destruct x as [[o' w] e]. simpl. by intros ->. Qed.

Definition reply_of (x : outcome Response * AppState * toy_env) : Response :=
  match x.1.1 with Done r => r | Panicked => rejection NoRoute end.

Definition shutdown_hs := signed_headers 1000 "/v1/shutdown" shutdown_body.
Definition status_hs := signed_headers 1000 "/v1/status" status_body.

Definition accepted_ctx : AuthenticationContext :=
  {| context_credential := secret; context_nonce := a_nonce |}.

Definition the_request (path : string) (body : bytes) : AuthenticatedRequest :=
  {| timestamp := 1000; nonce := a_nonce;
     signature := match sign secret 1000 a_nonce "POST" path body with Ok s => s | Err _ => [] end;
     method := "POST"; path := path; body := body |}.

Lemma authenticate_iff_witness :
  exists request c, request_of shutdown_hs "POST" "/v1/shutdown" shutdown_body = Some request /\
    accepts c request (now_unix paired_e) (accepted_nonces paired_w).
Proof.
  destruct (proj1 (authenticate_iff (PL := toy_laws) shutdown_hs "POST" "/v1/shutdown" shutdown_body
    paired_w paired_e accepted_ctx)) as (request & c & H1 & _ & _ & H2 & _).
  - vm_compute. reflexivity.
  - exists request, c. exact (conj H1 H2).
Defined.

Abbreviation status_run :=
  (run (router Windows "rig" "POST" "/v1/status" None status_hs status_body) paired_w paired_e).
Abbreviation refused_run :=
  (run (router Windows "rig" "POST" "/v1/status" None plain_headers status_body) paired_w paired_e).
Abbreviation shutdown_run :=
  (run (router Windows "rig" "POST" "/v1/shutdown" None shutdown_hs shutdown_body) paired_w paired_e).

Lemma authenticated_responses_verify_witness :
  signed_for accepted_ctx "/v1/status" (reply_of status_run).
Proof.
  refine (authenticated_responses_verify (PL := toy_laws) (HL := toy_http_laws) Windows "rig" "/v1/status"
    None status_hs status_body paired_w paired_e accepted_ctx _ _ _ _ _ _ _
    (run_split (run (authenticate status_hs "POST" "/v1/status" status_body) paired_w paired_e) _ _)
    (run_split status_run _ _)).
  - left. reflexivity.
  - vm_compute. discriminate.
  - vm_compute. reflexivity.
  - vm_compute. reflexivity.
Defined.

Lemma refused_requests_are_harmless_witness :
  status_code (reply_of refused_run) = 401 /\ power refused_run.2 = power paired_e.
Proof.
  destruct (refused_requests_are_harmless (PL := toy_laws) Windows "rig" "/v1/status"
    None plain_headers status_body paired_w paired_e Malformed _ _ (reply_of refused_run) _ _
    (or_introl eq_refl) ltac:(vm_compute; discriminate)
    (run_split (run (authenticate plain_headers "POST" "/v1/status" status_body) paired_w paired_e) _
       ltac:(vm_compute; reflexivity))
    (run_split refused_run _ ltac:(vm_compute; reflexivity))) as (H1 & _ & _ & _ & H2 & _).
  exact (conj H1 H2).
Defined.

Lemma power_needs_authentication_witness :
  power shutdown_run.2 = (power_shutdown (power paired_e)).2.
Proof.
  destruct (power_needs_authentication (PL := toy_laws) (SL := memory_laws) Windows "rig" "POST"
    "/v1/shutdown" None shutdown_hs shutdown_body paired_w paired_e _ _ _
    (run_split shutdown_run _ eq_refl)) as (_ & _ & request & c & m & _ & _ & _ & _ & _ & H & _).
  - vm_compute. discriminate.
  - exact H.
Defined.

Lemma failed_version_save_not_retried_witness :
  exists w', identity w' = paired_i /\
    forall e2 : toy_env, run (record_client_version "0.1.0") w' e2 = (Done tt, w', e2).
Proof.
  destruct (failed_version_save_not_retried (P := toy) "0.1.0" paired_w (env_at 1000 400 0 (fails_once paired_i))
    (OtherIo "disk full") (healthy paired_i)) as (w' & _ & H1 & H2).
  - vm_compute. discriminate.
  - discriminate.
  - discriminate.
  - reflexivity.
  - exists w'. exact (conj H1 H2).
Defined.

(** ** Witnesses: pairing *)

Lemma paired_host_refuses_new_exchange_witness :
  exists r, run (pair_start "rig" start_request None) paired_w paired_e = (Done r, paired_w, paired_e) /\
    status_code r = 409.
Proof.
  exact (paired_host_refuses_new_exchange (HL := toy_http_laws) "rig" start_request None paired_w paired_e
    secret eq_refl eq_refl).
Defined.

(** The state between the two rounds, with a store that works or fails once. *)
Definition mid_w : AppState := (started 330 (healthy unpaired_i)).1.
Definition mid_e : toy_env := env_at 1000 330 7 (healthy unpaired_i).
Definition mid_faulty_e : toy_env := env_at 1000 330 7 (fails_once unpaired_i).
Definition final_request : PairRequest := finish_request_of mid_w.

Abbreviation finish_run := (run (pair_finish Windows "rig" final_request) mid_w mid_e).

Lemma pairing_success_is_persisted_witness : memory (store finish_run.2) = Some (identity finish_run.1.2).
Proof.
  assert (finish_run.1.1 = Done (reply_of finish_run)) as H1 by (vm_compute; reflexivity).
  assert (status_code (reply_of finish_run) = 200) as H2 by (vm_compute; reflexivity).
  assert (is_completed (pair_session_id final_request) (pairing mid_w) = false) as H3
    by (vm_compute; reflexivity).
  pose proof (pairing_success_is_persisted (PL := toy_laws) (SL := memory_laws) Windows "rig" final_request
    mid_w mid_e (reply_of finish_run) _ _ (run_split finish_run _ H1) H2 H3)
    as (r & g & _ & _ & _ & _ & Hs & _).
  exact Hs.
Defined.

Definition mid_finish : result PairingResult PairingError * PairingCode * Z :=
  finish_request "rig" final_request mid_w mid_faulty_e.
Definition mid_result : PairingResult :=
  match mid_finish.1.1 with Ok r => r | Err _ => PairingSamples.done_result end.
Definition mid_entry : PendingPairing :=
  default PairingSamples.entry (pending (pairing mid_w) !! pair_session_id final_request).

Lemma mid_wf : pairing_wf (monotonic mid_faulty_e) (pairing mid_w).
Proof.
  assert (pairing mid_w = (start_for_source (from_secs 330) Limits.client_msg None
    (fresh_code "123456" (from_secs 40)) 0).1.2) as -> by (vm_compute; reflexivity).
  apply (start_wf (P := toy) (PL := toy_laws)). apply fresh_code_wf; [reflexivity|]. vm_compute. discriminate.
Qed.

Lemma mid_finish_ok :
  finish_request "rig" final_request mid_w mid_faulty_e = (Ok mid_result, mid_finish.1.2, mid_finish.2).
Proof.
  change (mid_finish = (Ok mid_result, mid_finish.1.2, mid_finish.2)). unfold mid_result.
  assert (is_ok mid_finish.1.1 = true) as E by (vm_compute; reflexivity).
  by destruct mid_finish as [[[r|x] self] g].
Qed.

Lemma mid_pending : pending (pairing mid_w) !! pair_session_id final_request = Some mid_entry.
Proof. vm_compute. reflexivity. Qed.

Lemma mid_save :
  save (paired_identity (result_credential mid_result) (identity mid_w)) (store mid_faulty_e) =
    (Err (OtherIo "disk full"), {| memory := Some unpaired_i; failing := [] |}).
Proof. reflexivity. Qed.

Lemma pairing_save_failure_is_retryable_witness :
  exists r w' e', run (pair_finish Windows "rig" final_request) mid_w mid_faulty_e = (Done r, w', e') /\
    status_code r = 500.
Proof.
  pose proof (pairing_save_failure_is_retryable (PL := toy_laws) (HL := toy_http_laws) (SL := memory_laws)
    Windows "rig" final_request mid_w mid_faulty_e mid_result mid_finish.1.2 mid_finish.2 _ _ mid_entry
    mid_finish_ok mid_wf mid_pending mid_save) as (r & w' & e' & H & H500 & _).
  exists r, w', e'. exact (conj H H500).
Defined.

(** A pairing a hundred seconds after boot. *)
Definition young_w : AppState := (started 100 (healthy unpaired_i)).1.
Definition young_e : toy_env := (started 100 (healthy unpaired_i)).2.
Definition young_request : PairRequest := finish_request_of young_w.
Definition young_finish := finish_request (P := toy) "rig" young_request young_w young_e.
Definition young_result : PairingResult :=
  match young_finish.1.1 with Ok r => r | Err _ => PairingSamples.done_result end.

Lemma young_finish_ok :
  finish_request (P := toy) "rig" young_request young_w young_e = (Ok young_result, young_finish.1.2, young_finish.2).
Proof.
  change (young_finish = (Ok young_result, young_finish.1.2, young_finish.2)). unfold young_result.
  assert (is_ok young_finish.1.1 = true) as E by (vm_compute; reflexivity).
  by destruct young_finish as [[[r|x] self] g].
Qed.

Lemma pairing_panics_after_boot_witness :
  exists w' e', run (pair_finish Windows "rig" young_request) young_w young_e = (Panicked, w', e') /\
    credential (identity w') = Some (result_credential young_result).
Proof.
  destruct (pairing_panics_after_boot (PL := toy_laws) (HL := toy_http_laws) (SL := memory_laws)
    Windows "rig" young_request young_w young_e young_result young_finish.1.2 young_finish.2 _
    young_finish_ok eq_refl eq_refl) as (o & w' & e' & Hrun & Ho & Hi & _).
  exists w', e'. rewrite (proj2 Ho) in Hrun by (vm_compute; reflexivity). split; [exact Hrun|].
  rewrite Hi. reflexivity.
Defined.

(** A new code on a host where each step takes a tenth of a second. *)
Definition tenth (n : nat) : Z := 100000000.
Abbreviation generate_run :=
  (run_timed (pass_time (P := toy) tenth tenth) 0 generate_pairing_code paired_w paired_e).

Lemma generate_pairing_code_atomic_witness :
  exists s, generate_run.1.1.1 = Done (Ok s) /\ as_secs (state_expires_in s) = 299.
Proof.
  destruct (generate_pairing_code_atomic (P := toy) (SL := memory_laws) tenth tenth 0 paired_w paired_e
    generate_run.1.1.1 generate_run.1.1.2 generate_run.1.2 generate_run.2)
    as [(x & H & _)|(s & H & _ & _ & _ & _ & H5 & _)].
  - intros k. vm_compute. discriminate.
  - by destruct generate_run as [[[? ?] ?] ?].
  - exfalso. vm_compute in H. discriminate H.
  - exists s. split; [exact H|]. rewrite H5. reflexivity.
Defined.

(** ** Witness: replay *)

Definition later_e : toy_env :=
  MkEnv (P := toy) (from_secs 1060) (from_secs 460) 0 (store shutdown_run.2) mock_default.

Lemma shutdown_not_replayed_witness :
  (run (authenticate shutdown_hs "POST" "/v1/shutdown" shutdown_body) shutdown_run.1.2 later_e).1.1
    <> Done (Ok accepted_ctx).
Proof.
  refine (shutdown_not_replayed (PL := toy_laws) (SL := memory_laws) Windows "rig" None shutdown_hs
    shutdown_body paired_w paired_e accepted_ctx _ _ _ _ _ _ later_e
    (the_request "/v1/shutdown" shutdown_body) shutdown_hs shutdown_body
    (the_request "/v1/shutdown" shutdown_body) accepted_ctx _
    (run_split (run (authenticate shutdown_hs "POST" "/v1/shutdown" shutdown_body) paired_w paired_e) _ _)
    _ (run_split shutdown_run _ eq_refl) _ _ eq_refl eq_refl).
  - vm_compute. discriminate.
  - vm_compute. reflexivity.
  - vm_compute. reflexivity.
  - apply rtc_once. apply (host_time (P := toy) Windows "rig"); [|reflexivity]. vm_compute. discriminate.
  - vm_compute. reflexivity.
Defined.

(** ** Witnesses: start and log *)

Lemma service_reports_in_order_witness :
  map current_state (run_service Windows all_well (env_at 4500 302 0 (healthy unpaired_i))).2 =
    [StartPending; Running; Stopped].
Proof.
  assert (fst (run_service Windows all_well (env_at 4500 302 0 (healthy unpaired_i))) = Some (Ok tt)) as H
    by (vm_compute; reflexivity).
  exact (proj1 (proj2 (proj2 (service_reports_in_order (P := toy) Windows all_well
    (env_at 4500 302 0 (healthy unpaired_i)) _ _ (surjective_pairing _))) H)).
Defined.

Definition full_log : Fs := MkFs {[ "host.log" := repeat x41 5; "host.log.1" := [x42] ]} [].

Lemma rotation_keeps_log_witness :
  files (rotate_log_if_needed "host.log" 5 full_log).2 !! "host.log.1" = Some (repeat x41 5).
Proof.
  destruct (rotation_keeps_log "host.log" 5 full_log _ _ (repeat x41 5) (surjective_pairing _))
    as [[H|(_ & H & _)] _].
  - discriminate.
  - reflexivity.
  - exfalso. vm_compute in H. discriminate H.
  - exact H.
Defined.
