(* ===== verification/Client.v ===== *)
(** * The command line client (tools/decky-my-rig-test/src/main.rs)

    The tool that pairs with a host, asks for its status and shuts it down.
    A command is a function on the machine it runs on: wall clock, random
    generator, disk, network, standard output and standard error; an error is
    the message of the source.  The texts of third-party errors, serde_json on
    [SavedCredential] and the TCP stream are parameters. *)
From stdpp Require Import base gmap list strings.
From Stdlib Require Import Ascii.
From S2P Require Import Prelude RustStd Fs Primitives Auth Pairing Wire Server HttpText.
Open Scope string_scope.
Open Scope Z_scope.
Open Scope list_scope.

Definition CLIENT_CONTENT_TYPE : string := "application/x-protobuf".
Definition CLIENT_CONFIRMATION_DOMAIN : bytes := nul_terminated "deckymyrig-pairing-confirm-v1".
Definition CLIENT_CREDENTIAL_INFO : bytes := as_bytes "deckymyrig-pairing-credential-v1".
(** [env!("CARGO_PKG_VERSION")] of the tool. *)
Definition CLIENT_VERSION : string := "0.1.0".

Record SavedCredential := {
  saved_host_id : string;
  saved_credential : string;
}.

Record Options := {
  opt_command : string;
  opt_host : string;
  opt_port : Z;
  opt_code : option string;
  opt_credential_file : string;
}.

Record RequestAuthentication := {
  auth_headers : list (string * string);
  auth_credential : bytes;
  auth_nonce : bytes;
}.

(** ** Parameters *)

(** [Display] of errors the tool does not define, and [Debug] of map keys. *)
Class Texts := {
  show_io_error : io_error -> string;
  show_decode_error : bytes -> string;
  show_keys : list string -> string;
}.

(** [serde_json::to_vec_pretty] and [from_slice] of [SavedCredential]. *)
Class SavedJson := {
  saved_to_vec_pretty : SavedCredential -> result bytes string;
  saved_from_slice : bytes -> result SavedCredential string;
}.

Class SavedJsonLaws (J : SavedJson) : Prop := {
  saved_round_trip c : exists l, saved_to_vec_pretty c = Ok l /\ saved_from_slice l = Ok c;
}.

(** [TcpStream]: the stream in use is part of the network's state; an error is
    its text. *)
Class TcpStream (Nw : Type) := {
  tcp_connect : string -> Nw -> result unit string * Nw;
  tcp_peer_addr : Nw -> result string string;
  tcp_write_all : bytes -> Nw -> result unit string * Nw;
  tcp_read_to_end : Nw -> result bytes string * Nw;
}.

(** ** The disk

    Files with their permission bits; [umask] is the process's. *)
Record DiskFile := { mode : Z; contents : bytes }.

Record Disk := MkDisk {
  disk_files : gmap string DiskFile;
  disk_faults : list fault;
  umask : Z;
}.

Definition disk_fault (d : Disk) : fault * Disk :=
  match disk_faults d with
  | [] => (Fine, d)
  | f :: fs => (f, MkDisk (disk_files d) fs (umask d))
  end.

Definition disk_insert (path : string) (f : DiskFile) (d : Disk) : Disk :=
  MkDisk (<[path := f]> (disk_files d)) (disk_faults d) (umask d).

(** [OpenOptions] with write, create and truncate: a new file gets the
    requested bits less the [umask], an old one keeps its own. *)
Definition disk_open (new_mode : Z) (path : string) (d : Disk) : result unit io_error * Disk :=
  match disk_fault d with
  | (Fine, d') =>
      let m := match disk_files d !! path with
               | Some f => mode f
               | None => Z.land new_mode (Z.lnot (umask d))
               end in
      (Ok tt, disk_insert path {| mode := m; contents := [] |} d')
  | (Fails _, d') => (Err (OtherIo "open"), d')
  end.

(** [File::set_permissions] on the open file. *)
Definition disk_set_permissions (m : Z) (path : string) (d : Disk) : result unit io_error * Disk :=
  match disk_fault d with
  | (Fine, d') =>
      (Ok tt, match disk_files d !! path with
              | Some f => disk_insert path {| mode := m; contents := contents f |} d'
              | None => d'
              end)
  | (Fails _, d') => (Err (OtherIo "chmod"), d')
  end.

(** [write_all] on the open file; a failure may have written a part. *)
Definition disk_write_all (path : string) (data : bytes) (d : Disk) : result unit io_error * Disk :=
  let append n d' :=
    match disk_files d !! path with
    | Some f => disk_insert path {| mode := mode f; contents := contents f ++ take n data |} d'
    | None => d'
    end in
  match disk_fault d with
  | (Fine, d') => (Ok tt, append (length data) d')
  | (Fails None, d') => (Err (OtherIo "write"), d')
  | (Fails (Some n), d') => (Err (OtherIo "write"), append n d')
  end.

Definition disk_sync_all (d : Disk) : result unit io_error * Disk :=
  match disk_fault d with
  | (Fine, d') => (Ok tt, d')
  | (Fails _, d') => (Err (OtherIo "sync"), d')
  end.

Definition disk_read (path : string) (d : Disk) : result bytes io_error * Disk :=
  match disk_fault d with
  | (Fine, d') =>
      (match disk_files d !! path with Some f => Ok (contents f) | None => Err NotFound end, d')
  | (Fails _, d') => (Err (OtherIo "read"), d')
  end.

(** 0o600. *)
Definition owner_only : Z := 384.

(** 0o666, what a file is created with when no mode is asked for. *)
Definition default_mode : Z := 438.

Definition write_credential_file (pf : platform) (path : string) (data : bytes) (d : Disk)
    : result unit io_error * Disk :=
  let new_mode := match pf with Unix => owner_only | Windows => default_mode end in
  match disk_open new_mode path d with
  | (Err e, d) => (Err e, d)
  | (Ok _, d) =>
      match (match pf with Unix => disk_set_permissions owner_only path d | Windows => (Ok tt, d) end) with
      | (Err e, d) => (Err e, d)
      | (Ok _, d) =>
          match disk_write_all path data d with
          | (Err e, d) => (Err e, d)
          | (Ok _, d) => disk_sync_all d
          end
      end
  end.

(** *** Lemmas on the disk *)

Lemma disk_fault_files d : disk_files (disk_fault d).2 = disk_files d.
Proof. unfold disk_fault. by destruct (disk_faults d). Qed.

Lemma disk_open_files nm path d r d' :
  disk_open nm path d = (r, d') ->
  (exists e, r = Err e /\ disk_files d' = disk_files d) \/
  (r = Ok tt /\ exists m, disk_files d' = <[path := {| mode := m; contents := [] |}]> (disk_files d)).
Proof.
  unfold disk_open. pose proof (disk_fault_files d) as Hd.
  destruct (disk_fault d) as [[|n] d1]; simpl in Hd; intros [= <- <-]; [right|left; eauto].
  split; [done|]. eexists. simpl. by rewrite Hd.
Qed.

Lemma disk_set_permissions_files m path d f r d' :
  disk_files d !! path = Some f -> disk_set_permissions m path d = (r, d') ->
  (exists e, r = Err e /\ disk_files d' = disk_files d) \/
  (r = Ok tt /\ disk_files d' = <[path := {| mode := m; contents := contents f |}]> (disk_files d)).
Proof.
  unfold disk_set_permissions. intros ->. pose proof (disk_fault_files d) as Hd.
  destruct (disk_fault d) as [[|n] d1]; simpl in Hd; intros [= <- <-]; [right|left; eauto].
  split; [done|]. simpl. by rewrite Hd.
Qed.

Lemma disk_write_all_files path data d f r d' :
  disk_files d !! path = Some f -> disk_write_all path data d = (r, d') ->
  exists n, disk_files d' = <[path := {| mode := mode f; contents := contents f ++ take n data |}]> (disk_files d) /\
    (r = Ok tt -> n = length data).
Proof.
  unfold disk_write_all. intros Hf. rewrite Hf. pose proof (disk_fault_files d) as Hd.
  destruct (disk_fault d) as [[|[n|]] d1]; simpl in Hd; intros [= <- <-]; simpl; rewrite Hd; eauto.
  { exists n. done. }
  exists O. rewrite app_nil_r. split; [|done]. symmetry. apply insert_id. by destruct f.
Qed.

(** Without faults the file is written and read back. *)
Lemma write_credential_file_ok pf path data d :
  disk_faults d = [] ->
  exists d' f, write_credential_file pf path data d = (Ok tt, d') /\ disk_faults d' = [] /\
    disk_files d' !! path = Some f /\ contents f = data.
Proof.
  destruct d as [fs faults um]. cbn [disk_faults]. intros ->.
  unfold write_credential_file, disk_open, disk_set_permissions, disk_write_all, disk_sync_all.
  destruct pf; repeat (cbn; rewrite ?lookup_insert_eq); do 2 eexists; (split; [done|]); (split; [done|]);
    cbn; rewrite lookup_insert_eq; (split; [done|]); cbn; by rewrite firstn_all.
Qed.

(** A write that succeeds leaves the contents in the file. *)
Lemma write_credential_file_contents pf path data d d' :
  write_credential_file pf path data d = (Ok tt, d') ->
  exists f, disk_files d' !! path = Some f /\ contents f = data.
Proof.
  unfold write_credential_file. intros Hw.
  destruct (disk_open _ _ _) as [[[]|e] d1] eqn:E1; [|done].
  apply disk_open_files in E1 as [(? & ? & _)|[_ (mo & E1)]]; [done|].
  assert (exists d2 f2, disk_files d2 !! path = Some f2 /\ contents f2 = [] /\
    match disk_write_all path data d2 with (Err e, d) => (Err e, d) | (Ok _, d) => disk_sync_all d end = (Ok tt, d'))
    as (d2 & f2 & Hf2 & Hc2 & Hw2).
  { destruct pf; [|exists d1; eexists; rewrite E1, lookup_insert_eq; eauto].
    destruct (disk_set_permissions _ _ _) as [[[]|e] d2] eqn:E2; [|done].
    eapply disk_set_permissions_files in E2; [|rewrite E1; apply lookup_insert_eq].
    destruct E2 as [(? & ? & _)|[_ E2]]; [done|]. exists d2. eexists. rewrite E2, lookup_insert_eq. eauto. }
  destruct (disk_write_all path data d2) as [[[]|e] d3] eqn:E3; [|done].
  eapply disk_write_all_files in E3 as (n & E3 & Hn); [|done].
  assert (disk_files d' = disk_files d3) as ->.
  { unfold disk_sync_all in Hw2. pose proof (disk_fault_files d3).
    destruct (disk_fault d3) as [[|k] d4]; by simplify_eq. }
  eexists. rewrite E3, lookup_insert_eq. split; [done|]. simpl. by rewrite Hc2, (Hn eq_refl), firstn_all.
Qed.

(** ** The machine and its commands *)

Record Machine {P : Primitives} {Nw : Type} := MkMachine {
  client_time : Z;
  client_generator : rng;
  disk : Disk;
  network : Nw;
  stdout : list string;
  stderr : list string;
}.
Arguments Machine {P} Nw.
Arguments MkMachine {P Nw}.

Section Client.
Context {P : Primitives} {H : Http} {Wi : Wire} {T : Texts} {J : SavedJson}.
Context {Nw : Type} {Net : TcpStream Nw} (pf : platform).

Abbreviation machine := (Machine Nw).
Definition command (A : Type) : Type := machine -> result A string * machine.

Definition cbind {A B} (c : command A) (k : A -> command B) : command B :=
  fun m => match c m with
           | (Ok a, m) => k a m
           | (Err e, m) => (Err e, m)
           end.
#[local] Notation "x <-? c ;; k" := (cbind c (fun x => k))
  (at level 60, c at next level, right associativity).

Definition lift {A} (r : result A string) : command A := fun m => (r, m).

(** [map_err]. *)
Definition map_err {A E F} (f : E -> F) (r : result A E) : result A F :=
  match r with Ok a => Ok a | Err e => Err (f e) end.

Definition on_network {A} (f : Nw -> result A string * Nw) : command A :=
  fun m => let '(r, n) := f (network m) in
    (r, MkMachine (client_time m) (client_generator m) (disk m) n (stdout m) (stderr m)).

Definition on_disk {A} (f : Disk -> result A io_error * Disk) (text : io_error -> string) : command A :=
  fun m => let '(r, d) := f (disk m) in
    (map_err text r,
     MkMachine (client_time m) (client_generator m) d (network m) (stdout m) (stderr m)).

(** A draw from the random generator. *)
Definition random {A} (f : rng -> A * rng) : command A :=
  fun m => let '(a, g) := f (client_generator m) in
    (Ok a, MkMachine (client_time m) g (disk m) (network m) (stdout m) (stderr m)).

Definition println (line : string) : command unit :=
  fun m => (Ok tt, MkMachine (client_time m) (client_generator m) (disk m) (network m)
                     (stdout m ++ [line]) (stderr m)).

(** ** Arguments *)

Definition usage : string :=
  "usage: decky-my-rig-test <pair|status|shutdown> --host HOST [--port PORT] [--code 483921] [--credential-file PATH]".

Definition newline : string := String LF EmptyString.

(** The loop over name and value pairs, into the map. *)
Fixpoint collect_arguments (arguments : list string) (values : gmap string string)
    : result (gmap string string) string :=
  match arguments with
  | [] => Ok values
  | [name] => Err ("missing value for " +:+ name +:+ newline +:+ usage)
  | name :: value :: arguments => collect_arguments arguments (<[name := value]> values)
  end.

Definition port_message : string := "--port must be in 1..=65535".

(** The options the map holds; a name that is left over is an error. *)
Definition options_of (command : string) (values : gmap string string) : result Options string :=
  let? host := ok_or (values !! "--host") ("--host is required" +:+ newline +:+ usage) in
  let values := delete "--host" values in
  let? port := ok_or (parse_u16 (default "47991" (values !! "--port"))) port_message in
  let values := delete "--port" values in
  if port =? 0 then Err port_message
  else
    let credential_file := default ".decky-my-rig-test.json" (values !! "--credential-file") in
    let values := delete "--credential-file" values in
    let code := values !! "--code" in
    let values := delete "--code" values in
    if negb (bool_decide (values = ∅)) then
      Err ("unknown arguments: " +:+ show_keys (map_to_list values).*1 +:+ newline +:+ usage)
    else Ok {| opt_command := command; opt_host := host; opt_port := port; opt_code := code;
               opt_credential_file := credential_file |}.

Definition parse_arguments (arguments : list string) : result Options string :=
  match arguments with
  | [] => Err usage
  | command :: arguments =>
      let? values := collect_arguments arguments ∅ in
      options_of command values
  end.

(** ** Requests *)

(** The part of [post] after the response was read. *)
Definition find_signature (response_headers : string) : option string :=
  match List.find (fun f : string * string => eq_ignore_ascii_case f.1 "x-decky-response-signature")
          (omap (split_once ":"%char) (lines response_headers)) with
  | Some (_, value) => Some (trim_text value)
  | None => None
  end.

Definition check_signature (path response_headers : string) (status : Z) (response_body : bytes)
    (response_authentication : option (bytes * bytes)) : result unit string :=
  match response_authentication with
  | None => Ok tt
  | Some (credential, request_nonce) =>
      let? signature := ok_or (find_signature response_headers) "host response authentication is missing" in
      let? signature := ok_or (hex_decode signature) "host response authentication is malformed" in
      map_err (fun _ => "host response authentication failed")
        (verify_response credential request_nonce path status response_body signature)
  end.

(** The status word of the first line. *)
Definition parse_status (response_headers : string) : option Z :=
  match lines response_headers with
  | [] => None
  | line :: _ =>
      match split_whitespace line !! 1%nat with
      | None => None
      | Some value => parse_u16 value
      end
  end.

Definition parse_response (path : string) (response : bytes)
    (response_authentication : option (bytes * bytes)) : result bytes string :=
  let? header_end := ok_or (position_blank response) "malformed HTTP response" in
  let? response_headers := ok_or (from_utf8 (take header_end response)) "malformed HTTP headers" in
  let? status := ok_or (parse_status response_headers) "malformed HTTP status" in
  let response_body := drop (header_end + 4) response in
  let? _ := check_signature path response_headers status response_body response_authentication in
  if negb ((200 <=? status) && (status <? 300)) then
    let detail := match decode (M := ErrorResponse) response_body with
                  | Some error => error_message error
                  | None => "host returned a malformed error"
                  end in
    Err ("host returned HTTP " +:+ to_string status +:+ ": " +:+ detail)
  else Ok response_body.

(** The head of the request, as it is formatted. *)
Definition request_head (path peer : string) (body : bytes) (headers : list (string * string)) : string :=
  let request := "POST " +:+ path +:+ " HTTP/1.1" +:+ CRLF +:+ "Host: " +:+ peer +:+ CRLF +:+
    "Content-Type: " +:+ CLIENT_CONTENT_TYPE +:+ CRLF +:+
    "Content-Length: " +:+ to_string (Z.of_nat (length body)) +:+ CRLF +:+
    "Connection: close" +:+ CRLF in
  let request := fold_left (fun request h => request +:+ (h.1 +:+ ": " +:+ h.2 +:+ CRLF)) headers request in
  request +:+ CRLF.

Definition post (options : Options) (path : string) (body : bytes) (headers : list (string * string))
    (response_authentication : option (bytes * bytes)) : command bytes :=
  let address := opt_host options +:+ ":" +:+ to_string (opt_port options) in
  _ <-? on_network (fun n => let '(r, n) := tcp_connect address n in
    (map_err (fun e => "could not connect to " +:+ address +:+ ": " +:+ e) r, n)) ;;
  peer <-? on_network (fun n => (tcp_peer_addr n, n)) ;;
  _ <-? on_network (tcp_write_all (as_bytes (request_head path peer body headers))) ;;
  _ <-? on_network (tcp_write_all body) ;;
  response <-? on_network tcp_read_to_end ;;
  lift (parse_response path response response_authentication).

(** [random_nonce] of the host's library. *)
Definition random_nonce (g : rng) : bytes * rng := fill_bytes NONCE_LENGTH g.

(** [Display] of [AuthError]. *)
Definition auth_error_to_string (e : AuthError) : string :=
  match e with
  | Malformed => "malformed authentication header"
  | Stale => "request timestamp is outside the accepted clock window"
  | Replay => "request nonce was already used"
  | Invalid => "request authentication failed"
  | RateLimited => "too many authentication failures"
  | Persistence => "authentication state could not be persisted"
  end.

Definition client_now_unix : command Z := fun m => (Ok (as_secs (Z.max 0 (client_time m))), m).

Definition authentication_headers (path : string) (body : bytes) (credential_hex : string)
    : command RequestAuthentication :=
  credential <-? lift (ok_or (hex_decode credential_hex) "invalid stored credential") ;;
  timestamp <-? client_now_unix ;;
  nonce <-? random random_nonce ;;
  signature <-? lift (map_err auth_error_to_string (sign credential timestamp nonce "POST" path body)) ;;
  lift (Ok {| auth_headers := [("x-decky-timestamp", to_string timestamp);
                               ("x-decky-nonce", hex_encode nonce);
                               ("x-decky-signature", hex_encode signature)];
              auth_credential := credential; auth_nonce := nonce |}).

Definition load_credential (options : Options) : command SavedCredential :=
  let path := opt_credential_file options in
  bytes <-? on_disk (disk_read path)
    (fun error => "could not read " +:+ path +:+ ": " +:+ show_io_error error) ;;
  lift (map_err (fun error => "invalid credential file: " +:+ error) (saved_from_slice bytes)).

(** ** Commands *)

Definition client_status (options : Options) : command unit :=
  saved <-? load_credential options ;;
  let body := encode_to_vec {| status_protocol_version := PROTOCOL_VERSION;
                               status_client_version := CLIENT_VERSION |} in
  authentication <-? authentication_headers "/v1/status" body (saved_credential saved) ;;
  answer <-? post options "/v1/status" body (auth_headers authentication)
    (Some (auth_credential authentication, auth_nonce authentication)) ;;
  response <-? lift (ok_or (decode (M := StatusResponse) answer)
    ("invalid status response: " +:+ show_decode_error answer)) ;;
  if negb (bool_decide (status_host_id response = saved_host_id saved)) then
    lift (Err "host identity differs from the paired host")
  else println ("online: " +:+ status_hostname response +:+ " host=" +:+ status_host_version response +:+
                " protocol=" +:+ to_string (status_response_protocol_version response)).

Definition client_shutdown (options : Options) : command unit :=
  saved <-? load_credential options ;;
  let body := encode_to_vec {| shutdown_protocol_version := PROTOCOL_VERSION;
                               shutdown_client_version := CLIENT_VERSION |} in
  authentication <-? authentication_headers "/v1/shutdown" body (saved_credential saved) ;;
  answer <-? post options "/v1/shutdown" body (auth_headers authentication)
    (Some (auth_credential authentication, auth_nonce authentication)) ;;
  response <-? lift (ok_or (decode (M := ShutdownResponse) answer)
    ("invalid shutdown response: " +:+ show_decode_error answer)) ;;
  if negb (accepted response) then lift (Err "host rejected shutdown")
  else println "shutdown accepted (the host controls whether shutdown is mocked)".

(** The six digits the user typed, without white space. *)
Definition typed_code (options : Options) : result string string :=
  let? code := ok_or (opt_code options) "pair requires --code" in
  let code := remove_whitespace code in
  if negb (str_len code =? 6)%nat || negb (str_all is_ascii_digit code)
  then Err "pairing code must contain six digits" else Ok code.

(** One round of the exchange. *)
Definition post_pair (options : Options) (request : PairRequest) : command PairResponse :=
  answer <-? post options "/v1/pair" (encode_to_vec request) [] None ;;
  lift (ok_or (decode (M := PairResponse) answer)
    ("invalid pairing response: " +:+ show_decode_error answer)).

(** The credential in the second answer. *)
Definition open_credential (shared : bytes) (paired : PairResponse) : result bytes string :=
  let? key := ok_or (hkdf_expand shared CLIENT_CREDENTIAL_INFO 32) "credential derivation failed" in
  let? nonce := ok_or (try_into_array 12 (encryption_nonce paired)) "invalid encryption nonce" in
  let? aad := map_err (fun _ => "host returned invalid pairing metadata")
    (credential_aad (host_spake2_message paired) (pair_response_session_id paired)
      {| context_hostname := pair_hostname paired; context_host_version := pair_host_version paired;
         context_protocol_version := pair_response_protocol_version paired;
         context_host_id := pair_host_id paired |}) in
  let? credential := ok_or (aead_decrypt key nonce (pair_encrypted_credential paired) aad)
    "the pairing code was rejected" in
  if negb (length credential =? 32)%nat then Err "host returned an invalid credential"
  else Ok credential.

Definition client_pair (options : Options) : command unit :=
  code <-? lift (typed_code options) ;;
  started_a <-? random (fun g => let '(client, msg, g) :=
    spake2_start_a (as_bytes code) (as_bytes "decky-client") (as_bytes "decky-host") g in
    ((client, msg), g)) ;;
  let '(client, client_message) := started_a in
  started <-? post_pair options
    {| pair_protocol_version := PROTOCOL_VERSION; pair_client_version := CLIENT_VERSION;
       client_spake2_message := client_message; pair_session_id := []; client_confirmation := [] |} ;;
  shared <-? lift (ok_or (spake2_finish client (host_spake2_message started)) "pairing exchange failed") ;;
  confirmation <-? lift (ok_or (hmac_new_from_slice shared) "pairing confirmation failed") ;;
  paired <-? post_pair options
    {| pair_protocol_version := PROTOCOL_VERSION; pair_client_version := CLIENT_VERSION;
       client_spake2_message := []; pair_session_id := pair_response_session_id started;
       client_confirmation := hmac_finalize confirmation (CLIENT_CONFIRMATION_DOMAIN ++
         client_message ++ host_spake2_message started ++ pair_response_session_id started) |} ;;
  credential <-? lift (open_credential shared paired) ;;
  let saved := {| saved_host_id := pair_host_id paired; saved_credential := hex_encode credential |} in
  data <-? lift (saved_to_vec_pretty saved) ;;
  _ <-? on_disk (write_credential_file pf (opt_credential_file options) data)
    (fun error => "could not save " +:+ opt_credential_file options +:+ ": " +:+ show_io_error error) ;;
  println ("paired with " +:+ pair_hostname paired +:+ " (" +:+ pair_host_id paired +:+ ")").

(** [env::args().skip(1)]. *)
Definition parse_options (argv : list string) : result Options string := parse_arguments (drop 1 argv).

Definition client_run (argv : list string) : command unit :=
  options <-? lift (parse_options argv) ;;
  if bool_decide (opt_command options = "pair") then client_pair options
  else if bool_decide (opt_command options = "status") then client_status options
  else if bool_decide (opt_command options = "shutdown") then client_shutdown options
  else lift (Err usage).

(** [main]: the exit code. *)
Definition client_main (argv : list string) (m : machine) : Z * machine :=
  match client_run argv m with
  | (Ok _, m) => (0, m)
  | (Err error, m) =>
      (1, MkMachine (client_time m) (client_generator m) (disk m) (network m) (stdout m)
            (stderr m ++ ["decky-my-rig-test: " +:+ error]))
  end.

(** ** Requests: what is accepted *)

Lemma cbind_Ok {A B} (c : command A) (k : A -> command B) m b m' :
  cbind c k m = (Ok b, m') <-> exists a m1, c m = (Ok a, m1) /\ k a m1 = (Ok b, m').
Proof.
  unfold cbind. destruct (c m) as [[a|e] m1]; split.
  - eauto.
  - intros (a' & m1' & [= <- <-] & Hk). done.
  - done.
  - intros (? & ? & ? & _). done.
Qed.

Lemma cbind_run {A B} (c : command A) (k : A -> command B) m a m' :
  c m = (Ok a, m') -> cbind c k m = k a m'.
Proof. unfold cbind. by intros ->. Qed.

Lemma lift_Ok {A} (r : result A string) m a m' : lift r m = (Ok a, m') <-> r = Ok a /\ m' = m.
Proof. unfold lift. split; [by intros [= -> <-]|by intros [-> ->]]. Qed.

Lemma ok_or_Ok {A E} (o : option A) (e : E) a : ok_or o e = Ok a <-> o = Some a.
Proof. destruct o; simpl; split; congruence. Qed.

(** The response text carries a status, a body and a header whose value is the
    signature of both under this credential for this nonce and path. *)
Definition signed_reply (credential nonce : bytes) (path : string) (response : bytes) (status : Z)
    (body : bytes) : Prop :=
  exists header_end response_headers signature sig,
    position_blank response = Some header_end /\
    from_utf8 (take header_end response) = Some response_headers /\
    parse_status response_headers = Some status /\ body = drop (header_end + 4) response /\
    find_signature response_headers = Some signature /\ hex_decode signature = Some sig /\
    sign_response credential nonce path status body = Ok sig.

(** One connection: what was written to the network, and what it gave back
    until it closed. *)
Definition exchanged (options : Options) (path : string) (body : bytes) (headers : list (string * string))
    (n n' : Nw) (response : bytes) : Prop :=
  exists peer n1 n2 n3,
    tcp_connect (opt_host options +:+ ":" +:+ to_string (opt_port options)) n = (Ok tt, n1) /\
    tcp_peer_addr n1 = Ok peer /\
    tcp_write_all (as_bytes (request_head path peer body headers)) n1 = (Ok tt, n2) /\
    tcp_write_all body n2 = (Ok tt, n3) /\ tcp_read_to_end n3 = (Ok response, n').

Lemma parse_response_signed {PL : PrimitivesLaws P} path response credential nonce body :
  parse_response path response (Some (credential, nonce)) = Ok body ->
  exists status, 200 <= status < 300 /\ signed_reply credential nonce path response status body.
Proof.
  unfold parse_response, check_signature. intros Hr.
  destruct (position_blank response) as [n|] eqn:En; [|done]. cbn [ok_or] in Hr.
  destruct (from_utf8 _) as [h|] eqn:Eh; [|done]. cbn [ok_or] in Hr.
  destruct (parse_status h) as [status|] eqn:Est; [|done]. cbn [ok_or] in Hr.
  destruct (find_signature h) as [s|] eqn:Ef; [|done]. cbn [ok_or] in Hr.
  destruct (hex_decode s) as [sig|] eqn:Ex; [|done]. cbn [ok_or] in Hr.
  destruct (verify_response _ _ _ _ _ _) as [[]|e] eqn:Ev; [|done]. simpl in Hr.
  destruct ((200 <=? status) && (status <? 300)) eqn:Es; [|done].
  simpl in Hr. injection Hr as <-. bool_to_prop. apply verify_response_iff in Ev.
  exists status. split; [lia|]. by exists n, h, s, sig.
Qed.

Lemma on_network_Ok {A} (f : Nw -> result A string * Nw) m a m' :
  on_network f m = (Ok a, m') <-> f (network m) = (Ok a, network m') /\
    m' = MkMachine (client_time m) (client_generator m) (disk m) (network m') (stdout m) (stderr m).
Proof.
  unfold on_network. destruct (f (network m)) as [r n]. split.
  - intros [= -> <-]. split; reflexivity.
  - intros [[= -> Hn] ->]. by rewrite Hn.
Qed.

Lemma post_signed {PL : PrimitivesLaws P} options path b hs credential nonce m body m' :
  post options path b hs (Some (credential, nonce)) m = (Ok body, m') ->
  exists response status, exchanged options path b hs (network m) (network m') response /\
    200 <= status < 300 /\ signed_reply credential nonce path response status body.
Proof.
  unfold post. intros Hp.
  apply cbind_Ok in Hp as ([] & m1 & H1 & Hp). apply on_network_Ok in H1 as [H1 _].
  apply cbind_Ok in Hp as (peer & m2 & H2 & Hp). apply on_network_Ok in H2 as [H2 _].
  apply cbind_Ok in Hp as ([] & m3 & H3 & Hp). apply on_network_Ok in H3 as [H3 _].
  apply cbind_Ok in Hp as ([] & m4 & H4 & Hp). apply on_network_Ok in H4 as [H4 _].
  apply cbind_Ok in Hp as (response & m5 & H5 & Hp). apply on_network_Ok in H5 as [H5 _].
  apply lift_Ok in Hp as [Hp ->]. apply parse_response_signed in Hp as (status & Hst & Hs).
  exists response, status. split; [|done]. injection H2 as H2 En. rewrite <- En in H3.
  destruct (tcp_connect _ _) as [[[]|] n1] eqn:Ec; [|done]. injection H1 as ->.
  by exists peer, (network m1), (network m3), (network m4).
Qed.

Lemma authentication_headers_Ok path b hex m a m' :
  authentication_headers path b hex m = (Ok a, m') ->
  hex_decode hex = Some (auth_credential a) /\
  auth_nonce a = (fill_bytes NONCE_LENGTH (client_generator m)).1 /\
  ("x-decky-nonce", hex_encode (auth_nonce a)) ∈ auth_headers a /\ network m' = network m.
Proof.
  unfold authentication_headers. intros Hp.
  apply cbind_Ok in Hp as (c & m1 & Hc & Hp). apply lift_Ok in Hc as [Hc ->].
  apply ok_or_Ok in Hc.
  apply cbind_Ok in Hp as (t & m2 & Ht & Hp). injection Ht as <- <-.
  apply cbind_Ok in Hp as (n & m3 & Hn & Hp).
  apply cbind_Ok in Hp as (s & m4 & Hs & Hp). apply lift_Ok in Hs as [_ ->].
  apply lift_Ok in Hp as [[= <-] ->]. cbn [auth_credential auth_nonce auth_headers].
  unfold random, random_nonce in Hn.
  destruct (fill_bytes NONCE_LENGTH (client_generator m)) as [x g]. injection Hn as <- <-.
  split; [done|]. split; [done|]. split; [|done]. rewrite !elem_of_cons. auto.
Qed.

Lemma load_credential_Ok options m saved m' :
  load_credential options m = (Ok saved, m') ->
  (exists f, disk_files (disk m) !! opt_credential_file options = Some f /\
     saved_from_slice (contents f) = Ok saved) /\
  client_generator m' = client_generator m /\ network m' = network m.
Proof.
  unfold load_credential. intros Hp. apply cbind_Ok in Hp as (l & m1 & Hl & Hp).
  apply lift_Ok in Hp as [Hp ->]. unfold on_disk, disk_read, disk_fault in Hl.
  destruct (disk_faults (disk m)) as [|[] fs]; [| |done];
    (destruct (disk_files (disk m) !! _) as [f|]; [|done]); simpl in Hl; injection Hl as <- <-;
    (split; [|done]); exists f; (split; [done|]); destruct (saved_from_slice _); by simpl in Hp; simplify_eq.
Qed.

(** C23: whatever the network does, the client reports a shutdown as accepted
    only when the bytes that its own connection gave back, after it sent the
    nonce it drew for this request, are a response whose signature header is
    that of its status and body under the credential of the client's file and
    for that nonce, and whose body is an acceptance. *)
Theorem client_shutdown_authentic {PL : PrimitivesLaws P} options m m' :
  client_shutdown options m = (Ok tt, m') ->
  let nonce := (fill_bytes NONCE_LENGTH (client_generator m)).1 in
  exists f saved credential body headers response status answer,
    disk_files (disk m) !! opt_credential_file options = Some f /\
    saved_from_slice (contents f) = Ok saved /\ hex_decode (saved_credential saved) = Some credential /\
    ("x-decky-nonce", hex_encode nonce) ∈ headers /\
    exchanged options "/v1/shutdown" body headers (network m) (network m') response /\
    signed_reply credential nonce "/v1/shutdown" response status answer /\
    200 <= status < 300 /\ decode answer = Some {| accepted := true |}.
Proof.
  intros Hp nonce. unfold client_shutdown in Hp.
  apply cbind_Ok in Hp as (saved & m1 & Hl & Hp). cbv zeta in Hp.
  apply load_credential_Ok in Hl as ((f & Hf & Hs) & Hg & Hw).
  apply cbind_Ok in Hp as (a & m2 & Ha & Hp). apply authentication_headers_Ok in Ha as (Hc & Hn & Hin & Hw2).
  apply cbind_Ok in Hp as (answer & m3 & Hpost & Hp).
  apply post_signed in Hpost as (response & st & He & Hst & Hsig).
  apply cbind_Ok in Hp as (decoded & m4 & Hd & Hp). apply lift_Ok in Hd as [Hd ->].
  apply ok_or_Ok in Hd. destruct decoded as [[]]; [|done]. unfold println in Hp. cbn in Hp. simplify_eq.
  rewrite Hg in Hn. rewrite Hw2, Hw in He. subst nonce. rewrite <- Hn. eauto 20.
Qed.

(** What the credential in a pairing answer was protected with. *)
Lemma open_credential_Ok shared paired credential :
  open_credential shared paired = Ok credential ->
  length credential = 32%nat /\
  exists key aad, hkdf_expand shared CLIENT_CREDENTIAL_INFO 32 = Some key /\
    credential_aad (host_spake2_message paired) (pair_response_session_id paired)
      {| context_hostname := pair_hostname paired; context_host_version := pair_host_version paired;
         context_protocol_version := pair_response_protocol_version paired;
         context_host_id := pair_host_id paired |} = Ok aad /\
    aead_decrypt key (encryption_nonce paired) (pair_encrypted_credential paired) aad = Some credential.
Proof.
  unfold open_credential. destruct (hkdf_expand _ _ _) as [key|]; [|done]. cbn [ok_or].
  destruct (try_into_array 12 _) as [nonce|] eqn:En; [|done]. cbn [ok_or].
  apply try_into_array_Some in En as [-> _].
  destruct (credential_aad _ _ _) as [aad|] eqn:Ea; [|done]. cbn [map_err].
  destruct (aead_decrypt _ _ _ _) as [c|] eqn:Ed; [|done]. cbn [ok_or].
  destruct (Nat.eqb_spec (length c) 32) as [Hl|]; simpl negb; cbv iota; [|done]. intros [= <-]. eauto 10.
Qed.

(** Whatever the network answers, a pairing the client reports as done has
    stored a credential of 32 bytes that was decrypted under the key of an
    exchange over the typed code, with associated data that binds the host
    identity stored beside it. *)
Theorem client_pair_authentic options m m' :
  client_pair options m = (Ok tt, m') ->
  exists code shared host_message paired credential key aad data f,
    typed_code options = Ok code /\
    spake2_finish (spake2_start_a (as_bytes code) (as_bytes "decky-client") (as_bytes "decky-host")
                     (client_generator m)).1.1 host_message = Some shared /\
    hkdf_expand shared CLIENT_CREDENTIAL_INFO 32 = Some key /\
    credential_aad (host_spake2_message paired) (pair_response_session_id paired)
      {| context_hostname := pair_hostname paired; context_host_version := pair_host_version paired;
         context_protocol_version := pair_response_protocol_version paired;
         context_host_id := pair_host_id paired |} = Ok aad /\
    aead_decrypt key (encryption_nonce paired) (pair_encrypted_credential paired) aad = Some credential /\
    length credential = 32%nat /\
    saved_to_vec_pretty {| saved_host_id := pair_host_id paired; saved_credential := hex_encode credential |}
      = Ok data /\
    disk_files (disk m') !! opt_credential_file options = Some f /\ contents f = data.
Proof.
  unfold client_pair. intros Hp.
  apply cbind_Ok in Hp as (code & m1 & Hc & Hp). apply lift_Ok in Hc as [Hc ->].
  apply cbind_Ok in Hp as ([client msg] & m2 & Hr & Hp).
  apply cbind_Ok in Hp as (started & m3 & _ & Hp).
  apply cbind_Ok in Hp as (shared & m4 & Hs & Hp). apply lift_Ok in Hs as [Hs ->]. apply ok_or_Ok in Hs.
  apply cbind_Ok in Hp as (mac & m5 & _ & Hp).
  apply cbind_Ok in Hp as (paired & m6 & _ & Hp).
  apply cbind_Ok in Hp as (credential & m7 & Ho & Hp). apply lift_Ok in Ho as [Ho ->].
  apply open_credential_Ok in Ho as (Hlen & key & aad & Hk & Ha & Hd).
  apply cbind_Ok in Hp as (data & m8 & Hj & Hp). apply lift_Ok in Hj as [Hj ->].
  apply cbind_Ok in Hp as ([] & m9 & Hw & Hp). unfold println in Hp. cbn in Hp. simplify_eq.
  assert (client = (spake2_start_a (as_bytes code) (as_bytes "decky-client") (as_bytes "decky-host")
    (client_generator m)).1.1) as ->.
  { unfold random in Hr. destruct (spake2_start_a _ _ _ _) as [[x y] g]. by injection Hr as <- _ _. }
  unfold on_disk in Hw.
  destruct (write_credential_file _ _ _ _) as [[[]|e] d'] eqn:Ew; [|done]. injection Hw as <-.
  apply write_credential_file_contents in Ew as (f & Hf & Hcf).
  by exists code, shared, (host_spake2_message started), paired, credential, key, aad, data, f.
Qed.

End Client.

(** ** Arguments *)

(** A command line that spells out every option. *)
Definition print_arguments (o : Options) : list string :=
  [opt_command o; "--host"; opt_host o; "--port"; to_string (opt_port o);
   "--credential-file"; opt_credential_file o] ++
  match opt_code o with Some c => ["--code"; c] | None => [] end.

Lemma options_of_values {T : Texts} o values :
  1 <= opt_port o <= u16_max ->
  values !! "--host" = Some (opt_host o) -> values !! "--port" = Some (to_string (opt_port o)) ->
  values !! "--credential-file" = Some (opt_credential_file o) -> values !! "--code" = opt_code o ->
  dom values ⊆ ({["--host"; "--port"; "--credential-file"; "--code"]} : gset string) ->
  options_of (opt_command o) values = Ok o.
Proof.
  intros Hp H1 H2 H3 H4 Hd. unfold options_of. rewrite H1. cbn [ok_or].
  rewrite lookup_delete_ne, H2 by done. cbn [from_option id].
  unfold parse_u16.
  rewrite (parse_uint_to_string u16_max (opt_port o)) by (unfold u16_max in *; lia).
  cbn [ok_or]. rewrite (proj2 (Z.eqb_neq (opt_port o) 0)) by lia.
  rewrite !lookup_delete_ne, H3, H4 by done. cbn [from_option id].
  rewrite bool_decide_eq_true_2; [by destruct o|].
  apply dom_empty_inv_L. rewrite !dom_delete_L. set_solver.
Qed.

(** Every set of options can be written as arguments, and is read back. *)
Theorem arguments_round_trip {T : Texts} o :
  1 <= opt_port o <= u16_max -> parse_arguments (print_arguments o) = Ok o.
Proof.
  intros Hp. unfold print_arguments, parse_arguments.
  destruct (opt_code o) as [c|] eqn:Ec; cbn [app collect_arguments]; apply options_of_values;
    rewrite ?Ec, ?dom_insert_L, ?lookup_insert_eq, ?lookup_insert_ne by done;
    rewrite ?lookup_insert_eq, ?lookup_insert_ne by done; rewrite ?lookup_insert_eq; done || set_solver.
Qed.

(** ** The credential file *)

(** On Unix the credential is only ever in a file that its owner alone can
    read: whatever fails, the file is as it was, empty, or has mode 0600 (also
    when it existed with wider permissions), and no other file changes; when
    nothing fails it holds the credential. *)
Theorem credential_file_owner_only path data d :
  let '(r, d') := write_credential_file Unix path data d in
  (disk_files d' = disk_files d \/
   exists f, disk_files d' = <[path := f]> (disk_files d) /\ (contents f = [] \/ mode f = owner_only)) /\
  (r = Ok tt -> disk_files d' !! path = Some {| mode := owner_only; contents := data |}).
Proof.
  destruct (write_credential_file Unix path data d) as [r d'] eqn:Hw.
  unfold write_credential_file in Hw.
  destruct (disk_open _ _ _) as [[[]|e] d1] eqn:E1; apply disk_open_files in E1.
  2:{ destruct E1 as [(e' & _ & E1)|[? _]]; [|done]. simplify_eq. split; [by left|done]. }
  destruct E1 as [(? & ? & _)|[_ (m & E1)]]; [done|].
  destruct (disk_set_permissions _ _ _) as [[[]|e] d2] eqn:E2;
    eapply disk_set_permissions_files in E2; [|rewrite E1; apply lookup_insert_eq| |rewrite E1; apply lookup_insert_eq].
  2:{ destruct E2 as [(e' & _ & E2)|[? _]]; [|done]. simplify_eq. rewrite E2, E1.
      split; [right; eauto|done]. }
  destruct E2 as [(? & ? & _)|[_ E2]]; [done|]. rewrite E1, insert_insert_eq in E2.
  destruct (disk_write_all _ _ _) as [r3 d3] eqn:E3.
  eapply disk_write_all_files in E3 as (n & E3 & Hn); [|rewrite E2; apply lookup_insert_eq].
  rewrite E2, insert_insert_eq in E3. simpl in E3.
  assert (disk_files d' = disk_files d3 /\ (r = Ok tt -> r3 = Ok tt)) as [-> Hr].
  { destruct r3 as [[]|e]; [|by injection Hw as <- <-].
    unfold disk_sync_all in Hw. pose proof (disk_fault_files d3) as Hd.
    destruct (disk_fault d3) as [[|k] d4]; by injection Hw as <- <-. }
  rewrite E3. split; [right; eexists; split; [done|by right]|].
  intros H. rewrite lookup_insert_eq, (Hn (Hr H)), firstn_all. done.
Qed.
