(* ===== verification/Link.v ===== *)
(** * A client connected to the host

    hyper, which reads requests from and writes responses to a connection for
    the host, is a parameter with the laws of RFC 9112 it implements.  [Link]
    is a network whose only peer is the host of [Server]: what the client
    writes is read by hyper, routed, run, and what hyper writes is what the
    client reads.  The lemmas show that the two ends understand each other's
    text, so that [post] is a call of [router]. *)
From stdpp Require Import base gmap list strings.
From Stdlib Require Import Ascii.
From S2P Require Import Prelude RustStd Fs Primitives Auth Pairing Storage Power Versioning Wire Runtime Server HttpText Client.
Open Scope string_scope.
Open Scope Z_scope.
Open Scope list_scope.

Definition lowercase (s : string) : string := str_map char_to_ascii_lowercase s.

(** ** hyper *)

Class Hyper {H : Http} := {
  (** method, path, headers and body of the request on a connection *)
  hyper_read : bytes -> option (string * string * HeaderMap * bytes);
  hyper_write : Response -> bytes;
}.

(** The fields hyper adds to a response whose body has a known length. *)
Definition added_fields : list string := ["content-length"; "date"; "connection"].

(** The headers of a response as text. *)
Definition header_texts {H : Http} (r : Response) (texts : list (string * string)) : Prop :=
  Forall2 (fun h t => h.1 = t.1 /\ header_to_str h.2 = Some t.2) (headers r) texts.

Class HyperLaws {H : Http} (Y : Hyper) : Prop := {
  hyper_reads m p fields b :
    graphic m = true -> graphic p = true -> m <> "" -> p <> "" ->
    Forall field_ok fields -> NoDup (map lowercase fields.*1) ->
    ("Content-Length", to_string (Z.of_nat (length b))) ∈ fields ->
    exists hs, hyper_read (message_text (request_line m p) fields b) = Some (m, p, hs, b) /\
      forall n v, (n, v) ∈ fields ->
        exists x, headers_get hs (lowercase n) = Some x /\ header_to_str x = Some v;
  hyper_writes r texts :
    100 <= status_code r <= 999 -> header_texts r texts -> Forall field_ok texts ->
    exists reason fields,
      hyper_write r = message_text (status_line (status_code r) reason) fields (response_body r) /\
      visible_ascii reason = true /\ Forall field_ok fields /\ texts ⊆ fields /\
      forall f, f ∈ fields -> f ∈ texts \/ lowercase f.1 ∈ added_fields;
}.

(** ** The text of a request *)

Definition request_fields (peer : string) (body : bytes) (headers : list (string * string))
    : list (string * string) :=
  [("Host", peer); ("Content-Type", CLIENT_CONTENT_TYPE);
   ("Content-Length", to_string (Z.of_nat (length body))); ("Connection", "close")] ++ headers.

Definition crlf_lines (ls : list string) : string := str_concat (map (fun l => l +:+ CRLF) ls).

Lemma crlf_lines_cons l ls : crlf_lines (l :: ls) = l +:+ CRLF +:+ crlf_lines ls.
Proof. unfold crlf_lines. cbn [map str_concat]. apply str_app_assoc. Qed.

Lemma join_lines_crlf first rest : join_lines first rest +:+ CRLF = crlf_lines (first :: rest).
Proof.
  revert first; induction rest as [|l rest IH]; intros first; rewrite crlf_lines_cons; cbn [join_lines].
  - by rewrite str_app_nil_r.
  - by rewrite !str_app_assoc, IH.
Qed.

Lemma fold_headers hs acc :
  fold_left (fun request h => request +:+ (h.1 +:+ ": " +:+ h.2 +:+ CRLF)) hs acc =
    acc +:+ crlf_lines (map field_line hs).
Proof.
  revert acc; induction hs as [|h hs IH]; intros acc; cbn [fold_left map].
  - by rewrite str_app_nil_r.
  - rewrite IH, crlf_lines_cons. unfold field_line. by rewrite !str_app_assoc.
Qed.

(** What [post] writes is a well-laid-out request. *)
Lemma request_head_text path peer body headers :
  as_bytes (request_head path peer body headers) ++ body =
    message_text (request_line "POST" path) (request_fields peer body headers) body.
Proof.
  unfold message_text, message_head. rewrite app_assoc. f_equal.
  change blank_line with (as_bytes (CRLF +:+ CRLF)). rewrite <- as_bytes_app. f_equal.
  rewrite <- str_app_assoc, join_lines_crlf. unfold request_head. cbv zeta.
  rewrite fold_headers. unfold request_fields. cbn [map app]. rewrite !crlf_lines_cons.
  unfold request_line, field_line at 1 2 3 4. cbn [fst snd]. by rewrite !str_app_assoc.
Qed.

(** ** Reading a response *)

Section Responses.
Context {P : Primitives} {H : Http} {Wi : Wire}.

Lemma status_line_ok status reason :
  visible_ascii reason = true ->
  visible_ascii (status_line status reason) = true /\ status_line status reason <> "".
Proof.
  intros Hr. unfold status_line. rewrite !visible_app, Hr.
  rewrite (graphic_visible (to_string status)) by apply digits_graphic, to_string_digits. done.
Qed.

Lemma message_lines_ok start fields :
  visible_ascii start = true -> start <> "" -> Forall field_ok fields ->
  Forall (fun l => visible_ascii l = true /\ l <> "") (start :: map field_line fields).
Proof.
  intros H1 H2 HF. constructor; [done|]. apply Forall_map. eapply Forall_impl; [done|].
  intros f Hf. split; [by apply field_line_visible | by apply field_line_nonempty].
Qed.

(** The head of a message is found where it ends. *)
Lemma message_head_found start fields body :
  visible_ascii start = true -> start <> "" -> Forall field_ok fields ->
  let n := str_len (message_head start fields) in
  position_blank (message_text start fields body) = Some n /\
  from_utf8 (take n (message_text start fields body)) = Some (message_head start fields) /\
  drop (n + 4) (message_text start fields body) = body /\
  lines (message_head start fields) = start :: map field_line fields.
Proof.
  intros H1 H2 HF n. pose proof (message_lines_ok _ _ H1 H2 HF) as HL. unfold n, message_text, message_head.
  split; [by apply position_blank_join|]. rewrite <- as_bytes_length. split; [|split].
  - rewrite take_app_length. by apply from_utf8_ascii, join_lines_ascii.
  - rewrite drop_app_add. done.
  - by apply lines_join.
Qed.

Lemma status_word status reason :
  split_whitespace (status_line status reason) !! 1%nat = Some (to_string status).
Proof.
  destruct (split_whitespace_two "HTTP/1.1" (to_string status) reason) as [ws E];
    [done|apply digits_graphic, to_string_digits|done|apply to_string_nonempty|].
  change (status_line status reason) with ("HTTP/1.1" +:+ " " +:+ to_string status +:+ " " +:+ reason).
  by rewrite E.
Qed.

(** The field with the name of the signature, as [find_signature] sees it. *)
Definition is_signature (f : string * string) : bool :=
  eq_ignore_ascii_case f.1 "x-decky-response-signature".

Lemma find_fields fields :
  Forall field_ok fields ->
  List.find is_signature (omap (split_once ":"%char) (map field_line fields)) =
    match List.find is_signature fields with Some f => Some (f.1, " " +:+ f.2) | None => None end.
Proof.
  induction fields as [|f fields IH]; intros HF; [done|].
  apply Forall_cons in HF as [Hf HF]. cbn [map omap list_omap].
  rewrite split_once_field by done. cbn [List.find].
  change (is_signature (f.1, " " +:+ f.2)) with (is_signature f).
  destruct (is_signature f); [done|]. by apply IH.
Qed.

Lemma status_line_no_signature status reason f :
  split_once ":"%char (status_line status reason) = Some f -> is_signature f = false.
Proof.
  change (status_line status reason) with (String "H"%char ("TTP/1.1 " +:+ to_string status +:+ " " +:+ reason)).
  generalize ("TTP/1.1 " +:+ to_string status +:+ " " +:+ reason). intros s. cbn [split_once].
  change (Ascii.eqb "H"%char ":"%char) with false. cbv iota.
  destruct (split_once ":"%char s) as [[a b]|]; [|done]. intros [= <-].
  unfold is_signature, eq_ignore_ascii_case. apply bool_decide_eq_false. cbn [fst str_map]. discriminate.
Qed.

Lemma find_signature_text status reason fields :
  visible_ascii reason = true -> Forall field_ok fields ->
  find_signature (message_head (status_line status reason) fields) =
    match List.find is_signature fields with Some f => Some f.2 | None => None end.
Proof.
  intros Hr HF. destruct (status_line_ok status reason Hr) as [H1 H2]. unfold find_signature.
  destruct (message_head_found (status_line status reason) fields [] H1 H2 HF) as (_ & _ & _ & ->).
  change (fun f : string * string => eq_ignore_ascii_case f.1 "x-decky-response-signature")
    with is_signature.
  assert (List.find is_signature (omap (split_once ":"%char)
      (status_line status reason :: map field_line fields)) =
    List.find is_signature (omap (split_once ":"%char) (map field_line fields))) as ->.
  { cbn [omap list_omap]. destruct (split_once ":"%char (status_line status reason)) as [f|] eqn:E; [|done].
    cbn [List.find]. by rewrite (status_line_no_signature _ _ _ E). }
  rewrite (find_fields fields HF).
  destruct (List.find is_signature fields) as [f|] eqn:Ef; [|done].
  apply List.find_some in Ef as [Hin _]. rewrite Forall_forall in HF.
  destruct (HF f) as (_ & _ & _ & _ & Ht); [by apply list_elem_of_In|]. f_equal. by apply trim_text_space.
Qed.

(** The text of a response is read as its status, its signature and its body. *)
Lemma parse_response_text path status reason fields body auth :
  in_range u16_max status -> visible_ascii reason = true -> Forall field_ok fields ->
  200 <= status < 300 ->
  (forall c n, auth = Some (c, n) -> exists f sig, List.find is_signature fields = Some f /\
     hex_decode f.2 = Some sig /\ verify_response c n path status body sig = Ok tt) ->
  parse_response path (message_text (status_line status reason) fields body) auth = Ok body.
Proof.
  intros [Hs0 Hs1] Hr HF H2xx Hauth. destruct (status_line_ok status reason Hr) as [H1 H2].
  pose proof (message_head_found (status_line status reason) fields body H1 H2 HF) as (E1 & E2 & E3 & E4).
  unfold parse_response, parse_status. rewrite E1. cbn [ok_or]. rewrite E2, E3. cbn [ok_or]. rewrite E4, status_word.
  unfold parse_u16. rewrite parse_uint_to_string by (unfold u16_max in *; lia). cbn [ok_or].
  assert (check_signature path (message_head (status_line status reason) fields) status body auth = Ok tt) as ->.
  { unfold check_signature. destruct auth as [[c n]|]; [|done].
    destruct (Hauth c n eq_refl) as (f & sig & Hf & Hd & Hv).
    rewrite find_signature_text, Hf by done. cbn [ok_or]. rewrite Hd. cbn [ok_or]. by rewrite Hv. }
  rewrite (proj2 (Z.leb_le _ _)), (proj2 (Z.ltb_lt _ _)) by lia. done.
Qed.

End Responses.

(** ** The network *)

Record Link {P : Primitives} {St Pw : Type} := MkLink {
  link_state : AppState;
  link_env : Env St Pw;
  link_sent : bytes;
}.
Arguments Link {P} St Pw.
Arguments MkLink {P St Pw}.

Section Network.
Context {P : Primitives} {PL : PrimitivesLaws P} {H : Http} {HL : HttpLaws H} {Wi : Wire}.
Context {Y : Hyper} {YL : HyperLaws Y}.
Context {St : Type} {CS : CredentialStore St} {Pw : Type} {PC : PowerController Pw}.
Context (pf : platform) (hostname peer : string) (src : option IpAddr) (delay : Z).

Abbreviation env := (Env St Pw).
Abbreviation machine := (Machine (Link St Pw)).
Implicit Types (w : AppState) (e : env) (m : machine).

(** The time a request takes to arrive passes on both of the host's clocks. *)
Definition later e : env :=
  MkEnv (system_time e + delay) (monotonic e + delay) (generator e) (store e) (power e).

(** The host's answer to what was sent; a task that panics closes the
    connection. *)
Definition answer (n : Link St Pw) : result bytes string * Link St Pw :=
  match hyper_read (link_sent n) with
  | None => (Ok (as_bytes "HTTP/1.1 400 Bad Request" ++ blank_line),
             MkLink (link_state n) (later (link_env n)) [])
  | Some (m, p, hs, b) =>
      match run (router pf hostname m p src hs b) (link_state n) (later (link_env n)) with
      | (Done r, w, e) => (Ok (hyper_write r), MkLink w e [])
      | (Panicked, w, e) => (Err "connection reset by peer", MkLink w e [])
      end
  end.

#[export] Instance link_tcp : TcpStream (Link St Pw) := {|
  tcp_connect _ n := (Ok tt, MkLink (link_state n) (link_env n) []);
  tcp_peer_addr _ := Ok peer;
  tcp_write_all l n := (Ok tt, MkLink (link_state n) (link_env n) (link_sent n ++ l));
  tcp_read_to_end := answer;
|}.

Definition with_network (n : Link St Pw) m : machine :=
  MkMachine (client_time m) (client_generator m) (disk m) n (stdout m) (stderr m).

Abbreviation state_of m := (link_state (network m)).
Abbreviation env_of m := (link_env (network m)).

Lemma post_equation opts path body hdrs auth m :
  post opts path body hdrs auth m =
    match answer (MkLink (state_of m) (env_of m)
            (message_text (request_line "POST" path) (request_fields peer body hdrs) body)) with
    | (Ok response, n) => (parse_response path response auth, with_network n m)
    | (Err x, n) => (Err x, with_network n m)
    end.
Proof.
  rewrite <- request_head_text. unfold post, cbind, on_network. simpl.
  destruct (answer _) as [[response|x] n]; done.
Qed.

Lemma find_signature_field (fields texts : list (string * string)) :
  texts ⊆ fields -> (forall f, f ∈ fields -> f ∈ texts \/ lowercase f.1 ∈ added_fields) ->
  Exists (fun f => is_signature f = true) texts ->
  exists f, List.find is_signature fields = Some f /\ f ∈ texts.
Proof.
  intros Hsub Hadd Hex. destruct (List.find is_signature fields) as [f|] eqn:E.
  - exists f. split; [done|]. apply List.find_some in E as [Hin Hs].
    destruct (Hadd f) as [?|Ha]; [by apply list_elem_of_In|done|]. exfalso.
    unfold is_signature, eq_ignore_ascii_case in Hs. bool_to_prop. unfold lowercase in Ha.
    rewrite Hs in Ha. revert Ha. apply (bool_decide_unpack (_ ∉ _)). vm_compute. done.
  - apply Exists_exists in Hex as (f & Hf & Hs). apply Hsub, list_elem_of_In in Hf.
    pose proof (List.find_none _ _ E f Hf). congruence.
Qed.

(** A signed or unsigned exchange with a host that answers with success. *)
Lemma post_link opts path body hdrs auth m :
  graphic path = true -> path <> "" -> graphic peer = true -> Forall field_ok hdrs ->
  NoDup (map lowercase (request_fields peer body hdrs).*1) ->
  exists hs,
    (forall n v, (n, v) ∈ request_fields peer body hdrs -> header hs (lowercase n) = Some v) /\
    forall r w' e' texts,
      run (router pf hostname "POST" path src hs body) (state_of m) (later (env_of m)) = (Done r, w', e') ->
      200 <= status_code r < 300 -> header_texts r texts -> Forall field_ok texts ->
      (forall c n, auth = Some (c, n) -> Exists (fun f => is_signature f = true) texts /\
         forall f, f ∈ texts -> is_signature f = true -> exists sig, hex_decode f.2 = Some sig /\
           verify_response c n path (status_code r) (response_body r) sig = Ok tt) ->
      post opts path body hdrs auth m = (Ok (response_body r), with_network (MkLink w' e' []) m).
Proof.
  intros Hp Hpn Hpeer Hh Hnd.
  assert (Forall field_ok (request_fields peer body hdrs)) as HF.
  { unfold request_fields. apply Forall_app_2; [|done].
    repeat constructor; simpl; try done; try by apply graphic_visible.
    - by apply graphic_trim.
    - apply graphic_visible, digits_graphic, to_string_digits.
    - apply graphic_trim, digits_graphic, to_string_digits. }
  destruct (hyper_reads "POST" path (request_fields peer body hdrs) body) as (hs & Hr & Hg); try done.
  { unfold request_fields. apply elem_of_app. left. do 2 apply list_elem_of_further. apply list_elem_of_here. }
  exists hs. split.
  { intros n v Hin. unfold header. destruct (Hg n v Hin) as (x & -> & ->). done. }
  intros r w' e' texts Hrun Hst Ht HT Hauth. rewrite post_equation. unfold answer. cbn [link_sent link_state link_env].
  rewrite Hr, Hrun. f_equal.
  destruct (hyper_writes r texts) as (reason & fields & -> & Hrv & HF' & Hsub & Hadd); [lia|done|done|].
  apply parse_response_text; [unfold in_range, u16_max; lia|done|done|done|].
  intros c n E. destruct (Hauth c n E) as [Hex Hall].
  destruct (find_signature_field fields texts Hsub Hadd Hex) as (f & Hf & Hin).
  exists f. pose proof (List.find_some _ _ Hf) as [_ Hs]. destruct (Hall f Hin Hs) as (sig & ? & ?). eauto.
Qed.

End Network.
