(* ===== verification/EndToEnd.v ===== *)
(** * The client and the host together

    The command line client of [Client] talks to the host of [Server] over the
    network of [Link]: pairing gives both the same credential, and with it the
    client's status and shutdown commands succeed. *)
From stdpp Require Import base gmap list strings.
From Stdlib Require Import Ascii.
From S2P Require Import Prelude RustStd Fs Primitives Auth Pairing Storage Power Versioning Wire Samples Runtime Server Management Requests PairRequests HostRounds HttpText Client Link.
Open Scope string_scope.
Open Scope Z_scope.
Open Scope list_scope.

(** What the sizes of messages depend on: those of SPAKE2, and that Protobuf
    adds a few bytes per field. *)
Class SizeLaws (P : Primitives) (W : Wire) : Prop := {
  size_spake2 :: Spake2Size P;
  pair_request_size (m : PairRequest) :
    (length (encode_to_vec m) <= 64 + 2 * (length (client_spake2_message m) + length (pair_session_id m) +
       length (client_confirmation m) + str_len (pair_client_version m)))%nat;
  status_request_size (m : StatusRequest) :
    (length (encode_to_vec m) <= 64 + 2 * str_len (status_client_version m))%nat;
  shutdown_request_size (m : ShutdownRequest) :
    (length (encode_to_vec m) <= 64 + 2 * str_len (shutdown_client_version m))%nat;
}.

(** ** The exchange itself *)

Section Exchange.
Context {P : Primitives} {PL : PrimitivesLaws P}.

Lemma client_domain : CLIENT_CONFIRMATION_DOMAIN = CONFIRMATION_DOMAIN.
Proof. by vm_compute. Qed.

Lemma client_info : CLIENT_CREDENTIAL_INFO = CREDENTIAL_INFO.
Proof. by vm_compute. Qed.

Lemma client_ids : as_bytes "decky-client" = CLIENT_ID /\ as_bytes "decky-host" = HOST_ID.
Proof. by vm_compute. Qed.

End Exchange.

Section EndToEnd.
Context {P : Primitives} {PL : PrimitivesLaws P} {H : Http} {HL : HttpLaws H}.
Context {Wi : Wire} {WL : WireLaws Wi} {SZ : SizeLaws P Wi} {Y : Hyper} {YL : HyperLaws Y}.
Context {T : Texts} {J : SavedJson} {JL : SavedJsonLaws J}.
Context {St : Type} {CS : CredentialStore St} {stored : St -> HostIdentity -> Prop}
  {fault_free : St -> Prop} {SL : CredentialStoreLaws St stored fault_free}.
Context {Pw : Type} {PC : PowerController Pw}.
Context (pf client_pf : platform) (hostname peer : string) (src : option IpAddr) (delay : Z).

#[local] Instance net : TcpStream (Link St Pw) := link_tcp pf hostname peer src delay.

Abbreviation env := (Env St Pw).
Abbreviation machine := (Machine (Link St Pw)).
Abbreviation state_of m := (link_state (network m)).
Abbreviation env_of m := (link_env (network m)).
Implicit Types (w : AppState) (e : env) (m : machine).

(** ** Answers of the host *)

Lemma content_type_ok : field_ok ("content-type", CONTENT_TYPE).
Proof. by repeat split. Qed.

Lemma protobuf_texts {M} `{Message M} s (msg : M) :
  exists r, protobuf s msg = Some r /\ status_code r = s /\ response_body r = encode_to_vec msg /\
    header_texts r [("content-type", CONTENT_TYPE)].
Proof.
  unfold protobuf. destruct (header_parse_visible CONTENT_TYPE) as (v & -> & Hv); [done|].
  eexists. split; [done|]. do 2 (split; [done|]). by repeat constructor.
Qed.

Lemma is_protobuf_client hs : header hs "content-type" = Some CLIENT_CONTENT_TYPE -> is_protobuf hs = true.
Proof. unfold is_protobuf. intros ->. by vm_compute. Qed.

(** ** One round of pairing *)

Lemma post_pair_link opts request resp r m w' e' :
  graphic peer = true -> PairRequest_wf request -> pair_protocol_version request = PROTOCOL_VERSION ->
  Z.of_nat (length (encode_to_vec request)) <= 64 * 1024 -> PairResponse_wf resp ->
  protobuf 200 resp = Some r ->
  run (if bool_decide (pair_session_id request = []) then pair_start hostname request src
       else pair_finish pf hostname request) (state_of m) (later delay (env_of m)) = (Done r, w', e') ->
  post_pair opts request m = (Ok resp, with_network (MkLink w' e' []) m).
Proof.
  intros Hpeer Hwf Hv Hsz Hrwf Hr Hrun. unfold post_pair, cbind, net.
  destruct (post_link pf hostname peer src delay opts "/v1/pair" (encode_to_vec request) [] None m)
    as (hs & Hh & Hpost); [done|done|done|done|by apply (bool_decide_unpack _); vm_compute|].
  destruct (protobuf_texts 200 resp) as (r' & Hr' & Hst & Hb & Ht). rewrite Hr in Hr'. injection Hr' as <-.
  rewrite (Hpost r w' e' [("content-type", CONTENT_TYPE)]).
  - rewrite Hb, decode_pair_response by done. done.
  - rewrite run_router_post by done. rewrite bool_decide_eq_false_2, bool_decide_eq_true_2 by done.
    unfold pair. rewrite is_protobuf_client, decode_pair_request by
      (done || apply (Hh "Content-Type"); unfold request_fields; set_solver).
    simpl negb. rewrite Hv. simpl. by destruct (bool_decide _).
  - rewrite Hst. lia.
  - done.
  - repeat constructor; apply content_type_ok.
  - done.
Qed.

(** When a client that was given the displayed code can pair: the code is live
    when the first request arrives, no limit is reached, each request takes at
    most five minutes, nothing fails on either disk, and the host has been up
    long enough for [commit]. *)
Record ready_to_pair (opts : Options) m : Prop := {
  ready_peer : graphic peer = true;
  ready_hostname : str_wf hostname /\ Z.of_nat (str_len hostname) <= u16_max;
  ready_host_id : Z.of_nat (str_len (uuid_to_string (host_id (identity (state_of m))))) <= u16_max;
  ready_wf : pairing_wf (monotonic (env_of m)) (pairing (state_of m));
  ready_unpaired : credential (identity (state_of m)) = None \/
    identity_pairing_code (identity (state_of m)) <> None;
  ready_code : typed_code opts = Ok (pairing_code (pairing (state_of m)));
  ready_delay : 0 <= delay <= PAIRING_LIFETIME;
  ready_live : monotonic (env_of m) + delay - created (pairing (state_of m)) <= PAIRING_LIFETIME;
  ready_limits : start_limited src
    (prune_sessions (monotonic (env_of m) + delay) (pairing (state_of m))) = false;
  ready_instant : instant_min pf <= monotonic (env_of m) + 2 * delay - from_secs 301;
  ready_store : forall i, (save i (store (env_of m))).1 = Ok tt;
  ready_disk : disk_faults (disk m) = [];
}.

Definition first_request (msg : bytes) : PairRequest :=
  {| pair_protocol_version := PROTOCOL_VERSION; pair_client_version := CLIENT_VERSION;
     client_spake2_message := msg; pair_session_id := []; client_confirmation := [] |}.

Definition second_request (sid conf : bytes) : PairRequest :=
  {| pair_protocol_version := PROTOCOL_VERSION; pair_client_version := CLIENT_VERSION;
     client_spake2_message := []; pair_session_id := sid; client_confirmation := conf |}.

Lemma ready_exchange opts m : ready_to_pair opts m -> accepts_exchange src (state_of m) (later delay (env_of m)).
Proof.
  intros R. pose proof (ready_delay _ _ R). constructor; simpl; try apply R.
  - apply (pairing_wf_mono (monotonic (env_of m))); [lia|apply R].
  - pose proof (wf_created _ _ (ready_wf _ _ R)). pose proof (ready_live _ _ R).
    unfold elapsed, saturating_sub. lia.
Qed.

Lemma first_round opts m ga :
  ready_to_pair opts m ->
  let '(client, msg, _) :=
    spake2_start_a (as_bytes (pairing_code (pairing (state_of m)))) CLIENT_ID HOST_ID ga in
  exists p resp w1 e1,
    post_pair opts (first_request msg) m = (Ok resp, with_network (MkLink w1 e1 []) m) /\
    host_spake2_message resp = pending_host_message p /\ pair_response_session_id resp = pending_session_id p /\
    spake2_finish client (pending_host_message p) = Some (shared p) /\ client_message p = msg /\
    length (pending_host_message p) = 33%nat /\
    started_on (state_of m) (later delay (env_of m)) p w1 e1.
Proof.
  intros R. pose proof (spake2_a_length (as_bytes (pairing_code (pairing (state_of m)))) CLIENT_ID HOST_ID ga) as Hla.
  pose proof (fun request => start_run hostname src request (state_of m) (later delay (env_of m)) ga (ready_exchange _ _ R)) as Hs.
  destruct (spake2_start_a _ _ _ ga) as [[client msg] ga']. simpl in Hla.
  destruct (Hs (first_request msg) eq_refl) as (p & w1 & e1 & Hrun & Hf & Hcm & [g Hhm] & S).
  set (resp := started_response hostname (state_of m) p) in *.
  destruct (protobuf_texts 200 resp) as (r & Hr & _). rewrite Hr in Hrun.
  exists p, resp, w1, e1. split; [|split; [done|]; split; [done|]; split; [done|]; split; [done|]; split; [|done]].
  - apply (post_pair_link _ _ _ r); [apply R|done|done| | |done|done].
    + pose proof (pair_request_size (first_request msg)) as Hsz. simpl in Hsz.
      rewrite Hla in Hsz. vm_compute str_len in Hsz. lia.
    + repeat split; simpl; try apply R; try apply is_ascii_utf8, uuid_ascii; done.
  - rewrite Hhm. apply spake2_b_length.
Qed.

(** The answer of the second round opens to the credential it carries. *)
Lemma open_credential_ok p ctx g :
  fields_ok (aad_fields (pending_host_message p) (pending_session_id p) ctx) ->
  exists r g', prepare_credential p ctx g = (Ok r, g') /\ length (result_credential r) = 32%nat /\
    forall resp, host_spake2_message resp = host_message r -> encryption_nonce resp = result_nonce r ->
      pair_encrypted_credential resp = encrypted_credential r ->
      pair_response_session_id resp = pending_session_id p ->
      ctx = {| context_hostname := pair_hostname resp; context_host_version := pair_host_version resp;
               context_protocol_version := pair_response_protocol_version resp;
               context_host_id := pair_host_id resp |} ->
      open_credential (shared p) resp = Ok (result_credential r).
Proof.
  intros HF. destruct (prepare_credential_opens p ctx g HF)
    as (r & g' & key & aad & Hp & Hh & Hl & Hk & Hn & Ha & Hd).
  exists r, g'. do 2 (split; [done|]). intros resp E1 E2 E3 E4 ->.
  unfold open_credential. rewrite client_info, Hk. cbn [ok_or].
  rewrite E2, (proj2 (try_into_array_Some 12 _ _) (conj eq_refl Hn)). cbn [ok_or].
  rewrite E1, E4, Hh, Ha. cbn [map_err]. rewrite E3, Hd. cbn [ok_or]. by rewrite Hl.
Qed.

Lemma second_round opts m0 m p conf :
  ready_to_pair opts m0 -> started_on (state_of m0) (later delay (env_of m0)) p (state_of m) (env_of m) ->
  length (pending_host_message p) = 33%nat ->
  hmac (shared p) (confirmation_message p) = Some conf -> length conf = 32%nat ->
  exists c resp w2 e2,
    post_pair opts (second_request (pending_session_id p) conf) m = (Ok resp, with_network (MkLink w2 e2 []) m) /\
    open_credential (shared p) resp = Ok c /\ length c = 32%nat /\
    pair_host_id resp = uuid_to_string (host_id (identity (state_of m))) /\
    credential (identity w2) = Some c /\ host_id (identity w2) = host_id (identity (state_of m)) /\
    stored (store e2) (identity w2).
Proof.
  intros R S Hhm Hconf Hlc. pose proof (started_session _ _ _ _ _ S) as Hsid. pose proof (ready_delay _ _ R) as Hdelay.
  pose proof (ready_hostname _ _ R) as Hhost. pose proof (ready_host_id _ _ R) as Hid.
  rewrite <- (started_identity _ _ _ _ _ S) in Hid.
  destruct (open_credential_ok p (pair_context hostname (state_of m)) (generator (later delay (env_of m))))
    as (r & g' & Hprep & Hlen & Hopen).
  { unfold fields_ok, aad_fields, pair_context. simpl. rewrite !Forall_cons, Forall_nil, !as_bytes_length.
    rewrite Hhm, Hsid. unfold u16_max in *. repeat split; try lia; by vm_compute. }
  destruct (finish_run pf hostname (second_request (pending_session_id p) conf) p (state_of m) (later delay (env_of m)) conf)
    with (r := r) (g' := g') as (w2 & e2 & Hi & Hst & _ & _ & _ & Hrun); try done; try apply S.
  { rewrite (started_created _ _ _ _ _ S). unfold elapsed, saturating_sub. simpl. lia. }
  { simpl. rewrite (started_time _ _ _ _ _ S). simpl. pose proof (ready_instant _ _ R). lia. }
  { simpl. rewrite (started_store _ _ _ _ _ S). apply R. }
  unfold pairing_response in Hrun. set (resp := {| host_spake2_message := host_message r |}) in Hrun.
  destruct (protobuf_texts 200 resp) as (x & Hx & _).
  exists (result_credential r), resp, w2, e2. split; [|repeat split; try done; try by rewrite Hi].
  - apply (post_pair_link _ _ _ x); [apply R|done|done| | |done|].
    + pose proof (pair_request_size (second_request (pending_session_id p) conf)) as Hsz.
      simpl in Hsz. rewrite Hsid, Hlc in Hsz. vm_compute str_len in Hsz. lia.
    + repeat split; try apply Hhost; try apply is_ascii_utf8, uuid_ascii; done.
    + cbn [second_request pair_session_id].
      rewrite bool_decide_eq_false_2 by (intros E; by rewrite E in Hsid).
      rewrite Hrun, Hx. reflexivity.
  - by apply Hopen.
Qed.

(** C16: a client that is given the code on the host's display pairs with the
    host: the command succeeds, the host has a credential of 32 bytes in memory
    and on stable storage, and the client's file holds the same credential
    together with the host's identity. *)
Theorem pairing_end_to_end opts m :
  ready_to_pair opts m ->
  exists c m', client_pair client_pf opts m = (Ok tt, m') /\ length c = 32%nat /\
    credential (identity (state_of m')) = Some c /\
    stored (store (env_of m')) (identity (state_of m')) /\
    (load_credential opts m').1 = Ok
      {| saved_host_id := uuid_to_string (host_id (identity (state_of m'))); saved_credential := hex_encode c |}.
Proof.
  intros R. unfold client_pair.
  rewrite (cbind_run _ _ m (pairing_code (pairing (state_of m))) m) by (unfold lift; by rewrite (ready_code _ _ R)).
  destruct client_ids as [-> ->].
  pose proof (fun ga0 m1 => first_round opts m1 ga0) as Hfirst.
  set (m1 := MkMachine (client_time m)
    (spake2_start_a (as_bytes (pairing_code (pairing (state_of m)))) CLIENT_ID HOST_ID (client_generator m)).2
    (disk m) (network m) (stdout m) (stderr m)).
  specialize (Hfirst (client_generator m) m1 ltac:(by destruct R)).
  change (state_of m1) with (state_of m) in Hfirst.
  destruct (spake2_start_a _ _ _ (client_generator m)) as [[client msg] ga] eqn:Ea.
  rewrite (cbind_run _ _ m (client, msg) m1) by (unfold random; by rewrite Ea).
  destruct Hfirst as (p & started & w1 & e1 & Hpost1 & Hh & Hs & Hfin & Hmsg & Hlen33 & S).
  rewrite (cbind_run _ _ _ _ _ Hpost1), Hh, Hs.
  set (m2 := with_network (MkLink w1 e1 []) m1) in *.
  rewrite (cbind_run _ _ m2 (shared p) m2) by (unfold lift; by rewrite Hfin).
  destruct (hmac_new_total (shared p)) as [mac Hmac].
  rewrite (cbind_run _ _ m2 mac m2) by (unfold lift; by rewrite Hmac).
  rewrite client_domain, <- Hmsg.
  destruct (second_round opts m m2 p (hmac_finalize mac (confirmation_message p)) R)
    as (c & paired & w2 & e2 & Hpost2 & Hopen & Hlen & Hid & Hc & Hhid & Hst);
    [by destruct S|done|unfold hmac; by rewrite Hmac|apply hmac_length|].
  rewrite (cbind_run _ _ _ _ _ Hpost2). set (m3 := with_network (MkLink w2 e2 []) m2) in *.
  rewrite (cbind_run _ _ m3 c m3) by (unfold lift; by rewrite Hopen).
  set (saved := {| saved_host_id := pair_host_id paired; saved_credential := hex_encode c |}).
  destruct (saved_round_trip saved) as (data & Hdata & Hload).
  rewrite (cbind_run _ _ m3 data m3) by (unfold lift; by rewrite Hdata).
  destruct (write_credential_file_ok client_pf (opt_credential_file opts) data (disk m) (ready_disk _ _ R))
    as (d' & f & Hw & Hfd & Hf & Hcf).
  rewrite (cbind_run _ _ m3 tt (MkMachine (client_time m) ga d' (MkLink w2 e2 []) (stdout m) (stderr m)))
    by (unfold on_disk; simpl disk; by rewrite Hw).
  exists c. eexists. split; [reflexivity|]. do 3 (split; [done|]). simpl.
  unfold load_credential, cbind, on_disk, disk_read, disk_fault. simpl. rewrite Hfd, Hf. simpl.
  rewrite Hcf, Hload. simpl. unfold saved. by rewrite Hid, Hhid.
Qed.

End EndToEnd.
