(* ===== verification/Commands.v ===== *)
(** * The client's signed commands against the host

    A paired client's status and shutdown commands over the network of [Link]:
    the host authenticates the request, acts on it, and the client accepts the
    answer. *)
From stdpp Require Import base gmap list strings.
From Stdlib Require Import Ascii.
From S2P Require Import Prelude RustStd Fs Primitives Auth Pairing Storage Power Versioning Wire Samples Runtime Server Management Requests HttpText Client Link EndToEnd.
Open Scope string_scope.
Open Scope Z_scope.
Open Scope list_scope.

Section Commands.
Context {P : Primitives} {PL : PrimitivesLaws P} {H : Http} {HL : HttpLaws H}.
Context {Wi : Wire} {WL : WireLaws Wi} {SZ : SizeLaws P Wi} {Y : Hyper} {YL : HyperLaws Y}.
Context {T : Texts} {J : SavedJson}.
Context {St : Type} {CS : CredentialStore St} {Pw : Type} {PC : PowerController Pw}.
Context (pf : platform) (hostname peer : string) (src : option IpAddr) (delay : Z).

#[local] Instance net : TcpStream (Link St Pw) := link_tcp pf hostname peer src delay.

Abbreviation env := (Env St Pw).
Abbreviation machine := (Machine (Link St Pw)).
Abbreviation state_of m := (link_state (network m)).
Abbreviation env_of m := (link_env (network m)).
Implicit Types (w : AppState) (e : env) (m : machine).

(** ** Signed requests *)

Lemma hex_graphic l : graphic (hex_encode l) = true.
Proof.
  pose proof (hex_visible l) as H1. pose proof (hex_unspaced l) as H2. revert H1 H2.
  unfold visible_ascii, graphic. induction (hex_encode l) as [|c s IH]; [done|]. cbn [str_all].
  intros H1 H2. apply andb_true_iff in H1 as [H1 H1'], H2 as [H2 H2']. rewrite IH by done.
  unfold is_ascii_space in H2. bool_to_prop. rewrite !andb_true_iff, !Z.leb_le. lia.
Qed.

Lemma sign_total secret t n verb p b :
  length n = NONCE_LENGTH -> is_ascii verb = true -> is_ascii p = true ->
  Z.of_nat (str_len verb) <= u16_max -> Z.of_nat (str_len p) <= u16_max ->
  exists sig, sign secret t n verb p b = Ok sig.
Proof.
  intros Hn Hm Hp Hlm Hlp. destruct (hmac_new_total secret) as [mac Hmac].
  eexists. apply sign_Ok. eexists. split.
  - apply canonical_message_Ok. repeat (split; [done|]). split; [|done]. unfold request_fields.
    repeat constructor; rewrite ?as_bytes_length, ?Hn; unfold to_ascii_uppercase; rewrite ?str_map_len; done.
  - unfold hmac. by rewrite Hmac.
Qed.

(** The client's clock, in seconds, and the nonce it draws next. *)
Definition client_second m : Z := as_secs (Z.max 0 (client_time m)).
Definition next_nonce m : bytes := (fill_bytes NONCE_LENGTH (client_generator m)).1.

(** The request the client signs with credential [c]. *)
Definition signed_request (path : string) (body : bytes) (sig : bytes) m : AuthenticatedRequest :=
  {| timestamp := client_second m; nonce := next_nonce m; signature := sig; method := "POST";
     path := path; body := body |}.

Definition signed_fields (sig : bytes) m : list (string * string) :=
  [("x-decky-timestamp", to_string (client_second m)); ("x-decky-nonce", hex_encode (next_nonce m));
   ("x-decky-signature", hex_encode sig)].

Definition drawn m : machine :=
  MkMachine (client_time m) (fill_bytes NONCE_LENGTH (client_generator m)).2 (disk m) (network m)
    (stdout m) (stderr m).

Lemma authentication_headers_run path body c m sig :
  sign c (client_second m) (next_nonce m) "POST" path body = Ok sig ->
  authentication_headers path body (hex_encode c) m =
    (Ok {| auth_headers := signed_fields sig m; auth_credential := c; auth_nonce := next_nonce m |}, drawn m).
Proof.
  intros Hs. unfold authentication_headers.
  rewrite (cbind_run _ _ m c m) by (unfold lift; by rewrite hex_round_trip).
  rewrite (cbind_run _ _ m (client_second m) m) by done.
  rewrite (cbind_run _ _ m (next_nonce m) (drawn m)).
  2:{ unfold random, random_nonce, next_nonce, drawn. by destruct (fill_bytes NONCE_LENGTH (client_generator m)). }
  rewrite (cbind_run _ _ (drawn m) sig (drawn m)) by (unfold lift; by rewrite Hs). done.
Qed.

(** A signed answer as text. *)
Lemma authenticated_texts {M} `{Message M} s (msg : M) ctx p :
  length (context_nonce ctx) = NONCE_LENGTH -> is_ascii p = true -> Z.of_nat (str_len p) <= u16_max ->
  exists r sig, authenticated_protobuf s msg ctx p = Some r /\ status_code r = s /\
    response_body r = encode_to_vec msg /\
    header_texts r [("content-type", CONTENT_TYPE); ("x-decky-response-signature", hex_encode sig)] /\
    verify_response (context_credential ctx) (context_nonce ctx) p s (encode_to_vec msg) sig = Ok tt.
Proof.
  intros Hn Hp Hl. unfold authenticated_protobuf.
  destruct (sign_response_total (context_credential ctx) _ p s (encode_to_vec msg) Hn Hp Hl) as (sig & Hs & _).
  rewrite Hs. destruct (header_parse_visible CONTENT_TYPE) as (v & -> & Hv); [done|].
  destruct (header_parse_visible (hex_encode sig) (hex_visible sig)) as (sv & -> & Hsv).
  exists {| status_code := s; headers := [("content-type", v); ("x-decky-response-signature", sv)];
            response_body := encode_to_vec msg |}, sig.
  do 3 (split; [done|]). split; [by repeat constructor|]. by apply verify_response_signed.
Qed.

(** ** The exchange of a signed command *)

Lemma post_signed_link opts path body c sig m n0 :
  graphic path = true -> path <> "" -> Z.of_nat (str_len path) <= u16_max -> graphic peer = true ->
  0 <= client_second m <= u64_max -> network n0 = network m ->
  exists hs, is_protobuf hs = true /\
    request_of hs "POST" path body = Some (signed_request path body sig m) /\
    forall M (HM : Message M) s (msg : M) r w' e',
      run (router pf hostname "POST" path src hs body) (state_of m) (later delay (env_of m)) = (Done r, w', e') ->
      authenticated_protobuf s msg {| context_credential := c; context_nonce := next_nonce m |} path = Some r ->
      200 <= s < 300 ->
      post opts path body (signed_fields sig m) (Some (c, next_nonce m)) n0 =
        (Ok (encode_to_vec msg), with_network (MkLink w' e' []) n0).
Proof.
  intros Hp Hpn Hpl Hpeer Ht Hnet.
  assert (length (next_nonce m) = NONCE_LENGTH) as Hnl by apply fill_bytes_length.
  destruct (post_link pf hostname peer src delay opts path body (signed_fields sig m) (Some (c, next_nonce m)) n0)
    as (hs & Hh & Hpost); [done|done|done| |by apply (bool_decide_unpack _); vm_compute|].
  { unfold signed_fields. repeat constructor; simpl; try done;
      try apply graphic_visible; try apply graphic_trim; try apply hex_graphic;
      apply digits_graphic, to_string_digits. }
  exists hs. split; [|split].
  - apply is_protobuf_client, (Hh "Content-Type"). unfold Link.request_fields. set_solver.
  - assert (forall n v, lowercase n = n -> (n, v) ∈ signed_fields sig m -> header hs n = Some v) as Hl.
    { intros n v E Hin. rewrite <- E. apply Hh. apply elem_of_app. by right. }
    unfold request_of, timestamp_header, hex_header.
    rewrite (Hl "x-decky-timestamp" (to_string (client_second m))),
      (Hl "x-decky-nonce" (hex_encode (next_nonce m))), (Hl "x-decky-signature" (hex_encode sig))
      by (done || unfold signed_fields; set_solver).
    unfold parse_u64. rewrite parse_uint_to_string, !hex_round_trip by (unfold u64_max in *; lia). done.
  - intros M HM s msg r w' e' Hrun Hr H2.
    destruct (authenticated_texts s msg {| context_credential := c; context_nonce := next_nonce m |} path)
      as (r' & sig' & Hr' & Hst & Hb & Htx & Hv); [done|by apply visible_is_ascii, graphic_visible|done|].
    rewrite Hr in Hr'. injection Hr' as <-. rewrite <- Hb.
    rewrite <- Hnet in Hrun.
    eapply (Hpost r w' e' _ Hrun); [by rewrite Hst|exact Htx| |].
    + repeat constructor; try apply content_type_ok; simpl; try done;
        [apply graphic_visible, hex_graphic|apply graphic_trim, hex_graphic].
    + intros c' n' [= <- <-]. split.
      * apply Exists_cons_tl, Exists_cons_hd. by vm_compute.
      * intros f Hin Hsig. apply elem_of_cons in Hin as [->|Hin]; [by vm_compute in Hsig|].
        apply list_elem_of_singleton in Hin as ->. exists sig'. cbn [snd]. rewrite hex_round_trip, Hst, Hb. done.
Qed.

(** ** The handlers on an acceptable request *)

Lemma status_run hs body w e c request message :
  request_of hs "POST" "/v1/status" body = Some request -> credential (identity w) = Some c ->
  accepts c request (now_unix e) (accepted_nonces w) -> is_protobuf hs = true ->
  decode body = Some message -> status_protocol_version message = PROTOCOL_VERSION ->
  length (nonce request) = NONCE_LENGTH ->
  exists r w' e', run (status hostname hs body) w e = (Done r, w', e') /\
    authenticated_protobuf 200
      {| status_hostname := hostname; status_host_version := HOST_VERSION;
         status_response_protocol_version := PROTOCOL_VERSION; status_paired := true;
         status_host_id := uuid_to_string (host_id (identity w)) |}
      {| context_credential := c; context_nonce := nonce request |} "/v1/status" = Some r.
Proof.
  intros Hr Hc Ha Hp Hd Hv Hn.
  destruct (authenticate_accepting hs "POST" "/v1/status" body w e request c Hr Hc Ha) as (w1 & e1 & Hrun); [done|].
  pose proof (authenticate_accepted _ _ _ _ _ _ _ _ _ Hrun) as (_ & _ & _ & _ & _ & _ & Hi & ->).
  unfold status. rewrite run_bind, Hrun, Hp. simpl negb. cbv iota.
  rewrite Hd, Hv. simpl negb. cbv iota. rewrite run_bind.
  destruct (record_client_version_frame (status_client_version message) w1 e)
    as (w2 & e2 & Hrec & _ & _ & _ & Hi2). rewrite Hrec, run_guarded, run_bind, run_read.
  assert (host_id (identity w2) = host_id (identity w) /\ credential (identity w2) = Some c) as [Hid Hc2].
  { destruct Hi2 as [(-> & _)|(-> & _)]; simpl; by rewrite Hi. }
  cbn [get app_cells get_cell]. rewrite Hid, Hc2, bool_decide_eq_true_2 by eauto.
  match goal with |- context [authenticated_protobuf 200 ?msg ?ctx _] =>
    destruct (authenticated_texts 200 msg ctx "/v1/status") as (r & _ & Hmsg & _); [done..|] end.
  exists r, w2, e2. rewrite Hmsg. done.
Qed.

Lemma shutdown_run hs body w e c request message :
  request_of hs "POST" "/v1/shutdown" body = Some request -> credential (identity w) = Some c ->
  accepts c request (now_unix e) (accepted_nonces w) -> is_protobuf hs = true ->
  decode body = Some message -> shutdown_protocol_version message = PROTOCOL_VERSION ->
  length (nonce request) = NONCE_LENGTH ->
  Forall (fun seen => accepted_nonce seen <> nonce request) (retained (now_unix e) (identity w)) ->
  (forall i, (save i (store e)).1 = Ok tt) -> (power_shutdown (power e)).1 = Ok tt ->
  exists r w' e', run (shutdown hs body) w e = (Done r, w', e') /\
    authenticated_protobuf 202 {| accepted := true |}
      {| context_credential := c; context_nonce := nonce request |} "/v1/shutdown" = Some r /\
    power e' = (power_shutdown (power e)).2.
Proof.
  intros Hr Hc Ha Hp Hd Hv Hn Hnew Hsave Hpow.
  destruct (authenticate_accepting hs "POST" "/v1/shutdown" body w e request c Hr Hc Ha) as (w1 & e1 & Hrun); [done|].
  pose proof (authenticate_frame hs "POST" "/v1/shutdown" body w e) as (? & ? & ? & Hf & _ & _ & _ & s & ->).
  rewrite Hrun in Hf. injection Hf as <- <- ->.
  unfold shutdown. rewrite run_bind, Hrun, Hp. simpl negb. cbv iota.
  rewrite Hd, Hv. simpl negb. cbv iota. rewrite run_bind.
  destruct (record_client_version_frame (shutdown_client_version message) w1 (with_store s e))
    as (w2 & e2 & Hrec & _ & _ & (s2 & ->) & _). rewrite Hrec, run_bind, run_shutdown_power. simpl power.
  destruct (power_shutdown (power e)) as [o pw]. simpl in Hpow. subst o. cbn [fst snd].
  match goal with |- context [authenticated_protobuf 202 ?msg ?ctx _] =>
    destruct (authenticated_texts 202 msg ctx "/v1/shutdown") as (r & _ & Hmsg & _); [done..|] end.
  exists r. rewrite Hmsg. by do 2 eexists.
Qed.

(** ** The commands *)

(** The client's file holds the credential of the host, the clocks agree to a
    minute when the request arrives, and the nonce the client draws is new. *)
Record paired_with (opts : Options) m (c : bytes) : Prop := {
  paired_peer : graphic peer = true;
  paired_credential : credential (identity (state_of m)) = Some c;
  paired_disk : disk_faults (disk m) = [];
  paired_file : exists f, disk_files (disk m) !! opt_credential_file opts = Some f /\
    saved_from_slice (contents f) = Ok
      {| saved_host_id := uuid_to_string (host_id (identity (state_of m))); saved_credential := hex_encode c |};
  paired_time : 0 <= client_second m <= u64_max;
  paired_clock : abs_diff (now_unix (later delay (env_of m))) (client_second m) <= CLOCK_WINDOW;
  paired_nonce : accepted_nonces (state_of m) !! next_nonce m = None;
}.

Lemma load_credential_run opts m c :
  paired_with opts m c ->
  load_credential opts m = (Ok {| saved_host_id := uuid_to_string (host_id (identity (state_of m)));
                                  saved_credential := hex_encode c |}, m).
Proof.
  intros R. destruct (paired_file _ _ _ R) as (f & Hf & Hl).
  unfold load_credential, cbind, on_disk, disk_read, disk_fault. rewrite (paired_disk _ _ _ R), Hf. simpl.
  rewrite Hl. by destruct m.
Qed.

Lemma signed_request_accepted opts m c path body :
  paired_with opts m c -> is_ascii path = true -> Z.of_nat (str_len path) <= u16_max ->
  exists sig, sign c (client_second m) (next_nonce m) "POST" path body = Ok sig /\
    accepts c (signed_request path body sig m) (now_unix (later delay (env_of m))) (accepted_nonces (state_of m)).
Proof.
  intros R Hp Hl. assert (length (next_nonce m) = NONCE_LENGTH) as Hnl by apply fill_bytes_length.
  destruct (sign_total c (client_second m) (next_nonce m) "POST" path body) as [sig Hs]; [done..|].
  exists sig. split; [done|]. split; [apply R|]. split; [done|]. intros (seen & Hseen & _).
  simpl in Hseen. by rewrite (paired_nonce _ _ _ R) in Hseen.
Qed.

(** A paired client's status command succeeds: the host authenticates it,
    and the client verifies the answer, finds the host it paired with and
    prints its name and version. *)
Theorem status_end_to_end opts m c :
  paired_with opts m c -> str_wf hostname ->
  exists m', client_status opts m = (Ok tt, m') /\
    stdout m' = stdout m ++ ["online: " +:+ hostname +:+ " host=" +:+ HOST_VERSION +:+ " protocol=1"].
Proof.
  intros R Hh. unfold client_status. rewrite (cbind_run _ _ _ _ _ (load_credential_run _ _ _ R)).
  set (message := {| status_protocol_version := PROTOCOL_VERSION; status_client_version := CLIENT_VERSION |}).
  cbv zeta. cbn [saved_credential saved_host_id].
  destruct (signed_request_accepted opts m c "/v1/status" (encode_to_vec message) R) as (sig & Hs & Ha); [done..|].
  rewrite (cbind_run _ _ _ _ _ (authentication_headers_run _ _ _ _ _ Hs)). cbn [auth_headers auth_credential auth_nonce].
  destruct (post_signed_link opts "/v1/status" (encode_to_vec message) c sig m (drawn m))
    as (hs & Hpb & Hreq & Hpost); [done|done|done|apply R|apply R|done|].
  destruct (status_run hs (encode_to_vec message) (state_of m) (later delay (env_of m)) c _ message Hreq
    (paired_credential _ _ _ R) Ha Hpb) as (r & w' & e' & Hrun & Hr);
    [by apply decode_status_request|done|apply fill_bytes_length|]. cbn [nonce signed_request] in Hr.
  rewrite (cbind_run _ _ _ _ _ (Hpost StatusResponse wire_status_response 200 _ r w' e' ltac:(
    rewrite run_router_post; [exact Hrun|];
    pose proof (status_request_size message) as Hsz; vm_compute str_len in Hsz; lia) Hr ltac:(lia))).
  rewrite decode_status_response by (repeat split; try apply is_ascii_utf8, uuid_ascii; done).
  unfold cbind at 1, lift at 1. cbn [ok_or status_host_id]. rewrite bool_decide_eq_true_2 by done.
  eexists. split; [reflexivity|]. done.
Qed.

(** A paired client's shutdown command reaches the power controller, once,
    and the client verifies the host's acceptance, when the nonce is new to the
    host's stored ones, the host can save it and the controller accepts. *)
Theorem shutdown_end_to_end opts m c :
  paired_with opts m c ->
  Forall (fun seen => accepted_nonce seen <> next_nonce m)
    (retained (now_unix (later delay (env_of m))) (identity (state_of m))) ->
  (forall i, (save i (store (env_of m))).1 = Ok tt) -> (power_shutdown (power (env_of m))).1 = Ok tt ->
  exists m', client_shutdown opts m = (Ok tt, m') /\
    power (env_of m') = (power_shutdown (power (env_of m))).2.
Proof.
  intros R Hnew Hsave Hpow. unfold client_shutdown. rewrite (cbind_run _ _ _ _ _ (load_credential_run _ _ _ R)).
  set (message := {| shutdown_protocol_version := PROTOCOL_VERSION; shutdown_client_version := CLIENT_VERSION |}).
  cbv zeta. cbn [saved_credential saved_host_id].
  destruct (signed_request_accepted opts m c "/v1/shutdown" (encode_to_vec message) R) as (sig & Hs & Ha); [done..|].
  rewrite (cbind_run _ _ _ _ _ (authentication_headers_run _ _ _ _ _ Hs)). cbn [auth_headers auth_credential auth_nonce].
  destruct (post_signed_link opts "/v1/shutdown" (encode_to_vec message) c sig m (drawn m))
    as (hs & Hpb & Hreq & Hpost); [done|done|done|apply R|apply R|done|].
  destruct (shutdown_run hs (encode_to_vec message) (state_of m) (later delay (env_of m)) c _ message Hreq
    (paired_credential _ _ _ R) Ha Hpb) as (r & w' & e' & Hrun & Hr & Hpw);
    [by apply decode_shutdown_request|done|apply fill_bytes_length|done|done|done|].
  cbn [nonce signed_request] in Hr.
  rewrite (cbind_run _ _ _ _ _ (Hpost ShutdownResponse wire_shutdown_response 202 _ r w' e' ltac:(
    rewrite run_router_post; [exact Hrun|];
    pose proof (shutdown_request_size message) as Hsz; vm_compute str_len in Hsz; lia) Hr ltac:(lia))).
  rewrite decode_shutdown_response. eexists. split; [reflexivity|]. done.
Qed.

End Commands.
