(* ===== verification/ClientScenarios.v ===== *)
(** * A client and a host in concrete runs

    Executable instances of the client's parameters (hyper, serde_json, texts
    of errors) with their laws, and a client that pairs with a host and then
    sends it signed commands: the hypotheses of the theorems about both ends
    can hold. *)
From stdpp Require Import base gmap list strings.
From Stdlib Require Import Ascii.
From S2P Require Import Prelude RustStd Hex Fs Primitives Auth Pairing Storage Power Versioning Wire Samples Runtime Server Management Requests PairRequests HostRounds HttpText Client Link EndToEnd Commands.
Open Scope string_scope.
Open Scope Z_scope.
Open Scope list_scope.

#[local] Existing Instances toy toy_laws toy_http toy_http_laws toy_wire toy_wire_laws memory_store mock_power.
#[local] Existing Instance memory_laws.

(** ** Instances *)

Definition toy_read (l : bytes) : option (string * string * list (string * bytes) * bytes) :=
  match position_blank l with
  | None => None
  | Some n =>
      match from_utf8 (take n l) with
      | None => None
      | Some head =>
          match lines head with
          | [] => None
          | start :: fields =>
              match split_whitespace start with
              | m :: p :: _ =>
                  Some (m, p, map (fun f => (lowercase f.1, as_bytes (trim_text f.2)))
                                (omap (split_once ":"%char) fields), drop (n + 4) l)
              | _ => None
              end
          end
      end
  end.

Definition toy_fields (r : Response) : list (string * string) :=
  map (fun h => (h.1, str_of h.2)) (headers r).

Definition toy_write (r : Response) : bytes :=
  message_text (status_line (status_code r) "OK")
    (toy_fields r ++ [("content-length", to_string (Z.of_nat (length (response_body r))))])
    (response_body r).

#[local] Instance toy_hyper : @Hyper toy_http := {| hyper_read := toy_read; hyper_write := toy_write |}.

Lemma omap_fields fields :
  Forall field_ok fields ->
  omap (split_once ":"%char) (map field_line fields) = map (fun f => (f.1, " " +:+ f.2)) fields.
Proof.
  induction 1 as [|f fields Hf HF IH]; [done|]. cbn [map omap list_omap].
  rewrite split_once_field by done. by f_equal.
Qed.

Lemma find_field (fields : list (string * string)) n v :
  NoDup (map lowercase fields.*1) -> (n, v) ∈ fields ->
  List.find (fun kv => bool_decide (kv.1 = lowercase n))
    (map (fun f => (lowercase f.1, as_bytes f.2)) fields) = Some (lowercase n, as_bytes v).
Proof.
  induction fields as [|f fields IH]; intros Hnd Hin; [by apply elem_of_nil in Hin|].
  cbn [map List.find fst]. rewrite fmap_cons in Hnd. cbn [map] in Hnd. apply NoDup_cons in Hnd as [Hni Hnd].
  apply elem_of_cons in Hin as [<-|Hin]; [by rewrite bool_decide_eq_true_2|].
  rewrite bool_decide_eq_false_2; [by apply IH|]. intros E. apply Hni. rewrite E.
  apply (list_elem_of_fmap_2 lowercase).
  by apply (list_elem_of_fmap_2 fst _ (n, v)).
Qed.

Lemma toy_hyper_laws : HyperLaws toy_hyper.
Proof.
  constructor.
  - intros m p fields b Hm Hp Nm Np HF Hnd _. simpl. unfold toy_read.
    destruct (message_head_found (request_line m p) fields b) as (-> & -> & -> & ->).
    + unfold request_line. rewrite !visible_app, (graphic_visible m), (graphic_visible p) by done. done.
    + unfold request_line. by destruct m.
    + done.
    + destruct (split_whitespace_two m p "HTTP/1.1" Hm Hp Nm Np) as [ws Hws].
      change (m +:+ " " +:+ p +:+ " " +:+ "HTTP/1.1") with (request_line m p) in Hws. rewrite Hws.
      rewrite omap_fields by done. eexists. split; [done|]. intros n v Hin.
      exists (as_bytes v). rewrite map_map. cbn [fst snd].
      rewrite (map_ext_in _ (fun f => (lowercase f.1, as_bytes f.2))).
      * rewrite (find_field fields n v Hnd Hin). simpl. rewrite str_of_as_bytes.
        rewrite Forall_forall in HF. destruct (HF _ Hin) as (_ & _ & _ & Hv & _).
        change (visible v) with (visible_ascii v). simpl in Hv. by rewrite Hv.
      * intros f Hf. rewrite Forall_forall in HF. destruct (HF f) as (_ & _ & _ & _ & Ht);
          [by apply list_elem_of_In|]. by rewrite trim_text_space.
  - intros r texts _ Ht HF. assert (toy_fields r = texts) as Et.
    { unfold toy_fields, header_texts in *. induction Ht as [|[n v] [n' t] hs ts [Hn Hv] _ IH]; [done|].
      apply Forall_cons in HF as [_ HF]. simpl in *. rewrite IH by done. subst n'.
      destruct (visible (str_of v)); [|done]. by injection Hv as ->. }
    exists "OK", (texts ++ [("content-length", to_string (Z.of_nat (length (response_body r))))]).
    split; [simpl; unfold toy_write; by rewrite Et|]. split; [done|]. split; [|split].
    + apply Forall_app_2; [done|]. repeat constructor; simpl; try done;
        [apply graphic_visible|apply graphic_trim]; apply digits_graphic, to_string_digits.
    + intros f Hf. apply elem_of_app. by left.
    + intros f Hf. apply elem_of_app in Hf as [Hf|Hf]; [by left|right].
      apply list_elem_of_singleton in Hf as ->. simpl. left.
Qed.

#[local] Instance toy_texts : Texts := {|
  show_io_error _ := "i/o error"; show_decode_error _ := "decode error"; show_keys _ := "keys" |}.

#[local] Instance toy_saved_json : SavedJson := {|
  saved_to_vec_pretty c := Ok (put_str (saved_host_id c) (put_str (saved_credential c) []));
  saved_from_slice l := ok_or (field str_of (fun i => field str_of (fun c => stop
    {| saved_host_id := i; saved_credential := c |})) l) "expected a credential";
|}.

Lemma toy_saved_json_laws : SavedJsonLaws toy_saved_json.
Proof.
  constructor. intros [i c]. eexists. split; [done|]. simpl. unfold put_str. rewrite !field_put.
  unfold stop. by rewrite !str_of_as_bytes.
Qed.

Lemma put_length l rest : length (put l rest) = (2 * length l + 1 + length rest)%nat.
Proof. induction l as [|b l IH]; simpl; [done|]. rewrite IH. lia. Qed.

Lemma toy_spake2_size : Spake2Size toy.
Proof.
  constructor; intros pw ida idb g; change (S (length (to_be_bytes 32 g)) = 33%nat); by rewrite to_be_bytes_length.
Qed.

Lemma toy_sizes : SizeLaws toy toy_wire.
Proof.
  constructor.
  - exact toy_spake2_size.
  - intros m. cbn [encode_to_vec toy_wire wire_pair_request wire_status_request wire_shutdown_request].
    unfold put_num, put_str. rewrite !put_length, to_be_bytes_length, as_bytes_length. cbn [length]. lia.
  - intros m. cbn [encode_to_vec toy_wire wire_pair_request wire_status_request wire_shutdown_request].
    unfold put_num, put_str. rewrite !put_length, to_be_bytes_length, as_bytes_length. cbn [length]. lia.
  - intros m. cbn [encode_to_vec toy_wire wire_pair_request wire_status_request wire_shutdown_request].
    unfold put_num, put_str. rewrite !put_length, to_be_bytes_length, as_bytes_length. cbn [length]. lia.
Qed.

#[local] Existing Instances toy_hyper_laws toy_saved_json_laws toy_sizes.

(** ** A pairing *)

Abbreviation toy_link := (Link (P := toy) MemoryStore MockPowerController).

(** A host that displays a code, up for 400 seconds. *)
Definition host_identity : HostIdentity :=
  MkHostIdentity (repeat x41 16) None (Some "483921") 990 [] None.

Definition displaying : toy_link :=
  MkLink (P := toy) (initial_state host_identity (fresh_code "483921" (from_secs 390)))
    (MkEnv (P := toy) (from_secs 1000) (from_secs 400) 7
       {| memory := Some host_identity; failing := [] |} mock_default) [].

Definition typed : Options :=
  {| opt_command := "pair"; opt_host := "rig"; opt_port := 47991; opt_code := Some "483 921";
     opt_credential_file := "credential.json" |}.

Definition deck (d : Disk) (n : toy_link) : Machine (P := toy) toy_link :=
  MkMachine (P := toy) (from_secs 1003) 50 d n [] [].

Definition empty_disk : Disk := MkDisk ∅ [] 18.

Lemma ready_example :
  ready_to_pair Windows "rig" "192.168.1.20:47991" None (from_secs 1) typed (deck empty_disk displaying).
Proof.
  constructor; try (vm_compute; done).
  - apply fresh_code_wf; vm_compute; done.
  - by left.
Qed.

Lemma pairing_end_to_end_witness :
  exists c m', client_pair (Net := link_tcp Windows "rig" "192.168.1.20:47991" None (from_secs 1)) Unix typed
    (deck empty_disk displaying) = (Ok tt, m') /\ length c = 32%nat /\
    credential (identity (link_state (network m'))) = Some c.
Proof.
  destruct (pairing_end_to_end Windows Unix "rig" "192.168.1.20:47991" None (from_secs 1) typed
    (deck empty_disk displaying) ready_example) as (c & m' & Hrun & Hl & Hc & _).
  exists c, m'. exact (conj Hrun (conj Hl Hc)).
Defined.

(** The same run, evaluated: the pairing succeeds with the code typed with a
    space, and is refused with another code or after the code's lifetime. *)
Abbreviation toy_net delay := (link_tcp (P := toy) (H := toy_http) (Wi := toy_wire) (Y := toy_hyper)
  (CS := memory_store) (PC := mock_power) Windows "rig" "192.168.1.20:47991" None (from_secs delay)).

Definition with_code_option (c : option string) : Options :=
  {| opt_command := "pair"; opt_host := "rig"; opt_port := 47991; opt_code := c;
     opt_credential_file := "credential.json" |}.

Definition pair_result (delay : Z) (c : option string) : result unit string :=
  (client_pair (Net := toy_net delay) Unix (with_code_option c) (deck empty_disk displaying)).1.

Example pair_succeeds : pair_result 1 (Some "483 921") = Ok tt.
Proof. vm_compute. reflexivity. Qed.

Definition pair_outcome :=
  client_pair (Net := toy_net 1) Unix (with_code_option (Some "483 921")) (deck empty_disk displaying).

Lemma client_pair_authentic_witness :
  exists id credential data f, length credential = 32%nat /\
    saved_to_vec_pretty {| saved_host_id := id; saved_credential := to_hex credential |} = Ok data /\
    disk_files (disk pair_outcome.2) !! "credential.json" = Some f /\ contents f = data.
Proof.
  destruct (client_pair_authentic (P := toy) (Net := toy_net 1) Unix (with_code_option (Some "483 921"))
    (deck empty_disk displaying) pair_outcome.2)
    as (code & shared & hm & paired & credential & key & aad & data & f & _ & _ & _ & _ & _ & Hl & Hj & Hf & Hc).
  - rewrite <- pair_succeeds. apply surjective_pairing.
  - exists (pair_host_id paired), credential, data, f. exact (conj Hl (conj Hj (conj Hf Hc))).
Defined.

Example pair_wrong_code : pair_result 1 (Some "483922") = Err "host returned HTTP 401: Pairing failed.".
Proof. vm_compute. reflexivity. Qed.

Example pair_too_late : pair_result 300 (Some "483921") = Err "host returned HTTP 410: The pairing code expired.".
Proof. vm_compute. reflexivity. Qed.

Example pair_bad_code : pair_result 1 (Some "48392") = Err "pairing code must contain six digits".
Proof. vm_compute. reflexivity. Qed.

(** ** Signed commands *)

Definition shared_secret : bytes := repeat x07 32.

Definition paired_host : toy_link :=
  MkLink (P := toy) (initial_state (MkHostIdentity (repeat x41 16) (Some shared_secret) None 0 [] None)
                       (fresh_code "483921" 0))
    (MkEnv (P := toy) (from_secs 1000) (from_secs 400) 7
       {| memory := None; failing := [] |} mock_default) [].

(** The credential file of a client that holds [secret]. *)
Definition disk_with (secret : bytes) : Disk :=
  MkDisk {["credential.json" := {| mode := owner_only; contents :=
    put_str "AAAAAAAAAAAAAAAA" (put_str (to_hex secret) []) |}]} [] 18.

Definition paired_deck : Machine (P := toy) toy_link := deck (disk_with shared_secret) paired_host.

Lemma paired_example :
  paired_with "192.168.1.20:47991" (from_secs 1) (with_code_option None) paired_deck shared_secret.
Proof.
  constructor; try (vm_compute; done).
  eexists. split; vm_compute; done.
Qed.

Lemma status_end_to_end_witness :
  exists m', client_status (Net := toy_net 1) (with_code_option None) paired_deck = (Ok tt, m') /\
    stdout m' = ["online: rig host=0.1.0 protocol=1"].
Proof.
  refine (status_end_to_end Windows "rig" "192.168.1.20:47991" None (from_secs 1) (with_code_option None)
    paired_deck shared_secret paired_example _); vm_compute; reflexivity.
Defined.

Lemma shutdown_end_to_end_witness :
  exists m', client_shutdown (Net := toy_net 1) (with_code_option None) paired_deck = (Ok tt, m') /\
    was_requested (power (link_env (network m'))) = true.
Proof.
  destruct (shutdown_end_to_end Windows "rig" "192.168.1.20:47991" None (from_secs 1) (with_code_option None)
    paired_deck shared_secret paired_example) as (m' & Hrun & Hp).
  - constructor.
  - intros i. reflexivity.
  - reflexivity.
  - exists m'. split; [exact Hrun|]. rewrite Hp. reflexivity.
Defined.

Definition shutdown_outcome := client_shutdown (Net := toy_net 1) (with_code_option None) paired_deck.

Lemma shutdown_outcome_ok : shutdown_outcome.1 = Ok tt.
Proof. vm_compute. reflexivity. Qed.

Lemma client_shutdown_authentic_witness :
  exists credential response status answer,
    signed_reply (P := toy) credential (repeat x32 16) "/v1/shutdown" response status answer /\
    decode answer = Some {| accepted := true |}.
Proof.
  destruct (client_shutdown_authentic (P := toy) (Net := toy_net 1) (with_code_option None) paired_deck
    shutdown_outcome.2) as (f & saved & credential & b & hs & response & status & answer & H).
  - rewrite <- shutdown_outcome_ok. apply surjective_pairing.
  - destruct H as (_ & _ & _ & _ & _ & Hs & _ & Hd). exists credential, response, status, answer.
    exact (conj Hs Hd).
Defined.

(** A client with another credential learns nothing but that it is refused. *)
Example stranger_is_refused :
  (client_shutdown (Net := toy_net 1) (with_code_option None)
     (deck (disk_with (repeat x08 32)) paired_host)).1 =
  Err "host response authentication is missing".
Proof. vm_compute. reflexivity. Qed.

(** ** The command line

    The cases of the tool's unit tests. *)
Definition parsed_port (arguments : list string) : option Z :=
  match parse_arguments arguments with Ok o => Some (opt_port o) | Err _ => None end.

Example default_port : parsed_port ["status"; "--host"; "pc"] = Some 47991.
Proof. vm_compute. reflexivity. Qed.

Example port_boundaries :
  map (fun p => parsed_port ["status"; "--host"; "pc"; "--port"; p])
    ["48100"; "1"; "65535"; "0"; "65536"; "not-a-port"] =
  [Some 48100; Some 1; Some 65535; None; None; None].
Proof. vm_compute. reflexivity. Qed.

Example mock_flag_rejected : parsed_port ["shutdown"; "--host"; "pc"; "--mock"] = None.
Proof. vm_compute. reflexivity. Qed.

Lemma arguments_round_trip_witness :
  parse_arguments (print_arguments (with_code_option (Some "483921"))) = Ok (with_code_option (Some "483921")).
Proof. apply arguments_round_trip. vm_compute. split; discriminate. Defined.
