(* ===== verification/PluginValidation.v ===== *)
(** * Validation, Wake-on-LAN and versions in the plugin

    validation.py, wol.py and versioning.py of decky/py_modules/decky_my_rig:
    MAC addresses, ports, host addresses and broadcast addresses as the user
    or a stored document gives them, the Wake-on-LAN packet, and the comparison
    of the plugin's version with the host's. *)
From stdpp Require Import base sets list strings.
From Stdlib Require Import Ascii ZArith Lia.
From Stdlib Require Strings.String.
From S2P Require Import Prelude RustStd Hex Versioning HttpText PyStd.
Open Scope string_scope.
Open Scope Z_scope.
Open Scope list_scope.

Module Validation.

Definition DEFAULT_PORT : Z := 47991.

(** ** MAC addresses *)

Definition is_hex (c : ascii) : bool := match hex_value c with Some _ => true | None => false end.

(** The class [[-:.\s]]. *)
Definition mac_separator (c : string) : bool :=
  bool_decide (c = "-") || bool_decide (c = ":") || bool_decide (c = ".") || isspace c.

Definition mac_compact (value : string) : string :=
  str_concat (List.filter (fun c => negb (mac_separator c)) (chars value)).

(** The pattern [^[0-9a-fA-F]{12}$], matched in full. *)
Definition mac_matches (s : string) : bool := (str_len s =? 12)%nat && str_all is_hex s.

Fixpoint join (sep : string) (l : list string) : string :=
  match l with
  | [] => ""
  | [s] => s
  | s :: l => s +:+ sep +:+ join sep l
  end.

(** [range(0, 12, 2)]. *)
Definition pair_starts : list nat := [0; 2; 4; 6; 8; 10]%nat.

Definition invalid_mac : exn := ValidationError "Enter a valid 12-digit MAC address.".

Definition normalize_mac (value : string) : result string exn :=
  let compact := mac_compact value in
  if negb (mac_matches compact) then Err invalid_mac
  else Ok (join ":" (map (fun index => to_ascii_uppercase (String.substring index 2 compact)) pair_starts)).

(** ** Ports *)

Section Objects.
Context {R : Repr}.

Definition invalid_port : exn := ValidationError "Host port must be a number from 1 to 65535.".

(** [value in (None, "")]. *)
Definition is_absent (value : json) : bool :=
  match value with JNull => true | JStr s => bool_decide (s = "") | _ => false end.

Definition validate_port (value : json) (default : bool) : result Z exn :=
  if is_absent value && default then Ok DEFAULT_PORT
  else match value with
  | JBool _ => Err invalid_port
  | _ =>
      match py_int (py_str value) with
      | None => Err invalid_port
      | Some port =>
          if negb (bool_decide (strip (py_str value) = str_int port)) ||
             negb ((1 <=? port) && (port <=? 65535))
          then Err invalid_port
          else Ok port
      end
  end.

(** ** Addresses *)

(** An octet of [ipaddress]: one to three ASCII digits without a leading zero,
    at most 255. *)
Definition octet (s : string) : bool :=
  (str_len s <=? 3)%nat && str_all is_ascii_digit s &&
  match nonempty_digits s with
  | None => false
  | Some n => (n <=? 255) && bool_decide (decimal n = s)
  end.

(** [ipaddress.IPv4Address]: whether the text is an address; its [str] is then
    the text itself. *)
Definition is_ipv4 (s : string) : bool :=
  match split_char "."%char s with
  | [a; b; c; d] => octet a && octet b && octet c && octet d
  | _ => false
  end.

Definition is_ascii_alnum (c : ascii) : bool :=
  is_ascii_digit c || ((65 <=? code c) && (code c <=? 90)) || ((97 <=? code c) && (code c <=? 122)).

Definition last_char (s : string) : option ascii := last (String.list_ascii_of_string s).

(** One label of a host name. *)
Definition label_ok (label : string) : bool :=
  (1 <=? str_len label)%nat && (str_len label <=? 63)%nat &&
  match label with String c _ => is_ascii_alnum c | EmptyString => false end &&
  match last_char label with Some c => is_ascii_alnum c | None => false end &&
  str_all (fun c => is_ascii_alnum c || Ascii.eqb c "-"%char) label.

(** [str(value or "").strip()]. *)
Definition text_of (value : json) : string := strip (if truthy value then py_str value else "").

(** An IPv6 address is refused like a name that is none: it contains a colon,
    which no label may. *)
Definition validate_address (value : json) : result string exn :=
  let address := text_of value in
  if bool_decide (address = "") || (253 <? length (chars address))%nat ||
     existsb isspace (chars address)
  then Err (ValidationError "Enter a hostname or IP address.")
  else if is_ipv4 address then Ok address
  else if forallb label_ok (split_char "."%char (remove_dot address)) then Ok (remove_dot address)
  else Err (ValidationError "Enter a hostname or IPv4 address.").

Definition validate_broadcast (value : json) : result (option string) exn :=
  let text := text_of value in
  if bool_decide (text = "") then Ok None
  else if is_ipv4 text then Ok (Some text)
  else Err (ValidationError "Broadcast address must be a valid IPv4 address.").

End Objects.

(** ** Wake-on-LAN *)

(** [s.replace(":", "")]. *)
Fixpoint remove_colons (s : string) : string :=
  match s with
  | EmptyString => EmptyString
  | String c s => if Ascii.eqb c ":"%char then remove_colons s else String c (remove_colons s)
  end.

Definition magic_packet (mac : string) : result bytes exn :=
  let? normal := normalize_mac mac in
  let? raw := ok_or (fromhex (remove_colons normal)) (ValueError "non-hexadecimal number found in fromhex()") in
  Ok (repeat xff 6 ++ concat (repeat raw 16)).

(** ** Versions *)

(** The decimal value of a character of any script ([\d] and [int]), with what
    it is on ASCII. *)
Class Decimals := decimal_value : string -> option Z.
Class DecimalsLaws (D : Decimals) : Prop :=
  decimal_ascii c : char_is_ascii c = true -> decimal_value (String c EmptyString) = digit_value c.

Section Versions.
Context {D : Decimals}.

Fixpoint decimal_fold (acc : Z) (cs : list string) : option Z :=
  match cs with
  | [] => Some acc
  | c :: cs => match decimal_value c with Some d => decimal_fold (acc * 10 + d) cs | None => None end
  end.

(** [(0|[1-9]\d* )], matched in full, and the integer of the group; [int]
    refuses more than 4300 digits. *)
Definition version_group (s : string) : option (result Z exn) :=
  match chars s with
  | [] => None
  | c :: cs =>
      if bool_decide (c = "0") then match cs with [] => Some (Ok 0) | _ => None end
      else match c with
           | String a EmptyString =>
               if (49 <=? code a) && (code a <=? 57) then
                 match decimal_fold (code a - 48) cs with
                 | Some n => Some (if (4300 <? length (chars s))%nat then Err (ValueError "Exceeds the limit for integer string conversion") else Ok n)
                 | None => None
                 end
               else None
           | _ => None
           end
  end.

(** [_VERSION.fullmatch(version)]: the groups, if it matches. *)
Definition version_match (version : string) : option (result Z exn * result Z exn * result Z exn) :=
  match split_char "."%char version with
  | [a; b; c] =>
      match version_group a, version_group b, version_group c with
      | Some x, Some y, Some z => Some (x, y, z)
      | _, _, _ => None
      end
  | _ => None
  end.

(** [tuple(map(int, match.groups()))]. *)
Definition version_parts (m : result Z exn * result Z exn * result Z exn) : result (Z * Z * Z) exn :=
  let '(a, b, c) := m in
  let? a := a in let? b := b in let? c := c in Ok (a, b, c).

Definition compare_versions (plugin_version host_version : string) : result VersionRelation exn :=
  match version_match plugin_version, version_match host_version with
  | Some plugin, Some host =>
      let? (p0, p1, _) := version_parts plugin in
      let? (h0, h1, _) := version_parts host in
      if negb (p0 =? h0) then Ok Incompatible
      else if h1 <? p1 then Ok UpdateHost
      else if p1 <? h1 then Ok UpdatePlugin
      else Ok Compatible
  | _, _ => Ok UnknownVersion
  end.

End Versions.

Example normalize_examples :
  normalize_mac "aa-bb-cc-dd-ee-ff" = Ok "AA:BB:CC:DD:EE:FF" /\
  normalize_mac "aabb.ccdd.eeff " = Ok "AA:BB:CC:DD:EE:FF" /\
  normalize_mac "aabbccddeef" = Err invalid_mac /\ normalize_mac "aabbccddeefg" = Err invalid_mac.
Proof. vm_compute. done. Qed.

Example validate_examples {R : Repr} :
  validate_port (JStr " 80 ") false = Ok 80 /\ validate_port (JStr "080") false = Err invalid_port /\
  validate_port (JInt 0) true = Err invalid_port /\ validate_port (JStr "") true = Ok 47991 /\
  validate_port (JBool true) true = Err invalid_port /\
  validate_address (JStr "192.168.1.2") = Ok "192.168.1.2" /\ validate_address (JStr "pc.local.") = Ok "pc.local" /\
  validate_address (JStr "http://pc") = Err (ValidationError "Enter a hostname or IPv4 address.") /\
  validate_address (JStr "fe80::1") = Err (ValidationError "Enter a hostname or IPv4 address.") /\
  validate_broadcast (JStr " ") = Ok None /\ validate_broadcast (JStr "1.2.3.04") <> Ok (Some "1.2.3.04").
Proof. vm_compute. done. Qed.

(** ** MAC addresses are normalised once and for all *)

Lemma upper_hex c :
  is_hex c = true ->
  hex_value (char_to_ascii_uppercase c) = hex_value c /\
  mac_separator (String (char_to_ascii_uppercase c) EmptyString) = false /\
  is_ascii_space (char_to_ascii_uppercase c) = false /\
  char_is_ascii (char_to_ascii_uppercase c) = true /\
  Ascii.eqb (char_to_ascii_uppercase c) ":"%char = false /\
  char_to_ascii_uppercase (char_to_ascii_uppercase c) = char_to_ascii_uppercase c.
Proof. destruct c as [[] [] [] [] [] [] [] []]; vm_compute; done. Qed.

Lemma hex_value_range c n : hex_value c = Some n -> 0 <= n < 16.
Proof. unfold hex_value. repeat case_match; intros [= <-]; bool_to_prop; lia. Qed.

(** The twelve digits of a match, one by one. *)
Lemma mac_matches_digits s :
  mac_matches s = true -> exists l, length l = 12%nat /\ s = String.string_of_list_ascii l /\
    Forall (fun c => is_hex c = true) l.
Proof.
  unfold mac_matches. intros H. bool_to_prop. exists (String.list_ascii_of_string s).
  split; [|split].
  - rewrite <- H. unfold str_len. clear. induction s; simpl; congruence.
  - symmetry. apply String.string_of_list_ascii_of_string.
  - clear H. induction s as [|c s IH]; simpl in *; [constructor|]. bool_to_prop. constructor; auto.
Qed.

Fixpoint with_colons (l : list ascii) : string :=
  match l with
  | a :: b :: l =>
      String a (String b (match l with [] => EmptyString | _ => String ":"%char (with_colons l) end))
  | _ => EmptyString
  end.

Ltac twelve l :=
  do 12 (destruct l as [|? l]; [done|]); destruct l as [|? l]; [|done];
  repeat match goal with H : Forall _ (_ :: _) |- _ => apply Forall_cons in H as [? H] end.

Lemma normalize_digits value l :
  length l = 12%nat -> mac_compact value = String.string_of_list_ascii l -> Forall (fun c => is_hex c = true) l ->
  normalize_mac value = Ok (with_colons (map char_to_ascii_uppercase l)).
Proof.
  intros Hl E HF. unfold normalize_mac. rewrite E.
  assert (mac_matches (String.string_of_list_ascii l) = true) as ->.
  { unfold mac_matches. twelve l. simpl.
    repeat match goal with H : is_hex _ = true |- _ => rewrite H; clear H end. done. }
  twelve l. done.
Qed.

Lemma compact_colons l :
  length l = 12%nat -> Forall (fun c => is_hex c = true) l ->
  mac_compact (with_colons (map char_to_ascii_uppercase l)) =
    String.string_of_list_ascii (map char_to_ascii_uppercase l) /\
  remove_colons (with_colons (map char_to_ascii_uppercase l)) =
    String.string_of_list_ascii (map char_to_ascii_uppercase l).
Proof.
  intros Hl HF. assert (Forall (fun c =>
    mac_separator (String (char_to_ascii_uppercase c) EmptyString) = false /\
    char_is_ascii (char_to_ascii_uppercase c) = true /\
    Ascii.eqb (char_to_ascii_uppercase c) ":"%char = false) l) as HU.
  { eapply Forall_impl; [exact HF|]. intros c Hc. by destruct (upper_hex c Hc) as (_ & ? & _ & ? & ? & _). }
  clear HF. unfold mac_compact. rewrite chars_ascii.
  2:{ twelve l. unfold is_ascii. simpl. destruct_and?. repeat match goal with H : char_is_ascii _ = true |- _ => rewrite H; clear H end. done. }
  twelve l. destruct_and?. split.
  - cbn [with_colons map String.list_ascii_of_string List.filter].
    change (mac_separator ":") with true.
    repeat match goal with H : mac_separator _ = false |- _ => rewrite H; clear H end. done.
  - cbn [with_colons map remove_colons]. change (Ascii.eqb ":"%char ":"%char) with true.
    repeat match goal with H : Ascii.eqb _ _ = false |- _ => rewrite H; clear H end. done.
Qed.

Lemma upper_digits l :
  Forall (fun c => is_hex c = true) l ->
  Forall (fun c => is_hex c = true) (map char_to_ascii_uppercase l) /\
  map char_to_ascii_uppercase (map char_to_ascii_uppercase l) = map char_to_ascii_uppercase l.
Proof.
  induction 1 as [|c l Hc HF [IH1 IH2]]; [done|]. destruct (upper_hex c Hc) as (Hv & _ & _ & _ & _ & Hu).
  cbn [map]. rewrite Hu, IH2. split; [|done]. constructor; [|done]. unfold is_hex in *. by rewrite Hv.
Qed.

Lemma normalize_mac_Ok value m :
  normalize_mac value = Ok m -> exists l, length l = 12%nat /\ mac_compact value = String.string_of_list_ascii l /\
    Forall (fun c => is_hex c = true) l /\ m = with_colons (map char_to_ascii_uppercase l).
Proof.
  intros H. assert (mac_matches (mac_compact value) = true) as Hm.
  { unfold normalize_mac in H. by destruct (mac_matches _). }
  destruct (mac_matches_digits _ Hm) as (l & Hl & E & HF). exists l. do 3 (split; [done|]).
  rewrite (normalize_digits value l) in H by done. congruence.
Qed.

Lemma normalize_mac_idempotent value m : normalize_mac value = Ok m -> normalize_mac m = Ok m.
Proof.
  intros H. apply normalize_mac_Ok in H as (l & Hl & _ & HF & ->).
  destruct (compact_colons l Hl HF) as [E _]. destruct (upper_digits l HF) as [HU Hi].
  rewrite (normalize_digits _ (map char_to_ascii_uppercase l)); [by rewrite Hi|by rewrite length_map|done|done].
Qed.

Lemma of_hex_upper l :
  length l = 12%nat -> Forall (fun c => is_hex c = true) l ->
  exists raw, of_hex (String.string_of_list_ascii l) = Some raw /\ length raw = 6%nat /\
    fromhex (String.string_of_list_ascii (map char_to_ascii_uppercase l)) = Some raw.
Proof.
  intros Hl HF. assert (Forall (fun c => exists n, hex_value c = Some n /\
    hex_value (char_to_ascii_uppercase c) = Some n /\ is_ascii_space (char_to_ascii_uppercase c) = false) l) as HU.
  { eapply Forall_impl; [exact HF|]. intros c Hc. destruct (upper_hex c Hc) as (Hv & _ & Hs & _).
    unfold is_hex in Hc. destruct (hex_value c) as [n|]; [|done]. eauto. }
  clear HF. twelve l. destruct_and?.
  repeat match goal with H : exists _, _ |- _ => destruct H as (? & ? & ? & ?) end.
  cbn [map String.string_of_list_ascii of_hex fromhex].
  repeat match goal with H : is_ascii_space _ = false |- _ => rewrite H; clear H end.
  repeat match goal with H : hex_value _ = Some _ |- _ => rewrite H; clear H end.
  eexists. split; [reflexivity|]. done.
Qed.

(** Wake-on-LAN packets: a MAC address that is accepted, in any of its
    notations, gives the packet of 102 bytes that repeats its six bytes sixteen
    times after six bytes of ones, the normal form gives the same packet, and
    an address that is refused gives no packet. *)
Theorem magic_packet_spec mac :
  match normalize_mac mac with
  | Ok normal =>
      exists raw, of_hex (mac_compact mac) = Some raw /\ length raw = 6%nat /\
        let packet := repeat xff 6 ++ concat (repeat raw 16) in
        magic_packet mac = Ok packet /\ length packet = 102%nat /\ magic_packet normal = Ok packet
  | Err e => e = invalid_mac /\ magic_packet mac = Err invalid_mac
  end.
Proof.
  destruct (normalize_mac mac) as [m|e] eqn:E.
  - pose proof (normalize_mac_idempotent _ _ E) as Em. pose proof E as E'.
    apply normalize_mac_Ok in E' as (l & Hl & Hc & HF & ->).
    destruct (of_hex_upper l Hl HF) as (raw & H1 & H2 & H3). destruct (compact_colons l Hl HF) as [_ Hr].
    exists raw. rewrite Hc. split; [done|]. split; [done|]. cbv zeta. unfold magic_packet.
    rewrite E, Em. rewrite Hr, H3. simpl. split; [done|]. split; [|done].
    rewrite !length_app, H2. done.
  - unfold magic_packet. rewrite E. unfold normalize_mac in E. destruct (mac_matches _); [done|].
    injection E as <-. done.
Qed.

(** ** Ports and addresses *)

Section ObjectLemmas.
Context {R : Repr}.

Lemma str_int_nonneg n : 0 <= n -> str_int n = decimal n.
Proof. intros H. unfold str_int. by rewrite (proj2 (Z.ltb_ge _ _)). Qed.

(** A port is accepted exactly when it is written as its canonical numeral,
    white space around it aside; every refusal is the same error. *)
Lemma validate_port_iff value port :
  validate_port value false = Ok port <->
  (forall b, value <> JBool b) /\ strip (py_str value) = decimal port /\ 1 <= port <= 65535.
Proof.
  unfold validate_port. rewrite andb_false_r. split.
  - intros H. assert (forall b, value <> JBool b) as Hb by (intros b ->; done).
    destruct (py_int (py_str value)) as [n|] eqn:E; [|by destruct value].
    destruct (negb _ || negb _) eqn:Ec; [by destruct value|]. bool_to_prop.
    assert (n = port) as ->. { destruct value; congruence. }
    rewrite str_int_nonneg in H0 by lia. done.
  - intros (Hb & Hs & Hp).
    assert (py_int (py_str value) = Some port) as E.
    { unfold py_int. rewrite Hs. pose proof (py_int_decimal port ltac:(lia)) as Hd. unfold py_int in Hd.
      rewrite strip_plain in Hd by apply digits_plain, decimal_digits. done. }
    rewrite E, Hs, str_int_nonneg by lia. rewrite bool_decide_eq_true_2 by done.
    rewrite (proj2 (Z.leb_le 1 port)), (proj2 (Z.leb_le port 65535)) by lia.
    destruct value; try done. by destruct (Hb b).
Qed.

Lemma validate_port_error value default e :
  validate_port value default = Err e -> e = invalid_port.
Proof.
  unfold validate_port. destruct (is_absent value && default); [done|].
  intros H. repeat (case_hyp H; simplify_eq); done.
Qed.

Lemma validate_port_int port : 1 <= port <= 65535 -> validate_port (JInt port) false = Ok port.
Proof.
  intros Hp. apply validate_port_iff. split; [done|]. cbn [py_str]. rewrite str_int_nonneg by lia.
  split; [|done]. apply strip_plain, digits_plain, decimal_digits.
Qed.

Lemma validate_port_range value default port : validate_port value default = Ok port -> 1 <= port <= 65535.
Proof.
  destruct default.
  - unfold validate_port at 1. destruct (is_absent value) eqn:Ea; simpl.
    + intros [= <-]. unfold DEFAULT_PORT. lia.
    + intros H. assert (validate_port value false = Ok port) as H' by (unfold validate_port; by rewrite Ea).
      apply validate_port_iff in H' as (_ & _ & ?). done.
  - intros H. apply validate_port_iff in H as (_ & _ & ?). done.
Qed.

(** What the validators return is plain text, so that nothing is left to strip. *)
Lemma split_char_all (p : ascii -> bool) sep s :
  (forall l, l ∈ split_char sep s -> str_all (fun c => p c) l = true) ->
  str_all (fun c => p c || Ascii.eqb c sep) s = true.
Proof.
  induction s as [|c s IH]; intros H; [done|]. cbn [str_all split_char] in *.
  destruct (Ascii.eqb c sep) eqn:E.
  - rewrite orb_true_r. apply IH. intros l Hl. apply H. by apply list_elem_of_further.
  - rewrite orb_false_r. destruct (split_char sep s) as [|q qs] eqn:Es.
    + by apply split_char_nonempty in Es.
    + pose proof (H _ (list_elem_of_here _ _)) as Hq. cbn [str_all] in Hq. apply andb_true_iff in Hq as [-> Hq].
      apply IH. intros l Hl. apply elem_of_cons in Hl as [->|Hl]; [done|]. apply H. by apply list_elem_of_further.
Qed.

Lemma octet_digits s : octet s = true -> str_all is_ascii_digit s = true.
Proof. unfold octet. intros H. by bool_to_prop. Qed.

Lemma dotted_plain (p : ascii -> bool) s :
  (forall c, p c = true -> plain c = true) ->
  str_all (fun c => p c || Ascii.eqb c "."%char) s = true -> str_all plain s = true.
Proof.
  intros Hp. apply str_all_impl. intros c Hc. apply orb_true_iff in Hc as [Hc|Hc]; [by apply Hp|].
  apply Ascii.eqb_eq in Hc as ->. done.
Qed.

Lemma is_ipv4_plain s : is_ipv4 s = true -> str_all plain s = true.
Proof.
  intros H. apply (dotted_plain is_ascii_digit).
  - intros c Hc. unfold is_ascii_digit, plain in *. bool_to_prop. rewrite andb_true_iff, Z.leb_le, Z.ltb_lt. lia.
  - apply split_char_all. intros l Hl. apply octet_digits. unfold is_ipv4 in H.
    destruct (split_char _ s) as [|a [|b [|c [|d [|? ?]]]]]; try done. bool_to_prop.
    rewrite !elem_of_cons, elem_of_nil in Hl. naive_solver.
Qed.

Lemma label_ok_plain l : label_ok l = true ->
  str_all (fun c => is_ascii_alnum c || Ascii.eqb c "-"%char) l = true /\ l <> "" /\ (str_len l <= 63)%nat.
Proof.
  unfold label_ok. intros H. apply andb_true_iff in H as [H1 H2]. split; [done|]. bool_to_prop.
  split; [|done]. by intros ->.
Qed.

Lemma labels_plain s : forallb label_ok (split_char "."%char s) = true -> str_all plain s = true.
Proof.
  intros H. apply (dotted_plain (fun c => is_ascii_alnum c || Ascii.eqb c "-"%char)).
  - intros c Hc. apply orb_true_iff in Hc as [Hc|Hc]; [|by apply Ascii.eqb_eq in Hc as ->].
    unfold is_ascii_alnum, is_ascii_digit, plain in *.
    rewrite !orb_true_iff, !andb_true_iff, !Z.leb_le in Hc. rewrite andb_true_iff, Z.leb_le, Z.ltb_lt. lia.
  - apply split_char_all. intros l Hl. apply label_ok_plain.
    rewrite forallb_forall in H. apply H. by apply list_elem_of_In.
Qed.

Lemma remove_dot_app s : remove_dot s = s \/ s = remove_dot s +:+ ".".
Proof.
  induction s as [|c s IH]; [by left|]. cbn [remove_dot]. destruct s as [|d s].
  - destruct (Ascii.eqb_spec c "."%char) as [->|]; [by right|by left].
  - destruct IH as [->|IH]; [by left|]. right. rewrite IH at 1. done.
Qed.

Lemma split_char_dot s : split_char "."%char (s +:+ ".") = split_char "."%char s ++ [""].
Proof.
  induction s as [|c s IH]; [done|].
  change (String c s +:+ ".") with (String c (s +:+ ".")). cbn [split_char]. rewrite IH.
  destruct (Ascii.eqb c "."%char); [done|]. by destruct (split_char "."%char s) eqn:E; [apply split_char_nonempty in E|].
Qed.

(** A name all of whose labels are good does not end in a dot. *)
Lemma labels_no_dot s : forallb label_ok (split_char "."%char s) = true -> remove_dot s = s.
Proof.
  intros H. destruct (remove_dot_app s) as [E|E]; [done|]. exfalso. rewrite E, split_char_dot, forallb_app in H.
  apply andb_true_iff in H as [_ H]. done.
Qed.

Lemma length_chars_plain s : str_all plain s = true -> length (chars s) = str_len s.
Proof.
  intros H. rewrite chars_ascii, length_map by by apply plain_is_ascii. clear H. unfold str_len.
  induction s; simpl; congruence.
Qed.

Lemma no_space_plain s : str_all plain s = true -> existsb isspace (chars s) = false.
Proof.
  intros H. pose proof (plain_chars s H) as HF. apply not_true_iff_false. intros E.
  apply existsb_exists in E as (c & Hin & Hc). rewrite Forall_forall in HF.
  rewrite HF in Hc; [done|]. by apply list_elem_of_In.
Qed.

Lemma text_of_plain s : str_all plain s = true -> text_of (JStr s) = s.
Proof.
  intros H. unfold text_of. cbn [truthy py_str]. case_bool_decide as E; simpl; [by subst|by apply strip_plain].
Qed.

(** [validate_address] on plain text. *)
Lemma validate_address_plain s :
  str_all plain s = true -> s <> "" -> (str_len s <= 253)%nat ->
  is_ipv4 s = true \/ forallb label_ok (split_char "."%char s) = true ->
  validate_address (JStr s) = Ok s.
Proof.
  intros Hp Hne Hlen Hs. unfold validate_address. rewrite text_of_plain by done.
  rewrite bool_decide_eq_false_2, length_chars_plain, no_space_plain, (proj2 (Nat.ltb_ge _ _)) by done. simpl.
  destruct (is_ipv4 s) eqn:E; [done|]. destruct Hs as [|Hs]; [done|]. by rewrite labels_no_dot, Hs.
Qed.

Lemma validate_address_idempotent value a : validate_address value = Ok a -> validate_address (JStr a) = Ok a.
Proof.
  unfold validate_address at 1. set (s := text_of value).
  destruct (bool_decide (s = "") || _ || _) eqn:E; [done|]. bool_to_prop.
  destruct (is_ipv4 s) eqn:Ei.
  - intros [= <-]. pose proof (is_ipv4_plain s Ei) as Hp. rewrite length_chars_plain in * by done.
    apply validate_address_plain; auto.
  - destruct (forallb _ _) eqn:El; [|done]. intros [= <-]. pose proof (labels_plain _ El) as Hp.
    assert (str_all plain s = true /\ (str_len (remove_dot s) <= str_len s)%nat) as [Hps Hle].
    { destruct (remove_dot_app s) as [Es|Es]; [by rewrite Es in Hp |- *|].
      pose proof (f_equal str_len Es) as El'. rewrite str_len_app in El'. split; [|lia].
      by rewrite Es, str_all_app, Hp. }
    rewrite length_chars_plain in * by done.
    apply validate_address_plain; [done| |lia|by right].
    intros En. by rewrite En in El.
Qed.

Lemma validate_broadcast_idempotent value b :
  validate_broadcast value = Ok b ->
  validate_broadcast (match b with Some s => JStr s | None => JNull end) = Ok b.
Proof.
  unfold validate_broadcast at 1. case_bool_decide as E; [by intros [= <-]|].
  destruct (is_ipv4 (text_of value)) eqn:Ei; [|done]. intros [= <-]. pose proof (is_ipv4_plain _ Ei) as Hp.
  unfold validate_broadcast. rewrite text_of_plain by done. by rewrite bool_decide_eq_false_2, Ei.
Qed.

Lemma validate_address_error value e : validate_address value = Err e -> exists m, e = ValidationError m.
Proof. unfold validate_address. intros H. repeat (case_hyp H; simplify_eq); eauto. Qed.

Lemma validate_broadcast_error value e : validate_broadcast value = Err e -> exists m, e = ValidationError m.
Proof. unfold validate_broadcast. intros H. repeat (case_hyp H; simplify_eq); eauto. Qed.

End ObjectLemmas.

(** ** Versions: the plugin and the host agree *)

Lemma digits_value_any a b s u : digits_value a s = Some u -> exists w, digits_value b s = Some w.
Proof.
  revert a b u; induction s as [|c s IH]; intros a b u; [eauto|]. cbn [digits_value].
  destruct (digit_value c); [|done]. apply IH.
Qed.

Lemma digits_value_acc acc s v :
  digits_value 0 s = Some v -> digits_value acc s = Some (acc * 10 ^ Z.of_nat (str_len s) + v) /\
  0 <= v < 10 ^ Z.of_nat (str_len s).
Proof.
  revert acc v; induction s as [|c s IH]; intros acc v.
  { intros [= <-]. simpl. split; [f_equal; lia|lia]. }
  cbn [digits_value]. change (str_len (String c s)) with (S (str_len s)).
  rewrite Nat2Z.inj_succ, Z.pow_succ_r by lia.
  destruct (digit_value c) as [d|] eqn:Ed; [|done]. pose proof (digit_value_range _ _ Ed) as Hd.
  intros H. destruct (digits_value_any _ 0 _ _ H) as [w Ew].
  destruct (IH (0 * 10 + d) w Ew) as [E Hw]. destruct (IH (acc * 10 + d) w Ew) as [E' _].
  assert (v = (0 * 10 + d) * 10 ^ Z.of_nat (str_len s) + w) as -> by congruence.
  rewrite E'. split; [f_equal; ring|nia].
Qed.

Lemma digits_value_inj s t v :
  str_len s = str_len t -> digits_value 0 s = Some v -> digits_value 0 t = Some v -> s = t.
Proof.
  revert t v; induction s as [|c s IH]; intros [|d t] v Hl Hs Ht; try done.
  change (S (str_len s) = S (str_len t)) in Hl. injection Hl as Hl. cbn [digits_value] in Hs, Ht.
  destruct (digit_value c) as [x|] eqn:Ex; [|done]. destruct (digit_value d) as [y|] eqn:Ey; [|done].
  destruct (digits_value_any _ 0 _ _ Hs) as [vs Hvs], (digits_value_any _ 0 _ _ Ht) as [vt Hvt].
  destruct (digits_value_acc (0 * 10 + x) s vs Hvs) as [Es Hrs].
  destruct (digits_value_acc (0 * 10 + y) t vt Hvt) as [Et Hrt].
  assert (vs + x * 10 ^ Z.of_nat (str_len t) = vt + y * 10 ^ Z.of_nat (str_len t)) as E.
  { rewrite Hl in Es. pose proof (eq_trans (eq_sym Es) Hs). pose proof (eq_trans (eq_sym Et) Ht).
    simplify_eq. lia. }
  rewrite Hl in Hrs.
  pose proof (Z.pow_pos_nonneg 10 (Z.of_nat (str_len t)) ltac:(lia) ltac:(lia)).
  assert (x = y) as <- by nia. assert (vs = vt) as <- by lia.
  unfold digit_value in Ex, Ey. repeat case_match; simplify_eq.
  f_equal; [|by apply (IH t vs)]. assert (RustStd.code c = RustStd.code d) as Ec by lia.
  unfold RustStd.code in Ec. apply N2Z.inj in Ec. apply (f_equal ascii_of_N) in Ec.
  by rewrite !ascii_N_embedding in Ec.
Qed.

(** A numeral without a leading zero, and with a digit in front. *)
Definition leading (s : string) : Prop :=
  exists c r, s = String c r /\ 49 <= RustStd.code c <= 57.

Lemma leading_value c s v :
  49 <= RustStd.code c <= 57 -> digits_value 0 (String c s) = Some v ->
  10 ^ Z.of_nat (str_len s) <= v < 10 ^ Z.of_nat (S (str_len s)).
Proof.
  intros Hc H. cbn [digits_value] in H.
  assert (digit_value c = Some (RustStd.code c - 48)) as Hd.
  { unfold digit_value, is_ascii_digit. by rewrite (proj2 (Z.leb_le _ _)), (proj2 (Z.leb_le _ _)) by lia. }
  rewrite Hd in H. destruct (digits_value_any _ 0 _ _ H) as [w Ew].
  destruct (digits_value_acc (0 * 10 + (RustStd.code c - 48)) s w Ew) as [E Hw].
  assert (v = (0 * 10 + (RustStd.code c - 48)) * 10 ^ Z.of_nat (str_len s) + w) as -> by congruence.
  rewrite Nat2Z.inj_succ, Z.pow_succ_r by lia.
  pose proof (Z.pow_pos_nonneg 10 (Z.of_nat (str_len s)) ltac:(lia) ltac:(lia)). nia.
Qed.

(** Two numerals without leading zeros that have the same value are the same. *)
Lemma leading_inj s t v :
  leading s -> leading t -> digits_value 0 s = Some v -> digits_value 0 t = Some v -> s = t.
Proof.
  intros (c & r & -> & Hc) (d & q & -> & Hd) Hs Ht. apply (digits_value_inj _ _ v); [|done|done].
  pose proof (leading_value c r v Hc Hs) as H1. pose proof (leading_value d q v Hd Ht) as H2.
  change (S (str_len r) = S (str_len q)). f_equal.
  destruct (Nat.lt_trichotomy (str_len r) (str_len q)) as [Hlt|[Heq|Hgt]]; [|done|]; exfalso.
  - pose proof (Z.pow_le_mono_r 10 (Z.of_nat (S (str_len r))) (Z.of_nat (str_len q)) ltac:(lia) ltac:(lia)). lia.
  - pose proof (Z.pow_le_mono_r 10 (Z.of_nat (S (str_len q))) (Z.of_nat (str_len r)) ltac:(lia) ltac:(lia)). lia.
Qed.

Lemma print_digits_leading fuel n acc : 0 < n < 10 ^ Z.of_nat fuel -> leading (print_digits fuel n acc).
Proof.
  revert n acc; induction fuel as [|f IH]; intros n acc Hn; [simpl in Hn; lia|].
  rewrite Nat2Z.inj_succ, Z.pow_succ_r in Hn by lia. cbn [print_digits].
  pose proof (Z.mod_pos_bound n 10 eq_refl) as Hm. pose proof (Z.div_mod n 10 ltac:(lia)) as Hd.
  destruct (n / 10 =? 0) eqn:E; bool_to_prop.
  - eexists _, _. split; [reflexivity|]. unfold digit_char. rewrite code_ascii_of_Z; lia.
  - apply IH. split; [|apply Z.div_lt_upper_bound; lia]. assert (0 <= n / 10) by (apply Z.div_pos; lia). lia.
Qed.

Lemma to_string_value n : in_range u64_max n -> digits_value 0 (to_string n) = Some n.
Proof.
  intros [H1 H2]. unfold to_string. rewrite digits_value_print; [done|]. unfold u64_max in H2. simpl. lia.
Qed.

Lemma to_string_leading n : 0 < n <= u64_max -> leading (to_string n).
Proof. intros H. apply print_digits_leading. unfold u64_max in H. simpl. lia. Qed.

Section VersionLemmas.
Context {D : Decimals} {DL : DecimalsLaws D}.

Lemma decimal_fold_ascii acc s : is_ascii s = true -> decimal_fold acc (chars s) = digits_value acc s.
Proof.
  intros H. rewrite chars_ascii by done. unfold is_ascii in H. revert acc H.
  induction s as [|c s IH]; intros acc; [done|]. cbn [str_all]. intros H. bool_to_prop.
  cbn [String.list_ascii_of_string map decimal_fold digits_value]. rewrite decimal_ascii by done.
  destruct (digit_value c); [|done]. by apply IH.
Qed.

(** A group matches an ASCII text with a value that fits 64 bits exactly when
    the text is how Rust prints that value. *)
Lemma version_group_iff s n :
  is_ascii s = true -> in_range u64_max n -> version_group s = Some (Ok n) <-> s = to_string n.
Proof.
  intros Ha Hn. split.
  - unfold version_group. intros H. destruct s as [|c r]; [done|].
    assert (is_ascii r = true /\ chars (String c r) = String c "" :: chars r) as [Har Ec].
    { unfold is_ascii in *. cbn [str_all] in Ha. bool_to_prop. split; [done|].
      cbn [chars]. unfold char_is_ascii in *. bool_to_prop. by rewrite (proj2 (Z.ltb_lt _ _)). }
    rewrite Ec in H. case_bool_decide as E0.
    + injection E0 as ->. destruct (chars r) as [|? ?] eqn:Er; [|done]. injection H as <-.
      rewrite chars_ascii in Er by done. destruct r; [done|done].
    + destruct ((49 <=? _) && _) eqn:Ed; [|done]. bool_to_prop.
      rewrite decimal_fold_ascii in H by done.
      destruct (digits_value (RustStd.code c - 48) r) as [v|] eqn:Ev; [|done].
      destruct (4300 <? _)%nat; [done|]. injection H as ->.
      assert (digits_value 0 (String c r) = Some n) as Hv.
      { cbn [digits_value]. unfold digit_value, is_ascii_digit.
        by rewrite (proj2 (Z.leb_le _ _)), (proj2 (Z.leb_le _ _)) by lia. }
      pose proof (leading_value c r n ltac:(done) Hv).
      pose proof (Z.pow_pos_nonneg 10 (Z.of_nat (str_len r)) ltac:(lia) ltac:(lia)).
      apply (leading_inj _ _ n); [by exists c, r|apply to_string_leading; unfold in_range in Hn; lia|done|by apply to_string_value].
  - intros ->. destruct (Z.eq_dec n 0) as [->|Hz]; [done|].
    destruct (to_string_leading n) as (c & r & E & Hc); [unfold in_range in Hn; lia|].
    pose proof (to_string_value n Hn) as Hv.
    assert (str_len (to_string n) <= 20)%nat as Hlen.
    { destruct (print_digits_len_acc 20 n "") as [_ Hp]. etransitivity; [exact Hp|]. apply Nat.le_refl. }
    rewrite E in *. unfold is_ascii in Ha. cbn [str_all] in Ha. bool_to_prop.
    assert (chars (String c r) = String c "" :: chars r) as Ec.
    { cbn [chars]. by rewrite (proj2 (Z.ltb_lt _ _)) by lia. }
    assert (length (chars (String c r)) <= 20)%nat as Hlen'.
    { rewrite chars_ascii, length_map by (unfold is_ascii; cbn [str_all]; rewrite H; done).
      etransitivity; [|exact Hlen]. apply Nat.eq_le_incl. unfold str_len. clear. induction (String c r); simpl; congruence. }
    unfold version_group. rewrite (proj2 (Nat.ltb_ge 4300 (length (chars (String c r))))) by (rewrite Hlen'; lia). rewrite Ec.
    rewrite bool_decide_eq_false_2 by (intros [= ->]; change (RustStd.code "0"%char) with 48 in Hc; lia).
    rewrite (proj2 (Z.leb_le _ _)), (proj2 (Z.leb_le _ _)) by lia. cbn [andb].
    rewrite decimal_fold_ascii by done. cbn [digits_value] in Hv.
    unfold digit_value, is_ascii_digit in Hv. rewrite (proj2 (Z.leb_le _ _)), (proj2 (Z.leb_le _ _)) in Hv by lia.
    cbn [andb] in Hv. rewrite Z.mul_0_l, Z.add_0_l in Hv. by rewrite Hv.
Qed.

Lemma split_char_join sep s : join (String sep "") (split_char sep s) = s.
Proof.
  induction s as [|c s IH]; [done|]. cbn [split_char]. destruct (Ascii.eqb_spec c sep) as [->|Hne].
  - destruct (split_char sep s) as [|q qs] eqn:E; [by apply split_char_nonempty in E|].
    change (String sep (join (String sep "") (q :: qs)) = String sep s). by rewrite IH.
  - destruct (split_char sep s) as [|q qs] eqn:E; [by apply split_char_nonempty in E|].
    rewrite <- IH. by destruct qs.
Qed.

Lemma split_char_ascii sep s l : is_ascii s = true -> l ∈ split_char sep s -> is_ascii l = true.
Proof.
  unfold is_ascii. revert l; induction s as [|c s IH]; intros l; cbn [split_char str_all].
  { intros _ Hl. apply list_elem_of_singleton in Hl as ->. done. }
  intros H. bool_to_prop. destruct (Ascii.eqb c sep).
  - intros Hl. apply elem_of_cons in Hl as [->|Hl]; [done|]. by apply IH.
  - destruct (split_char sep s) as [|q qs] eqn:E; [by apply split_char_nonempty in E|].
    intros Hl. apply elem_of_cons in Hl as [->|Hl]; [|apply IH; [done|by apply list_elem_of_further]].
    cbn [str_all]. rewrite H. apply IH; [done|apply list_elem_of_here].
Qed.

Lemma version_match_iff s a b c :
  is_ascii s = true -> version_wf (a, b, c) ->
  version_match s = Some (Ok a, Ok b, Ok c) <-> s = render (a, b, c).
Proof.
  intros Hs (Ha & Hb & Hc). unfold version_match. split.
  - pose proof (split_char_join "."%char s) as Ej. pose proof (split_char_ascii "."%char s) as Hasc.
    destruct (split_char "."%char s) as [|p [|q [|r [|? ?]]]]; try done.
    destruct (version_group p) as [x|] eqn:Ep; [|done]. destruct (version_group q) as [y|] eqn:Eq; [|done].
    destruct (version_group r) as [z|] eqn:Er; [|done]. intros [= -> -> ->].
    apply version_group_iff in Ep as ->, Eq as ->, Er as ->;
      try done; (apply Hasc; [done|]; set_solver).
  - intros ->. rewrite (split_render (a, b, c)).
    rewrite !(fun n H1 H2 => proj2 (version_group_iff (to_string n) n H1 H2) eq_refl); try done;
      unfold is_ascii; (eapply str_all_impl; [|apply to_string_digits]); unfold is_ascii_digit, char_is_ascii;
      intros ch Hch; bool_to_prop; apply Z.ltb_lt; lia.
Qed.

(** The numbers of a version that matches fit into 64 bits, as those of the
    host's own parser have to. *)
Definition version_fits (s : string) : Prop :=
  forall m, version_match s = Some m -> exists a b c, m = (Ok a, Ok b, Ok c) /\ version_wf (a, b, c).

Lemma version_match_parse s :
  is_ascii s = true -> version_fits s ->
  version_match s = match parse s with Some (a, b, c) => Some (Ok a, Ok b, Ok c) | None => None end.
Proof.
  intros Hs Hf. destruct (parse s) as [[[a b] c]|] eqn:E.
  - apply parse_sound in E as [E Hv]. by apply version_match_iff.
  - destruct (version_match s) as [m|] eqn:Em; [|done].
    destruct (Hf m Em) as (a & b & c & -> & Hv). apply version_match_iff in Em; [|done|done].
    rewrite Em, parse_render in E by done. done.
Qed.

Lemma compare_versions_compare plugin host :
  is_ascii plugin = true -> is_ascii host = true -> version_fits plugin -> version_fits host ->
  compare_versions plugin host = Ok (compare plugin host).
Proof.
  intros H1 H2 F1 F2. unfold compare_versions, compare.
  rewrite (version_match_parse plugin), (version_match_parse host) by done.
  destruct (parse plugin) as [[[p0 p1] p2]|], (parse host) as [[[h0 h1] h2]|]; try done. simpl.
  repeat case_match; done.
Qed.

(** The plugin and the host judge versions alike: on ASCII texts whose
    numbers fit into 64 bits, the plugin's regular expression and comparison
    give the relation the host's own parser and comparison give. *)
Theorem compare_versions_agree plugin host :
  is_ascii plugin = true -> is_ascii host = true -> version_fits plugin -> version_fits host ->
  compare_versions plugin host = Ok (compare plugin host).
Proof. apply compare_versions_compare. Qed.

End VersionLemmas.

Definition ascii_decimals : Decimals := fun c =>
  match c with String a EmptyString => digit_value a | _ => None end.

Lemma ascii_decimals_laws : DecimalsLaws ascii_decimals.
Proof. intros c _. done. Qed.

(** [compare_versions_agree] at two versions. *)
Lemma compare_versions_agree_witness :
  @compare_versions ascii_decimals "0.2.0" "0.1.9" = Ok UpdateHost.
Proof.
  rewrite (@compare_versions_agree ascii_decimals ascii_decimals_laws "0.2.0" "0.1.9").
  - vm_compute. reflexivity.
  - reflexivity.
  - reflexivity.
  - intros m Hm. vm_compute in Hm. injection Hm as <-. exists 0, 2, 0. repeat split; vm_compute; discriminate.
  - intros m Hm. vm_compute in Hm. injection Hm as <-. exists 0, 1, 9. repeat split; vm_compute; discriminate.
Defined.

End Validation.
