(* ===== verification/PluginStore.v ===== *)
(** * The plugin's store (decky/py_modules/decky_my_rig/store.py)

    Devices and pairing credentials in two JSON files, replaced together
    through a transaction file.  The model has the directory as the power
    supply sees it: changes of names are pending until the directory is
    synchronised, contents are safe once the file is, every system call can
    fail, and the machine can stop before any of them. *)
From stdpp Require Import base gmap list strings.
From Stdlib Require Import Ascii ZArith Lia.
From S2P Require Import Prelude RustStd Hex PyStd PluginValidation.
Import Validation.
Open Scope string_scope.
Open Scope Z_scope.
Open Scope list_scope.

Declare Scope io_scope.
Delimit Scope io_scope with io.

Module Store.

(** ** The directory *)

(** The mode 0600. *)
Definition owner_only : Z := 6 * 64.

(** What [json.loads(path.read_text("utf-8"))] makes of a file. *)
Inductive document :=
| Json (j : json)
| NotJson
| NotText.

Record entry := Entry { entry_mode : Z; entry_doc : document; entry_synced : bool }.

(** Changes of the directory that are not yet on stable storage. *)
Inductive change :=
| Put (path : string) (e : entry)
| Remove (path : string).

Definition apply_change (c : change) (m : gmap string entry) : gmap string entry :=
  match c with Put path e => <[path := e]> m | Remove path => delete path m end.

(** What the next system call meets: nothing, an error, or the end of the
    machine, with the number of pending changes that reach the disk. *)
Inductive fault :=
| Fine
| Fails
| Dies (kept : nat).

Record Disk := MkDisk {
  durable : gmap string entry;
  pending : list change;
  temporaries : gmap nat entry;
  next_temporary : nat;
  faults : list fault;
  (** met by the synchronisation of the directory *)
  sync_faults : list fault;
}.

Definition apply_changes (cs : list change) (m : gmap string entry) : gmap string entry :=
  fold_left (fun m c => apply_change c m) cs m.

(** The files as running programs see them. *)
Definition files (d : Disk) : gmap string entry := apply_changes (pending d) (durable d).

(** Contents that were not synchronised are lost with the machine. *)
Definition survive (e : entry) : entry :=
  if entry_synced e then e else Entry (entry_mode e) NotJson true.

Definition stop_machine (kept : nat) (d : Disk) : Disk :=
  MkDisk (survive <$> apply_changes (take kept (pending d)) (durable d)) []
    ∅ (next_temporary d) (faults d) (sync_faults d).

(** ** Programs on the disk *)

Inductive outcome (A : Type) :=
| Ret (a : A)
| Raise (e : exn)
| Dead.
Arguments Ret {A} a.
Arguments Raise {A} e.
Arguments Dead {A}.

Definition io (A : Type) : Type := Disk -> outcome A * Disk.

Definition ret {A} (a : A) : io A := fun d => (Ret a, d).
Definition raise {A} (e : exn) : io A := fun d => (Raise e, d).

Definition bind {A B} (c : io A) (k : A -> io B) : io B := fun d =>
  match c d with
  | (Ret a, d) => k a d
  | (Raise e, d) => (Raise e, d)
  | (Dead, d) => (Dead, d)
  end.

(** [try: c except ...: handler]; nothing runs on a machine that stopped. *)
Definition catch {A} (c : io A) (handler : exn -> io A) : io A := fun d =>
  match c d with
  | (Raise e, d) => handler e d
  | r => r
  end.

(** [try: c finally: f]. *)
Definition finally {A} (c : io A) (f : io unit) : io A := fun d =>
  match c d with
  | (Ret a, d) => bind f (fun _ => ret a) d
  | (Raise e, d) => bind f (fun _ => raise e) d
  | (Dead, d) => (Dead, d)
  end.

Definition lift {A} (r : result A exn) : io A := match r with Ok a => ret a | Err e => raise e end.

Notation "x <- p ;; q" := (bind p (fun x => q))
  (at level 60, p at next level, right associativity) : io_scope.
Notation "p ;;; q" := (bind p (fun _ => q))
  (at level 60, right associativity) : io_scope.
Open Scope io_scope.

(** A system call: the effect [f], or the next fault. *)
Definition syscall {A} (f : Disk -> outcome A * Disk) : io A := fun d =>
  match faults d with
  | [] => f d
  | x :: fs =>
      let d := MkDisk (durable d) (pending d) (temporaries d) (next_temporary d) fs (sync_faults d) in
      match x with
      | Fine => f d
      | Fails => (Raise (OSError "system call failed"), d)
      | Dies kept => (Dead, stop_machine kept d)
      end
  end.

(** [tempfile.NamedTemporaryFile(dir=..., delete=False)]: a new name, mode
    0600, empty. *)
Definition create_temporary : io nat := syscall (fun d =>
  (Ret (next_temporary d),
   MkDisk (durable d) (pending d) (<[next_temporary d := Entry owner_only NotJson false]> (temporaries d))
     (S (next_temporary d)) (faults d) (sync_faults d))).

Definition update_temporary (n : nat) (f : entry -> entry) : io unit := syscall (fun d =>
  (Ret tt, MkDisk (durable d) (pending d) (alter f n (temporaries d)) (next_temporary d)
     (faults d) (sync_faults d))).

(** [json.dump(value, output)], the newline and [flush]. *)
Definition write_temporary (n : nat) (value : json) : io unit :=
  update_temporary n (fun e => Entry (entry_mode e) (Json value) false).
(** [os.fsync(output.fileno())]. *)
Definition sync_temporary (n : nat) : io unit :=
  update_temporary n (fun e => Entry (entry_mode e) (entry_doc e) true).
Definition chmod_temporary (n : nat) (mode : Z) : io unit :=
  update_temporary n (fun e => Entry mode (entry_doc e) (entry_synced e)).

(** [os.replace(temporary, path)]. *)
Definition replace (n : nat) (path : string) : io unit := syscall (fun d =>
  match temporaries d !! n with
  | Some e => (Ret tt, MkDisk (durable d) (pending d ++ [Put path e]) (delete n (temporaries d))
                 (next_temporary d) (faults d) (sync_faults d))
  | None => (Raise FileNotFoundError, d)
  end).

(** [os.unlink(temporary)]. *)
Definition unlink_temporary (n : nat) : io unit := fun d =>
  match temporaries d !! n with
  | None => (Raise FileNotFoundError, d)
  | Some _ => syscall (fun d => (Ret tt, MkDisk (durable d) (pending d) (delete n (temporaries d))
                 (next_temporary d) (faults d) (sync_faults d))) d
  end.

(** [os.open(directory)], [os.fsync] and [os.close]. *)
Definition sync_directory : io unit := fun d =>
  let done d := (Ret tt, MkDisk (files d) [] (temporaries d) (next_temporary d) (faults d) (sync_faults d)) in
  match sync_faults d with
  | [] => done d
  | x :: fs =>
      let d := MkDisk (durable d) (pending d) (temporaries d) (next_temporary d) (faults d) fs in
      match x with
      | Fine => done d
      | Fails => (Raise (OSError "directory not synchronised"), d)
      | Dies kept => (Dead, stop_machine kept d)
      end
  end.

(** [path.unlink()]. *)
Definition unlink (path : string) : io unit := syscall (fun d =>
  match files d !! path with
  | Some _ => (Ret tt, MkDisk (durable d) (pending d ++ [Remove path]) (temporaries d)
                 (next_temporary d) (faults d) (sync_faults d))
  | None => (Raise FileNotFoundError, d)
  end).

(** [path.exists()]. *)
Definition exists_file (path : string) : io bool := fun d => (Ret (bool_decide (is_Some (files d !! path))), d).

(** [json.loads(path.read_text("utf-8"))]. *)
Definition read_json (path : string) : io json := syscall (fun d =>
  match files d !! path with
  | None => (Raise FileNotFoundError, d)
  | Some e =>
      match entry_doc e with
      | Json j => (Ret j, d)
      | NotJson => (Raise JSONDecodeError, d)
      | NotText => (Raise UnicodeError, d)
      end
  end).

(** ** [_atomic_write] and [_remove_transaction] *)

(** [try: os.unlink(temporary) except FileNotFoundError: pass]. *)
Definition discard (n : nat) : io unit :=
  catch (unlink_temporary n)
    (fun e => if bool_decide (e = FileNotFoundError) then ret tt else raise e).

Definition atomic_write (path : string) (value : json) (mode : Z) : io unit :=
  temporary <- create_temporary ;;
  finally
    (write_temporary temporary value ;;;
     sync_temporary temporary ;;;
     chmod_temporary temporary mode ;;;
     replace temporary path ;;;
     sync_directory)
    (discard temporary).

Definition settings_path : string := "settings.json".
Definition secrets_path : string := "credentials.json".
Definition transaction_path : string := "transaction.json".

Definition remove_transaction : io unit := fun d =>
  match unlink transaction_path d with
  | (Ret _, d) => sync_directory d
  | (Raise e, d) => if bool_decide (e = FileNotFoundError) then (Ret tt, d) else (Raise e, d)
  | (Dead, d) => (Dead, d)
  end.

(** ** Devices and settings (models.py) *)

Definition SCHEMA_VERSION : Z := 2.

(** The fields that a stored document may set to anything are JSON values. *)
Record Device := MkDevice {
  id : string;
  name : string;
  address : string;
  mac : string;
  mac_overridden : json;
  port : Z;
  broadcast_address : option string;
  host_id : json;
  host_version : json;
  protocol_version : json;
  paired : bool;
}.

Definition option_str (o : option string) : json := match o with Some s => JStr s | None => JNull end.

Definition device_dict (device : Device) : json := JObj
  [("id", JStr (id device)); ("name", JStr (name device)); ("address", JStr (address device));
   ("mac", JStr (mac device)); ("mac_overridden", mac_overridden device); ("port", JInt (port device));
   ("broadcast_address", option_str (broadcast_address device)); ("host_id", host_id device);
   ("host_version", host_version device); ("protocol_version", protocol_version device);
   ("paired", JBool (paired device))].

(** [Settings]: the schema version is always [SCHEMA_VERSION]. *)
Definition Settings : Type := list Device.
Definition Credentials : Type := gmap string bytes.

Definition public_dict (settings : Settings) : json := JObj
  [("schemaVersion", JInt SCHEMA_VERSION); ("devices", JArr (map device_dict settings))].

Definition hex_dict (credentials : Credentials) : json :=
  JObj (map (fun kv => (kv.1, JStr (to_hex kv.2))) (map_to_list credentials)).

Section Decoding.
Context {R : Repr}.

(** ** Decoding *)

(** The renaming of [_snake]. *)
Definition camel_names : list (string * string) :=
  [("macOverridden", "mac_overridden"); ("broadcastAddress", "broadcast_address"); ("hostId", "host_id");
   ("hostVersion", "host_version"); ("protocolVersion", "protocol_version")].

Definition snake (device : json) : result (gmap string json) exn :=
  let? d := py_dict device in
  Ok (fold_left (fun d (names : string * string) =>
        match d !! names.1 with
        | Some v => <[names.2 := v]> (delete names.1 d)
        | None => d
        end) camel_names d).

Definition device_fields : list string :=
  ["id"; "name"; "address"; "mac"; "mac_overridden"; "port"; "broadcast_address"; "host_id";
   "host_version"; "protocol_version"; "paired"].

(** [Device( **kwargs)] refuses an unknown keyword and wants the first four. *)
Definition known_fields (d : gmap string json) : bool :=
  forallb (fun kv : string * json => bool_decide (kv.1 ∈ device_fields)) (map_to_list d).

Definition argument (d : gmap string json) (field : string) : result json exn := ok_or (d !! field) TypeError.
Definition optional (d : gmap string json) (field : string) (default : json) : json :=
  match d !! field with Some v => v | None => default end.

Definition validated_device (raw : json) : result Device exn :=
  let? d := snake raw in
  if negb (known_fields d) then Err TypeError
  else
    let? id := argument d "id" in
    let? name := argument d "name" in
    let? address := argument d "address" in
    let? mac := argument d "mac" in
    match id with
    | JStr id =>
        if bool_decide (strip id = "") then Err (StoreError "Stored PC identifier is invalid.")
        else match name with
        | JStr name =>
            let name := strip name in
            if bool_decide (name = "") then Err (StoreError "Stored PC name is empty.")
            else
              let? address := validate_address address in
              let? mac := match mac with JStr mac => normalize_mac mac | _ => Err TypeError end in
              let? port := validate_port (optional d "port" (JInt DEFAULT_PORT)) false in
              let? broadcast := validate_broadcast (optional d "broadcast_address" JNull) in
              Ok {| id := id; name := name; address := address; mac := mac;
                    mac_overridden := optional d "mac_overridden" (JBool false); port := port;
                    broadcast_address := broadcast; host_id := optional d "host_id" JNull;
                    host_version := optional d "host_version" JNull;
                    protocol_version := optional d "protocol_version" JNull; paired := false |}
        | _ => Err (StoreError "Stored PC name is invalid.")
        end
    | _ => Err (StoreError "Stored PC identifier is invalid.")
    end.

Fixpoint validated_devices (l : list json) : result (list Device) exn :=
  match l with
  | [] => Ok []
  | raw :: l =>
      let? device := validated_device raw in
      let? devices := validated_devices l in
      Ok (device :: devices)
  end.

(** [device.paired = device.id in credentials]. *)
Definition set_paired (paired : bool) (device : Device) : Device :=
  MkDevice (id device) (name device) (address device) (mac device) (mac_overridden device) (port device)
    (broadcast_address device) (host_id device) (host_version device) (protocol_version device) paired.

Definition mark_credentials (credentials : Credentials) (devices : list Device) : list Device :=
  map (fun device => set_paired (bool_decide (is_Some (credentials !! id device))) device) devices.

Definition invalid_settings : exn := StoreError "Stored device configuration is invalid.".

(** [version == SCHEMA_VERSION]. *)
Definition schema_matches (version : json) : bool :=
  match version with JInt z => z =? SCHEMA_VERSION | JFloat t => bool_decide (t = "2.0") | _ => false end.

(** [except (TypeError, ValueError)]. *)
Definition type_or_value_error (e : exn) : bool := bool_decide (e = TypeError) || is_ValueError e.

Definition decode_settings (raw : json) (credentials : Credentials) : result Settings exn :=
  match raw with
  | JObj l =>
      let d := dict_of l in
      let version := optional d "schemaVersion" JNull in
      if negb (schema_matches version) then
        Err (StoreError ("Unsupported settings schema version: " +:+ py_repr version +:+ "."))
      else
        match (let? devices := py_iter (optional d "devices" (JArr [])) in validated_devices devices) with
        | Ok devices => Ok (mark_credentials credentials devices)
        | Err e => Err (if type_or_value_error e then invalid_settings else e)
        end
  | _ => Err invalid_settings
  end.

Fixpoint decode_entries (l : list (string * json)) : result Credentials exn :=
  match l with
  | [] => Ok ∅
  | (key, value) :: l =>
      let? credential := match value with
        | JStr s => ok_or (fromhex s) (ValueError "non-hexadecimal number found in fromhex()")
        | _ => Err TypeError
        end in
      let? rest := decode_entries l in
      Ok (<[key := credential]> rest)
  end.

Definition credential_ok (kv : string * bytes) : bool :=
  negb (bool_decide (kv.1 = "")) && (length kv.2 =? 32)%nat.

(** The order of the entries does not matter: both errors end the same way. *)
Definition decode_credentials (document : json) : result Credentials exn :=
  match document with
  | JObj l =>
      let? values := decode_entries (map_to_list (dict_of l)) in
      if forallb credential_ok (map_to_list values) then Ok values
      else Err (ValueError "invalid credential entry")
  | _ => Err (ValueError "credential document is not an object")
  end.

(** ** Reading the store *)

(** The documents of a transaction. *)
Definition transaction_parts (transaction : json) : result (json * json) exn :=
  match transaction with
  | JObj l =>
      let d := dict_of l in
      let? settings := ok_or (d !! "settings") KeyError in
      let? credentials := ok_or (d !! "credentials") KeyError in
      match settings, credentials with
      | JObj _, JObj _ =>
          let? decoded := decode_credentials credentials in
          let? _ := decode_settings settings decoded in
          Ok (settings, credentials)
      | _, _ => Err TypeError
      end
  | _ => Err TypeError
  end.

Definition recovery_failed : exn :=
  StoreError "An interrupted settings transaction could not be recovered.".

(** [except (OSError, KeyError, TypeError, ValueError, StoreError)]. *)
Definition recovery_error (e : exn) : bool :=
  is_OSError e || bool_decide (e = KeyError) || type_or_value_error e.

Definition recover_transaction : io unit :=
  present <- exists_file transaction_path ;;
  if negb present then ret tt
  else
    catch
      (transaction <- read_json transaction_path ;;
       parts <- lift (transaction_parts transaction) ;;
       atomic_write secrets_path parts.2 owner_only ;;;
       atomic_write settings_path parts.1 owner_only ;;;
       remove_transaction)
      (fun e => raise (if recovery_error e then recovery_failed else e)).

Definition corrupted_credentials : exn := StoreError "Stored pairing credentials are corrupted.".
Definition corrupted_settings : exn := StoreError "Stored device configuration is corrupted.".

Definition credentials : io Credentials :=
  recover_transaction ;;;
  present <- exists_file secrets_path ;;
  if negb present then ret ∅
  else
    catch (document <- read_json secrets_path ;; lift (decode_credentials document))
      (fun e => raise (if is_OSError e || bool_decide (e = AttributeError) || type_or_value_error e
                       then corrupted_credentials else e)).

Definition load_settings (credentials : Credentials) : io Settings :=
  raw <- catch (read_json settings_path)
    (fun e => raise (if is_OSError e || bool_decide (e = JSONDecodeError) then corrupted_settings else e)) ;;
  lift (decode_settings raw credentials).

Definition load : io Settings :=
  recover_transaction ;;;
  present <- exists_file settings_path ;;
  if negb present then ret []
  else credentials <- credentials ;; load_settings credentials.

Definition snapshot : io (Settings * Credentials) :=
  recover_transaction ;;;
  credentials <- credentials ;;
  present <- exists_file settings_path ;;
  settings <- (if present then load_settings credentials else ret []) ;;
  ret (settings, credentials).

(** [Store(directory)], after [mkdir]. *)
Definition new_store : io unit := recover_transaction.

(** ** Changing the store *)

Definition save (settings : Settings) : io unit := atomic_write settings_path (public_dict settings) owner_only.

Definition save_credentials (values : Credentials) : io unit :=
  atomic_write secrets_path (hex_dict values) owner_only.

Definition find_device (device_id : string) (settings : Settings) : option Device :=
  List.find (fun device => bool_decide (id device = device_id)) settings.

(** Replace the first device with that identifier. *)
Fixpoint replace_device (device_id : string) (f : Device -> Device) (settings : Settings) : Settings :=
  match settings with
  | [] => []
  | device :: settings =>
      if bool_decide (id device = device_id) then f device :: settings
      else device :: replace_device device_id f settings
  end.

(** The device of a form; [fresh_id] is the [uuid4] that is drawn when no
    identifier is given. *)
Definition form_device (values : gmap string json) (device_id : option string) (fresh_id : string)
    : result Device exn :=
  let device_id := match device_id with
    | Some s => if bool_decide (s = "") then fresh_id else s
    | None => fresh_id
    end in
  let name := strip (py_str (optional values "name" (JStr ""))) in
  let? address := validate_address (optional values "address" JNull) in
  let? mac := normalize_mac (py_str (optional values "mac" (JStr ""))) in
  let overridden := truthy (optional values "macOverridden" (JBool false)) in
  let? port := validate_port (optional values "port" JNull) true in
  let? broadcast := validate_broadcast (optional values "broadcastAddress" JNull) in
  if bool_decide (name = "") then Err (StoreError "Name is required.")
  else Ok {| id := device_id; name := name; address := address; mac := mac;
             mac_overridden := JBool overridden; port := port; broadcast_address := broadcast;
             host_id := JNull; host_version := JNull; protocol_version := JNull; paired := false |}.

(** The pairing of an existing device is kept. *)
Definition keep_pairing (existing device : Device) : Device :=
  MkDevice (id device) (name device) (address device) (mac device) (mac_overridden device) (port device)
    (broadcast_address device) (host_id existing) (host_version existing) (protocol_version existing)
    (paired existing).

Definition upsert (values : gmap string json) (device_id : option string) (fresh_id : string) : io Device :=
  settings <- load ;;
  device <- lift (form_device values device_id fresh_id) ;;
  match find_device (id device) settings with
  | Some existing =>
      let device := keep_pairing existing device in
      save (replace_device (id device) (fun _ => device) settings) ;;; ret device
  | None => save (settings ++ [device]) ;;; ret device
  end.

Definition transaction_dict (settings : Settings) (credentials : Credentials) : json :=
  JObj [("settings", public_dict settings); ("credentials", hex_dict credentials)].

(** The handler of [_commit]: put the old credentials back if the new ones were
    written, and remove the transaction unless that fails; the error goes on.
    [settings_written] is set by the last statement of the block, so the handler
    never finds it set. *)
Definition rollback (credentials_written : bool) (previous_credentials : Credentials) (error : exn) : io unit :=
  rollback_succeeded <-
    catch ((if credentials_written then atomic_write secrets_path (hex_dict previous_credentials) owner_only
            else ret tt) ;;; ret true)
      (fun _ => ret false) ;;
  (if rollback_succeeded then remove_transaction else ret tt) ;;;
  raise error.

Definition commit (settings : Settings) (credentials : Credentials) (previous_settings : Settings)
    (previous_credentials : Credentials) : io unit :=
  atomic_write transaction_path (transaction_dict settings credentials) owner_only ;;;
  catch (atomic_write secrets_path (hex_dict credentials) owner_only)
    (rollback false previous_credentials) ;;;
  catch (atomic_write settings_path (public_dict settings) owner_only)
    (rollback true previous_credentials) ;;;
  remove_transaction.

Definition delete (device_id : string) : io unit :=
  previous <- snapshot ;;
  let '(previous_settings, previous_credentials) := previous in
  let settings := List.filter (fun device => negb (bool_decide (id device = device_id))) previous_settings in
  let credentials := base.delete device_id previous_credentials in
  commit settings credentials previous_settings previous_credentials.

Definition find (device_id : string) : io Device :=
  settings <- load ;;
  match find_device device_id settings with
  | Some device => ret device
  | None => raise (StoreError "PC was not found.")
  end.

Definition pair_fields (host_id' host_version' : string) (protocol_version' : Z) (device : Device) : Device :=
  MkDevice (id device) (name device) (address device) (mac device) (mac_overridden device) (port device)
    (broadcast_address device) (JStr host_id') (JStr host_version') (JInt protocol_version') true.

Definition mark_paired (device_id : string) (credential : bytes) (host_id host_version : string)
    (protocol_version : Z) : io Device :=
  previous <- snapshot ;;
  let '(previous_settings, previous_credentials) := previous in
  match find_device device_id previous_settings with
  | None => raise StopIteration
  | Some device =>
      let pair := pair_fields host_id host_version protocol_version in
      let settings := replace_device device_id pair previous_settings in
      let credentials := <[device_id := credential]> previous_credentials in
      commit settings credentials previous_settings previous_credentials ;;;
      ret (pair device)
  end.

End Decoding.

End Store.
