(* ===== verification/PluginStoreSafety.v ===== *)
(** * The plugin's store survives crashes

    A small program logic for the disk of [PluginStore], the specification of
    an atomic write under faults and power cuts, and the theorems: the two
    files always hold one consistent state, the old or the new, whatever
    fails and wherever the machine stops, and recovery brings it back. *)
From stdpp Require Import base gmap list strings.
From Stdlib Require Import Ascii ZArith Lia.
From S2P Require Import Prelude RustStd Hex PyStd PluginValidation PluginStore.
Import Validation Store.
Open Scope string_scope.
Open Scope Z_scope.
Open Scope list_scope.
Open Scope io_scope.

Module StoreSafety.

(** ** A program logic: the postcondition covers every outcome *)

Definition wp {A} (c : io A) (Q : outcome A -> Disk -> Prop) (d : Disk) : Prop := Q (c d).1 (c d).2.

Lemma disk_wp_ret {A} (a : A) Q d : Q (Ret a) d -> wp (ret a) Q d.
Proof. done. Qed.

Lemma wp_raise {A} e (Q : outcome A -> Disk -> Prop) d : Q (Raise e) d -> wp (raise e) Q d.
Proof. done. Qed.

Lemma disk_wp_bind {A B} (c : io A) (k : A -> io B) Q d :
  wp c (fun o d => match o with Ret a => wp (k a) Q d | Raise e => Q (Raise e) d | Dead => Q Dead d end) d ->
  wp (bind c k) Q d.
Proof. unfold wp, bind. by destruct (c d) as [[a|e|] d1]. Qed.

Lemma wp_catch {A} (c : io A) h Q d :
  wp c (fun o d => match o with Raise e => wp (h e) Q d | o => Q o d end) d -> wp (catch c h) Q d.
Proof. unfold wp, catch. by destruct (c d) as [[a|e|] d1]. Qed.

Lemma wp_finally {A} (c : io A) f Q d :
  wp c (fun o d => match o with
    | Ret a => wp (bind f (fun _ => ret a)) Q d
    | Raise e => wp (bind f (fun _ => raise e)) Q d
    | Dead => Q Dead d
    end) d -> wp (finally c f) Q d.
Proof. unfold wp, finally. by destruct (c d) as [[a|e|] d1]. Qed.

Lemma disk_wp_mono {A} (c : io A) (Q Q' : outcome A -> Disk -> Prop) d :
  (forall o d, Q o d -> Q' o d) -> wp c Q d -> wp c Q' d.
Proof. unfold wp. auto. Qed.

Lemma wp_lift {A} (r : result A exn) Q d :
  match r with Ok a => Q (Ret a) d | Err e => Q (Raise e) d end -> wp (lift r) Q d.
Proof. by destruct r. Qed.

(** A disk with other faults ahead. *)
Definition with_faults (fs : list fault) (d : Disk) : Disk :=
  MkDisk (durable d) (pending d) (temporaries d) (next_temporary d) fs (sync_faults d).

Definition system_error : exn := OSError "system call failed".

Lemma wp_syscall {A} (f : Disk -> outcome A * Disk) Q d :
  (forall fs, Q (f (with_faults fs d)).1 (f (with_faults fs d)).2 /\
     Q (Raise system_error) (with_faults fs d) /\
     forall kept, Q Dead (stop_machine kept (with_faults fs d))) ->
  wp (syscall f) Q d.
Proof.
  intros H. unfold wp, syscall. destruct (faults d) as [|[] fs] eqn:E.
  - destruct (H []) as (H1 & _). unfold with_faults in H1. rewrite <- E in H1. by destruct d.
  - apply (H fs).
  - apply (H fs).
  - apply (H fs).
Qed.

(** ** Steady disks: nothing pending, every file written out, and a directory
    that can be synchronised while the machine runs *)
Record steady (d : Disk) : Prop := {
  steady_pending : pending d = [];
  steady_synced : map_Forall (fun _ e => entry_synced e = true) (durable d);
  steady_sync : Forall (fun f => f <> Fails) (sync_faults d);
}.

Lemma steady_files d : steady d -> files d = durable d.
Proof. intros H. unfold files. by rewrite (steady_pending _ H). Qed.

Lemma survive_synced (m : gmap string entry) :
  map_Forall (fun _ e => entry_synced e = true) m -> survive <$> m = m.
Proof.
  intros H. apply map_eq. intros k. rewrite lookup_fmap. destruct (m !! k) as [e|] eqn:E; [|done].
  simpl. f_equal. unfold survive. by rewrite (H k e E).
Qed.

Lemma stop_steady kept d : steady d -> steady (stop_machine kept d) /\ files (stop_machine kept d) = files d.
Proof.
  intros H. pose proof (steady_pending _ H) as Hp. unfold stop_machine. rewrite Hp, take_nil. simpl.
  rewrite (survive_synced _ (steady_synced _ H)). split.
  - constructor; simpl; [done|apply H|apply H].
  - unfold files. by rewrite Hp.
Qed.

Lemma with_faults_steady fs d : steady d -> steady (with_faults fs d) /\ files (with_faults fs d) = files d.
Proof. intros []. split; [constructor; done|done]. Qed.

(** ** Atomic writes *)

(** A temporary file is being written; nothing else has changed. *)
Record writing (d0 : Disk) (n : nat) (e : entry) (d : Disk) : Prop := {
  writing_durable : durable d = durable d0;
  writing_pending : pending d = [];
  writing_temporary : temporaries d !! n = Some e;
  writing_sync : sync_faults d = sync_faults d0;
}.

Lemma writing_steady d0 n e d : steady d0 -> writing d0 n e d -> steady d /\ files d = files d0.
Proof.
  intros H0 [Hd Hp _ Hs]. split.
  - constructor; [done|rewrite Hd; apply H0|rewrite Hs; apply H0].
  - rewrite (steady_files d0 H0). unfold files. by rewrite Hp, Hd.
Qed.

Lemma writing_with_faults d0 n e d fs : writing d0 n e d -> writing d0 n e (with_faults fs d).
Proof. by intros []. Qed.

(** The outcomes of a write of [e] to [path]. *)
Definition written (d0 : Disk) (path : string) (e : entry) (o : outcome unit) (d : Disk) : Prop :=
  steady d /\
  match o with
  | Ret _ => files d = <[path := e]> (files d0)
  | Raise x => files d = files d0 /\ is_OSError x = true
  | Dead => files d = files d0 \/ files d = <[path := e]> (files d0)
  end.

(** Throwing the temporary file away changes no other file; it fails only when
    there was one. *)
Lemma wp_discard n d (Q : outcome unit -> Disk -> Prop) :
  steady d ->
  (forall d', steady d' -> files d' = files d -> Q (Ret tt) d') ->
  (forall d', is_Some (temporaries d !! n) -> steady d' -> files d' = files d ->
     Q (Raise system_error) d' /\ Q Dead d') ->
  wp (discard n) Q d.
Proof.
  intros Hd Hret Hfail. unfold discard. apply wp_catch. unfold unlink_temporary, wp at 1.
  destruct (temporaries d !! n) as [e|] eqn:E; [|by apply Hret].
  apply (wp_syscall _ (fun o d => match o with
    | Raise e => wp (if bool_decide (e = FileNotFoundError) then ret tt else raise e) Q d
    | o => Q o d end)). intros fs.
  destruct (with_faults_steady fs d Hd) as [Hs Hf]. split; [|split].
  - apply Hret; [destruct Hd; by constructor|done].
  - apply wp_raise, Hfail; eauto.
  - intros kept. destruct (stop_steady kept _ Hs) as [Hs' Hf']. apply Hfail; [eauto|done|congruence].
Qed.

(** After a failed step the temporary file is thrown away. *)
Lemma wp_abandon d0 n e d path x y :
  steady d0 -> writing d0 n e d -> is_OSError y = true ->
  wp (bind (discard n) (fun _ => raise y)) (written d0 path x) d.
Proof.
  intros H0 Hw Hy. destruct (writing_steady _ _ _ _ H0 Hw) as [Hs Hf].
  apply disk_wp_bind, wp_discard; [done| |].
  - intros d' Hs' Hf'. apply wp_raise. split; [done|]. split; [congruence|done].
  - intros d' _ Hs' Hf'. split; (split; [done|]); [split; [congruence|done]|left; congruence].
Qed.

(** What may happen while the temporary file is prepared: the step is done, it
    fails, or the machine stops; only the first leads on. *)
Lemma wp_prepare d0 n e d path x f (Q : outcome unit -> Disk -> Prop) :
  steady d0 -> writing d0 n e d ->
  (forall d', writing d0 n (f e) d' -> Q (Ret tt) d') ->
  (forall d', writing d0 n e d' -> Q (Raise system_error) d') ->
  (forall d', written d0 path x Dead d' -> Q Dead d') ->
  wp (update_temporary n f) Q d.
Proof.
  intros H0 Hw Hret Hraise Hdead. unfold update_temporary. apply wp_syscall. intros fs.
  pose proof (writing_with_faults _ _ _ _ fs Hw) as Hw'. split; [|split].
  - apply Hret. destruct Hw. constructor; try done. simpl. rewrite lookup_alter_eq, writing_temporary0. done.
  - by apply Hraise.
  - intros kept. apply Hdead. destruct (writing_steady _ _ _ _ H0 Hw') as [Hs Hf].
    destruct (stop_steady kept _ Hs) as [Hs' Hf']. split; [done|]. left. congruence.
Qed.

(** Putting the file in place and making it stay. *)
Lemma wp_replace d0 n e d path :
  steady d0 -> writing d0 n e d -> entry_synced e = true ->
  wp (bind (replace n path) (fun _ => sync_directory))
    (fun o d => match o with
      | Ret a => wp (bind (discard n) (fun _ => ret a)) (written d0 path e) d
      | Raise x => wp (bind (discard n) (fun _ => raise x)) (written d0 path e) d
      | Dead => written d0 path e Dead d
      end) d.
Proof.
  intros H0 Hw He. apply disk_wp_bind. unfold replace. apply wp_syscall. intros fs.
  pose proof (writing_with_faults _ _ _ _ fs Hw) as Hw'.
  destruct (writing_steady _ _ _ _ H0 Hw') as [Hs Hf]. split; [|split].
  2:{ by apply (wp_abandon d0 n e). }
  2:{ intros kept. destruct (stop_steady kept _ Hs) as [Hs' Hf']. split; [done|]. left. congruence. }
  rewrite (writing_temporary _ _ _ _ Hw'). cbn [fst snd].
  set (d1 := MkDisk _ (_ ++ [Put path e]) _ _ _ _).
  assert (files d1 = <[path := e]> (files d0)) as Hf1.
  { rewrite (steady_files _ H0). unfold d1, files. simpl. rewrite (writing_pending _ _ _ _ Hw). simpl.
    by rewrite (writing_durable _ _ _ _ Hw). }
  assert (map_Forall (fun _ e => entry_synced e = true) (files d1)) as Hsync.
  { rewrite Hf1, (steady_files _ H0). apply map_Forall_insert_2; [done|apply H0]. }
  assert (forall d', durable d' = files d1 -> pending d' = [] -> temporaries d' !! n = None ->
    Forall (fun f => f <> Fails) (sync_faults d') -> wp (bind (discard n) (fun _ => ret tt)) (written d0 path e) d') as Hok.
  { intros d' Hd Hp Ht Hsf. assert (steady d') as Hsd by (constructor; [done|by rewrite Hd|done]).
    apply disk_wp_bind, wp_discard; [done| |by rewrite Ht; intros ? []].
    intros d'' Hs'' Hf''. apply disk_wp_ret. split; [done|]. rewrite Hf'', (steady_files _ Hsd), Hd. done. }
  pose proof (steady_sync _ Hs) as Hnf. unfold wp, sync_directory. simpl sync_faults in *.
  destruct (sync_faults d) as [|x xs] eqn:Ex.
  - apply Hok; simpl; try done. apply lookup_delete_eq.
  - inversion Hnf as [|? ? Hx Hxs]; subst. destruct x as [| |kept]; [|done|].
    + apply Hok; simpl; try done. apply lookup_delete_eq.
    + unfold stop_machine. simpl. rewrite (writing_pending _ _ _ _ Hw). simpl.
      assert (forall m, (m = files d0 \/ m = <[path := e]> (files d0)) ->
        map_Forall (fun _ e => entry_synced e = true) m ->
        written d0 path e Dead (MkDisk (survive <$> m) [] ∅ (next_temporary d) fs xs)) as Hm.
      { intros m Hm Hms. rewrite (survive_synced m Hms). split; [by constructor|]. unfold files. simpl. done. }
      rewrite (writing_durable _ _ _ _ Hw), <- (steady_files _ H0).
      destruct kept; simpl; rewrite ?take_nil; simpl; apply Hm; auto.
      * rewrite (steady_files _ H0). apply H0.
      * rewrite Hf1 in Hsync. by destruct kept.
Qed.

(** An atomic write happens or not; when it returns it has happened for good,
    and when it raises it has not happened. *)
Lemma wp_atomic_write path value mode d :
  steady d -> wp (atomic_write path value mode) (written d path (Entry mode (Json value) true)) d.
Proof.
  intros H0. set (e := Entry mode (Json value) true). unfold atomic_write. apply disk_wp_bind.
  unfold create_temporary. apply wp_syscall. intros fs.
  destruct (with_faults_steady fs d H0) as [Hs Hf]. split; [|split].
  2:{ split; [done|]. split; [done|]. done. }
  2:{ intros kept. destruct (stop_steady kept _ Hs) as [Hs' Hf']. split; [done|]. left. congruence. }
  cbn [fst snd]. set (n := next_temporary (with_faults fs d)).
  set (d1 := MkDisk _ _ _ _ _ _). set (e0 := Entry owner_only NotJson false) in *.
  assert (writing d n e0 d1) as Hw.
  { constructor; try done; [apply H0|]. apply lookup_insert_eq. }
  clearbody d1 n. apply wp_finally.
  apply disk_wp_bind. eapply (wp_prepare d n e0 d1 path e); [done|done| |by intros; apply (wp_abandon d n e0)|done].
  intros d2 Hw2. apply disk_wp_bind. eapply (wp_prepare d n _ d2 path e); [done|done| |by intros; eapply wp_abandon|done].
  intros d3 Hw3. apply disk_wp_bind. eapply (wp_prepare d n _ d3 path e); [done|done| |by intros; eapply wp_abandon|done].
  intros d4 Hw4. by apply (wp_replace d n e).
Qed.

(** ** Removing the transaction and reading *)

Definition removed (d0 : Disk) (o : outcome unit) (d : Disk) : Prop :=
  steady d /\
  match o with
  | Ret _ => files d = base.delete transaction_path (files d0)
  | Raise x => files d = files d0 /\ is_OSError x = true
  | Dead => files d = files d0 \/ files d = base.delete transaction_path (files d0)
  end.

Lemma wp_remove_transaction d : steady d -> wp remove_transaction (removed d) d.
Proof.
  intros H0. unfold remove_transaction.
  assert (wp (unlink transaction_path) (fun o d' => match o with
    | Ret _ => wp sync_directory (removed d) d'
    | Raise e => removed d (if bool_decide (e = FileNotFoundError) then Ret tt else Raise e) d'
    | Dead => removed d Dead d' end) d) as H.
  2:{ unfold wp in *. destruct (unlink transaction_path d) as [[a|e|] d']; [done| |done]. simpl in H.
      by destruct (bool_decide (e = FileNotFoundError)). }
  unfold unlink. apply wp_syscall. intros fs. destruct (with_faults_steady fs d H0) as [Hs Hf]. split; [|split].
  2:{ by split. }
  2:{ intros kept. destruct (stop_steady kept _ Hs) as [Hs' Hf']. split; [done|]. left. congruence. }
  rewrite Hf. destruct (files d !! transaction_path) as [e|] eqn:E.
  2:{ simpl. split; [done|]. rewrite Hf. symmetry. by apply delete_id. }
  cbn [fst snd]. pose proof (steady_pending _ H0) as Hp. pose proof (steady_sync _ H0) as Hsync.
  pose proof (map_Forall_delete _ _ transaction_path (steady_synced _ H0)) as Hdel.
  set (m := base.delete transaction_path (durable d)) in *.
  assert (base.delete transaction_path (files d) = m) as Hm by (unfold m; by rewrite (steady_files _ H0)).
  assert (forall t n fs xs, Forall (fun f => f <> Fails) xs -> files (MkDisk m [] t n fs xs) = m /\
    steady (MkDisk m [] t n fs xs)) as Hdone by (intros; split; [done|by constructor]).
  unfold wp, sync_directory, removed, stop_machine. cbn [sync_faults with_faults durable pending temporaries
    next_temporary faults]. rewrite Hm, Hp. unfold files at 1. cbn [pending durable apply_changes fold_left apply_change app].
  fold m. destruct (sync_faults d) as [|x xs] eqn:Ex; cbn [fst snd].
  - destruct (Hdone (temporaries d) (next_temporary d) fs [] Hsync). done.
  - inversion Hsync as [|? ? Hx Hxs]; subst. destruct x as [| |k]; [|done|]; cbn [fst snd].
    + unfold files at 1. cbn [pending durable apply_changes fold_left apply_change].
      fold m. by destruct (Hdone (temporaries d) (next_temporary d) fs xs Hxs).
    + destruct k as [|k]; cbn [take apply_changes fold_left apply_change].
      * rewrite survive_synced by apply H0. split; [by constructor; try apply H0|]. left.
        by rewrite (steady_files _ H0).
      * rewrite take_nil. cbn [fold_left]. fold m. rewrite survive_synced by done.
        destruct (Hdone ∅ (next_temporary d) fs xs Hxs). auto.
Qed.

(** What reading a file gives. *)
Definition doc_json (e : entry) : result json exn :=
  match entry_doc e with
  | Json j => Ok j
  | NotJson => Err JSONDecodeError
  | NotText => Err UnicodeError
  end.

(** Reading changes no file. *)
Definition kept {A} (d0 : Disk) (Q : outcome A -> Prop) (o : outcome A) (d : Disk) : Prop :=
  steady d /\ files d = files d0 /\ Q o.

Lemma wp_read_json path d :
  steady d ->
  wp (read_json path) (kept d (fun o =>
    match o with
    | Ret j => exists e, files d !! path = Some e /\ doc_json e = Ok j
    | Raise x => is_OSError x = true \/ exists e, files d !! path = Some e /\ doc_json e = Err x
    | Dead => True
    end)) d.
Proof.
  intros H0. unfold read_json. apply wp_syscall. intros fs.
  destruct (with_faults_steady fs d H0) as [Hs Hf]. split; [|split].
  2:{ split; [done|]. split; [done|]. by left. }
  2:{ intros k. destruct (stop_steady k _ Hs) as [Hs' Hf']. split; [done|]. split; [congruence|done]. }
  rewrite Hf. destruct (files d !! path) as [e|] eqn:E.
  - destruct (entry_doc e) eqn:Ed; simpl; (split; [done|]; split; [done|]); [exists e|right; exists e|right; exists e];
      unfold doc_json; by rewrite Ed.
  - split; [done|]. split; [done|]. by left.
Qed.

(** ** Recovery *)

Section Recovery.
Context {R : Repr}.

Implicit Types (f : gmap string entry) (d : Disk).

Definition stored (j : json) : entry := Entry owner_only (Json j) true.

(** The parts of the transaction file, when there is a valid one. *)
Definition transaction_in f : option (result (json * json) exn) :=
  match f !! transaction_path with
  | None => None
  | Some e => Some (let? j := doc_json e in transaction_parts j)
  end.

Definition roll_forward (parts : json * json) f : gmap string entry :=
  <[settings_path := stored parts.1]> (<[secrets_path := stored parts.2]> (base.delete transaction_path f)).

(** The files as recovery leaves them. *)
Definition recovered f : gmap string entry :=
  match transaction_in f with Some (Ok parts) => roll_forward parts f | _ => f end.

Definition recoverable f : Prop :=
  match transaction_in f with Some (Err _) => False | _ => True end.

(** While a transaction is there, it alone decides. *)
Lemma roll_forward_secrets parts f e : roll_forward parts (<[secrets_path := e]> f) = roll_forward parts f.
Proof.
  unfold roll_forward. rewrite delete_insert_ne by done. by rewrite insert_insert_eq.
Qed.

Lemma roll_forward_settings parts f e : roll_forward parts (<[settings_path := e]> f) = roll_forward parts f.
Proof.
  unfold roll_forward. rewrite delete_insert_ne by done.
  rewrite (insert_insert_ne _ secrets_path settings_path) by done. by rewrite insert_insert_eq.
Qed.

Lemma transaction_in_insert f path e : path <> transaction_path -> transaction_in (<[path := e]> f) = transaction_in f.
Proof. intros H. unfold transaction_in. by rewrite lookup_insert_ne. Qed.

Lemma recovered_secrets parts f e :
  transaction_in f = Some (Ok parts) -> recovered (<[secrets_path := e]> f) = recovered f.
Proof.
  intros H. unfold recovered. rewrite transaction_in_insert, H by done. apply roll_forward_secrets.
Qed.

Lemma recovered_settings parts f e :
  transaction_in f = Some (Ok parts) -> recovered (<[settings_path := e]> f) = recovered f.
Proof.
  intros H. unfold recovered. rewrite transaction_in_insert, H by done. apply roll_forward_settings.
Qed.

Lemma recovered_idle f : f !! transaction_path = None -> recovered f = f.
Proof. intros H. unfold recovered, transaction_in. by rewrite H. Qed.

Lemma recovered_no_transaction parts f : roll_forward parts f !! transaction_path = None.
Proof. unfold roll_forward. rewrite !lookup_insert_ne by done. apply lookup_delete_eq. Qed.

(** The state recovery heads for does not change, whatever happens to it. *)
Definition same_state (f : gmap string entry) (d : Disk) : Prop :=
  steady d /\ recoverable (files d) /\ recovered (files d) = recovered f.

Lemma same_state_refl d : steady d -> recoverable (files d) -> same_state (files d) d.
Proof. done. Qed.

Lemma same_state_written parts f path value o d0 d :
  transaction_in (files d0) = Some (Ok parts) -> recovered (files d0) = recovered f ->
  path = secrets_path \/ path = settings_path ->
  written d0 path (stored value) o d ->
  same_state f d /\ transaction_in (files d) = Some (Ok parts).
Proof.
  intros Ht Hr Hp [Hs Ho].
  assert (transaction_in (<[path := stored value]> (files d0)) = Some (Ok parts) /\
    recovered (<[path := stored value]> (files d0)) = recovered (files d0)) as [Ht' Hr'].
  { destruct Hp as [-> | ->]; rewrite transaction_in_insert by done; split; try done;
      [by eapply recovered_secrets|by eapply recovered_settings]. }
  assert (files d = files d0 \/ files d = <[path := stored value]> (files d0)) as [E|E].
  { destruct o as [[]|e|]; [by right|left; by destruct Ho|done]. }
  all: unfold same_state, recoverable; rewrite E.
  - rewrite Ht, Hr. done.
  - rewrite Ht', Hr', Hr. done.
Qed.

Lemma is_OSError_recovery e : is_OSError e = true -> recovery_error e = true.
Proof. unfold recovery_error. by intros ->. Qed.

(** Writing the two files of a transaction and removing it. *)
Lemma wp_replay parts d f (Q : outcome unit -> Disk -> Prop) :
  steady d -> transaction_in (files d) = Some (Ok parts) -> recovered (files d) = recovered f ->
  (forall d', steady d' -> files d' = recovered f -> Q (Ret tt) d') ->
  (forall d' e, is_OSError e = true -> same_state f d' -> Q (Raise e) d') ->
  (forall d', same_state f d' -> Q Dead d') ->
  wp (atomic_write secrets_path parts.2 owner_only ;;; atomic_write settings_path parts.1 owner_only ;;;
      remove_transaction) Q d.
Proof.
  intros Hs Ht Hr Hret Hraise Hdead. apply disk_wp_bind.
  eapply disk_wp_mono; [|by apply wp_atomic_write]. intros o1 d1 W1.
  destruct (same_state_written parts f secrets_path parts.2 o1 d d1 Ht Hr (or_introl eq_refl) W1) as [S1 T1].
  destruct W1 as [Hs1 W1]. destruct o1 as [[]|e|]; [|apply Hraise; [by destruct W1|done]|by apply Hdead].
  apply disk_wp_bind. eapply disk_wp_mono; [|by apply wp_atomic_write]. intros o2 d2 W2.
  destruct (same_state_written parts f settings_path parts.1 o2 d1 d2 T1) as [S2 T2];
    [apply S1|by right|done|].
  destruct W2 as [Hs2 W2]. destruct o2 as [[]|e|]; [|apply Hraise; [by destruct W2|done]|by apply Hdead].
  assert (base.delete transaction_path (files d2) = recovered f) as Hdone.
  { rewrite <- Hr. unfold recovered. rewrite Ht, W2, W1. unfold roll_forward.
    by rewrite !delete_insert_ne. }
  assert (recovered (recovered f) = recovered f /\ recoverable (recovered f)) as [Hrr Hrec].
  { assert (recovered f !! transaction_path = None) as Hn by (rewrite <- Hdone; apply lookup_delete_eq).
    split; [by apply recovered_idle|]. unfold recoverable, transaction_in. by rewrite Hn. }
  eapply disk_wp_mono; [|by apply wp_remove_transaction]. intros o3 d3 [Hs3 W3].
  destruct o3 as [[]|e|].
  - apply Hret; [done|congruence].
  - destruct W3 as [E He]. apply Hraise; [done|]. unfold same_state. rewrite E. by destruct S2.
  - apply Hdead. destruct W3 as [E|E]; unfold same_state; rewrite E; [by destruct S2|].
    rewrite Hdone, Hrr. done.
Qed.

Lemma wp_recover d :
  steady d -> recoverable (files d) ->
  wp recover_transaction (fun o d' =>
    match o with
    | Ret _ => steady d' /\ files d' = recovered (files d)
    | Raise e => same_state (files d) d' /\ e = recovery_failed
    | Dead => same_state (files d) d'
    end) d.
Proof.
  intros Hs Hrec. unfold recover_transaction. apply disk_wp_bind. unfold wp at 1, exists_file. cbn [fst snd].
  destruct (files d !! transaction_path) as [e|] eqn:E.
  2:{ rewrite bool_decide_eq_false_2 by (by intros [? ?]). simpl. apply disk_wp_ret. split; [done|].
      symmetry. by apply recovered_idle. }
  rewrite bool_decide_eq_true_2 by eauto. simpl negb. cbv iota.
  pose proof Hrec as Hrec'. unfold recoverable, transaction_in in Hrec'. rewrite E in Hrec'.
  destruct (doc_json e) as [j|] eqn:Ej; [|done]. destruct (transaction_parts j) as [parts|] eqn:Ep; [|done].
  assert (transaction_in (files d) = Some (Ok parts)) as Ht by (unfold transaction_in; by rewrite E, Ej, Ep).
  apply wp_catch, disk_wp_bind. eapply disk_wp_mono; [|by apply wp_read_json]. intros o d1 (Hs1 & Hf1 & Ho).
  assert (same_state (files d) d1) as S1 by (unfold same_state; by rewrite Hf1).
  destruct o as [j'|x|]; [| |done].
  2:{ apply wp_raise. split; [done|]. destruct Ho as [Hx|(e' & He' & Hx)].
      - by rewrite is_OSError_recovery.
      - congruence. }
  destruct Ho as (e' & He' & Hj'). assert (j' = j) as -> by congruence.
  apply disk_wp_bind, wp_lift. rewrite Ep. rewrite <- Hf1 in Ht.
  apply (wp_replay parts d1 (files d1)); [done|done|done| | |].
  - intros d' Hs' Hf'. rewrite <- Hf1. done.
  - intros d' x Hx S'. apply wp_raise. rewrite is_OSError_recovery by done. by rewrite <- Hf1.
  - intros d' S'. by rewrite <- Hf1.
Qed.

(** ** Commits *)

(** The transaction of a commit is a valid one. *)
Definition committable (settings : Settings) (credentials : Credentials) : Prop :=
  transaction_parts (transaction_dict settings credentials) = Ok (public_dict settings, hex_dict credentials).

Definition committed (settings : Settings) (credentials : Credentials) f : gmap string entry :=
  <[settings_path := stored (public_dict settings)]> (<[secrets_path := stored (hex_dict credentials)]> f).

Lemma committed_recovered settings credentials f :
  f !! transaction_path = None -> committable settings credentials ->
  transaction_in (<[transaction_path := stored (transaction_dict settings credentials)]> f) =
    Some (Ok (public_dict settings, hex_dict credentials)) /\
  recovered (<[transaction_path := stored (transaction_dict settings credentials)]> f) =
    committed settings credentials f.
Proof.
  intros Hf Hc. assert (transaction_in (<[transaction_path := stored (transaction_dict settings credentials)]> f) =
    Some (Ok (public_dict settings, hex_dict credentials))) as Ht.
  { unfold transaction_in. rewrite lookup_insert_eq. cbn [doc_json stored entry_doc]. unfold committable in Hc. by rewrite Hc. }
  split; [done|]. unfold recovered. rewrite Ht. unfold roll_forward, committed. cbn [fst snd].
  rewrite delete_insert_eq, delete_id; done.
Qed.

(** The states a commit can leave: the old files, the new ones, or the old ones
    with the old credentials written again. *)
Section Commit.
Context (settings : Settings) (credentials previous_credentials : Credentials) (f : gmap string entry).
Context (idle : f !! transaction_path = None) (valid : committable settings credentials).

Definition commit_state (d : Disk) : Prop :=
  steady d /\ recoverable (files d) /\
  (recovered (files d) = f \/ recovered (files d) = committed settings credentials f \/
   recovered (files d) = <[secrets_path := stored (hex_dict previous_credentials)]> f).

Definition commit_post (o : outcome unit) (d : Disk) : Prop :=
  commit_state d /\
  match o with
  | Ret _ => files d = committed settings credentials f
  | Raise e => is_OSError e = true
  | Dead => True
  end.

(** What a handler does: it never returns. *)
Definition failed_post (o : outcome unit) (d : Disk) : Prop :=
  commit_state d /\ match o with Ret _ => False | Raise e => is_OSError e = true | Dead => True end.

(** The files with the transaction in place. *)
Definition in_progress (g : gmap string entry) : gmap string entry :=
  <[transaction_path := stored (transaction_dict settings credentials)]> g.

Lemma idle_recoverable g : g !! transaction_path = None -> recoverable g.
Proof. intros Hg. unfold recoverable, transaction_in. by rewrite Hg. Qed.

Lemma commit_idle g d :
  steady d -> files d = g -> g !! transaction_path = None ->
  g = f \/ g = committed settings credentials f \/ g = <[secrets_path := stored (hex_dict previous_credentials)]> f ->
  commit_state d.
Proof.
  intros Hs Hg Hn Hcase. split; [done|]. rewrite Hg, recovered_idle by done. split; [by apply idle_recoverable|done].
Qed.

Lemma commit_forward d : same_state (in_progress f) d -> commit_state d.
Proof.
  intros (H1 & H2 & H3). split; [done|]. split; [done|]. right; left. rewrite H3.
  by apply committed_recovered.
Qed.

Lemma in_progress_state d : steady d -> files d = in_progress f -> same_state (in_progress f) d.
Proof.
  intros Hs E. split; [done|]. rewrite E. unfold recoverable, in_progress.
  by destruct (committed_recovered settings credentials f idle valid) as [-> _].
Qed.

(** Leaving after a failure: the transaction is removed or stays. *)
Lemma wp_leave g d e :
  same_state (in_progress f) d -> files d = in_progress g -> g !! transaction_path = None -> is_OSError e = true ->
  g = f \/ g = <[secrets_path := stored (hex_dict previous_credentials)]> f ->
  wp (remove_transaction ;;; raise e) failed_post d.
Proof.
  intros Hsame Hg Hgn He Hcase. pose proof (proj1 Hsame) as Hs.
  assert (forall d', steady d' -> files d' = g -> commit_state d') as Hgone.
  { intros d' H1 H2. apply (commit_idle g); [done|done|done|]. destruct Hcase; auto. }
  assert (forall d', steady d' -> files d' = files d -> commit_state d') as Hstay.
  { intros d' H1 H2. apply commit_forward. destruct Hsame as (_ & H3 & H4). split; [done|]. by rewrite H2. }
  apply disk_wp_bind. eapply disk_wp_mono; [|by apply wp_remove_transaction]. intros o d' [Hs' W].
  assert (base.delete transaction_path (files d) = g) as Hd.
  { rewrite Hg. unfold in_progress. by rewrite delete_insert_eq, delete_id. }
  rewrite Hd in W. destruct o as [[]|x|].
  - apply wp_raise. split; [by apply Hgone|done].
  - destruct W. split; [by apply Hstay|done].
  - split; [|done]. destruct W; [by apply Hstay|by apply Hgone].
Qed.

(** The handler, when nothing was written and when the credentials were. *)
Lemma wp_rollback_nothing d e :
  same_state (in_progress f) d -> files d = in_progress f -> is_OSError e = true ->
  wp (rollback false previous_credentials e) failed_post d.
Proof.
  intros Hsame Hf He. unfold rollback. apply disk_wp_bind. unfold wp at 1. cbn [fst snd catch bind ret].
  by apply (wp_leave f); auto.
Qed.

Lemma wp_rollback_credentials d e :
  same_state (in_progress f) d ->
  files d = <[secrets_path := stored (hex_dict credentials)]> (in_progress f) -> is_OSError e = true ->
  wp (rollback true previous_credentials e) failed_post d.
Proof.
  intros Hsame Hf He. unfold rollback.
  assert (transaction_in (files d) = Some (Ok (public_dict settings, hex_dict credentials))) as Ht.
  { rewrite Hf, transaction_in_insert by done. by apply committed_recovered. }
  apply disk_wp_bind, wp_catch, disk_wp_bind. eapply disk_wp_mono; [|apply wp_atomic_write, Hsame]. intros o d' W.
  destruct (same_state_written _ (in_progress f) secrets_path (hex_dict previous_credentials) o d d' Ht
    ltac:(apply Hsame) (or_introl eq_refl) W) as [S' T'].
  destruct W as [Hs' W]. destruct o as [[]|x|].
  - apply disk_wp_ret. apply (wp_leave (<[secrets_path := stored (hex_dict previous_credentials)]> f)); auto.
    + rewrite W, Hf, insert_insert_eq. unfold in_progress. by rewrite insert_insert_ne.
    + by rewrite lookup_insert_ne.
  - apply disk_wp_ret, disk_wp_bind, disk_wp_ret, wp_raise. split; [by apply commit_forward|done].
  - split; [by apply commit_forward|done].
Qed.

(** What follows a handler is not run. *)
Lemma wp_after_failure (c : io unit) (k : unit -> io unit) d :
  wp c failed_post d ->
  wp c (fun o d => match o with Ret a => wp (k a) commit_post d | Raise e => commit_post (Raise e) d
    | Dead => commit_post Dead d end) d.
Proof. apply disk_wp_mono. by intros [[]|x|] d' [Hc Hx]. Qed.

(** The end of a commit. *)
Lemma wp_commit_end d :
  same_state (in_progress f) d ->
  files d = <[settings_path := stored (public_dict settings)]>
    (<[secrets_path := stored (hex_dict credentials)]> (in_progress f)) ->
  wp remove_transaction commit_post d.
Proof.
  intros Hsame Hf. eapply disk_wp_mono; [|apply wp_remove_transaction, Hsame]. intros o d' [Hs W].
  assert (base.delete transaction_path (files d) = committed settings credentials f) as Hd.
  { rewrite Hf. unfold in_progress, committed. rewrite !delete_insert_ne by done. by rewrite delete_insert_eq, delete_id. }
  assert (committed settings credentials f !! transaction_path = None) as Hn.
  { unfold committed. by rewrite !lookup_insert_ne. }
  assert (files d' = files d -> commit_state d') as Hstay.
  { intros E. apply commit_forward. destruct Hsame as (_ & H3 & H4). split; [done|]. by rewrite E. }
  rewrite Hd in W. assert (files d' = committed settings credentials f -> commit_state d') as Hfin.
  { intros E. apply (commit_idle (committed settings credentials f)); auto. }
  destruct o as [[]|x|]; [by split; auto|destruct W; by split; auto|]. split; [|done]. destruct W; auto.
Qed.

Lemma wp_commit previous_settings d :
  steady d -> files d = f -> wp (commit settings credentials previous_settings previous_credentials) commit_post d.
Proof.
  intros Hs Hf. unfold commit. destruct (committed_recovered settings credentials f idle valid) as [Ht Hr].
  apply disk_wp_bind. eapply disk_wp_mono; [|by apply wp_atomic_write]. intros o1 d1 [Hs1 W1]. rewrite Hf in W1.
  destruct o1 as [[]|e|].
  2:{ destruct W1 as [E He]. split; [|done]. apply (commit_idle f); auto. }
  2:{ split; [|done]. destruct W1 as [E|E]; [apply (commit_idle f); auto|by apply commit_forward, in_progress_state]. }
  change (files d1 = in_progress f) in W1.
  pose proof (in_progress_state d1 Hs1 W1) as S1. apply disk_wp_bind, wp_catch.
  eapply disk_wp_mono; [|by apply wp_atomic_write]. intros o2 d2 W2.
  destruct (same_state_written _ (in_progress f) secrets_path (hex_dict credentials) o2 d1 d2 ltac:(by rewrite W1) ltac:(by rewrite W1)
    (or_introl eq_refl) W2) as [S2 T2].
  destruct W2 as [Hs2 W2]. destruct o2 as [[]|e|]; [| |split; [by apply commit_forward|done]].
  2:{ destruct W2 as [E He]. apply wp_after_failure, wp_rollback_nothing; [done|congruence|done]. }
  apply disk_wp_bind, wp_catch. eapply disk_wp_mono; [|by apply wp_atomic_write]. intros o3 d3 W3.
  destruct (same_state_written _ (in_progress f) settings_path (public_dict settings) o3 d2 d3 T2 ltac:(apply S2)
    (or_intror eq_refl) W3) as [S3 T3].
  destruct W3 as [Hs3 W3]. destruct o3 as [[]|e|]; [| |split; [by apply commit_forward|done]].
  - apply wp_commit_end; [done|]. by rewrite W3, W2, W1.
  - destruct W3 as [E He]. apply wp_after_failure, wp_rollback_credentials; [done| |done].
    by rewrite E, W2, W1.
Qed.

End Commit.

End Recovery.

End StoreSafety.
