(* ===== verification/PluginStoreRefinement.v ===== *)
(** * The plugin's store is an atomic map of devices and credentials

    The abstract store is a pair of a list of devices and a map of
    credentials, changed in one step by each operation.  The files implement
    it: each operation takes effect as a whole or not at all, and stays when
    it has returned, under any sequence of failures, power cuts and restarts,
    as long as the directory can be synchronised while the machine runs
    (PluginStoreSync.v has what happens otherwise). *)
From stdpp Require Import base gmap list strings.
From Stdlib Require Import Ascii ZArith Lia.
From S2P Require Import Prelude RustStd Hex PyStd PluginValidation PluginStore PluginStoreSafety.
Import Validation Store StoreSafety.
Open Scope string_scope.
Open Scope Z_scope.
Open Scope list_scope.
Open Scope io_scope.

Module StoreRefinement.

(** ** Documents are read back as they were written *)

Lemma dict_of_lookup (l : list (string * json)) (d : gmap string json) k :
  NoDup l.*1 ->
  fold_left (fun d kv => <[kv.1 := kv.2]> d) l d !! k =
    match (list_to_map l : gmap string json) !! k with Some v => Some v | None => d !! k end.
Proof.
  revert d; induction l as [|[n v] l IH]; intros d Hnd; [done|]. inversion Hnd as [|? ? Hn Hnd']; subst.
  cbn [fold_left fst snd]. rewrite IH by done. cbn. destruct (decide (n = k)) as [->|Hne].
  - rewrite !lookup_insert_eq. rewrite not_elem_of_list_to_map_1 by done. done.
  - by rewrite !lookup_insert_ne.
Qed.

Lemma dict_of_hex (c : Credentials) :
  dict_of (map (fun kv => (kv.1, JStr (to_hex kv.2))) (map_to_list c)) = (fun v => JStr (to_hex v)) <$> c.
Proof.
  apply map_eq. intros k. unfold dict_of.
  assert ((map (fun kv : string * bytes => (kv.1, JStr (to_hex kv.2))) (map_to_list c)).*1 = (map_to_list c).*1) as E.
  { rewrite <- list_fmap_compose. done. }
  rewrite dict_of_lookup by (rewrite E; apply NoDup_fst_map_to_list).
  assert (map (fun kv : string * bytes => (kv.1, JStr (to_hex kv.2))) (map_to_list c) =
    map_to_list ((fun v => JStr (to_hex v)) <$> c)) as ->.
  { rewrite (map_to_list_fmap (M := gmap string)). done. }
  rewrite list_to_map_to_list. by destruct (((fun v => JStr (to_hex v)) <$> c) !! k).
Qed.

Lemma decode_entries_hex l :
  NoDup l.*1 ->
  decode_entries (prod_map (@Datatypes.id string) (fun v => JStr (to_hex v)) <$> l) = Ok (list_to_map l : gmap string bytes).
Proof.
  induction l as [|[k v] l IH]; intros Hnd; [done|]. inversion Hnd as [|? ? Hn Hnd']; subst.
  rewrite fmap_cons. cbn [prod_map decode_entries]. rewrite fromhex_to_hex. cbn [ok_or].
  by rewrite IH.
Qed.

Definition credentials_ok (c : Credentials) : Prop := map_Forall (fun k v => k <> "" /\ length v = 32%nat) c.

Lemma credentials_ok_bool c : credentials_ok c <-> forallb credential_ok (map_to_list c) = true.
Proof.
  unfold credentials_ok, map_Forall. rewrite forallb_forall. split.
  - intros H [k v] Hin. apply list_elem_of_In, elem_of_map_to_list in Hin. destruct (H k v Hin) as [H1 H2].
    unfold credential_ok. cbn [fst snd]. by rewrite bool_decide_eq_false_2, H2.
  - intros H k v Hkv. specialize (H (k, v) ltac:(by apply list_elem_of_In, elem_of_map_to_list)).
    unfold credential_ok in H. cbn [fst snd] in H. by bool_to_prop.
Qed.

Lemma decode_credentials_hex c : credentials_ok c -> decode_credentials (hex_dict c) = Ok c.
Proof.
  intros H. unfold decode_credentials, hex_dict. rewrite dict_of_hex.
  rewrite (map_to_list_fmap (M := gmap string)), decode_entries_hex by apply NoDup_fst_map_to_list.
  rewrite (list_to_map_to_list (M := gmap string)). by rewrite (proj1 (credentials_ok_bool c)).
Qed.

Lemma decode_credentials_ok j c : decode_credentials j = Ok c -> credentials_ok c.
Proof.
  unfold decode_credentials. destruct j; try done. destruct (decode_entries _) as [c'|]; [|done].
  destruct (forallb _ _) eqn:E; [|done]. intros [= <-]. by apply credentials_ok_bool.
Qed.

Section Documents.
Context {R : Repr}.

(** A device whose fields are all in their normal form. *)
Record device_ok (d : Device) : Prop := {
  ok_id : strip (id d) <> "";
  ok_name : strip (name d) = name d /\ name d <> "";
  ok_address : validate_address (JStr (address d)) = Ok (address d);
  ok_mac : normalize_mac (mac d) = Ok (mac d);
  ok_port : 1 <= port d <= 65535;
  ok_broadcast : validate_broadcast (option_str (broadcast_address d)) = Ok (broadcast_address d);
}.

(** The keyword arguments a device is written as. *)
Lemma snake_device d :
  exists k, snake (device_dict d) = Ok k /\ known_fields k = true /\
    k !! "id" = Some (JStr (id d)) /\ k !! "name" = Some (JStr (name d)) /\
    k !! "address" = Some (JStr (address d)) /\ k !! "mac" = Some (JStr (mac d)) /\
    k !! "mac_overridden" = Some (mac_overridden d) /\ k !! "port" = Some (JInt (port d)) /\
    k !! "broadcast_address" = Some (option_str (broadcast_address d)) /\
    k !! "host_id" = Some (host_id d) /\ k !! "host_version" = Some (host_version d) /\
    k !! "protocol_version" = Some (protocol_version d).
Proof. eexists. split; [reflexivity|]. repeat split; vm_compute; reflexivity. Qed.

Lemma validated_device_dict d : device_ok d -> validated_device (device_dict d) = Ok (set_paired false d).
Proof.
  intros H. destruct (snake_device d) as (k & Hk & Hf & H1 & H2 & H3 & H4 & H5 & H6 & H7 & H8 & H9 & H10).
  unfold validated_device, argument, optional. rewrite Hk, Hf, H1, H2, H3, H4, H5, H6, H7, H8, H9, H10.
  cbn [negb ok_or]. rewrite bool_decide_eq_false_2 by apply H. destruct (ok_name _ H) as [-> Hn].
  rewrite bool_decide_eq_false_2 by done. rewrite (ok_address _ H), (ok_mac _ H), (ok_broadcast _ H).
  rewrite validate_port_int by apply H. done.
Qed.

Lemma validated_devices_dict l :
  Forall device_ok l -> validated_devices (map device_dict l) = Ok (map (set_paired false) l).
Proof.
  induction 1 as [|d l Hd HF IH]; [done|]. cbn [map validated_devices]. by rewrite validated_device_dict, IH.
Qed.

Lemma mark_credentials_twice c l b : mark_credentials c (map (set_paired b) l) = mark_credentials c l.
Proof. unfold mark_credentials. rewrite map_map. done. Qed.

Lemma decode_settings_public l c :
  Forall device_ok l -> decode_settings (public_dict l) c = Ok (mark_credentials c l).
Proof.
  intros H. unfold decode_settings, public_dict.
  assert (dict_of [("schemaVersion", JInt SCHEMA_VERSION); ("devices", JArr (map device_dict l))] =
    {["schemaVersion" := JInt SCHEMA_VERSION; "devices" := JArr (map device_dict l)]}) as E.
  { unfold dict_of. cbn [fold_left fst snd]. apply insert_insert_ne. done. }
  rewrite E. unfold optional. rewrite lookup_insert_eq, lookup_insert_ne, lookup_singleton_eq by done.
  cbn [schema_matches negb py_iter]. rewrite Z.eqb_refl. cbn [negb].
  rewrite validated_devices_dict by done. by rewrite mark_credentials_twice.
Qed.

Lemma validated_device_ok raw d : validated_device raw = Ok d -> device_ok d.
Proof.
  unfold validated_device. destruct (snake raw) as [k|]; [|done]. destruct (negb (known_fields k)); [done|].
  destruct (argument k "id") as [i|]; [|done]. destruct (argument k "name") as [n|]; [|done].
  destruct (argument k "address") as [a|]; [|done]. destruct (argument k "mac") as [m|]; [|done].
  destruct i as [| | | |i| |]; try done. case_bool_decide as Hi; [done|].
  destruct n as [| | | |n| |]; try done. case_bool_decide as Hn; [done|].
  destruct (validate_address a) as [a'|] eqn:Ea; [|done].
  destruct m as [| | | |m| |]; try done. destruct (normalize_mac m) as [m'|] eqn:Em; [|done].
  destruct (validate_port _ _) as [p|] eqn:Ep; [|done].
  destruct (validate_broadcast _) as [b|] eqn:Eb; [|done]. intros [= <-].
  constructor; simpl.
  - done.
  - split; [apply strip_idempotent|done].
  - by apply validate_address_idempotent in Ea.
  - by apply normalize_mac_idempotent in Em.
  - by apply validate_port_range in Ep.
  - by apply validate_broadcast_idempotent in Eb.
Qed.

Lemma validated_devices_ok l ds : validated_devices l = Ok ds -> Forall device_ok ds.
Proof.
  revert ds; induction l as [|raw l IH]; intros ds; cbn [validated_devices].
  - intros [= <-]. constructor.
  - destruct (validated_device raw) as [d|] eqn:Ed; [|done]. destruct (validated_devices l) as [k|]; [|done].
    intros [= <-]. constructor; [by eapply validated_device_ok|by apply IH].
Qed.

Lemma set_paired_ok b d : device_ok d -> device_ok (set_paired b d).
Proof. by intros []. Qed.

Lemma mark_credentials_ok c l : Forall device_ok l -> Forall device_ok (mark_credentials c l).
Proof. intros H. apply Forall_map. eapply Forall_impl; [exact H|]. intros d Hd. by apply set_paired_ok. Qed.

Lemma mark_credentials_idem c l : mark_credentials c (mark_credentials c l) = mark_credentials c l.
Proof. unfold mark_credentials. rewrite map_map. done. Qed.

(** What decoding returns is in normal form, with the flags of the credentials. *)
Lemma decode_settings_ok j c s : decode_settings j c = Ok s -> Forall device_ok s /\ mark_credentials c s = s.
Proof.
  unfold decode_settings. destruct j; try done. destruct (negb _); [done|].
  destruct (py_iter _) as [l'|]; [|done]. destruct (validated_devices l') as [ds|] eqn:E; [|done].
  intros [= <-]. split; [|apply mark_credentials_idem]. by eapply mark_credentials_ok, validated_devices_ok.
Qed.

Lemma committable_ok l c : Forall device_ok l -> credentials_ok c -> committable l c.
Proof.
  intros Hl Hc. unfold committable, transaction_parts, transaction_dict.
  assert (dict_of [("settings", public_dict l); ("credentials", hex_dict c)] =
    {["settings" := public_dict l; "credentials" := hex_dict c]}) as E.
  { unfold dict_of. cbn [fold_left fst snd]. apply insert_insert_ne. done. }
  rewrite E, lookup_insert_eq, lookup_insert_ne, lookup_singleton_eq by done. cbn [ok_or].
  rewrite decode_credentials_hex, decode_settings_public by done. done.
Qed.

(** ** The state the files hold *)

Definition credentials_of (f : gmap string entry) : result Credentials exn :=
  match f !! secrets_path with
  | None => Ok ∅
  | Some e => let? j := doc_json e in decode_credentials j
  end.

Definition settings_of (f : gmap string entry) (c : Credentials) : result Settings exn :=
  match f !! settings_path with
  | None => Ok []
  | Some e => let? j := doc_json e in decode_settings j c
  end.

Definition state_of (f : gmap string entry) : result (Settings * Credentials) exn :=
  let? c := credentials_of f in
  let? s := settings_of f c in
  Ok (s, c).

(** The state after recovery. *)
Definition view (f : gmap string entry) : result (Settings * Credentials) exn := state_of (recovered f).

Lemma state_of_ok f s c :
  state_of f = Ok (s, c) -> Forall device_ok s /\ mark_credentials c s = s /\ credentials_ok c.
Proof.
  unfold state_of. destruct (credentials_of f) as [c'|] eqn:Ec; [|done].
  destruct (settings_of f c') as [s'|] eqn:Es; [|done]. intros [= <- <-].
  assert (credentials_ok c') as Hc.
  { unfold credentials_of in Ec. destruct (f !! secrets_path) as [e|]; [|by injection Ec as <-].
    destruct (doc_json e); [|done]. by apply decode_credentials_ok in Ec. }
  unfold settings_of in Es. destruct (f !! settings_path) as [e|]; [|by injection Es as <-].
  destruct (doc_json e); [|done]. apply decode_settings_ok in Es as [H1 H2]. done.
Qed.

Lemma state_of_committed s c f :
  Forall device_ok s -> credentials_ok c -> state_of (committed s c f) = Ok (mark_credentials c s, c).
Proof.
  intros Hs Hc. unfold state_of, committed, credentials_of, settings_of.
  rewrite lookup_insert_ne, !lookup_insert_eq by done. cbn [doc_json stored entry_doc].
  rewrite decode_credentials_hex by done. by rewrite decode_settings_public.
Qed.

(** Writing the credentials again changes nothing. *)
Lemma state_of_rewritten s c f :
  state_of f = Ok (s, c) -> state_of (<[secrets_path := stored (hex_dict c)]> f) = Ok (s, c).
Proof.
  intros H. destruct (state_of_ok _ _ _ H) as (_ & _ & Hc). revert H. unfold state_of.
  destruct (credentials_of f) as [c'|]; [|done]. destruct (settings_of f c') as [s'|] eqn:Es; [|done].
  intros [= -> ->]. unfold credentials_of. rewrite lookup_insert_eq. cbn [doc_json stored entry_doc].
  rewrite decode_credentials_hex by done. unfold settings_of in *. rewrite lookup_insert_ne by done. by rewrite Es.
Qed.

Lemma state_of_saved s s' c f :
  state_of f = Ok (s, c) -> Forall device_ok s' ->
  state_of (<[settings_path := stored (public_dict s')]> f) = Ok (mark_credentials c s', c).
Proof.
  intros H Hs'. revert H. unfold state_of, credentials_of. rewrite lookup_insert_ne by done.
  destruct (match f !! secrets_path with Some _ => _ | None => _ end) as [c'|]; [|done].
  destruct (settings_of f c') as [s1|]; [|done]. intros [= -> ->].
  unfold settings_of. rewrite lookup_insert_eq. cbn [doc_json stored entry_doc]. by rewrite decode_settings_public.
Qed.

(** ** Reading *)

Lemma same_state_trans f d d' : same_state f d -> same_state (files d) d' -> same_state f d'.
Proof. intros (_ & _ & E) (H1 & H2 & E'). split; [done|]. split; [done|]. congruence. Qed.

Lemma same_state_kept d d' : steady d' -> recoverable (files d) -> files d' = files d -> same_state (files d) d'.
Proof. intros H1 H2 E. split; [done|]. by rewrite E. Qed.

(** The outcomes of a reading program: the recovered files are read, or nothing
    has changed. *)
Definition reads {A} (d0 : Disk) (Q : A -> Prop) (o : outcome A) (d : Disk) : Prop :=
  match o with
  | Ret a => steady d /\ files d = recovered (files d0) /\ Q a
  | _ => same_state (files d0) d
  end.

Lemma recovered_recoverable f : recoverable f -> recoverable (recovered f) /\ recovered f !! transaction_path = None.
Proof.
  intros H. assert (recovered f !! transaction_path = None) as Hn; [|split; [by apply idle_recoverable|done]].
  unfold recovered, recoverable, transaction_in in *. destruct (f !! transaction_path) as [e|] eqn:E; [|done].
  destruct (let? j := doc_json e in transaction_parts j); [|done]. apply recovered_no_transaction.
Qed.

Lemma wp_reads_recover {A} d (k : unit -> io A) Q :
  steady d -> recoverable (files d) ->
  (forall d', steady d' -> files d' = recovered (files d) -> wp (k tt) (reads d' Q) d') ->
  wp (bind recover_transaction k) (reads d Q) d.
Proof.
  intros Hs Hr Hk. apply disk_wp_bind. eapply disk_wp_mono; [|by apply wp_recover]. intros o d1 H1.
  destruct o as [[]|e|]; [|by destruct H1|done]. destruct H1 as [Hs1 Hf1].
  destruct (recovered_recoverable _ Hr) as [Hrr Hn].
  assert (recovered (files d1) = recovered (files d)) as Erec by (rewrite Hf1; by apply recovered_idle).
  assert (same_state (files d) d1) as S1 by (split; [done|]; by rewrite Hf1 in *; rewrite Erec).
  eapply disk_wp_mono; [|by apply Hk]. intros o d2 H2. unfold reads in *.
  destruct o as [a|e|]; [by rewrite Erec in H2|by eapply same_state_trans|by eapply same_state_trans].
Qed.

(** Programs that only read, on files without a transaction. *)
Lemma wp_reads_bind {A B} d (c : io A) (k : A -> io B) (P : A -> Prop) Q :
  steady d -> recoverable (files d) -> files d !! transaction_path = None ->
  wp c (reads d P) d -> (forall a d', P a -> steady d' -> files d' = files d -> wp (k a) (reads d' Q) d') ->
  wp (bind c k) (reads d Q) d.
Proof.
  intros Hs Hr Hn Hc Hk. apply disk_wp_bind. eapply disk_wp_mono; [|exact Hc]. intros o d1 H1.
  destruct o as [a|e|]; [|done|done]. destruct H1 as (Hs1 & Hf1 & Ha). rewrite (recovered_idle _ Hn) in Hf1.
  eapply disk_wp_mono; [|by apply (Hk a)]. intros o d2 H2. unfold reads in *. rewrite Hf1 in H2. by destruct o.
Qed.

Lemma wp_reads_json d path (P : json -> Prop) (h : exn -> exn) :
  steady d -> recoverable (files d) -> files d !! transaction_path = None ->
  (forall e j, files d !! path = Some e -> doc_json e = Ok j -> P j) ->
  wp (catch (read_json path) (fun e => raise (h e))) (reads d P) d.
Proof.
  intros Hs Hr Hn HP. apply wp_catch. eapply disk_wp_mono; [|by apply wp_read_json]. intros o d1 (Hs1 & Hf1 & Ho).
  destruct o as [j|e|].
  - destruct Ho as (e & He & Hj). split; [done|]. split; [|by eapply HP]. rewrite Hf1. symmetry. by apply recovered_idle.
  - apply wp_raise. by apply same_state_kept.
  - by apply same_state_kept.
Qed.

Lemma wp_reads_lift {A} d (r : result A exn) (P : A -> Prop) :
  steady d -> recoverable (files d) -> files d !! transaction_path = None ->
  (forall a, r = Ok a -> P a) -> wp (lift r) (reads d P) d.
Proof.
  intros Hs Hr Hn HP. apply wp_lift. destruct r as [a|e].
  - split; [done|]. split; [symmetry; by apply recovered_idle|]. by apply HP.
  - by apply same_state_refl.
Qed.

Lemma wp_reads_ret {A} d (a : A) (P : A -> Prop) :
  steady d -> files d !! transaction_path = None -> P a -> wp (ret a) (reads d P) d.
Proof. intros Hs Hn HP. split; [done|]. split; [symmetry; by apply recovered_idle|done]. Qed.

Lemma wp_exists {B} path (k : bool -> io B) Q d :
  wp (k (bool_decide (is_Some (files d !! path)))) Q d -> wp (bind (exists_file path) k) Q d.
Proof. done. Qed.

Lemma wp_credentials d :
  steady d -> recoverable (files d) ->
  wp credentials (reads d (fun c => credentials_of (recovered (files d)) = Ok c)) d.
Proof.
  intros Hs Hr. unfold credentials. apply wp_reads_recover; [done|done|]. intros d1 Hs1 Hf1.
  destruct (recovered_recoverable _ Hr) as [Hrr Hn]. rewrite <- Hf1 in *.
  apply wp_exists. unfold credentials_of. destruct (files d1 !! secrets_path) as [e|] eqn:E.
  2:{ rewrite bool_decide_eq_false_2 by (by intros [? ?]). by apply wp_reads_ret. }
  rewrite bool_decide_eq_true_2 by eauto. cbn [negb].
  apply wp_catch, disk_wp_bind. eapply disk_wp_mono; [|by apply wp_read_json]. intros o d2 (Hs2 & Hf2 & Ho).
  destruct o as [j|x|]; [|by apply wp_raise, same_state_kept|by apply same_state_kept].
  destruct Ho as (e' & He' & Hj). rewrite E in He'. injection He' as <-. rewrite Hj.
  apply wp_lift. destruct (decode_credentials j) as [c|x].
  - split; [done|]. split; [|done]. rewrite Hf2. symmetry. by apply recovered_idle.
  - by apply wp_raise, same_state_kept.
Qed.

Lemma wp_load_settings d c :
  steady d -> recoverable (files d) -> files d !! transaction_path = None -> is_Some (files d !! settings_path) ->
  wp (load_settings c) (reads d (fun s => settings_of (files d) c = Ok s)) d.
Proof.
  intros Hs Hr Hn [e He]. unfold load_settings.
  apply (wp_reads_bind _ _ _ (fun j => doc_json e = Ok j)); [done|done|done| |].
  - apply wp_reads_json; [done|done|done|]. intros e' j He' Hj. congruence.
  - intros j d1 Hj Hs1 Hf1. rewrite <- Hf1 in *. apply wp_reads_lift; [done|done|done|].
    intros s Hd. unfold settings_of. by rewrite He, Hj.
Qed.

Lemma wp_snapshot d :
  steady d -> recoverable (files d) -> wp snapshot (reads d (fun a => view (files d) = Ok a)) d.
Proof.
  intros Hs Hr. unfold snapshot, view. apply wp_reads_recover; [done|done|]. intros d1 Hs1 Hf1.
  destruct (recovered_recoverable _ Hr) as [Hrr Hn]. rewrite <- Hf1 in *.
  apply (wp_reads_bind _ _ _ (fun c => credentials_of (files d1) = Ok c)); [done|done|done| |].
  { pose proof (wp_credentials d1 Hs1 Hrr) as H. by rewrite (recovered_idle _ Hn) in H. }
  intros c d2 Hc Hs2 Hf2. rewrite <- Hf2 in *. apply wp_exists.
  apply (wp_reads_bind _ _ _ (fun s => settings_of (files d2) c = Ok s)); [done|done|done| |].
  - case_bool_decide as E; [by apply wp_load_settings|]. apply wp_reads_ret; [done|done|].
    unfold settings_of. apply eq_None_not_Some in E. by rewrite E.
  - intros s d3 Hset Hs3 Hf3. apply wp_reads_ret; [done|by rewrite Hf3|]. unfold state_of. by rewrite Hc, Hset.
Qed.

Lemma wp_load d s c :
  steady d -> recoverable (files d) -> view (files d) = Ok (s, c) -> wp load (reads d (fun s' => s' = s)) d.
Proof.
  intros Hs Hr Hv. unfold load. apply wp_reads_recover; [done|done|]. intros d1 Hs1 Hf1.
  destruct (recovered_recoverable _ Hr) as [Hrr Hn]. unfold view in Hv. rewrite <- Hf1 in *.
  unfold state_of in Hv. destruct (credentials_of (files d1)) as [c'|] eqn:Ec; [|done].
  destruct (settings_of (files d1) c') as [s'|] eqn:Es; [|done]. injection Hv as -> ->.
  apply wp_exists. case_bool_decide as E; cbn [negb].
  - apply (wp_reads_bind _ _ _ (fun x => x = c)); [done|done|done| |].
    + eapply disk_wp_mono; [|by apply wp_credentials]. intros [a|x|] d2 H2; [|done|done].
      destruct H2 as (H1 & H2 & H3). rewrite (recovered_idle _ Hn) in H3. split; [done|]. split; [done|]. congruence.
    + intros x d2 -> Hs2 Hf2. rewrite <- Hf2 in *. eapply disk_wp_mono; [|by apply wp_load_settings].
      intros [a|x|] d3 H3; [|done|done]. destruct H3 as (H1 & H2 & H3). split; [done|]. split; [done|]. congruence.
  - apply wp_reads_ret; [done|done|]. unfold settings_of in Es. apply eq_None_not_Some in E. rewrite E in Es. congruence.
Qed.

(** ** The abstract store *)

Definition state : Type := Settings * Credentials.

Inductive operation :=
| Upsert (values : gmap string json) (device_id : option string) (fresh_id : string)
| Delete (device_id : string)
| MarkPaired (device_id : string) (credential : bytes) (host_id host_version : string) (protocol_version : Z).

(** What an operation does to the whole state at once; [None] if it refuses. *)
Definition effect (op : operation) (a : state) : option state :=
  let '(settings, credentials) := a in
  match op with
  | Upsert values device_id fresh_id =>
      match form_device values device_id fresh_id with
      | Err _ => None
      | Ok device =>
          let settings := match find_device (id device) settings with
            | Some existing => replace_device (id device) (fun _ => keep_pairing existing device) settings
            | None => settings ++ [device]
            end in
          Some (mark_credentials credentials settings, credentials)
      end
  | Delete device_id =>
      let credentials := base.delete device_id credentials in
      Some (mark_credentials credentials
        (List.filter (fun device => negb (bool_decide (id device = device_id))) settings), credentials)
  | MarkPaired device_id credential host_id host_version protocol_version =>
      match find_device device_id settings with
      | None => None
      | Some _ =>
          let credentials := <[device_id := credential]> credentials in
          Some (mark_credentials credentials
            (replace_device device_id (pair_fields host_id host_version protocol_version) settings), credentials)
      end
  end.

(** The same operation on the files. *)
Definition perform (op : operation) : io unit :=
  match op with
  | Upsert values device_id fresh_id => upsert values device_id fresh_id ;;; ret tt
  | Delete device_id => delete device_id
  | MarkPaired device_id credential host_id host_version protocol_version =>
      mark_paired device_id credential host_id host_version protocol_version ;;; ret tt
  end.

(** Identifiers that are not blank, and credentials of 32 bytes. *)
Definition operation_ok (op : operation) : Prop :=
  match op with
  | Upsert _ device_id fresh_id =>
      strip fresh_id <> "" /\ match device_id with Some s => s = "" \/ strip s <> "" | None => True end
  | Delete _ => True
  | MarkPaired _ credential _ _ _ => length credential = 32%nat
  end.

(** The files hold the state [a], once recovered. *)
Definition related (d : Disk) (a : state) : Prop :=
  steady d /\ recoverable (files d) /\ view (files d) = Ok a.

(** Each outcome in terms of the abstract step from [a] to [a']. *)
Definition stepped (a : state) (a' : option state) (o : outcome unit) (d : Disk) : Prop :=
  match o with
  | Ret _ => exists b, a' = Some b /\ related d b
  | _ => related d a \/ exists b, a' = Some b /\ related d b
  end.

Lemma related_same d d' a : related d a -> same_state (files d) d' -> related d' a.
Proof. intros (_ & _ & Hv) (H1 & H2 & E). split; [done|]. split; [done|]. unfold view. by rewrite E. Qed.

Lemma related_idle d f a :
  steady d -> files d = f -> f !! transaction_path = None -> state_of f = Ok a -> related d a.
Proof.
  intros Hs Hf Hn Ha. split; [done|]. rewrite Hf. split; [by apply idle_recoverable|].
  unfold view. by rewrite recovered_idle.
Qed.

(** A commit of a good state on files that hold [(s, c)]. *)
Lemma wp_commit_step s c s' c' d :
  steady d -> files d !! transaction_path = None -> state_of (files d) = Ok (s, c) ->
  Forall device_ok s' -> credentials_ok c' ->
  wp (commit s' c' s c) (stepped (s, c) (Some (mark_credentials c' s', c'))) d.
Proof.
  intros Hs Hn Hst Hs' Hc'. pose proof (committable_ok s' c' Hs' Hc') as Hcom.
  eapply disk_wp_mono; [|by apply (wp_commit s' c' c (files d))]. intros o d1 [(Hs1 & Hr1 & Hcase) Ho].
  assert (related d1 (s, c) \/ related d1 (mark_credentials c' s', c')) as Hrel.
  { destruct Hcase as [E|[E|E]]; [left|right|left]; (split; [done|]; split; [done|]); unfold view; rewrite E;
      [done|by apply state_of_committed|by apply state_of_rewritten]. }
  destruct o as [[]|e|]; simpl.
  - eexists. split; [done|]. apply (related_idle _ (committed s' c' (files d))); [done|done| |by apply state_of_committed].
    unfold committed. by rewrite !lookup_insert_ne.
  - destruct Hrel; eauto.
  - destruct Hrel; eauto.
Qed.

Lemma wp_save_step s c s' d :
  steady d -> files d !! transaction_path = None -> state_of (files d) = Ok (s, c) -> Forall device_ok s' ->
  wp (save s') (stepped (s, c) (Some (mark_credentials c s', c))) d.
Proof.
  intros Hs Hn Hst Hs'. unfold save. eapply disk_wp_mono; [|by apply wp_atomic_write]. intros o d1 [Hs1 W].
  assert (files d1 = <[settings_path := stored (public_dict s')]> (files d) -> related d1 (mark_credentials c s', c)) as Hnew.
  { intros E. eapply related_idle; [done|exact E|by rewrite lookup_insert_ne|by eapply state_of_saved]. }
  assert (files d1 = files d -> related d1 (s, c)) as Hold by (intros E; by eapply related_idle).
  destruct o as [[]|e|]; simpl; [eauto|destruct W; eauto|destruct W; eauto].
Qed.

(** An operation starts with a reading program; when that does not return,
    nothing has happened. *)
Lemma wp_stepped_reads {A} d a a' (c : io A) (k : A -> io unit) P :
  related d a -> wp c (reads d P) d ->
  (forall x d', P x -> steady d' -> files d' !! transaction_path = None -> state_of (files d') = Ok a ->
     wp (k x) (stepped a a') d') ->
  wp (bind c k) (stepped a a') d.
Proof.
  intros Hrel Hc Hk. apply disk_wp_bind. eapply disk_wp_mono; [|exact Hc]. intros o d1 H1.
  destruct o as [x|e|]; simpl in H1; [|left; by eapply related_same|left; by eapply related_same].
  destruct H1 as (Hs1 & Hf1 & Hx). destruct Hrel as (_ & Hr & Hv).
  destruct (recovered_recoverable _ Hr) as [_ Hn]. apply Hk; [done|done|by rewrite Hf1|by rewrite Hf1].
Qed.

(** ** Devices stay in normal form *)

Lemma find_device_ok i s d : find_device i s = Some d -> id d = i /\ d ∈ s.
Proof.
  unfold find_device. intros H. apply List.find_some in H as [H1 H2]. bool_to_prop.
  split; [done|by apply list_elem_of_In].
Qed.

Lemma replace_device_ok i f s :
  Forall device_ok s -> (forall d, d ∈ s -> device_ok d -> device_ok (f d)) -> Forall device_ok (replace_device i f s).
Proof.
  induction 1 as [|d s Hd HF IH]; intros Hf; cbn [replace_device]; [constructor|].
  case_bool_decide.
  - constructor; [|done]. apply Hf; [apply list_elem_of_here|done].
  - constructor; [done|]. apply IH. intros x Hx. apply Hf. by apply list_elem_of_further.
Qed.

Lemma form_device_ok values device_id fresh_id d :
  operation_ok (Upsert values device_id fresh_id) -> form_device values device_id fresh_id = Ok d -> device_ok d.
Proof.
  intros [Hfresh Hid]. unfold form_device. destruct (validate_address _) as [a|] eqn:Ea; [|done].
  destruct (normalize_mac _) as [m|] eqn:Em; [|done]. destruct (validate_port _ _) as [p|] eqn:Ep; [|done].
  destruct (validate_broadcast _) as [b|] eqn:Eb; [|done]. case_bool_decide as Hn; [done|]. intros [= <-].
  constructor; simpl.
  - destruct device_id as [i|]; [|done]. case_bool_decide; [done|]. destruct Hid; done.
  - split; [apply strip_idempotent|done].
  - by apply validate_address_idempotent in Ea.
  - by apply normalize_mac_idempotent in Em.
  - by apply validate_port_range in Ep.
  - by apply validate_broadcast_idempotent in Eb.
Qed.

(** ** The operations refine the abstract ones *)

Lemma wp_upsert values device_id fresh_id d a :
  related d a -> operation_ok (Upsert values device_id fresh_id) ->
  wp (perform (Upsert values device_id fresh_id)) (stepped a (effect (Upsert values device_id fresh_id) a)) d.
Proof.
  intros Hrel Hok. destruct a as [s c]. pose proof Hrel as (Hs & Hr & Hv). cbn [perform].
  unfold upsert. apply disk_wp_bind.
  eapply disk_wp_mono with (Q := fun o d' => stepped (s, c) (effect (Upsert values device_id fresh_id) (s, c))
    (match o with Ret _ => Ret tt | Raise e => Raise e | Dead => Dead end) d').
  { intros [x|e|] d' H; done. }
  apply disk_wp_bind. eapply disk_wp_mono; [|by eapply wp_load]. intros o d1 H1.
  destruct o as [s1|e|]; simpl in H1; [|left; by eapply related_same|left; by eapply related_same].
  destruct H1 as (Hs1 & Hf1 & ->). destruct (recovered_recoverable _ Hr) as [_ Hn].
  rewrite <- Hf1 in Hn. assert (state_of (files d1) = Ok (s, c)) as Hst by (by rewrite Hf1).
  destruct (state_of_ok _ _ _ Hst) as (Hsok & _ & _).
  apply disk_wp_bind, wp_lift. cbn [effect]. destruct (form_device values device_id fresh_id) as [dev|e] eqn:Ef.
  2:{ left. by apply (related_idle d1 (files d1)). }
  pose proof (form_device_ok _ _ _ _ Hok Ef) as Hdev.
  destruct (find_device (id dev) s) as [old|] eqn:Ed; apply disk_wp_bind;
    (eapply disk_wp_mono; [|eapply (wp_save_step s c); [done|done|done|]]); try (intros [[]|e|] d2 H2; exact H2).
  - apply replace_device_ok; [done|]. intros x _ _. by destruct Hdev.
  - apply Forall_app_2; [done|by constructor].
Qed.

Lemma wp_delete device_id d a :
  related d a -> wp (perform (Delete device_id)) (stepped a (effect (Delete device_id) a)) d.
Proof.
  intros Hrel. pose proof Hrel as (Hs & Hr & Hv). destruct a as [s c]. cbn [perform]. unfold delete.
  apply (wp_stepped_reads d (s, c) _ _ _ _ Hrel (wp_snapshot d Hs Hr)).
  intros [s1 c1] d1 Hv1 Hs1 Hn1 Hst1. rewrite Hv in Hv1. injection Hv1 as <- <-.
  destruct (state_of_ok _ _ _ Hst1) as (Hsok & _ & Hcok). apply wp_commit_step; [done|done|done| |].
  - rewrite Forall_forall in *. intros x Hx. apply Hsok. apply list_elem_of_In, filter_In in Hx as [Hx _].
    by apply list_elem_of_In.
  - by apply map_Forall_delete.
Qed.

Lemma wp_mark_paired i credential hid hv pv d a :
  related d a -> operation_ok (MarkPaired i credential hid hv pv) ->
  wp (perform (MarkPaired i credential hid hv pv)) (stepped a (effect (MarkPaired i credential hid hv pv) a)) d.
Proof.
  intros Hrel Hlen. pose proof Hrel as (Hs & Hr & Hv). destruct a as [s c]. cbn [perform]. unfold mark_paired.
  apply disk_wp_bind. eapply disk_wp_mono with (Q := fun o d' => stepped (s, c) (effect (MarkPaired i credential hid hv pv) (s, c))
    (match o with Ret _ => Ret tt | Raise e => Raise e | Dead => Dead end) d').
  { intros [x|e|] d' H; done. }
  apply disk_wp_bind. eapply disk_wp_mono; [|by apply wp_snapshot]. intros o d1 H1.
  destruct o as [[s1 c1]|e|]; simpl in H1; [|left; by eapply related_same|left; by eapply related_same].
  destruct H1 as (Hs1 & Hf1 & Hv1). rewrite Hv in Hv1. injection Hv1 as <- <-.
  destruct (recovered_recoverable _ Hr) as [_ Hn]. rewrite <- Hf1 in Hn.
  assert (state_of (files d1) = Ok (s, c)) as Hst by (by rewrite Hf1).
  destruct (state_of_ok _ _ _ Hst) as (Hsok & _ & Hcok). cbn [effect].
  destruct (find_device i s) as [dev|] eqn:Ed.
  2:{ apply wp_raise. left. by apply (related_idle d1 (files d1)). }
  apply disk_wp_bind. eapply disk_wp_mono; [|apply (wp_commit_step s c); [done|done|done| |]].
  { intros [[]|e|] d2 H2; exact H2. }
  - apply replace_device_ok; [done|]. intros x _ []. by constructor.
  - apply map_Forall_insert_2; [|done]. split; [|done]. apply find_device_ok in Ed as [<- Hin].
    rewrite Forall_forall in Hsok. intros E. apply (ok_id _ (Hsok _ Hin)). by rewrite E.
Qed.

Lemma perform_wp op d a :
  related d a -> operation_ok op -> wp (perform op) (stepped a (effect op a)) d.
Proof.
  intros Hrel Hok. destruct op; [by apply wp_upsert|by apply wp_delete|by apply wp_mark_paired].
Qed.

Lemma wp_new_store d a : related d a -> wp new_store (fun _ d' => related d' a) d.
Proof.
  intros Hrel. pose proof Hrel as (Hs & Hr & Hv). unfold new_store. eapply disk_wp_mono; [|by apply wp_recover].
  intros o d' H. destruct o as [[]|e|].
  - destruct H as [Hs' Hf']. destruct (recovered_recoverable _ Hr) as [_ Hn].
    by apply (related_idle d' (recovered (files d))).
  - destruct H. by eapply related_same.
  - by eapply related_same.
Qed.

(** ** Sessions: operations, failures, power cuts and restarts *)

(** One step of a session: an operation with the faults it meets, or a start
    of the plugin, which opens the store. *)
Inductive event :=
| Operation (op : operation) (fs sync : list fault)
| Start (fs sync : list fault).

Definition with_schedule (fs sync : list fault) (d : Disk) : Disk :=
  MkDisk (durable d) (pending d) (temporaries d) (next_temporary d) fs sync.

(** The result of a step: whether it was an operation that returned. *)
Definition run_event (e : event) (d : Disk) : bool * Disk :=
  match e with
  | Operation op fs sync =>
      let '(o, d) := perform op (with_schedule fs sync d) in
      (match o with Ret _ => true | _ => false end, d)
  | Start fs sync => (false, (new_store (with_schedule fs sync d)).2)
  end.

Fixpoint run_session (es : list event) (d : Disk) : list bool * Disk :=
  match es with
  | [] => ([], d)
  | e :: es =>
      let '(b, d) := run_event e d in
      let '(bs, d) := run_session es d in
      (b :: bs, d)
  end.

(** The sessions of the refinement: sensible arguments, and a directory whose
    synchronisation can be cut short by the end of the machine but does not fail
    while it runs: [os.replace] has then changed the file already, and the code
    does not undo it (PluginStoreSync.v). *)
Definition event_ok (e : event) : Prop :=
  match e with
  | Operation op _ sync => operation_ok op /\ Forall (fun f => f <> Fails) sync
  | Start _ sync => Forall (fun f => f <> Fails) sync
  end.

(** The abstract session in which exactly the operations marked in [took] have
    taken effect. *)
Fixpoint abstract_session (es : list event) (took : list bool) (a : state) : option state :=
  match es, took with
  | [], [] => Some a
  | e :: es, true :: took =>
      match e with
      | Operation op _ _ => match effect op a with Some a => abstract_session es took a | None => None end
      | Start _ _ => None
      end
  | _ :: es, false :: took => abstract_session es took a
  | _, _ => None
  end.

Lemma related_schedule fs sync d a :
  Forall (fun f => f <> Fails) sync -> related d a -> related (with_schedule fs sync d) a.
Proof. intros Hsync (Hs & Hr & Hv). split; [|done]. destruct Hs. by constructor. Qed.

(** Every step is an abstract step or none, and it is one if it returned. *)
Lemma run_event_step e d a :
  related d a -> event_ok e ->
  exists took b, abstract_session [e] [took] a = Some b /\ related (run_event e d).2 b /\
    ((run_event e d).1 = true -> took = true).
Proof.
  intros Hrel Hok. destruct e as [op fs sync|fs sync]; cbn [run_event event_ok] in *.
  - destruct Hok as [Hop Hsync]. pose proof (related_schedule fs sync d a Hsync Hrel) as Hrel'.
    pose proof (perform_wp op _ a Hrel' Hop) as H. unfold wp in H.
    destruct (perform op (with_schedule fs sync d)) as [o d']. cbn [fst snd] in *.
    assert (forall b, effect op a = Some b -> related d' b -> exists took b, abstract_session [Operation op fs sync] [took] a = Some b /\
      related d' b /\ (match o with Ret _ => true | _ => false end = true -> took = true)) as Hyes.
    { intros b Hb Hr. exists true, b. cbn. by rewrite Hb. }
    destruct o as [[]|x|]; simpl in H; [destruct H as (b & ? & ?); eauto| |];
      (destruct H as [H|(b & ? & ?)]; [exists false, a; by split|eauto]).
  - exists false, a. split; [done|]. split; [|done]. apply wp_new_store. by apply related_schedule.
Qed.

(** C5: the files implement an atomic store: for every session of operations
    and restarts, with any system call failing but the synchronisation of the
    directory, and the machine stopping anywhere, there too, the state the
    store holds afterwards is the one of an abstract session in which some of
    the operations took effect, each at once and in order, among them every
    operation that returned. *)
Theorem store_refines_atomic es d a :
  related d a -> Forall event_ok es ->
  exists took b, abstract_session es took a = Some b /\ related (run_session es d).2 b /\
    Forall2 (fun returned took => returned = true -> took = true) (run_session es d).1 took.
Proof.
  intros Hrel HF. revert d a Hrel. induction HF as [|e es He HF IH]; intros d a Hrel.
  { exists [], a. split; [done|]. split; [done|constructor]. }
  destruct (run_event_step e d a Hrel He) as (t & b & Hb & Hrel' & Ht). cbn [run_session].
  destruct (run_event e d) as [r d1]. cbn [fst snd] in *.
  destruct (IH d1 b Hrel') as (ts & b' & Hb' & Hrel'' & Hts). destruct (run_session es d1) as [rs d2].
  exists (t :: ts), b'. split; [|split; [done|by constructor]].
  cbn in Hb. cbn. destruct t; [destruct e as [op fs sync|]; [|done]; destruct (effect op a); [|done]|];
    injection Hb as <-; done.
Qed.

(** ** Without faults the operations succeed *)

Definition calm (d : Disk) : Prop := faults d = [] /\ sync_faults d = [].

Definition returns {A} (o : outcome A) (d : Disk) : Prop := calm d /\ exists a, o = Ret a.

Lemma wp_and {A} (c : io A) Q1 Q2 d : wp c Q1 d -> wp c Q2 d -> wp c (fun o d => Q1 o d /\ Q2 o d) d.
Proof. done. Qed.

Lemma wp_calm_syscall {A} (f : Disk -> outcome A * Disk) Q d :
  calm d -> Q (f d).1 (f d).2 -> wp (syscall f) Q d.
Proof. intros [Hf _] HQ. unfold wp, syscall. by rewrite Hf. Qed.

(** Sequencing a program that returns and whose specification is known. *)
Lemma wp_returns_bind {A B} d (c : io A) (k : A -> io B) (Q : outcome A -> Disk -> Prop) :
  wp c returns d -> wp c Q d -> (forall a d', calm d' -> Q (Ret a) d' -> wp (k a) returns d') ->
  wp (bind c k) returns d.
Proof.
  intros H1 H2 Hk. apply disk_wp_bind. eapply disk_wp_mono; [|exact (wp_and c _ _ d H1 H2)].
  intros o d' [[Hc [a ->]] HQ]. by apply Hk.
Qed.

Lemma calm_syscall {A} (f : Disk -> outcome A * Disk) d : calm d -> syscall f d = f d.
Proof. intros [Hf _]. unfold syscall. by rewrite Hf. Qed.

Lemma returns_atomic_write path value mode d : calm d -> wp (atomic_write path value mode) returns d.
Proof.
  intros [Hf Hsf]. unfold wp, atomic_write, bind, create_temporary. rewrite calm_syscall by done. cbn [fst snd].
  unfold finally, bind, write_temporary, sync_temporary, chmod_temporary, update_temporary, replace.
  do 4 (rewrite calm_syscall by done; cbn [fst snd durable pending temporaries next_temporary faults sync_faults]).
  rewrite !lookup_alter_eq, lookup_insert_eq. cbn [fmap option_fmap option_map].
  unfold sync_directory. cbn [sync_faults faults durable pending temporaries next_temporary]. rewrite Hsf.
  unfold discard, catch, unlink_temporary. cbn [temporaries]. rewrite lookup_delete_eq. cbn.
  split; [done|eauto].
Qed.

Lemma returns_remove_transaction d : calm d -> wp remove_transaction returns d.
Proof.
  intros [Hf Hsf]. unfold wp, remove_transaction, unlink, syscall. rewrite Hf.
  destruct (files d !! transaction_path) as [e|]; [|split; [done|by eauto]].
  unfold sync_directory. cbn [sync_faults faults durable pending temporaries next_temporary]. rewrite Hsf.
  cbn. split; [done|eauto].
Qed.

Lemma returns_read_json path d e j :
  calm d -> files d !! path = Some e -> doc_json e = Ok j -> wp (read_json path) returns d.
Proof.
  intros Hc He Hj. unfold read_json. apply wp_calm_syscall; [done|]. rewrite He. unfold doc_json in Hj.
  destruct (entry_doc e); [|done|done]. split; [done|eauto].
Qed.

Lemma returns_ret {A} (a : A) d : calm d -> wp (ret a) returns d.
Proof. intros H. split; [done|eauto]. Qed.

Lemma returns_catch {A} (c : io A) h d : wp c returns d -> wp (catch c h) returns d.
Proof. intros H. apply wp_catch. eapply disk_wp_mono; [|exact H]. intros o d' [Hc [a ->]]. split; [done|eauto]. Qed.

Lemma returns_recover d : steady d -> calm d -> recoverable (files d) -> wp recover_transaction returns d.
Proof.
  intros Hs Hc Hr. unfold recover_transaction. apply wp_exists.
  destruct (files d !! transaction_path) as [e|] eqn:E.
  2:{ rewrite bool_decide_eq_false_2 by (by intros [? ?]). by apply returns_ret. }
  rewrite bool_decide_eq_true_2 by eauto. cbn [negb]. apply returns_catch.
  unfold recoverable, transaction_in in Hr. rewrite E in Hr.
  destruct (doc_json e) as [j|] eqn:Ej; [|done]. destruct (transaction_parts j) as [parts|] eqn:Ep; [|done].
  eapply wp_returns_bind; [by eapply returns_read_json|by apply wp_read_json|].
  intros j' d1 Hc1 (Hs1 & Hf1 & e' & He' & Hj'). assert (j' = j) as -> by congruence. rewrite Ep.
  apply (wp_returns_bind _ _ _ (written d1 secrets_path (stored parts.2))); [by apply returns_atomic_write|by apply wp_atomic_write|].
  intros [] d2 Hc2 [Hs2 _].
  apply (wp_returns_bind _ _ _ (written d2 settings_path (stored parts.1))); [by apply returns_atomic_write|by apply wp_atomic_write|].
  intros [] d3 Hc3 _. by apply returns_remove_transaction.
Qed.

Lemma returns_credentials d c :
  steady d -> calm d -> recoverable (files d) -> credentials_of (recovered (files d)) = Ok c -> wp credentials returns d.
Proof.
  intros Hs Hc Hr Hcr. unfold credentials. eapply wp_returns_bind; [by apply returns_recover|by apply wp_recover|].
  intros [] d1 Hc1 [Hs1 Hf1]. apply wp_exists. rewrite <- Hf1 in Hcr. unfold credentials_of in Hcr.
  destruct (files d1 !! secrets_path) as [e|] eqn:E.
  2:{ rewrite bool_decide_eq_false_2 by (by intros [? ?]). by apply returns_ret. }
  rewrite bool_decide_eq_true_2 by eauto. cbn [negb]. apply returns_catch.
  destruct (doc_json e) as [j|] eqn:Ej; [|done].
  eapply wp_returns_bind; [by eapply returns_read_json|by apply wp_read_json|].
  intros j' d2 Hc2 (_ & _ & e' & He' & Hj'). assert (j' = j) as -> by congruence. rewrite Hcr. by apply returns_ret.
Qed.

Lemma returns_load_settings d e c s :
  steady d -> calm d -> files d !! settings_path = Some e -> settings_of (files d) c = Ok s ->
  wp (load_settings c) returns d.
Proof.
  intros Hs Hc E He. unfold settings_of in He. rewrite E in He. destruct (doc_json e) as [j|] eqn:Ej; [|done].
  unfold load_settings. eapply (wp_returns_bind _ _ _ (kept d (fun o => match o with Ret j' => j' = j | _ => True end))).
  - apply returns_catch. by eapply returns_read_json.
  - apply wp_catch. eapply disk_wp_mono; [|by apply wp_read_json]. intros o d1 (Hs1 & Hf1 & Ho).
    destruct o as [j'|x|]; [|by apply wp_raise; split|by split].
    destruct Ho as (e' & He' & Hj'). split; [done|]. split; [done|]. congruence.
  - intros j' d1 Hc1 (_ & _ & ->). rewrite He. by apply returns_ret.
Qed.

Lemma returns_snapshot d a : related d a -> calm d -> wp snapshot returns d.
Proof.
  intros (Hs & Hr & Hv) Hc. unfold view, state_of in Hv.
  destruct (credentials_of (recovered (files d))) as [c|] eqn:Ec; [|done].
  destruct (settings_of (recovered (files d)) c) as [s|] eqn:Es; [|done]. destruct (recovered_recoverable _ Hr) as [Hrr Hn].
  unfold snapshot. eapply wp_returns_bind; [by apply returns_recover|by apply wp_recover|].
  intros [] d1 Hc1 [Hs1 Hf1]. rewrite <- Hf1 in *.
  eapply wp_returns_bind; [by eapply (returns_credentials d1 c); rewrite ?(recovered_idle _ Hn)|by apply wp_credentials|].
  intros c' d2 Hc2 (Hs2 & Hf2 & Hc'). rewrite (recovered_idle _ Hn) in Hc', Hf2. assert (c' = c) as -> by congruence.
  rewrite <- Hf2 in *. apply wp_exists. apply (wp_returns_bind _ _ _ (fun _ _ => True)); [|done|].
  - destruct (files d2 !! settings_path) as [e|] eqn:E.
    + rewrite bool_decide_eq_true_2 by eauto. by eapply returns_load_settings.
    + rewrite bool_decide_eq_false_2 by (by intros [? ?]). by apply returns_ret.
  - intros s' d3 Hc3 _. by apply returns_ret.
Qed.

Lemma returns_load d a : related d a -> calm d -> wp load returns d.
Proof.
  intros (Hs & Hr & Hv) Hc. unfold view, state_of in Hv.
  destruct (credentials_of (recovered (files d))) as [c|] eqn:Ec; [|done].
  destruct (settings_of (recovered (files d)) c) as [s|] eqn:Es; [|done]. destruct (recovered_recoverable _ Hr) as [Hrr Hn].
  unfold load. eapply wp_returns_bind; [by apply returns_recover|by apply wp_recover|].
  intros [] d1 Hc1 [Hs1 Hf1]. rewrite <- Hf1 in *. apply wp_exists.
  destruct (files d1 !! settings_path) as [e|] eqn:E.
  2:{ rewrite bool_decide_eq_false_2 by (by intros [? ?]). by apply returns_ret. }
  rewrite bool_decide_eq_true_2 by eauto. cbn [negb].
  eapply wp_returns_bind; [by eapply (returns_credentials d1 c); rewrite ?(recovered_idle _ Hn)|by apply wp_credentials|].
  intros c' d2 Hc2 (Hs2 & Hf2 & Hc'). rewrite (recovered_idle _ Hn) in Hc', Hf2. assert (c' = c) as -> by congruence.
  rewrite <- Hf2 in *. by eapply returns_load_settings.
Qed.

Lemma calm_then {A} (c : io unit) (a : A) d : wp c returns d -> wp (c ;;; ret a) returns d.
Proof. intros H. eapply (wp_returns_bind _ _ _ (fun _ _ => True)); [done|done|]. intros [] d' Hc _. by apply returns_ret. Qed.

Lemma returns_commit s' c' s c d : calm d -> wp (commit s' c' s c) returns d.
Proof.
  intros Hc. unfold commit. apply (wp_returns_bind _ _ _ (fun _ _ => True)); [by apply returns_atomic_write|done|].
  intros [] d1 Hc1 _. apply (wp_returns_bind _ _ _ (fun _ _ => True)); [by apply returns_catch, returns_atomic_write|done|].
  intros [] d2 Hc2 _. apply (wp_returns_bind _ _ _ (fun _ _ => True)); [by apply returns_catch, returns_atomic_write|done|].
  intros [] d3 Hc3 _. by apply returns_remove_transaction.
Qed.

Lemma returns_perform op d a b :
  related d a -> calm d -> effect op a = Some b -> wp (perform op) returns d.
Proof.
  intros Hrel Hc Hb. pose proof Hrel as (Hs & Hr & Hv). destruct a as [s c].
  destruct op as [values i fresh|i|i cr hid hv pv]; cbn [perform effect] in *.
  - apply (wp_returns_bind _ _ _ (fun _ _ => True)); [|done|intros ? d' ? _; by apply returns_ret].
    unfold upsert. eapply wp_returns_bind; [by eapply returns_load|by eapply wp_load|].
    intros s1 d1 Hc1 (_ & _ & ->). destruct (form_device values i fresh) as [dev|]; [|done].
    apply (wp_returns_bind _ _ _ (fun o _ => o = Ret dev)); [by apply returns_ret|done|].
    intros ? d2 Hc2 [= ->]. destruct (find_device (id dev) s); by apply calm_then, returns_atomic_write.
  - unfold delete. eapply wp_returns_bind; [by eapply returns_snapshot|by apply wp_snapshot|].
    intros [s1 c1] d1 Hc1 _. by apply returns_commit.
  - apply (wp_returns_bind _ _ _ (fun _ _ => True)); [|done|intros ? d' ? _; by apply returns_ret].
    unfold mark_paired. eapply wp_returns_bind; [by eapply returns_snapshot|by apply wp_snapshot|].
    intros [s1 c1] d1 Hc1 (_ & _ & Hv1). rewrite Hv in Hv1. injection Hv1 as <- <-.
    destruct (find_device i s); [|done]. by apply calm_then, returns_commit.
Qed.

Lemma perform_calm op d a b :
  related d a -> operation_ok op -> calm d -> effect op a = Some b ->
  exists d1, perform op d = (Ret tt, d1) /\ related d1 b /\ calm d1.
Proof.
  intros Hrel Hok Hc Hb. pose proof (returns_perform op d a b Hrel Hc Hb) as H1.
  pose proof (perform_wp op d a Hrel Hok) as H2. unfold wp in H1, H2.
  destruct (perform op d) as [o d1]. cbn [fst snd] in *. destruct H1 as [Hc1 [[] ->]].
  destruct H2 as (b' & Hb' & Hrel1). assert (b' = b) as -> by congruence. eauto.
Qed.

Lemma snapshot_calm d a : related d a -> calm d -> exists d', snapshot d = (Ret a, d').
Proof.
  intros Hrel Hc. pose proof (returns_snapshot d a Hrel Hc) as H1. destruct Hrel as (Hs & Hr & Hv).
  pose proof (wp_snapshot d Hs Hr) as H2. unfold wp in H1, H2. destruct (snapshot d) as [o d']. cbn [fst snd] in *.
  destruct H1 as [_ [b ->]]. destruct H2 as (_ & _ & Hv2). exists d'. rewrite Hv in Hv2. by injection Hv2 as ->.
Qed.

(** C32: when no system call fails, an operation that the abstract store allows
    returns, and a snapshot taken next returns exactly the new abstract state. *)
Theorem store_operation_succeeds op d a b :
  related d a -> operation_ok op -> calm d -> effect op a = Some b ->
  exists d1 d2, perform op d = (Ret tt, d1) /\ related d1 b /\ snapshot d1 = (Ret b, d2).
Proof.
  intros Hrel Hok Hc Hb. destruct (perform_calm op d a b Hrel Hok Hc Hb) as (d1 & H1 & Hrel1 & Hc1).
  destruct (snapshot_calm d1 b Hrel1 Hc1) as [d2 H2]. eauto.
Qed.

End Documents.

End StoreRefinement.
