(* ===== verification/PluginStoreSync.v ===== *)
(** * A directory that cannot be synchronised (store.py, [_atomic_write])

    [os.replace] renames the new file before the directory is synchronised, so
    when that last step fails the write is reported as failed although running
    programs see it.  Here the system calls of a store without a transaction
    are followed exactly, and with them a pairing whose last write meets such a
    failure. *)
From stdpp Require Import base gmap list strings.
From Stdlib Require Import Ascii ZArith Lia.
From S2P Require Import Prelude RustStd Hex PyStd PluginValidation PluginStore PluginStoreSafety PluginStoreRefinement.
Import Validation Store StoreSafety StoreRefinement.
Open Scope string_scope.
Open Scope list_scope.
Open Scope io_scope.

Module StoreSync.

Definition not_synchronised : exn := OSError "directory not synchronised".

(** Every system call succeeds and the directory meets [fs]; [f] are the files
    as running programs see them, with their contents on stable storage. *)
Record following (fs : list fault) (f : gmap string entry) (d : Disk) : Prop := {
  following_faults : faults d = [];
  following_sync : sync_faults d = fs;
  following_files : files d = f;
  following_synced : map_Forall (fun _ e => entry_synced e = true) f;
}.

Lemma files_put d path e :
  apply_changes (pending d ++ [Put path e]) (durable d) = <[path := e]> (files d).
Proof. unfold files, apply_changes. by rewrite fold_left_app. Qed.

Lemma files_remove d path :
  apply_changes (pending d ++ [Remove path]) (durable d) = base.delete path (files d).
Proof. unfold files, apply_changes. by rewrite fold_left_app. Qed.

(** The disk when the new file has its name and the directory is to be
    synchronised, and when its old name has been looked for. *)
Definition renamed (path : string) (value : json) (d : Disk) : Disk :=
  MkDisk (durable d) (pending d ++ [Put path (stored value)]) (base.delete (next_temporary d) (temporaries d))
    (S (next_temporary d)) (faults d) (sync_faults d).

Lemma atomic_write_renamed path value d :
  faults d = [] ->
  atomic_write path value owner_only d = finally sync_directory (discard (next_temporary d)) (renamed path value d).
Proof.
  intros Hf. assert (forall A (g : Disk -> outcome A * Disk) d', faults d' = [] -> syscall g d' = g d') as Hcall.
  { intros A g d' E. unfold syscall. by rewrite E. }
  unfold atomic_write, bind, create_temporary. rewrite Hcall by done.
  unfold finally, bind, write_temporary, sync_temporary, chmod_temporary, update_temporary, replace.
  do 4 (rewrite Hcall by done; cbn [durable pending temporaries next_temporary faults sync_faults]).
  rewrite !lookup_alter_eq, lookup_insert_eq. cbn [fmap option_fmap option_map entry_mode entry_doc entry_synced].
  rewrite !delete_alter_eq, delete_insert_eq. done.
Qed.

Lemma discard_gone n d : temporaries d !! n = None -> discard n d = (Ret tt, d).
Proof. intros H. unfold discard, catch, unlink_temporary. by rewrite H. Qed.

Lemma following_renamed fs f path value d :
  following fs f d -> following fs (<[path := stored value]> f) (renamed path value d).
Proof.
  intros [Hf Hs Hd Hy]. constructor; [done|done| |by apply map_Forall_insert_2].
  unfold renamed, files. cbn [pending durable]. rewrite files_put. by rewrite Hd.
Qed.

(** Synchronising: nothing is pending any more. *)
Lemma sync_fine fs f d :
  following fs f d -> fs = [] \/ head fs = Some Fine ->
  exists d', sync_directory d = (Ret tt, d') /\ following (tail fs) f d' /\ pending d' = [] /\
    temporaries d' = temporaries d.
Proof.
  intros [Hf Hs Hd Hy] Hfine. unfold sync_directory. rewrite Hs.
  destruct fs as [|[] fs]; [| |by destruct Hfine|by destruct Hfine]; (eexists; split; [reflexivity|]; split; [|done]);
    (constructor; [done|done|exact Hd|done]).
Qed.

Lemma sync_fails fs f d :
  following (Fails :: fs) f d ->
  exists d', sync_directory d = (Raise not_synchronised, d') /\ following fs f d' /\ temporaries d' = temporaries d.
Proof.
  intros [Hf Hs Hd Hy]. unfold sync_directory. rewrite Hs. eexists. split; [reflexivity|].
  split; [|done]. constructor; [done|done|exact Hd|done].
Qed.

(** A write whose synchronisation succeeds, and one whose synchronisation fails:
    both have changed the file. *)
Lemma write_fine fs f path value d :
  following fs f d -> fs = [] \/ head fs = Some Fine ->
  exists d', atomic_write path value owner_only d = (Ret tt, d') /\
    following (tail fs) (<[path := stored value]> f) d' /\ pending d' = [].
Proof.
  intros H Hfine. rewrite atomic_write_renamed by apply H.
  destruct (sync_fine _ _ _ (following_renamed _ _ path value _ H) Hfine) as (d' & E & H' & Hp & Ht).
  exists d'. unfold finally, bind. rewrite E, discard_gone; [done|]. rewrite Ht. apply lookup_delete_eq.
Qed.

Lemma write_fails fs f path value d :
  following (Fails :: fs) f d ->
  exists d', atomic_write path value owner_only d = (Raise not_synchronised, d') /\
    following fs (<[path := stored value]> f) d'.
Proof.
  intros H. rewrite atomic_write_renamed by apply H.
  destruct (sync_fails _ _ _ (following_renamed _ _ path value _ H)) as (d' & E & H' & Ht).
  exists d'. unfold finally, bind. rewrite E, discard_gone; [done|]. rewrite Ht. apply lookup_delete_eq.
Qed.

Lemma remove_fine f d :
  following [] f d -> is_Some (f !! transaction_path) ->
  exists d', remove_transaction d = (Ret tt, d') /\ following [] (base.delete transaction_path f) d' /\ pending d' = [].
Proof.
  intros [Hf Hs Hd Hy] [e He]. unfold remove_transaction, unlink, syscall. rewrite Hf, Hd, He.
  edestruct (sync_fine [] (base.delete transaction_path f)) as (d' & E & H' & Hp & _); [| |exists d'; split; [exact E|done]].
  - constructor; [done|done| |by apply map_Forall_delete].
    unfold files. cbn [pending durable]. rewrite files_remove. by rewrite Hd.
  - by left.
Qed.

Section Reading.
Context {R : Repr}.

(** ** Reading a store without a transaction leaves the disk as it is *)

Lemma read_following fs f d path e :
  following fs f d -> f !! path = Some e ->
  read_json path d = (match doc_json e with Ok j => Ret j | Err x => Raise x end, d).
Proof.
  intros [Hf _ Hd _] He. unfold read_json, syscall, doc_json. rewrite Hf, Hd, He. by destruct (entry_doc e).
Qed.

Lemma recover_following fs f d :
  following fs f d -> f !! transaction_path = None -> recover_transaction d = (Ret tt, d).
Proof.
  intros [_ _ Hd _] Hn. unfold recover_transaction, bind, exists_file. rewrite Hd, Hn.
  by rewrite bool_decide_eq_false_2 by (by intros [? ?]).
Qed.

Lemma credentials_following fs f d c :
  following fs f d -> f !! transaction_path = None -> credentials_of f = Ok c -> credentials d = (Ret c, d).
Proof.
  intros H Hn Hc. unfold credentials, bind, exists_file. rewrite (recover_following _ _ _ H Hn).
  rewrite (following_files _ _ _ H). unfold credentials_of in Hc. destruct (f !! secrets_path) as [e|] eqn:E.
  - rewrite bool_decide_eq_true_2 by eauto. cbn [negb]. unfold catch. rewrite (read_following _ _ _ _ _ H E).
    destruct (doc_json e) as [j|]; [|done]. by rewrite Hc.
  - rewrite bool_decide_eq_false_2 by (by intros [? ?]). by injection Hc as <-.
Qed.

Lemma settings_following fs f d c s :
  following fs f d -> settings_of f c = Ok s ->
  (present <- exists_file settings_path ;; if present then load_settings c else ret []) d = (Ret s, d).
Proof.
  intros H Hs. unfold bind, exists_file. rewrite (following_files _ _ _ H). unfold settings_of in Hs.
  destruct (f !! settings_path) as [e|] eqn:E.
  - rewrite bool_decide_eq_true_2 by eauto. unfold load_settings, bind, catch. rewrite (read_following _ _ _ _ _ H E).
    destruct (doc_json e) as [j|]; [|done]. by rewrite Hs.
  - rewrite bool_decide_eq_false_2 by (by intros [? ?]). by injection Hs as <-.
Qed.

Lemma snapshot_following fs f d a :
  following fs f d -> f !! transaction_path = None -> state_of f = Ok a -> snapshot d = (Ret a, d).
Proof.
  intros H Hn Ha. unfold state_of in Ha. destruct (credentials_of f) as [c|] eqn:Ec; [|done].
  destruct (settings_of f c) as [s|] eqn:Es; [|done]. injection Ha as <-.
  pose proof (settings_following _ _ _ _ _ H Es) as E. unfold snapshot, bind in *.
  rewrite (recover_following _ _ _ H Hn), (credentials_following _ _ _ _ H Hn Ec).
  destruct (exists_file settings_path d) as [[p|x|] d1]; [|done|done]. by rewrite E.
Qed.

Lemma following_related f d a :
  following [] f d -> pending d = [] -> f !! transaction_path = None -> state_of f = Ok a -> related d a.
Proof.
  intros [Hf Hs Hd Hy] Hp Hn Ha. apply (related_idle d f); [|done|done|done]. constructor; [done| |by rewrite Hs].
  unfold files in Hd. rewrite Hp in Hd. by rewrite <- Hd in Hy.
Qed.

Lemma related_following d a fs :
  related d a -> following fs (files d) (with_schedule [] fs d).
Proof.
  intros (Hs & _ & _). constructor; [done|done|done|]. rewrite (steady_files d Hs). apply Hs.
Qed.

(** ** The commit whose last write cannot be synchronised *)

(** The files it leaves: the new settings, the old credentials written again. *)
Definition half_committed (s' : Settings) (c : Credentials) (f : gmap string entry) : gmap string entry :=
  <[secrets_path := stored (hex_dict c)]> (<[settings_path := stored (public_dict s')]> f).

Lemma half_committed_files s' c c' j f :
  f !! transaction_path = None ->
  base.delete transaction_path
    (<[secrets_path := stored (hex_dict c)]> (<[settings_path := stored (public_dict s')]>
      (<[secrets_path := stored (hex_dict c')]> (<[transaction_path := stored j]> f)))) = half_committed s' c f.
Proof.
  intros Hn. unfold half_committed. rewrite !delete_insert_ne, delete_insert_eq, delete_id by done.
  rewrite (insert_insert_ne _ settings_path secrets_path), insert_insert_eq by done. done.
Qed.

Lemma commit_unsynchronised s' c' s c f d :
  following [Fine; Fine; Fails] f d -> f !! transaction_path = None ->
  exists d', commit s' c' s c d = (Raise not_synchronised, d') /\
    following [] (half_committed s' c f) d' /\ pending d' = [].
Proof.
  intros H Hn. unfold commit, bind, catch.
  destruct (write_fine _ _ transaction_path (transaction_dict s' c') _ H) as (d1 & -> & H1 & _); [by right|].
  destruct (write_fine _ _ secrets_path (hex_dict c') _ H1) as (d2 & -> & H2 & _); [by right|].
  destruct (write_fails _ _ settings_path (public_dict s') _ H2) as (d3 & -> & H3).
  unfold rollback, bind, catch.
  destruct (write_fine _ _ secrets_path (hex_dict c) _ H3) as (d4 & -> & H4 & _); [by left|].
  destruct (remove_fine _ _ H4) as (d5 & E5 & H5 & Hp).
  { rewrite !lookup_insert_ne, lookup_insert_eq by done. by eexists. }
  cbn [ret]. rewrite E5. exists d5. rewrite half_committed_files in H5 by done. done.
Qed.

Lemma state_of_half_committed s s' c f :
  state_of f = Ok (s, c) -> Forall device_ok s' ->
  state_of (half_committed s' c f) = Ok (mark_credentials c s', c).
Proof. intros H Hs'. apply state_of_rewritten. by eapply state_of_saved. Qed.

(** C34: a name is replaced before the directory is synchronised, so a failure
    of that last step reports an error for a write that has happened.  In any
    store without a transaction, a pairing of a known device whose settings
    file meets it is reported as failed and its credential is taken back, but
    the settings keep the identity of the host, on stable storage and in every
    later reading. *)
Theorem failed_sync_leaves_settings i credential hid hv pv d s c :
  related d (s, c) -> files d !! transaction_path = None -> is_Some (find_device i s) ->
  let half := (mark_credentials c (replace_device i (pair_fields hid hv pv) s), c) in
  exists d', perform (MarkPaired i credential hid hv pv) (with_schedule [] [Fine; Fine; Fails] d) =
      (Raise not_synchronised, d') /\
    related d' half /\ snapshot d' = (Ret half, d').
Proof.
  intros Hrel Hn [dev Hdev] half. pose proof (related_following _ _ [Fine; Fine; Fails] Hrel) as H.
  assert (state_of (files d) = Ok (s, c)) as Hst.
  { destruct Hrel as (_ & _ & Hv). unfold view in Hv. by rewrite (recovered_idle _ Hn) in Hv. }
  destruct (state_of_ok _ _ _ Hst) as (Hok & _ & _).
  assert (state_of (half_committed (replace_device i (pair_fields hid hv pv) s) c (files d)) = Ok half) as Hhalf.
  { eapply state_of_half_committed; [exact Hst|]. apply replace_device_ok; [done|]. intros x _ []. by constructor. }
  edestruct (commit_unsynchronised (replace_device i (pair_fields hid hv pv) s) (<[i := credential]> c) s c)
    as (d' & E & H' & Hp); [exact H|done|].
  exists d'. cbn [perform]. unfold mark_paired, bind. rewrite (snapshot_following _ _ _ _ H Hn Hst), Hdev, E.
  assert (half_committed (replace_device i (pair_fields hid hv pv) s) c (files d) !! transaction_path = None) as Hn'.
  { unfold half_committed. by rewrite !lookup_insert_ne. }
  split; [done|]. split; [by eapply following_related|by eapply snapshot_following].
Qed.

End Reading.

End StoreSync.
