(* ===== verification/PluginStoreScenarios.v ===== *)
(** * The plugin's store on concrete disks

    A session on a new disk with a power cut in the middle of a commit, and a
    failing synchronisation of the directory, which the store does not undo. *)
From stdpp Require Import base gmap list strings.
From Stdlib Require Import Ascii ZArith Lia.
From S2P Require Import Prelude RustStd Hex PyStd PluginValidation PluginStore PluginStoreSafety PluginStoreRefinement PluginStoreSync.
Import Validation Store StoreSafety StoreRefinement StoreSync.
Open Scope string_scope.
Open Scope Z_scope.
Open Scope list_scope.

Module StoreScenarios.

#[export] Instance brackets_repr : Repr := {|
  repr_container v := match v with JArr _ => "[...]" | _ => "{...}" end;
  repr_str s := "'" +:+ s +:+ "'";
|}.

Lemma brackets_repr_laws : ReprLaws brackets_repr.
Proof. constructor; intros l; by eexists. Qed.

Definition new_disk : Disk := MkDisk ∅ [] ∅ 0%nat [] [].

Lemma new_disk_related : related new_disk ([], ∅).
Proof. by repeat split. Qed.

Definition form : gmap string json :=
  list_to_map [("name", JStr "Gaming PC"); ("address", JStr "192.168.1.20"); ("mac", JStr "a0-b1-c2-d3-e4-f5")].

Definition rig : Device := MkDevice "pc-1" "Gaming PC" "192.168.1.20" "A0:B1:C2:D3:E4:F5" (JBool false) DEFAULT_PORT
  None JNull JNull JNull false.

Definition secret : bytes := map (fun n => byte_of_Z (Z.of_nat n)) (seq 1 32).

Definition adding : operation := Upsert form None "pc-1".
Definition pairing : operation := MarkPaired "pc-1" secret "host-1" "1.0.0" 1.

(** The machine stops while the credentials of the pairing are being written;
    the plugin is started again. *)
Definition interrupted : list event :=
  [Start [] []; Operation adding [] [];
   Operation pairing [Fine; Fine; Fine; Fine; Fine; Fine; Fine; Fine; Dies 0] []; Start [] []].

Lemma interrupted_ok : Forall event_ok interrupted.
Proof. repeat constructor; done. Qed.

(** The session at work: the addition returned, the pairing did not but was
    rolled forward at the next start. *)
Example interrupted_runs :
  (run_session interrupted new_disk).1 = [false; true; false; false] /\
  (snapshot (run_session interrupted new_disk).2).1 =
    Ret ([pair_fields "host-1" "1.0.0" 1 rig], {["pc-1" := secret]}).
Proof. vm_compute. done. Qed.

Lemma store_refines_atomic_witness :
  exists took b, abstract_session interrupted took ([], ∅) = Some b /\
    related (run_session interrupted new_disk).2 b /\
    Forall2 (fun returned took => returned = true -> took = true) (run_session interrupted new_disk).1 took.
Proof. apply (store_refines_atomic interrupted new_disk ([], ∅)); [exact new_disk_related|exact interrupted_ok]. Defined.

Lemma store_operation_succeeds_witness :
  exists d1 d2, perform adding new_disk = (Ret tt, d1) /\ related d1 ([rig], ∅) /\ snapshot d1 = (Ret ([rig], ∅), d2).
Proof.
  apply (store_operation_succeeds adding new_disk ([], ∅)); [exact new_disk_related|by split|by split|].
  vm_compute. reflexivity.
Defined.

(** ** A directory that cannot be synchronised *)

(** The store after the addition. *)
Definition added : Disk := (perform adding new_disk).2.

Lemma added_related : related added ([rig], ∅) /\ calm added.
Proof.
  destruct (perform_calm adding new_disk ([], ∅) ([rig], ∅)) as (d & E & Hrel & Hc);
    [exact new_disk_related|by split|by split|vm_compute; reflexivity|]. unfold added. rewrite E. exact (conj Hrel Hc).
Qed.

(** A pairing whose settings file meets the failure. *)
Lemma failed_sync_leaves_settings_witness :
  exists d', perform pairing (with_schedule [] [Fine; Fine; Fails] added) = (Raise not_synchronised, d') /\
    related d' ([set_paired false (pair_fields "host-1" "1.0.0" 1 rig)], ∅) /\
    snapshot d' = (Ret ([set_paired false (pair_fields "host-1" "1.0.0" 1 rig)], ∅), d').
Proof.
  assert (mark_credentials ∅ (replace_device "pc-1" (pair_fields "host-1" "1.0.0" 1) [rig]) =
    [set_paired false (pair_fields "host-1" "1.0.0" 1 rig)]) as <- by (vm_compute; reflexivity).
  apply (failed_sync_leaves_settings "pc-1" secret "host-1" "1.0.0" 1 added [rig] ∅).
  - apply added_related.
  - vm_compute. reflexivity.
  - vm_compute. by eexists.
Defined.

(** When the first write of a commit meets it, the change is reported as
    failed and then made by the next operation, which finds the transaction. *)
Theorem failed_sync_commits_later :
  let d := (perform pairing (with_schedule [] [Fails] added)) in
  d.1 = Raise (OSError "directory not synchronised") /\
  exists d', snapshot d.2 = (Ret ([pair_fields "host-1" "1.0.0" 1 rig], {["pc-1" := secret]}), d').
Proof. vm_compute. split; [done|]. by eexists. Qed.

End StoreScenarios.
