(* ===== verification/PluginAuth.v ===== *)
(** * The plugin's request authentication (decky/py_modules/decky_my_rig/auth.py)

    The plugin signs requests and checks signed responses with code of its
    own.  The theorem shows that the bytes it signs are the host's for the
    upper-cased method, field by field and error by error. *)
From stdpp Require Import base gmap list strings.
From Stdlib Require Import Ascii ZArith Lia.
From S2P Require Import Prelude RustStd Hex Primitives Auth Pairing Wire PyStd PluginProtobuf.
Open Scope string_scope.
Open Scope Z_scope.
Open Scope list_scope.

Module PluginAuth.

Definition DOMAIN : bytes := as_bytes "deckymyrig-auth-v1" ++ [x00].
Definition RESPONSE_DOMAIN : bytes := as_bytes "deckymyrig-response-v1" ++ [x00].

Section Signing.
Context {P : Primitives}.

(** The joined [struct.pack(">H", len(field)) + field]. *)
Fixpoint pack_fields (fields : list bytes) : result bytes exn :=
  match fields with
  | [] => Ok []
  | field :: fields =>
      let? size := pack 2 (Z.of_nat (length field)) in
      let? rest := pack_fields fields in
      Ok (size ++ field ++ rest)
  end.

(** [hmac.digest(secret, message, "sha256")]; HMAC takes every key. *)
Definition hmac_digest (secret message : bytes) : result bytes exn :=
  ok_or (hmac secret message) (ValueError "no digest").

Definition canonical_message (timestamp : Z) (nonce : bytes) (method path : string) (body : bytes)
    : result bytes exn :=
  if negb (length nonce =? 16)%nat then Err (ValueError "nonce must be 16 bytes")
  else
    let? method := upper_ascii_encode method in
    let? path := ascii_encode path in
    let? time := pack 8 timestamp in
    let? fields := pack_fields [nonce; method; path] in
    Ok (DOMAIN ++ time ++ fields ++ sha256 body).

Record AuthHeaders := {
  timestamp : Z;
  nonce : bytes;
  signature : bytes;
}.

Definition as_http (headers : AuthHeaders) : list (string * string) :=
  [("X-Decky-Timestamp", str_int (timestamp headers)); ("X-Decky-Nonce", to_hex (nonce headers));
   ("X-Decky-Signature", to_hex (signature headers))].

(** [sign] with the time and the nonce it reads. *)
Definition sign (secret : bytes) (method path : string) (body : bytes) (timestamp : Z) (nonce : bytes)
    : result AuthHeaders exn :=
  let? message := canonical_message timestamp nonce method path body in
  let? signature := hmac_digest secret message in
  Ok {| timestamp := timestamp; nonce := nonce; signature := signature |}.

Definition response_signature (secret request_nonce : bytes) (path : string) (status : Z) (body : bytes)
    : result bytes exn :=
  if negb (length request_nonce =? 16)%nat || negb ((100 <=? status) && (status <=? 999))
  then Err (ValueError "invalid response authentication context")
  else
    let? path_bytes := ascii_encode path in
    let? fields := pack_fields [request_nonce; path_bytes] in
    let? code := pack 2 status in
    hmac_digest secret (RESPONSE_DOMAIN ++ fields ++ code ++ sha256 body).

(** [hmac.compare_digest] of two byte strings is equality. *)
Definition verify_response (secret request_nonce : bytes) (path : string) (status : Z) (body : bytes)
    (signature : option string) : result unit exn :=
  let? supplied := ok_or (fromhex (default "" signature))
    (ValueError "host response authentication is malformed") in
  let? expected := response_signature secret request_nonce path status body in
  if bool_decide (expected = supplied) then Ok tt
  else Err (ValueError "host response authentication failed").

(** ** The same bytes as the host's *)

Lemma domains : DOMAIN = Auth.DOMAIN /\ RESPONSE_DOMAIN = Auth.RESPONSE_DOMAIN.
Proof. split; by vm_compute. Qed.

Lemma pack_size (field : bytes) :
  pack 2 (Z.of_nat (length field)) =
    if decide (Z.of_nat (length field) <= u16_max) then Ok (to_be_bytes 2 (Z.of_nat (length field))) else Err StructError.
Proof.
  unfold pack, u16_max. case_decide as H.
  - rewrite (proj2 (Z.leb_le _ _)), (proj2 (Z.ltb_lt _ _)) by (simpl; lia). done.
  - rewrite (proj2 (Z.ltb_ge _ _)) by (simpl; lia). by rewrite andb_false_r.
Qed.

Lemma pack_u64 t : in_range u64_max t -> pack 8 t = Ok (to_be_bytes 8 t).
Proof.
  unfold in_range, u64_max. intros Ht. apply pack_Ok. split; [done|].
  change (256 ^ Z.of_nat 8) with 18446744073709551616. lia.
Qed.

Lemma pack_u32 t : in_range u32_max t -> pack 4 t = Ok (to_be_bytes 4 t).
Proof.
  unfold in_range, u32_max. intros Ht. apply pack_Ok. split; [done|].
  change (256 ^ Z.of_nat 4) with 4294967296. lia.
Qed.

Lemma pack_fields_Ok fields x :
  pack_fields fields = Ok x <-> fields_ok fields /\ x = concat (map field_bytes fields).
Proof.
  unfold fields_ok. revert x; induction fields as [|f fields IH]; intros x; cbn [pack_fields map concat].
  { split; [intros [= <-]; by split|by intros [_ ->]]. }
  rewrite pack_size, Forall_cons. case_decide as Hf; [|split; [done|]; intros [[? _] _]; done].
  unfold field_bytes at 1. destruct (pack_fields fields) as [r|] eqn:E.
  - destruct (proj1 (IH r) eq_refl) as [HF ->]. split; [intros [= <-]|intros [_ ->]]; by rewrite <- ?app_assoc.
  - split; [done|]. intros [[_ HF] _]. by pose proof (proj2 (IH _) (conj HF eq_refl)).
Qed.

Lemma ascii_encode_Ok s l : ascii_encode s = Ok l <-> is_ascii s = true /\ l = as_bytes s.
Proof. unfold ascii_encode. destruct (is_ascii s); [|by split; [|intros [? _]]]. split; [by intros [= <-]|by intros [_ ->]]. Qed.

Lemma upper_ascii_encode_Ok m l :
  upper_ascii_encode m = Ok l <-> exists u, upper m = Some u /\ l = as_bytes u.
Proof.
  unfold upper_ascii_encode. destruct (upper m) as [u|]; split; try done.
  - intros [= <-]. eauto.
  - by intros (u' & [= <-] & ->).
  - by intros (u' & ? & _).
Qed.

(** The plugin signs what the host signs for the upper-cased method. *)
Lemma canonical_message_upper t n m p b x :
  in_range u64_max t ->
  canonical_message t n m p b = Ok x <->
  exists u, upper m = Some u /\ Auth.canonical_message t n u p b = Ok x.
Proof.
  intros Ht. setoid_rewrite canonical_message_Ok. unfold canonical_message, upper_ascii_encode.
  destruct (Nat.eqb_spec (length n) 16) as [Hn|Hn]; cbn [negb]; [|split; [done|by intros (? & _ & ? & _)]].
  destruct (upper m) as [u|] eqn:Eu; [|split; [done|by intros (? & ? & _)]].
  pose proof (upper_is_cased m u Eu) as [Ha Hu].
  destruct (ascii_encode p) as [pb|] eqn:Ep.
  2:{ split; [done|]. intros (? & _ & _ & _ & Hp & _). unfold ascii_encode in Ep. by rewrite Hp in Ep. }
  apply ascii_encode_Ok in Ep as [Hp ->].
  rewrite pack_u64 by done. assert ([n; as_bytes u; as_bytes p] = request_fields n u p) as ->
    by (unfold request_fields; by rewrite Hu).
  destruct (pack_fields _) as [f|] eqn:Ef.
  - apply pack_fields_Ok in Ef as [HF ->]. rewrite (proj1 domains). split; [intros [= <-]; eauto 10|].
    by intros (? & [= <-] & _ & _ & _ & _ & ->).
  - split; [done|]. intros (? & [= <-] & _ & _ & _ & HF & _).
    pose proof (proj2 (pack_fields_Ok _ _) (conj HF eq_refl)) as E'. by rewrite E' in Ef.
Qed.

Lemma canonical_message_agrees t n m p b x :
  in_range u64_max t -> is_ascii m = true ->
  canonical_message t n m p b = Ok x <-> Auth.canonical_message t n m p b = Ok x.
Proof.
  intros Ht Hm. rewrite canonical_message_upper, upper_of_ascii by done.
  assert (Auth.canonical_message t n (to_ascii_uppercase m) p b = Auth.canonical_message t n m p b) as E.
  { unfold Auth.canonical_message. by rewrite is_ascii_uppercase, Hm, uppercase_idem by done. }
  rewrite <- E. split; [by intros (u & [= <-] & ?)|eauto].
Qed.

(** A method outside ASCII that the plugin signs and the host refuses. *)
Example long_s_method t n p b :
  upper "poſt" = Some "POST" /\ ~ exists x, Auth.canonical_message t n "poſt" p b = Ok x.
Proof. split; [by vm_compute|]. intros [x Hx]. apply canonical_message_Ok in Hx as (_ & Hm & _). by vm_compute in Hm. Qed.

Lemma response_signature_agrees c n p s b x :
  100 <= s <= 999 -> response_signature c n p s b = Ok x <-> sign_response c n p s b = Ok x.
Proof.
  intros Hs. unfold sign_response, response_signature.
  rewrite (proj2 (Z.leb_le 100 s)), (proj2 (Z.leb_le s 999)) by lia. cbn [andb negb orb]. rewrite orb_false_r.
  assert (pack 2 s = Ok (to_be_bytes 2 s)) as Hpk by (apply pack_Ok; split; [done|simpl; lia]).
  destruct (response_message n p s b) as [msg|] eqn:E.
  - apply response_message_Ok in E as (Hn & Hp & HF & ->). rewrite Hn. cbn [Nat.eqb NONCE_LENGTH negb].
    unfold ascii_encode. rewrite Hp. change [n; as_bytes p] with (response_fields n p).
    rewrite (proj2 (pack_fields_Ok _ _) (conj HF eq_refl)), Hpk, (proj2 domains).
    unfold hmac_digest, hmac. destruct (hmac_new_from_slice c); split; (done || by intros [= <-]).
  - split; [|done]. destruct (Nat.eqb_spec (length n) 16) as [Hn|Hn]; cbn [negb]; [|done].
    destruct (ascii_encode p) as [pb|] eqn:Ep; [|done]. apply ascii_encode_Ok in Ep as [Hp ->].
    destruct (pack_fields _) as [f|] eqn:Ef; [|done]. apply pack_fields_Ok in Ef as [HF ->].
    assert (response_message n p s b = Ok (Auth.RESPONSE_DOMAIN ++ concat (map field_bytes (response_fields n p)) ++
      to_be_bytes 2 s ++ sha256 b)) as E' by by apply response_message_Ok. by rewrite E' in E.
Qed.

(** The metadata of a pairing answer, as the host binds it. *)
Definition response_context (r : Protobuf.PairResponse) : CredentialContext :=
  {| context_hostname := Protobuf.pair_hostname r; context_host_version := Protobuf.pair_host_version r;
     context_protocol_version := Protobuf.pair_protocol_version r; context_host_id := Protobuf.pair_host_id r |}.

Lemma append_fields_Ok fs output x :
  Protobuf.append_fields fs output = Ok x <-> fields_ok fs /\ x = output ++ concat (map field_bytes fs).
Proof.
  unfold fields_ok. revert output; induction fs as [|f fs IH]; intros output; cbn [Protobuf.append_fields map concat].
  { rewrite app_nil_r. split; [intros [= <-]; by split|by intros [_ ->]]. }
  rewrite pack_size, Forall_cons. unfold u16_max. destruct (Z.ltb_spec 65535 (Z.of_nat (length f))) as [Hf|Hf].
  { split; [done|]. intros [[? _] _]. lia. }
  rewrite decide_True by done. rewrite IH. unfold field_bytes at 2. rewrite <- !app_assoc. naive_solver.
Qed.

Lemma aad_domain : as_bytes "deckymyrig-pairing-credential-aad-v1" ++ [x00] = CREDENTIAL_AAD_DOMAIN.
Proof. by vm_compute. Qed.

Lemma pairing_credential_aad_agrees r x :
  in_range u32_max (Protobuf.pair_protocol_version r) ->
  Protobuf.pairing_credential_aad r = Ok x <->
  credential_aad (Protobuf.host_message r) (Protobuf.session_id r) (response_context r) = Ok x.
Proof.
  intros Hv. rewrite credential_aad_Ok. unfold Protobuf.pairing_credential_aad, utf8_encode. rewrite aad_domain.
  rewrite pack_u32 by done.
  destruct (Protobuf.append_fields _ _) as [o|] eqn:E.
  - apply append_fields_Ok in E as [HF ->]. rewrite <- app_assoc. split; [by intros [= <-]|by intros [_ ->]].
  - split; [done|]. intros [HF ->].
    pose proof (proj2 (append_fields_Ok _ CREDENTIAL_AAD_DOMAIN _) (conj HF eq_refl)) as E'.
    unfold aad_fields, response_context in E'. cbn [context_hostname context_host_version context_host_id] in E'. by rewrite E' in E.
Qed.

(** C8: the bytes the plugin signs for a request are those the host signs for
    the upper-cased method, and exactly the host's own for every ASCII method:
    the two sides accept the same arguments and compute the same bytes.  The
    same holds of the signatures the plugin expects under a response, for the
    statuses of HTTP, and of the associated data it opens a credential with. *)
Theorem plugin_signs_like_host :
  (forall t n m p b x, in_range u64_max t ->
    canonical_message t n m p b = Ok x <->
    exists u, upper m = Some u /\ Auth.canonical_message t n u p b = Ok x) /\
  (forall t n m p b x, in_range u64_max t -> is_ascii m = true ->
    canonical_message t n m p b = Ok x <-> Auth.canonical_message t n m p b = Ok x) /\
  (forall c n p s b x, 100 <= s <= 999 ->
    response_signature c n p s b = Ok x <-> sign_response c n p s b = Ok x) /\
  (forall r x, in_range u32_max (Protobuf.pair_protocol_version r) ->
    Protobuf.pairing_credential_aad r = Ok x <->
    credential_aad (Protobuf.host_message r) (Protobuf.session_id r) (response_context r) = Ok x).
Proof.
  split; [|split; [|split]]; intros;
    [by apply canonical_message_upper|by apply canonical_message_agrees|by apply response_signature_agrees|
     by apply pairing_credential_aad_agrees].
Qed.

End Signing.

End PluginAuth.
