(* ===== verification/PluginClient.v ===== *)
(** * The plugin's client (decky/py_modules/decky_my_rig/client.py)

    [HostClient]: signed requests over [urllib], the check of every answer
    before it is read, and the pairing exchange.  A method is a function on
    the machine it runs on; what it raises is a value of [exn].  The network,
    the clocks and the SPAKE2 package's errors are parameters. *)
From stdpp Require Import base gmap list strings.
From Stdlib Require Import Ascii ZArith Lia.
From S2P Require Import Prelude RustStd Hex Primitives Auth Pairing Wire HttpText PyStd PluginProtobuf PluginValidation PluginStore PluginAuth.
Open Scope string_scope.
Open Scope Z_scope.
Open Scope list_scope.

Declare Scope call_scope.
Delimit Scope call_scope with call.

Module HostClient.

(** ** The network *)

Record Request := {
  url : string;
  request_data : bytes;
  request_headers : list (string * string);
  request_method : string;
}.

(** What [urlopen] does: a response, the [HTTPError] of a status that is no
    success, or another exception.  Reading a body can raise as well. *)
Inductive url_result :=
| Opened (status : Z) (data : result bytes exn) (signature : option string)
| HTTPError (code : Z) (data : result bytes exn) (signature : option string)
| Failed (e : exn).

(** The world outside the process: the network and the clocks, in
    nanoseconds. *)
Class World (Nw : Type) := {
  urlopen : Request -> Nw -> url_result * Nw;
  time_time : Nw -> Z;
  time_monotonic : Nw -> Z;
  (** [connection.sendto(packet, (target, port))] on a broadcast socket *)
  sendto : bytes -> string * Z -> Nw -> result unit exn * Nw;
}.

(** What [SPAKE2_A.finish] raises for a message it refuses. *)
Class Spake2Package := { finish_error : bytes -> exn }.

Record Machine {P : Primitives} {Nw : Type} := MkMachine {
  world : Nw;
  urandom : rng;
}.
Arguments Machine {P} Nw.
Arguments MkMachine {P Nw}.

Section Client.
Context {P : Primitives} {S2 : Spake2Package} {Nw : Type} {Wo : World Nw}.

Abbreviation machine := (Machine Nw).

Definition call (A : Type) : Type := machine -> result A exn * machine.

Definition ret {A} (a : A) : call A := fun m => (Ok a, m).
Definition raise {A} (e : exn) : call A := fun m => (Err e, m).
Definition lift {A} (r : result A exn) : call A := fun m => (r, m).

Definition bind {A B} (c : call A) (k : A -> call B) : call B := fun m =>
  match c m with
  | (Ok a, m) => k a m
  | (Err e, m) => (Err e, m)
  end.

(** [try: c except ...: handler]. *)
Definition catch {A} (c : call A) (handler : exn -> call A) : call A := fun m =>
  match c m with
  | (Err e, m) => handler e m
  | r => r
  end.

#[local] Notation "x <- p ;; q" := (bind p (fun x => q))
  (at level 60, p at next level, right associativity).
#[local] Notation "p ;;; q" := (bind p (fun _ => q))
  (at level 60, right associativity).

Definition nanos : Z := 1000000000.

(** [int(time.time())]: the time is cut towards zero. *)
Definition int_time : call Z := fun m => (Ok (Z.quot (time_time (world m)) nanos), m).

(** [os.urandom(n)]. *)
Definition os_urandom (n : nat) : call bytes := fun m =>
  let '(l, g) := fill_bytes n (urandom m) in (Ok l, MkMachine (world m) g).

Definition open_url (request : Request) : call url_result := fun m =>
  let '(r, w) := urlopen request (world m) in (Ok r, MkMachine w (urandom m)).

(** ** Requests *)

Record HostReply := {
  reply_body : bytes;
  reply_status : Z;
  reply_signature : option string;
}.

Definition CONTENT_TYPE : string := "application/x-protobuf".

(** [sign(credential, "POST", path, body)]. *)
Definition sign_now (credential : bytes) (path : string) (body : bytes) : call PluginAuth.AuthHeaders :=
  timestamp <- int_time ;;
  nonce <- os_urandom 16 ;;
  lift (PluginAuth.sign credential "POST" path body timestamp nonce).

Definition host_url (device : Store.Device) (path : string) : string :=
  "http://" +:+ Store.address device +:+ ":" +:+ str_int (Store.port device) +:+ path.

(** The first half of [_post]: the request is signed and sent. *)
Definition send (device : Store.Device) (path : string) (body : bytes) (credential : option bytes)
    : call (option PluginAuth.AuthHeaders * url_result) :=
  authentication <- match credential with
    | Some credential => a <- sign_now credential path body ;; ret (Some a)
    | None => ret None
    end ;;
  let headers := [("Content-Type", CONTENT_TYPE); ("Accept", CONTENT_TYPE)] in
  let headers := match authentication with
    | Some a => headers ++ PluginAuth.as_http a
    | None => headers
    end in
  answer <- open_url {| url := host_url device path; request_data := body; request_headers := headers;
                        request_method := "POST" |} ;;
  ret (authentication, answer).

Definition integrity_error : exn :=
  HostError "integrity" "DeckyMyRigHost returned a response that could not be authenticated." None.

Definition verify_reply (reply : HostReply) (credential : option bytes)
    (authentication : option PluginAuth.AuthHeaders) (path : string) : result unit exn :=
  match credential, authentication with
  | Some credential, Some authentication =>
      match PluginAuth.verify_response credential (PluginAuth.nonce authentication) path
              (reply_status reply) (reply_body reply) (reply_signature reply) with
      | Err e => Err (if is_ValueError e then integrity_error else e)
      | Ok _ => Ok tt
      end
  | _, _ => Ok tt
  end.

Definition decode_error (status : Z) (body : bytes) : result (string * string) exn :=
  let? message := match Protobuf.decode_error_response body with
    | Ok error => Ok (Protobuf.message error)
    | Err e => if is_ValueError e then Ok "DeckyMyRigHost rejected the request." else Err e
    end in
  let kind :=
    if (status =? 401) || (status =? 409) then "authentication"
    else if status =? 410 then "pairing"
    else if status =? 426 then "protocol"
    else "host" in
  Ok (message, kind).

(** [response.read(64 * 1024)]. *)
Definition read_limit : nat := Z.to_nat (64 * 1024).
Definition read (data : result bytes exn) : result bytes exn :=
  let? l := data in Ok (take read_limit l).

Definition unreachable (device : Store.Device) : exn :=
  HostError "unavailable" ("DeckyMyRigHost could not be reached at " +:+ Store.address device +:+ ":" +:+
    str_int (Store.port device) +:+ ".") None.

(** [except (URLError, TimeoutError, OSError)]. *)
Definition os_error_handler {A} (device : Store.Device) (r : result A exn) : result A exn :=
  match r with
  | Err e => Err (if is_OSError e then unreachable device else e)
  | Ok a => Ok a
  end.

(** The second half of [_post]: the body of [try] for a response, the handler
    of [HTTPError], whose own exceptions the last clause does not see, and the
    last clause. *)
Definition receive (device : Store.Device) (path : string) (credential : option bytes)
    (authentication : option PluginAuth.AuthHeaders) (answer : url_result) : result HostReply exn :=
  match answer with
  | Opened status data signature =>
      os_error_handler device (
        let? body := read data in
        let reply := {| reply_body := body; reply_status := status; reply_signature := signature |} in
        let? _ := verify_reply reply credential authentication path in
        Ok reply)
  | HTTPError code data signature =>
      let? error_body := read data in
      let reply := {| reply_body := error_body; reply_status := code; reply_signature := signature |} in
      let? _ := verify_reply reply credential authentication path in
      let? (message, kind) := decode_error code error_body in
      Err (HostError kind message (Some code))
  | Failed e => os_error_handler device (Err e)
  end.

Definition post (device : Store.Device) (path : string) (body : bytes) (credential : option bytes)
    : call HostReply :=
  sent <- send device path body credential ;;
  lift (receive device path credential sent.1 sent.2).

(** ** Pairing *)

Definition host_error_kind (e : exn) : option string :=
  match e with HostError kind _ _ => Some kind | _ => None end.

(** [_complete_pairing]: once more if the answer did not arrive. *)
Definition complete_pairing (device : Store.Device) (body : bytes) : call HostReply :=
  catch (post device "/v1/pair" body None) (fun e =>
    if bool_decide (host_error_kind e = Some "unavailable") then post device "/v1/pair" body None
    else raise e).

Definition outdated : exn := HostError "protocol" "DeckyMyRigHost needs to be updated." None.

Definition code_digits (code : string) : bool :=
  (length (chars code) =? 6)%nat && is_ascii code && str_all is_ascii_digit code.

Definition CONFIRMATION_DOMAIN : bytes := as_bytes "deckymyrig-pairing-confirm-v1" ++ [x00].

(** [SPAKE2_A(...)] and [start()]. *)
Definition spake2_start (password : bytes) : call (spake2 * bytes) := fun m =>
  let '(state, message, g) := spake2_start_a password (as_bytes "decky-client") (as_bytes "decky-host") (urandom m) in
  (Ok (state, message), MkMachine (world m) g).

(** [HKDF(SHA256, 32, None, info).derive(shared)]. *)
Definition derive_key (shared : bytes) : result bytes exn :=
  ok_or (hkdf_expand shared (as_bytes "deckymyrig-pairing-credential-v1") 32) (ValueError "no key").

(** [ChaCha20Poly1305(key).decrypt(nonce, ciphertext, aad)]. *)
Definition chacha_decrypt (key nonce ciphertext aad : bytes) : result bytes exn :=
  if negb (length nonce =? 12)%nat then Err (ValueError "Nonce must be 12 bytes")
  else ok_or (aead_decrypt key nonce ciphertext aad) InvalidTag.

(** The end of [pair]: the credential of a completed exchange. *)
Definition open_credential (shared : bytes) (response : Protobuf.PairResponse) : result bytes exn :=
  let? key := derive_key shared in
  let? credential :=
    match (let? aad := Protobuf.pairing_credential_aad response in
           chacha_decrypt key (Protobuf.nonce response) (Protobuf.ciphertext response) aad) with
    | Ok credential => Ok credential
    | Err e => Err (if bool_decide (e = InvalidTag) || is_ValueError e
                    then HostError "pairing" "Pairing could not be authenticated." None else e)
    end in
  if negb (length credential =? 32)%nat
  then Err (HostError "pairing" "The host returned an invalid credential." None)
  else Ok credential.

(** [PairResponse.decode] and the check of the version. *)
Definition pair_answer (reply : HostReply) : result Protobuf.PairResponse exn :=
  let? response := Protobuf.decode_pair_response (reply_body reply) in
  if negb (Protobuf.pair_protocol_version response =? Protobuf.PROTOCOL_VERSION) then Err outdated
  else Ok response.

Definition pair (device : Store.Device) (pairing_code : string) : call (bytes * Protobuf.PairResponse) :=
  let pairing_code := join_split pairing_code in
  if negb (code_digits pairing_code) then
    raise (HostError "pairing" "Enter the six-digit code shown by DeckyMyRigHostControl." None)
  else
    exchange <- spake2_start (as_bytes pairing_code) ;;
    let '(state, client_message) := exchange in
    body <- lift (Protobuf.pair_request client_message [] []) ;;
    started_reply <- post device "/v1/pair" body None ;;
    started <- lift (pair_answer started_reply) ;;
    shared <- lift (ok_or (spake2_finish state (Protobuf.host_message started))
                      (finish_error (Protobuf.host_message started))) ;;
    confirmation <- lift (PluginAuth.hmac_digest shared
      (CONFIRMATION_DOMAIN ++ client_message ++ Protobuf.host_message started ++ Protobuf.session_id started)) ;;
    completion_body <- lift (Protobuf.pair_request [] (Protobuf.session_id started) confirmation) ;;
    completed_reply <- complete_pairing device completion_body ;;
    response <- lift (pair_answer completed_reply) ;;
    credential <- lift (open_credential shared response) ;;
    ret (credential, response).

(** ** The other calls *)

(** [device.host_id and response.host_id != device.host_id]. *)
Definition other_host (device : Store.Device) (response : Protobuf.StatusResponse) : bool :=
  truthy (Store.host_id device) &&
  match Store.host_id device with
  | JStr s => negb (bool_decide (Protobuf.host_id response = s))
  | _ => true
  end.

Definition status (device : Store.Device) (credential : bytes) : call Protobuf.StatusResponse :=
  body <- lift Protobuf.status_request ;;
  reply <- post device "/v1/status" body (Some credential) ;;
  response <- lift (Protobuf.decode_status_response (reply_body reply)) ;;
  if negb (Protobuf.protocol_version response =? Protobuf.PROTOCOL_VERSION) then raise outdated
  else if other_host device response then
    raise (HostError "identity" "This address now belongs to a different PC." None)
  else ret response.

Definition probe (device : Store.Device) : call unit :=
  body <- lift Protobuf.status_request ;;
  answered <- catch (post device "/v1/status" body None ;;; ret true) (fun e =>
    if bool_decide (host_error_kind e = Some "authentication") then ret false else raise e) ;;
  if answered : bool then
    raise (HostError "protocol" "DeckyMyRigHost accepted an unauthenticated status request." None)
  else ret tt.

Definition shutdown (device : Store.Device) (credential : bytes) : call unit :=
  body <- lift Protobuf.shutdown_request ;;
  post device "/v1/shutdown" body (Some credential) ;;;
  ret tt.

(** ** Answers are authenticated before they are read *)

(** The reply carries the host's signature with [credential] for the request
    of that nonce. *)
Definition authentic (credential nonce : bytes) (path : string) (reply : HostReply) : Prop :=
  exists signature, fromhex (default "" (reply_signature reply)) = Some signature /\
    100 <= reply_status reply <= 999 /\
    sign_response credential nonce path (reply_status reply) (reply_body reply) = Ok signature.

Lemma response_signature_range c n p s b x : PluginAuth.response_signature c n p s b = Ok x -> 100 <= s <= 999.
Proof.
  unfold PluginAuth.response_signature. destruct (negb _ || negb _) eqn:E; [done|]. intros _.
  apply orb_false_iff in E as [_ E]. apply negb_false_iff in E. bool_to_prop. lia.
Qed.

Lemma verify_response_authentic c n p reply :
  PluginAuth.verify_response c n p (reply_status reply) (reply_body reply) (reply_signature reply) = Ok tt <->
  authentic c n p reply.
Proof.
  unfold PluginAuth.verify_response, authentic. destruct (fromhex _) as [sig|]; cbn [ok_or].
  2:{ split; [done|]. by intros (? & ? & _). }
  destruct (PluginAuth.response_signature _ _ _ _ _) as [x|] eqn:E.
  - pose proof (response_signature_range _ _ _ _ _ _ E) as Hr.
    apply PluginAuth.response_signature_agrees in E; [|done]. case_bool_decide as Hx; [subst|].
    + split; [|done]. intros _. by exists sig.
    + split; [done|]. intros (s & [= <-] & _ & Hs). congruence.
  - split; [done|]. intros (s & _ & Hr & Hs). apply PluginAuth.response_signature_agrees in Hs; [|done]. congruence.
Qed.

Lemma verify_reply_authentic reply c a p :
  verify_reply reply (Some c) (Some a) p = Ok tt <-> authentic c (PluginAuth.nonce a) p reply.
Proof.
  rewrite <- verify_response_authentic. unfold verify_reply. by destruct (PluginAuth.verify_response _ _ _ _ _ _) as [[]|].
Qed.

(** A request that was signed fits the format of signed messages. *)
Lemma send_signed device path body c m a r m' :
  send device path body (Some c) m = (Ok (a, r), m') ->
  exists h, a = Some h /\ length (PluginAuth.nonce h) = 16%nat /\ is_ascii path = true /\
    fields_ok [PluginAuth.nonce h; as_bytes path].
Proof.
  unfold send, bind at 1 2. destruct (sign_now c path body m) as [[h|] m1] eqn:E; [|done]. cbn [ret].
  unfold bind. destruct (open_url _ m1) as [[x|] m2]; [|done]. intros [= <- _ _]. exists h. split; [done|].
  unfold sign_now, bind, int_time, os_urandom, lift in E. destruct (fill_bytes 16 (urandom m)) as [n g].
  injection E as E _. unfold PluginAuth.sign, PluginAuth.canonical_message in E.
  destruct (Nat.eqb_spec (length n) 16) as [Hn|]; [|done]. cbn [negb] in E.
  destruct (upper_ascii_encode "POST"); [|done].
  destruct (ascii_encode path) as [pb|] eqn:Ep; [|done]. apply PluginAuth.ascii_encode_Ok in Ep as [Hp ->].
  destruct (pack 8 _); [|done]. destruct (PluginAuth.pack_fields _) eqn:Ef; [|done].
  apply PluginAuth.pack_fields_Ok in Ef as [HF _]. destruct (PluginAuth.hmac_digest _ _); [|done].
  injection E as <-. simpl. split; [done|]. split; [done|]. unfold fields_ok in *.
  rewrite !Forall_cons in *. tauto.
Qed.

(** On such a request the check of a reply fails with a [ValueError] only. *)
Lemma verify_response_error c n p s b sig e :
  length n = 16%nat -> is_ascii p = true -> fields_ok [n; as_bytes p] ->
  PluginAuth.verify_response c n p s b sig = Err e -> is_ValueError e = true.
Proof.
  intros Hn Hp HF. unfold PluginAuth.verify_response, PluginAuth.response_signature, ascii_encode.
  destruct (fromhex _); cbn [ok_or]; [|by intros [= <-]]. rewrite Hn, Hp. cbn [Nat.eqb negb orb].
  destruct ((100 <=? s) && (s <=? 999)) eqn:Es; cbn [negb]; [|by intros [= <-]]. bool_to_prop.
  rewrite (proj2 (PluginAuth.pack_fields_Ok _ _) (conj HF eq_refl)).
  assert (pack 2 s = Ok (to_be_bytes 2 s)) as ->.
  { apply pack_Ok. split; [done|]. change (256 ^ Z.of_nat 2) with 65536. lia. }
  unfold PluginAuth.hmac_digest. destruct (hmac _ _); cbn [ok_or]; [|by intros [= <-]].
  case_bool_decide; [done|by intros [= <-]].
Qed.

Lemma verify_reply_cases reply c a p :
  length (PluginAuth.nonce a) = 16%nat -> is_ascii p = true -> fields_ok [PluginAuth.nonce a; as_bytes p] ->
  (authentic c (PluginAuth.nonce a) p reply /\ verify_reply reply (Some c) (Some a) p = Ok tt) \/
  (~ authentic c (PluginAuth.nonce a) p reply /\ verify_reply reply (Some c) (Some a) p = Err integrity_error).
Proof.
  intros Hn Hp HF. rewrite <- verify_response_authentic. unfold verify_reply.
  destruct (PluginAuth.verify_response _ _ _ _ _ _) as [[]|e] eqn:E; [by left|right].
  by rewrite (verify_response_error _ _ _ _ _ _ _ Hn Hp HF E).
Qed.

(** C6: no answer to a signed request is read before it is authenticated.  A
    success is returned, and an error of the host reported, exactly when the
    answer carries the host's signature with the credential for this request's
    nonce, path, status and body; any other answer, whatever its status and
    contents, raises the integrity error; a request that gets no answer is
    reported as unavailable. *)
Theorem answers_are_vetted device path body c m a answer m' :
  send device path body (Some c) m = (Ok (Some a, answer), m') ->
  exists r, post device path body (Some c) m = (r, m') /\
  match answer with
  | Opened status (Ok data) signature =>
      let reply := {| reply_body := take read_limit data; reply_status := status; reply_signature := signature |} in
      (authentic c (PluginAuth.nonce a) path reply -> r = Ok reply) /\
      (~ authentic c (PluginAuth.nonce a) path reply -> r = Err integrity_error)
  | HTTPError code (Ok data) signature =>
      let body := take read_limit data in
      let reply := {| reply_body := body; reply_status := code; reply_signature := signature |} in
      (authentic c (PluginAuth.nonce a) path reply ->
         r = let? (message, kind) := decode_error code body in Err (HostError kind message (Some code))) /\
      (~ authentic c (PluginAuth.nonce a) path reply -> r = Err integrity_error)
  | Opened _ (Err e) _ | Failed e => r = Err (if is_OSError e then unreachable device else e)
  | HTTPError _ (Err e) _ => r = Err e
  end.
Proof.
  intros Hs. destruct (send_signed _ _ _ _ _ _ _ _ Hs) as (h & [= <-] & Hn & Hp & HF). unfold post, bind. rewrite Hs.
  eexists. split; [reflexivity|]. cbn [fst snd]. destruct answer as [s [data|e] sig|code [data|e] sig|e]; try done;
    cbn [receive read]; cbv zeta;
    match goal with |- context [verify_reply ?reply _ _ _] =>
      destruct (verify_reply_cases reply c a path Hn Hp HF) as [[Ha ->]|[Ha ->]] end; by split.
Qed.

(** ** What a pairing relies on *)

Lemma bind_Ok {A B} (c : call A) (k : A -> call B) m b m' :
  bind c k m = (Ok b, m') -> exists a m1, c m = (Ok a, m1) /\ k a m1 = (Ok b, m').
Proof. unfold bind. destruct (c m) as [[a|e] m1]; [eauto|done]. Qed.

Lemma call_lift_Ok {A} (r : result A exn) (m : machine) a m' : lift r m = (Ok a, m') -> r = Ok a /\ m' = m.
Proof. unfold lift. by intros [= -> ->]. Qed.

Lemma credential_opened shared response c :
  in_range u32_max (Protobuf.pair_protocol_version response) -> open_credential shared response = Ok c ->
  length c = 32%nat /\ exists key aad,
    hkdf_expand shared (as_bytes "deckymyrig-pairing-credential-v1") 32 = Some key /\
    credential_aad (Protobuf.host_message response) (Protobuf.session_id response)
      (PluginAuth.response_context response) = Ok aad /\
    aead_decrypt key (Protobuf.nonce response) (Protobuf.ciphertext response) aad = Some c.
Proof.
  intros Hv. unfold open_credential, derive_key. destruct (hkdf_expand _ _ _) as [key|] eqn:Ek; [|done]. cbn [ok_or].
  destruct (Protobuf.pairing_credential_aad response) as [aad|] eqn:Ea; [|done].
  apply PluginAuth.pairing_credential_aad_agrees in Ea; [|done]. unfold chacha_decrypt.
  destruct (negb _); [done|]. destruct (aead_decrypt _ _ _ _) as [x|] eqn:Ed; [|done]. cbn [ok_or].
  destruct (Nat.eqb_spec (length x) 32) as [Hl|]; [|done]. intros [= <-]. split; [done|]. by exists key, aad.
Qed.

Lemma pair_answer_Ok reply response :
  pair_answer reply = Ok response -> Protobuf.pair_protocol_version response = Protobuf.PROTOCOL_VERSION.
Proof.
  unfold pair_answer. destruct (Protobuf.decode_pair_response _) as [x|]; [|done].
  destruct (Z.eqb_spec (Protobuf.pair_protocol_version x) Protobuf.PROTOCOL_VERSION); [|done]. by intros [= <-].
Qed.

(** C19: against any network, a pairing that returns has opened its credential
    with the key of a SPAKE2 exchange on the typed code, and with the
    associated data that binds it to the host message, session, names, version
    and identity of the very answer it returns; the code was six digits, the
    credential is 32 bytes and the protocol version the plugin's. *)
Theorem pairing_is_authenticated device code m c response m' :
  pair device code m = (Ok (c, response), m') ->
  code_digits (join_split code) = true /\ length c = 32%nat /\
  Protobuf.pair_protocol_version response = Protobuf.PROTOCOL_VERSION /\
  exists peer shared key aad,
    spake2_finish (spake2_start_a (as_bytes (join_split code)) (as_bytes "decky-client") (as_bytes "decky-host")
      (urandom m)).1.1 peer = Some shared /\
    hkdf_expand shared (as_bytes "deckymyrig-pairing-credential-v1") 32 = Some key /\
    credential_aad (Protobuf.host_message response) (Protobuf.session_id response)
      (PluginAuth.response_context response) = Ok aad /\
    aead_decrypt key (Protobuf.nonce response) (Protobuf.ciphertext response) aad = Some c.
Proof.
  unfold pair. destruct (code_digits (join_split code)) eqn:Ed; [|done]. cbn [negb]. intros H0. split; [done|].
  apply bind_Ok in H0 as ([st msg] & m1 & Hst & H0). unfold spake2_start in Hst.
  destruct (spake2_start_a _ _ _ (urandom m)) as [[st' msg'] g]. injection Hst as -> -> _. cbn [fst].
  apply bind_Ok in H0 as (body & m2 & _ & H0). apply bind_Ok in H0 as (reply & m3 & _ & H0).
  apply bind_Ok in H0 as (started & m4 & _ & H0).
  apply bind_Ok in H0 as (shared & m5 & [Hsh _]%call_lift_Ok & H0).
  apply bind_Ok in H0 as (conf & m6 & _ & H0). apply bind_Ok in H0 as (body2 & m7 & _ & H0).
  apply bind_Ok in H0 as (reply2 & m8 & _ & H0).
  apply bind_Ok in H0 as (resp & m9 & [Hr%pair_answer_Ok _]%call_lift_Ok & H0).
  apply bind_Ok in H0 as (cred & m10 & [Hc _]%call_lift_Ok & H0). injection H0 as -> -> _.
  destruct (spake2_finish st (Protobuf.host_message started)) as [k|] eqn:Ek; [|done]. injection Hsh as ->.
  apply credential_opened in Hc as (Hl & key & aad & H1 & H2 & H3); [|by rewrite Hr].
  split; [done|]. split; [done|]. by exists (Protobuf.host_message started), shared, key, aad.
Qed.

End Client.

End HostClient.
