(* ===== verification/PluginController.v ===== *)
(** * The plugin's controller and entry points

    controller.py and main.py of the plugin: the state shown for each device,
    the transitions a wake-up and a shutdown start, and the calls the user
    interface makes.  The code between two suspensions of a coroutine runs
    without interruption; the part of each method after its last suspension is
    a definition of its own, so that every schedule of the event loop is a
    sequence of them. *)
From stdpp Require Import base gmap list strings.
From Stdlib Require Import Ascii ZArith Lia.
From S2P Require Import Prelude RustStd Hex Primitives Versioning PyStd PluginProtobuf PluginValidation PluginStore PluginClient.
Import HostClient.
Open Scope string_scope.
Open Scope Z_scope.
Open Scope list_scope.

Module Controller.

Inductive DeviceState := OFFLINE | STARTING | ONLINE | STOPPING | UNKNOWN.
Inductive PairingState := UNPAIRED | PAIRING | PAIRED | PAIRING_FAILED | PAIRING_EXPIRED.

#[export] Instance DeviceState_eq_dec : EqDecision DeviceState.
Proof. solve_decision. Defined.
#[export] Instance PairingState_eq_dec : EqDecision PairingState.
Proof. solve_decision. Defined.

Record Status := {
  state : DeviceState;
  pairing : PairingState;
  status_message : string;
}.

Record Controller := MkController {
  states : gmap string DeviceState;
  deadlines : gmap string Z;
}.

(** [str(error)]: the messages of the plugin's own exceptions; those of
    libraries are a parameter. *)
Class ErrorTexts := { library_text : exn -> string }.

Definition exn_str {T : ErrorTexts} (e : exn) : string :=
  match e with
  | DecodeError message | ValidationError message | StoreError message | DiscoveryError message
  | ValueError message => message
  | HostError _ message _ => message
  | _ => library_text e
  end.

Section Status.
Context {R : Repr} {D : Validation.Decimals} {T : ErrorTexts}.

(** [_result]. *)
Definition show (device_id : string) (s : DeviceState) (p : PairingState) (message : string) (c : Controller)
    : result Status exn * Controller :=
  (Ok {| state := s; pairing := p; status_message := message |},
   MkController (<[device_id := s]> (states c)) (deadlines c)).

(** [time.monotonic() < self.deadlines.get(device_id, 0)]. *)
Definition before_deadline (device_id : string) (now : Z) (c : Controller) : bool :=
  now <? default 0 (deadlines c !! device_id).

(** [_status] of a device without a credential, once [probe] has ended. *)
Definition probed (device_id : string) (outcome : result unit exn) (now : Z) (c : Controller)
    : result Status exn * Controller :=
  match outcome with
  | Ok _ => show device_id ONLINE UNPAIRED "DeckyMyRigHost was found. Pair this PC in Settings." c
  | Err e =>
      match host_error_kind e with
      | None => (Err e, c)
      | Some kind =>
          if bool_decide (kind = "protocol") then show device_id UNKNOWN UNPAIRED (exn_str e) c
          else if bool_decide (states c !! device_id = Some STARTING) && before_deadline device_id now c then
            show device_id STARTING UNPAIRED (exn_str e) c
          else show device_id OFFLINE UNPAIRED (exn_str e) c
      end
  end.

Definition version_message (host_version : string) (relation : VersionRelation) : string :=
  match relation with
  | UpdateHost => "Update DeckyMyRigHost (host " +:+ host_version +:+ ", plugin " +:+ Protobuf.PLUGIN_VERSION +:+ ")."
  | UpdatePlugin => "Update the Decky plugin (plugin " +:+ Protobuf.PLUGIN_VERSION +:+ ", host " +:+ host_version +:+ ")."
  | Incompatible => "Host and plugin major versions are incompatible (" +:+ host_version +:+ " vs " +:+
      Protobuf.PLUGIN_VERSION +:+ ")."
  | UnknownVersion => "Version compatibility is unknown (host reported " +:+ repr_str host_version +:+ ")."
  | Compatible => "Online"
  end.

(** [_status] of a device with a credential, once [client.status] has ended. *)
Definition answered (device_id : string) (outcome : result Protobuf.StatusResponse exn) (now : Z) (c : Controller)
    : result Status exn * Controller :=
  match outcome with
  | Ok response =>
      match Validation.compare_versions Protobuf.PLUGIN_VERSION (Protobuf.host_version response) with
      | Err e => (Err e, c)
      | Ok relation =>
          show device_id ONLINE PAIRED (version_message (Protobuf.host_version response) relation) c
      end
  | Err e =>
      match host_error_kind e with
      | None => (Err e, c)
      | Some kind =>
          if bool_decide (kind = "authentication") then
            show device_id ONLINE PAIRING_FAILED "Pairing with this PC is no longer valid." c
          else if bool_decide (kind = "integrity") then show device_id UNKNOWN PAIRED (exn_str e) c
          else if bool_decide (kind = "protocol") then show device_id UNKNOWN PAIRED (exn_str e) c
          else if bool_decide (kind = "identity") then show device_id UNKNOWN PAIRING_FAILED (exn_str e) c
          else
            match states c !! device_id with
            | Some STARTING =>
                if before_deadline device_id now c then show device_id STARTING PAIRED (exn_str e) c
                else show device_id OFFLINE PAIRED (exn_str e) c
            | Some STOPPING =>
                if before_deadline device_id now c then show device_id STOPPING PAIRED (exn_str e) c
                else show device_id OFFLINE PAIRED (exn_str e) c
            | _ => show device_id OFFLINE PAIRED (exn_str e) c
            end
      end
  end.

(** [self.states[device_id] = ...] and [self.deadlines[device_id] = ...]. *)
Definition begin_transition (device_id : string) (s : DeviceState) (now timeout : Z) (c : Controller) : Controller :=
  MkController (<[device_id := s]> (states c)) (<[device_id := now + timeout]> (deadlines c)).

(** ** The plugin *)

(** What the user interface is answered: [{"ok": True, "device": ...}] or
    [{"ok": False, "message": ...}]. *)
Inductive Reply :=
| Accepted (device : option json)
| Refused (message : string).

Definition is_HostError (e : exn) : bool := bool_decide (is_Some (host_error_kind e)).

Definition is_StoreError (e : exn) : bool := match e with StoreError _ => true | _ => false end.

Definition is_ValidationError (e : exn) : bool := match e with ValidationError _ => true | _ => false end.

End Status.

(** The store's disk, the client's machine and the controller. *)
Record Plugin {P : Primitives} {Nw : Type} := MkPlugin {
  disk : Store.Disk;
  machine : Machine Nw;
  controller : Controller;
}.
Arguments Plugin {P} Nw.
Arguments MkPlugin {P Nw}.

Section Plugin.
Context {R : Repr} {D : Validation.Decimals} {T : ErrorTexts}.
Context {P : Primitives} {S2 : Spake2Package} {Nw : Type} {Wo : World Nw}.

(** [transition_timeout], in nanoseconds, and [wol_ports]. *)
Context (transition_timeout : Z) (wol_ports : option (list Z)).

Abbreviation plugin := (Plugin Nw).
Definition action (A : Type) : Type := plugin -> Store.outcome A * plugin.

Definition ret {A} (a : A) : action A := fun s => (Store.Ret a, s).
Definition raise {A} (e : exn) : action A := fun s => (Store.Raise e, s).

Definition bind {A B} (c : action A) (k : A -> action B) : action B := fun s =>
  match c s with
  | (Store.Ret a, s) => k a s
  | (Store.Raise e, s) => (Store.Raise e, s)
  | (Store.Dead, s) => (Store.Dead, s)
  end.

Definition catch {A} (c : action A) (handler : exn -> action A) : action A := fun s =>
  match c s with
  | (Store.Raise e, s) => handler e s
  | r => r
  end.

#[local] Notation "x <- p ;; q" := (bind p (fun x => q))
  (at level 60, p at next level, right associativity).
#[local] Notation "p ;;; q" := (bind p (fun _ => q))
  (at level 60, right associativity).

Definition on_store {A} (c : Store.io A) : action A := fun s =>
  let '(o, d) := c (disk s) in (o, MkPlugin d (machine s) (controller s)).

Definition outcome_of {A} (r : result A exn) : Store.outcome A :=
  match r with Ok a => Store.Ret a | Err e => Store.Raise e end.

Definition on_client {A} (c : call A) : action A := fun s =>
  let '(r, m) := c (machine s) in (outcome_of r, MkPlugin (disk s) m (controller s)).

(** A call of the client whose exception the next step looks at. *)
Definition attempt {A} (c : call A) : action (result A exn) := fun s =>
  let '(r, m) := c (machine s) in (Store.Ret r, MkPlugin (disk s) m (controller s)).

(** A step of the controller at the time of [time.monotonic()]. *)
Definition on_controller {A} (f : Z -> Controller -> result A exn * Controller) : action A := fun s =>
  let '(r, c) := f (time_monotonic (world (machine s))) (controller s) in
  (outcome_of r, MkPlugin (disk s) (machine s) c).

(** [_status]. *)
Definition device_status (device : Store.Device) (secret : option bytes) : action Status :=
  match secret with
  | None => outcome <- attempt (probe device) ;; on_controller (probed (Store.id device) outcome)
  | Some secret =>
      outcome <- attempt (HostClient.status device secret) ;;
      on_controller (answered (Store.id device) outcome)
  end.

Definition status (device_id : string) : action Status :=
  device <- on_store (Store.find device_id) ;;
  credentials <- on_store Store.credentials ;;
  device_status device (credentials !! device_id).

Definition failed_status (device : Store.Device) : Status :=
  {| state := UNKNOWN; pairing := if Store.paired device then PAIRED else UNPAIRED;
     status_message := "Status check failed." |}.

(** The results [gather] collects, with the exceptions replaced, in the
    schedule that takes the devices one after the other. *)
Fixpoint status_all (credentials : Store.Credentials) (devices : list Store.Device) (collected : gmap string Status)
    : action (gmap string Status) :=
  match devices with
  | [] => ret collected
  | device :: devices =>
      r <- catch (device_status device (credentials !! Store.id device)) (fun _ => ret (failed_status device)) ;;
      status_all credentials devices (<[Store.id device := r]> collected)
  end.

Definition statuses : action (gmap string Status) :=
  snapshot <- on_store Store.snapshot ;;
  status_all snapshot.2 snapshot.1 ∅.

Fixpoint send_to_ports (packet : bytes) (target : string) (ports : list Z) : call unit :=
  match ports with
  | [] => HostClient.ret tt
  | port :: ports => fun m =>
      let '(r, w) := sendto packet (target, port) (world m) in
      let m := MkMachine w (urandom m) in
      match r with
      | Ok _ => send_to_ports packet target ports m
      | Err e => (Err e, m)
      end
  end.

(** wol.py: [send_magic_packet]. *)
Definition send_magic_packet (mac : string) (broadcast_address : option string) (ports : list Z) : call unit :=
  HostClient.bind (lift (Validation.magic_packet mac)) (fun packet =>
    let target := match broadcast_address with
      | Some s => if bool_decide (s = "") then "255.255.255.255" else s
      | None => "255.255.255.255"
      end in
    send_to_ports packet target ports).

Definition start (device_id : string) : action Status :=
  device <- on_store (Store.find device_id) ;;
  on_client (send_magic_packet (Store.mac device) (Store.broadcast_address device) (default [9; 7] wol_ports)) ;;;
  on_controller (fun now c => (Ok tt, begin_transition device_id STARTING now transition_timeout c)) ;;;
  credentials <- on_store Store.credentials ;;
  let p := if bool_decide (is_Some (credentials !! Store.id device)) then PAIRED else UNPAIRED in
  on_controller (fun _ c => show device_id STARTING p "Wake-on-LAN packet sent." c).

Definition stop (device_id : string) : action Status :=
  device <- on_store (Store.find device_id) ;;
  credentials <- on_store Store.credentials ;;
  match credentials !! device_id with
  | None => raise (StoreError "Pair this PC before shutting it down.")
  | Some secret =>
      on_client (HostClient.shutdown device secret) ;;;
      on_controller (fun now c =>
        show device_id STOPPING PAIRED "Shutdown accepted." (begin_transition device_id STOPPING now transition_timeout c))
  end.

(** ** main.py *)

Definition get_devices : action json :=
  settings <- on_store Store.load ;; ret (Store.public_dict settings).

Definition save_device (values : gmap string json) (device_id : option string) (fresh_id : string) : action Reply :=
  catch
    (device <- on_store (Store.upsert values device_id fresh_id) ;;
     ret (Accepted (Some (Store.device_dict device))))
    (fun e => ret (Refused (
       if is_StoreError e || is_ValidationError e then exn_str e
       else if is_OSError e then "The PC configuration could not be saved."
       else "An unexpected error prevented the PC from being saved."))).

Definition pair_device (device_id pairing_code : string) : action Reply :=
  catch
    (device <- on_store (Store.find device_id) ;;
     paired <- on_client (pair device pairing_code) ;;
     let '(credential, response) := paired in
     device <- on_store (Store.mark_paired device_id credential (Protobuf.pair_host_id response)
       (Protobuf.pair_host_version response) (Protobuf.pair_protocol_version response)) ;;
     ret (Accepted (Some (Store.device_dict device))))
    (fun e => ret (Refused (
       if is_HostError e || is_ValueError e then exn_str e
       else if is_OSError e then "Pairing could not be saved on this Steam Deck. Retry pairing."
       else "An unexpected error interrupted pairing."))).

Definition delete_device (device_id : string) : action Reply :=
  catch
    (on_store (Store.delete device_id) ;;; ret (Accepted None))
    (fun e => ret (Refused (
       if is_StoreError e then exn_str e
       else if is_OSError e then "The PC could not be deleted because settings could not be saved."
       else "An unexpected error prevented deletion."))).

End Plugin.

(** ** Schedules of the event loop *)

Section Schedules.
Context {R : Repr} {D : Validation.Decimals} {T : ErrorTexts}.
Context (transition_timeout : Z).

(** What a coroutine does after its last suspension: the end of a poll, of a
    wake-up or of a shutdown. *)
Inductive segment :=
| Probed (outcome : result unit exn)
| Answered (outcome : result Protobuf.StatusResponse exn)
| Started (credentials : result PairingState exn)
| Stopped.

Definition run_segment (device_id : string) (x : segment) (now : Z) (c : Controller)
    : result Status exn * Controller :=
  match x with
  | Probed outcome => probed device_id outcome now c
  | Answered outcome => answered device_id outcome now c
  | Started credentials =>
      let c := begin_transition device_id STARTING now transition_timeout c in
      match credentials with
      | Ok p => show device_id STARTING p "Wake-on-LAN packet sent." c
      | Err e => (Err e, c)
      end
  | Stopped =>
      show device_id STOPPING PAIRED "Shutdown accepted." (begin_transition device_id STOPPING now transition_timeout c)
  end.

(** A schedule: when, for which device, which segment. *)
Definition schedule : Type := list (Z * string * segment).

Definition run_schedule (l : schedule) (c : Controller) : Controller :=
  fold_left (fun c (x : Z * string * segment) => (run_segment x.1.2 x.2 x.1.1 c).2) l c.

Definition fresh : Controller := MkController ∅ ∅.

(** The state a segment begins. *)
Definition opens (x : segment) : option DeviceState :=
  match x with Started _ => Some STARTING | Stopped => Some STOPPING | _ => None end.

Definition in_transition (s : DeviceState) : bool := match s with STARTING | STOPPING => true | _ => false end.

Lemma show_spec device_id s p message c r c' :
  show device_id s p message c = (r, c') ->
  deadlines c' = deadlines c /\ states c' = <[device_id := s]> (states c) /\
  r = Ok {| state := s; pairing := p; status_message := message |}.
Proof. by intros [= <- <-]. Qed.

(** A poll shows a transition only if the device is in it and in time. *)
Lemma poll_spec device_id x now c r c' :
  opens x = None -> run_segment device_id x now c = (r, c') ->
  deadlines c' = deadlines c /\
  ((exists e, r = Err e) /\ c' = c \/
   exists v, r = Ok v /\ states c' = <[device_id := state v]> (states c) /\
     (in_transition (state v) = true -> states c !! device_id = Some (state v) /\ before_deadline device_id now c = true)).
Proof.
  assert (forall s p message, show device_id s p message c = (r, c') ->
    (in_transition s = true -> states c !! device_id = Some s /\ before_deadline device_id now c = true) ->
    deadlines c' = deadlines c /\ ((exists e, r = Err e) /\ c' = c \/
      exists v, r = Ok v /\ states c' = <[device_id := state v]> (states c) /\
       (in_transition (state v) = true -> states c !! device_id = Some (state v) /\ before_deadline device_id now c = true)))
    as Hshow.
  { intros s p message Hs H. apply show_spec in Hs as (-> & -> & ->). split; [done|]. right. by eexists. }
  intros Hp. destruct x as [o|o| |]; try done; cbn [run_segment]; unfold probed, answered;
    repeat (match goal with
            | |- context [match ?x with _ => _ end] =>
                lazymatch x with context [match _ with _ => _ end] => fail | _ => destruct x eqn:? end
            end; try (intros [= <- <-]; eauto; fail); try (intros; eapply Hshow; [eassumption|done]; fail)).
  all: intros; eapply Hshow; [eassumption|]; intros _; bool_to_prop; eauto.
Qed.

Lemma open_spec device_id x s now c :
  opens x = Some s ->
  (run_segment device_id x now c).2 =
    MkController (<[device_id := s]> (states c)) (<[device_id := now + transition_timeout]> (deadlines c)).
Proof.
  destruct x as [o|o|[p|e]|]; try done; intros [= <-]; cbn; by rewrite ?insert_insert_eq.
Qed.

(** Segments of other devices. *)
Lemma segment_other device_id i x now c :
  i <> device_id ->
  states (run_segment i x now c).2 !! device_id = states c !! device_id /\
  deadlines (run_segment i x now c).2 !! device_id = deadlines c !! device_id.
Proof.
  intros Hi. destruct (opens x) as [s|] eqn:Ho.
  - rewrite (open_spec i x s) by done. cbn [states deadlines]. by rewrite !lookup_insert_ne.
  - destruct (run_segment i x now c) as [r c'] eqn:E. destruct (poll_spec i x now c r c' Ho E) as (Hd & [[_ ->]|(v & _ & Hs & _)]);
      cbn [snd]; [done|]. by rewrite Hd, Hs, lookup_insert_ne.
Qed.

Lemma run_schedule_app l k c : run_schedule (l ++ k) c = run_schedule k (run_schedule l c).
Proof. apply fold_left_app. Qed.

(** The transition a device is in: when it began, and that the device has been
    in it ever since. *)
Definition since (device_id : string) (s : DeviceState) (l : schedule) (t : Z) : Prop :=
  exists before x after, l = before ++ (t, device_id, x) :: after /\ opens x = Some s /\
    forall k, k `prefix_of` after ->
      states (run_schedule (before ++ (t, device_id, x) :: k) fresh) !! device_id = Some s.

Lemma prefix_of_snoc {A} (k l : list A) y : k `prefix_of` l ++ [y] -> k `prefix_of` l \/ k = l ++ [y].
Proof.
  intros [q Hq]. destruct q as [|z q _] using rev_ind; [right; by rewrite app_nil_r in Hq|].
  rewrite app_assoc in Hq. apply app_inj_tail in Hq as [-> _]. left. by exists q.
Qed.

Lemma since_extend device_id s l t y :
  since device_id s l t -> states (run_schedule (l ++ [y]) fresh) !! device_id = Some s ->
  since device_id s (l ++ [y]) t.
Proof.
  intros (before & x & after & -> & Hx & H) Hy. exists before, x, (after ++ [y]).
  split; [by rewrite <- app_assoc|]. split; [done|]. intros k Hk.
  apply prefix_of_snoc in Hk as [Hk| ->]; [by apply H|]. by rewrite <- app_assoc in Hy.
Qed.

Lemma transition_began device_id s l :
  states (run_schedule l fresh) !! device_id = Some s -> in_transition s = true ->
  exists t, since device_id s l t /\ deadlines (run_schedule l fresh) !! device_id = Some (t + transition_timeout).
Proof.
  induction l as [|[[now i] x] l IH] using rev_ind; intros Hs Ht; [done|].
  pose proof (fun t H => since_extend device_id s l t (now, i, x) H Hs) as Hext.
  rewrite run_schedule_app in *. cbn [run_schedule fold_left fst snd] in *. fold (run_schedule l fresh) in *.
  destruct (decide (i = device_id)) as [->|Hi].
  2:{ destruct (segment_other device_id i x now (run_schedule l fresh) Hi) as [E1 E2]. rewrite E1 in Hs. rewrite E2.
      destruct (IH Hs Ht) as (t & H & Hd). exists t. split; [|done]. by apply Hext. }
  destruct (opens x) as [s'|] eqn:Ho.
  - rewrite (open_spec device_id x s') in * by done. cbn [states deadlines] in *. rewrite lookup_insert_eq in Hs.
    injection Hs as ->. exists now. split; [|by rewrite lookup_insert_eq]. exists l, x, []. split; [done|]. split; [done|].
    intros k ->%prefix_nil_inv. rewrite run_schedule_app. cbn [run_schedule fold_left fst snd]. fold (run_schedule l fresh).
    rewrite (open_spec device_id x s) by done. cbn [states]. by rewrite lookup_insert_eq.
  - destruct (run_segment device_id x now (run_schedule l fresh)) as [r c'] eqn:E. cbn [snd] in *.
    destruct (poll_spec device_id x now _ r c' Ho E) as (Hd & [[_ ->]|(v & _ & Hs' & Hv)]).
    + destruct (IH Hs Ht) as (t & H & Hd'). eauto.
    + rewrite Hs', lookup_insert_eq in Hs. injection Hs as <-. destruct (Hv Ht) as [Hst _].
      destruct (IH Hst Ht) as (t & H & Hd'). exists t. rewrite Hd. eauto.
Qed.

(** C22: whatever the interleaving of polls, wake-ups and shutdowns, a poll
    shows a device as starting or stopping only while the deadline of a wake-up
    or shutdown of that device that was begun before lies ahead, and only if
    every segment since then has left the device in that state. *)
Theorem transitions_expire l device_id x now v c :
  opens x = None -> run_segment device_id x now (run_schedule l fresh) = (Ok v, c) ->
  in_transition (state v) = true ->
  exists t, since device_id (state v) l t /\ now < t + transition_timeout.
Proof.
  intros Ho E Ht. destruct (poll_spec device_id x now _ _ c Ho E) as (_ & [[[e He] _]|(v' & [= <-] & _ & Hv)]); [done|].
  destruct (Hv Ht) as [Hs Hb]. destruct (transition_began device_id _ l Hs Ht) as (t & Hsince & Hd).
  exists t. split; [done|]. unfold before_deadline in Hb. rewrite Hd in Hb. simpl in Hb. bool_to_prop. lia.
Qed.

End Schedules.

(** ** The methods are made of these segments *)

Section Methods.
Context {R : Repr} {D : Validation.Decimals} {T : ErrorTexts}.
Context {P : Primitives} {S2 : Spake2Package} {Nw : Type} {Wo : World Nw}.
Context (transition_timeout : Z) (wol_ports : option (list Z)).

Implicit Types (s : Plugin Nw).

(** From [s] to [s'] the controller made one segment for the device, or none. *)
Definition one_segment (device_id : string) (openers : option DeviceState) s s' : Prop :=
  controller s' = controller s \/
  exists x now, opens x = openers /\ controller s' = (run_segment transition_timeout device_id x now (controller s)).2.

Lemma on_store_controller {A} (c : Store.io A) s : controller (on_store c s).2 = controller s.
Proof. unfold on_store. by destruct (c (disk s)). Qed.

Lemma on_client_controller {A} (c : call A) s : controller (on_client c s).2 = controller s.
Proof. unfold on_client. by destruct (c (machine s)). Qed.

Lemma device_status_segment device secret s :
  one_segment (Store.id device) None s (device_status device secret s).2.
Proof.
  right. unfold device_status, bind, attempt.
  destruct secret as [secret|]; [destruct (HostClient.status device secret (machine s)) as [r m]|destruct (probe device (machine s)) as [r m]];
    [exists (Answered r)|exists (Probed r)]; exists (time_monotonic (world m)); (split; [done|]);
    unfold on_controller; cbn [machine controller run_segment];
    [by destruct (answered (Store.id device) r _ _)|by destruct (probed (Store.id device) r _ _)].
Qed.

Lemma start_segment device_id s :
  one_segment device_id (Some STARTING) s (start transition_timeout wol_ports device_id s).2.
Proof.
  unfold start, bind at 1. pose proof (on_store_controller (Store.find device_id) s) as H1.
  destruct (on_store (Store.find device_id) s) as [[device|e|] s1]; cbn [snd] in H1; [|by left|by left].
  unfold bind at 1. match goal with |- context [on_client ?c s1] => pose proof (on_client_controller c s1) as H2 end.
  destruct (on_client _ s1) as [[[]|e|] s2]; cbn [snd] in H2; [|left; cbn; congruence|left; cbn; congruence].
  right. rewrite <- H1, <- H2. unfold bind at 1, on_controller at 1. cbn [outcome_of].
  set (now := time_monotonic (world (machine s2))). set (s3 := MkPlugin _ _ _).
  unfold bind. pose proof (on_store_controller Store.credentials s3) as H3.
  destruct (on_store Store.credentials s3) as [[credentials|e|] s4]; cbn [snd] in H3.
  - exists (Started (Ok (if bool_decide (is_Some (credentials !! Store.id device)) then PAIRED else UNPAIRED))), now.
    split; [done|]. unfold on_controller. cbn [show run_segment snd controller]. by rewrite H3.
  - exists (Started (Err e)), now. split; [done|]. cbn [snd]. by rewrite H3.
  - exists (Started (Err TypeError)), now. split; [done|]. cbn [snd]. by rewrite H3.
Qed.

Lemma stop_segment device_id s :
  one_segment device_id (Some STOPPING) s (stop transition_timeout device_id s).2.
Proof.
  unfold stop, bind at 1. pose proof (on_store_controller (Store.find device_id) s) as H1.
  destruct (on_store (Store.find device_id) s) as [[device|e|] s1]; cbn [snd] in H1; [|by left|by left].
  unfold bind at 1. pose proof (on_store_controller Store.credentials s1) as H2.
  destruct (on_store Store.credentials s1) as [[credentials|e|] s2]; cbn [snd] in H2; [|left; cbn; congruence|left; cbn; congruence].
  destruct (credentials !! device_id) as [secret|]; [|left; cbn; congruence].
  unfold bind at 1. pose proof (on_client_controller (HostClient.shutdown device secret) s2) as H3.
  destruct (on_client _ s2) as [[[]|e|] s3]; cbn [snd] in H3; [|left; cbn; congruence|left; cbn; congruence].
  right. exists Stopped, (time_monotonic (world (machine s3))). split; [done|].
  unfold on_controller. cbn [show run_segment snd controller]. by rewrite <- H1, <- H2, <- H3.
Qed.

End Methods.

End Controller.
