(* ===== verification/PluginDiscovery.v ===== *)
(** * Finding the MAC address of a PC (discovery.py)

    The neighbour table of SteamOS as text: the lines and fields of a Python
    string, the search for a MAC address on a line, and the resolution of the
    address before it.  The resolver, the connection that fills the table, the
    file /proc/net/arp and the command [ip neigh] are the operations of a class,
    and may answer anything. *)
From stdpp Require Import base gmap list strings.
From Stdlib Require Import Ascii ZArith Lia.
From Stdlib Require Strings.String.
From S2P Require Import Prelude RustStd Hex HttpText PyStd PluginValidation PluginController.
Open Scope string_scope.
Open Scope Z_scope.
Open Scope list_scope.

Module Discovery.
Import Validation.

(** ** [bytes.decode("utf-8", errors="replace")] *)

(** The length a first byte announces; none for a byte that starts nothing. *)
Definition utf8_length (b : byte) : option nat :=
  if byte_in 0 127 b then Some 1%nat else if byte_in 194 223 b then Some 2%nat
  else if byte_in 224 239 b then Some 3%nat else if byte_in 240 244 b then Some 4%nat else None.

(** The second bytes that may follow a first byte. *)
Definition utf8_second (b0 b1 : byte) : bool :=
  if byte_to_Z b0 =? 224 then byte_in 160 191 b1
  else if byte_to_Z b0 =? 237 then byte_in 128 159 b1
  else if byte_to_Z b0 =? 240 then byte_in 144 191 b1
  else if byte_to_Z b0 =? 244 then byte_in 128 143 b1
  else utf8_cont b1.

(** How many of the next [n] bytes continue a character. *)
Fixpoint utf8_conts (n : nat) (l : bytes) : nat :=
  match n, l with
  | S n, b :: l => if utf8_cont b then S (utf8_conts n l) else O
  | _, _ => O
  end.

(** The longest beginning that is a character or could become one, and whether
    it is one. *)
Definition utf8_unit (b0 : byte) (l : bytes) : nat * bool :=
  match utf8_length b0 with
  | None => (1%nat, false)
  | Some 1%nat => (1%nat, true)
  | Some n =>
      match l with
      | b1 :: l => if utf8_second b0 b1 then
                     let k := (2 + utf8_conts (n - 2) l)%nat in (k, (k =? n)%nat)
                   else (1%nat, false)
      | [] => (1%nat, false)
      end
  end.

Definition replacement : bytes := [xef; xbf; xbd].

Fixpoint replace_loop (fuel : nat) (l : bytes) : bytes :=
  match fuel, l with
  | S fuel, b :: l' =>
      let '(n, whole) := utf8_unit b l' in
      (if whole then take n l else replacement) ++ replace_loop fuel (drop n l)
  | _, _ => []
  end.

Definition decode_replace (l : bytes) : string := String.string_of_list_byte (replace_loop (length l) l).

(** ** Lines and fields *)

(** The characters [str.splitlines] ends a line at. *)
Definition is_linebreak (c : string) : bool :=
  match c with
  | String a EmptyString => ((10 <=? code a) && (code a <=? 13)) || ((28 <=? code a) && (code a <=? 30))
  | _ => existsb (fun l => bool_decide (as_bytes c = l)) [[xc2; x85]; [xe2; x80; xa8]; [xe2; x80; xa9]]
  end.

(** [line] is the part of the current line that was read. *)
Fixpoint split_lines (cs line : list string) : list (list string) :=
  match cs with
  | [] => match line with [] => [] | _ => [line] end
  | c :: cs =>
      if is_linebreak c then
        line :: match cs with
                | d :: cs' => if bool_decide (c = String CR "") && bool_decide (d = String LF "")
                              then split_lines cs' [] else split_lines cs []
                | [] => []
                end
      else split_lines cs (line ++ [c])
  end.

(** [str.splitlines()], each line as its characters. *)
Definition splitlines (s : string) : list (list string) := split_lines (chars s) [].

Fixpoint space_runs (cs : list string) : list string :=
  match cs with
  | [] => [""]
  | c :: cs =>
      if isspace c then "" :: space_runs cs
      else match space_runs cs with
           | [] => [c]
           | w :: ws => (c +:+ w) :: ws
           end
  end.

(** [line.split()]. *)
Definition split (line : list string) : list string :=
  List.filter (fun w => negb (bool_decide (w = ""))) (space_runs line).

(** ** [MAC_PATTERN] *)

(** The word characters of [\b]; those outside ASCII are Unicode's. *)
Class WordChars := is_word : string -> bool.
Class WordCharsLaws (W : WordChars) : Prop :=
  word_ascii c : char_is_ascii c = true -> is_word (String c "") = is_ascii_alnum c || Ascii.eqb c "_"%char.

Definition hex_char (c : string) : bool := match c with String a EmptyString => is_hex a | _ => false end.
Definition pair_separator (c : string) : bool := bool_decide (c = ":") || bool_decide (c = "-").

(** [(?:[:-][0-9a-f]{2}){n}]: what it matches and what is left. *)
Fixpoint match_pairs (n : nat) (cs : list string) : option (list string * list string) :=
  match n with
  | O => Some ([], cs)
  | S n =>
      match cs with
      | s :: a :: b :: cs =>
          if pair_separator s && hex_char a && hex_char b then
            match match_pairs n cs with
            | Some (m, rest) => Some (s :: a :: b :: m, rest)
            | None => None
            end
          else None
      | _ => None
      end
  end.

Definition match_mac (cs : list string) : option (list string * list string) :=
  match cs with
  | a :: b :: cs =>
      if hex_char a && hex_char b then
        match match_pairs 5 cs with
        | Some (m, rest) => Some (a :: b :: m, rest)
        | None => None
        end
      else None
  | _ => None
  end.

Section Search.
Context {W : WordChars}.

Definition word_at (c : option string) : bool := match c with Some c => is_word c | None => false end.

(** [\b]. *)
Definition boundary (before after : option string) : bool := xorb (word_at before) (word_at after).

(** [MAC_PATTERN.search(line)], the group; [before] is the character that was
    passed last. *)
Fixpoint search (before : option string) (cs : list string) : option string :=
  match cs with
  | [] => None
  | c :: cs' =>
      match match_mac cs with
      | Some (m, rest) =>
          if boundary before (Some c) && boundary (last m) (head rest) then Some (str_concat m)
          else search (Some c) cs'
      | None => search (Some c) cs'
      end
  end.

Fixpoint find_in_lines (ip : string) (lines : list (list string)) : result string exn :=
  match lines with
  | [] => Ok ""
  | line :: lines =>
      if negb (bool_decide (ip ∈ split line)) then find_in_lines ip lines
      else match search None line with
           | Some mac => normalize_mac mac
           | None => find_in_lines ip lines
           end
  end.

Definition find_mac (ip output : string) : result string exn := find_in_lines ip (splitlines output).

End Search.

(** ** The table *)

(** The calls of the operating system; each may change the world and raise. *)
Class Neighbours (Nw : Type) := {
  (** the addresses of [getaddrinfo(host, None, AF_INET, SOCK_STREAM)] *)
  getaddrinfo : string -> Nw -> result (list string) exn * Nw;
  (** [open_connection] within 1.5 seconds, [close] and [wait_closed] *)
  touch : string -> Z -> Nw -> result unit exn * Nw;
  (** [Path("/proc/net/arp").read_text("utf-8")] *)
  read_arp : Nw -> result string exn * Nw;
  (** [create_subprocess_exec("ip", "neigh", "show", ip)] *)
  spawn_ip : string -> Nw -> result unit exn * Nw;
  (** the output of [communicate] within 3 seconds *)
  communicate : Nw -> result bytes exn * Nw;
  (** [process.kill()] and [process.wait()] *)
  kill_ip : Nw -> result unit exn * Nw;
}.

Section Table.
Context {R : Repr} {W : WordChars} {Nw : Type} {N : Neighbours Nw}.

Definition resolve_ipv4 (host : string) (w : Nw) : result string exn * Nw :=
  if is_ipv4 host then (Ok host, w)
  else match getaddrinfo host w with
  | (Err e, w) =>
      (Err (if bool_decide (e = GaiError) then DiscoveryError "The PC address could not be resolved." else e), w)
  | (Ok [], w) => (Err (DiscoveryError "The PC address has no IPv4 address."), w)
  | (Ok (value :: _), w) => (Ok value, w)
  end.

Definition prime_neighbor (ip : string) (port : Z) (w : Nw) : result unit exn * Nw :=
  match touch ip port w with
  | (Err e, w) => (if is_OSError e then Ok tt else Err e, w)
  | r => r
  end.

Definition find_proc_arp (ip : string) (w : Nw) : result string exn * Nw :=
  match read_arp w with
  | (Err e, w) => (if is_OSError e then Ok "" else Err e, w)
  | (Ok text, w) => (find_mac ip text, w)
  end.

(** The output of the command; without [process] the handler of [TimeoutError]
    cannot kill it. *)
Definition ip_neigh (ip : string) (w : Nw) : result bytes exn * Nw :=
  match spawn_ip ip w with
  | (Err e, w) =>
      (if bool_decide (e = FileNotFoundError) then Ok []
       else Err (if bool_decide (e = TimeoutError) then UnboundLocalError else e), w)
  | (Ok _, w) =>
      match communicate w with
      | (Ok stdout, w) => (Ok stdout, w)
      | (Err e, w) =>
          if bool_decide (e = FileNotFoundError) then (Ok [], w)
          else if bool_decide (e = TimeoutError) then
            let '(r, w) := kill_ip w in (let? _ := r in Ok [], w)
          else (Err e, w)
      end
  end.

Definition not_found : exn := DiscoveryError
  "MAC address was not found. Make sure the PC is powered on and on the same LAN, or enter it manually.".

(** The lookup once the table is filled. *)
Definition look_up (ip : string) (w : Nw) : result string exn * Nw :=
  let '(proc_mac, w) := find_proc_arp ip w in
  match proc_mac with
  | Err e => (Err e, w)
  | Ok proc_mac =>
      if negb (bool_decide (proc_mac = "")) then (Ok proc_mac, w)
      else
        let '(stdout, w) := ip_neigh ip w in
        (let? stdout := stdout in
         let? mac := find_mac ip (decode_replace stdout) in
         if negb (bool_decide (mac = "")) then Ok mac else Err not_found, w)
  end.

Definition discover_mac (address port : json) (w : Nw) : result string exn * Nw :=
  match (let? host := validate_address address in
         let? host_port := validate_port port true in Ok (host, host_port)) with
  | Err e => (Err e, w)
  | Ok (host, host_port) =>
      let '(ip, w) := resolve_ipv4 host w in
      match ip with
      | Err e => (Err e, w)
      | Ok ip =>
          let '(primed, w) := prime_neighbor ip host_port w in
          match primed with
          | Err e => (Err e, w)
          | Ok _ => look_up ip w
          end
      end
  end.

End Table.

(** ** main.py *)

(** [{"ok": ..., "mac": ..., "message": ...}]. *)
Record Discovered := { ok : bool; found : string; notice : string }.

Definition is_DiscoveryError (e : exn) : bool := match e with DiscoveryError _ => true | _ => false end.

Definition discover_device {R : Repr} {T : Controller.ErrorTexts} {W : WordChars} {Nw} {N : Neighbours Nw}
    (address port : json) (w : Nw) : Discovered * Nw :=
  let '(r, w) := discover_mac address port w in
  (match r with
   | Ok mac => {| ok := true; found := mac; notice := "Detected " +:+ mac +:+ "." |}
   | Err e =>
       {| ok := false; found := "";
          notice := if is_DiscoveryError e || Controller.is_ValidationError e then Controller.exn_str e
                    else "MAC discovery failed unexpectedly." |}
   end, w).

(** ** What the search finds *)

Lemma match_pairs_app n cs m rest : match_pairs n cs = Some (m, rest) -> cs = m ++ rest.
Proof.
  revert cs m; induction n as [|n IH]; intros cs m H; cbn [match_pairs] in H; [by injection H as <- <-|].
  destruct cs as [|s [|a [|b cs]]]; try done. case_hyp H; [|done].
  destruct (match_pairs n cs) as [[m' r']|] eqn:E'; [|done]. injection H as <- <-. by rewrite (IH _ _ E').
Qed.

Lemma match_mac_app cs m rest : match_mac cs = Some (m, rest) -> cs = m ++ rest.
Proof.
  destruct cs as [|a [|b cs]]; try done. cbn [match_mac]. intros H. case_hyp H; [|done].
  destruct (match_pairs 5 cs) as [[m' r']|] eqn:E'; [|done]. injection H as <- <-.
  by rewrite (match_pairs_app _ _ _ _ E').
Qed.

Definition mac_char (c : string) : bool := hex_char c || pair_separator c.

Lemma mac_char_cases c :
  mac_char c = true ->
  (exists a, c = String a "" /\ char_is_ascii a = true /\ is_hex a = true /\ mac_separator c = false) \/
  ((c = ":" \/ c = "-") /\ mac_separator c = true /\ hex_char c = false).
Proof.
  unfold mac_char, pair_separator. intros H. bool_to_prop. destruct H as [H|H].
  - left. destruct c as [|a [|]]; try done. exists a. split; [done|]. cbn [hex_char] in H. revert H. clear.
    destruct a as [[] [] [] [] [] [] [] []]; vm_compute; done.
  - right. bool_to_prop. by destruct H as [H|H]; bool_to_prop; subst c; vm_compute; auto.
Qed.

Lemma chars_mac m : Forall (fun c => mac_char c = true) m -> chars (str_concat m) = m.
Proof.
  induction 1 as [|c m Hc _ IH]; [done|]. cbn [str_concat].
  rewrite chars_app_ascii, IH; destruct (mac_char_cases c Hc) as [(a & -> & Ha & _)|[[-> | ->] _]]; try done.
  - cbn [chars]. unfold char_is_ascii in Ha. by rewrite Ha.
  - unfold is_ascii. simpl. by rewrite Ha.
Qed.

Lemma compact_mac m :
  Forall (fun c => mac_char c = true) m ->
  exists l, length l = length (List.filter hex_char m) /\ Forall (fun c => is_hex c = true) l /\
    mac_compact (str_concat m) = String.string_of_list_ascii l.
Proof.
  intros H. unfold mac_compact. rewrite (chars_mac m H).
  induction H as [|c m Hc _ (l & Hl & HF & E)]; [by exists []|].
  destruct (mac_char_cases c Hc) as [(a & -> & Ha & Hx & Hs)|(_ & Hs & Hh)]; cbn [List.filter hex_char].
  - exists (a :: l). rewrite Hs, Hx. cbn [negb length str_concat String.string_of_list_ascii].
    rewrite E, Hl. repeat split. by constructor.
  - exists l. by rewrite Hs, Hh.
Qed.

Lemma separator_not_hex c : pair_separator c = true -> hex_char c = false.
Proof. unfold pair_separator. intros H. bool_to_prop. by destruct H as [H|H]; apply bool_decide_eq_true in H as ->. Qed.

Lemma match_pairs_shape n cs m rest :
  match_pairs n cs = Some (m, rest) ->
  Forall (fun c => mac_char c = true) m /\ length (List.filter hex_char m) = (2 * n)%nat.
Proof.
  revert cs m; induction n as [|n IH]; intros cs m H; cbn [match_pairs] in H; [by injection H as <- <-|].
  destruct cs as [|s [|a [|b cs]]]; try done. destruct (pair_separator s && hex_char a && hex_char b) eqn:E; [|done].
  apply andb_true_iff in E as [[Hs Ha]%andb_true_iff Hb].
  destruct (match_pairs n cs) as [[m' r']|] eqn:E'; [|done]. injection H as <- <-.
  destruct (IH _ _ E') as [HF HL]. unfold mac_char. split.
  - repeat constructor; rewrite ?orb_true_iff; auto.
  - cbn [List.filter]. rewrite (separator_not_hex s Hs), Ha, Hb. cbn [length]. lia.
Qed.

(** A match is twelve digits, which [normalize_mac] accepts. *)
Lemma match_mac_normal cs m rest :
  match_mac cs = Some (m, rest) -> exists r, normalize_mac (str_concat m) = Ok r /\ r <> "".
Proof.
  destruct cs as [|a [|b cs]]; try done. cbn [match_mac]. intros H.
  destruct (hex_char a && hex_char b) eqn:E; [|done]. apply andb_true_iff in E as [Ha Hb].
  destruct (match_pairs 5 cs) as [[m' r']|] eqn:E'; [|done]. injection H as <- <-.
  destruct (match_pairs_shape _ _ _ _ E') as [HF HL].
  destruct (compact_mac (a :: b :: m')) as (l & Hl & Hh & Ec).
  { repeat constructor; unfold mac_char; rewrite ?orb_true_iff; auto. }
  cbn [List.filter] in Hl. rewrite Ha, Hb in Hl. cbn [length] in Hl. rewrite HL in Hl.
  eexists. split; [by apply (normalize_digits _ l)|]. by twelve l.
Qed.

Section Found.
Context {W : WordChars}.

(** A MAC address stands on a line, apart from the words beside it. *)
Definition stands_on (line m : list string) : Prop :=
  exists l1 l2, line = l1 ++ m ++ l2 /\ match_mac (m ++ l2) = Some (m, l2) /\
    boundary (last l1) (head (m ++ l2)) = true /\ boundary (last m) (head l2) = true.

Lemma search_sound line l1 cs m :
  line = l1 ++ cs -> search (last l1) cs = Some m -> exists mac, stands_on line mac /\ m = str_concat mac.
Proof.
  revert l1; induction cs as [|c cs IH]; intros l1 -> H; [done|]. cbn [search] in H.
  assert (search (Some c) cs = Some m -> exists mac, stands_on (l1 ++ c :: cs) mac /\ m = str_concat mac) as Hn.
  { intros Hc. apply (IH (l1 ++ [c])); [by rewrite <- app_assoc|]. by rewrite last_snoc. }
  destruct (match_mac (c :: cs)) as [[mac rest]|] eqn:E; [|auto].
  destruct (boundary (last l1) (Some c) && boundary (last mac) (head rest)) eqn:B; [|auto].
  apply andb_true_iff in B as [B1 B2]. injection H as <-. exists mac. split; [|done].
  pose proof (match_mac_app _ _ _ E) as Ea. exists l1, rest. rewrite <- Ea. done.
Qed.

Lemma search_complete line l1 cs :
  line = l1 ++ cs -> search (last l1) cs = None ->
  forall k mac l2, cs = k ++ mac ++ l2 -> match_mac (mac ++ l2) = Some (mac, l2) ->
    boundary (last (l1 ++ k)) (head (mac ++ l2)) && boundary (last mac) (head l2) = false.
Proof.
  revert l1; induction cs as [|c cs IH]; intros l1 -> H k mac l2 Hk Hm.
  { symmetry in Hk. apply app_eq_nil in Hk as [_ Hk]. rewrite Hk in Hm. done. }
  cbn [search] in H. destruct k as [|c' k].
  - cbn [app] in Hk. rewrite <- Hk, app_nil_r in *. rewrite Hm in H. cbn [head] in H |- *. by case_hyp H.
  - injection Hk as <- Hk. assert (search (last (l1 ++ [c])) cs = None) as Hs.
    { rewrite last_snoc. by repeat (case_hyp H; try done). }
    replace (l1 ++ c :: k) with ((l1 ++ [c]) ++ k) by by rewrite <- app_assoc.
    apply (IH (l1 ++ [c])); [by rewrite <- app_assoc|done|done|done].
Qed.

(** The search finds a MAC address exactly when one stands on the line. *)
Lemma search_iff line :
  match search None line with
  | Some m => exists mac, stands_on line mac /\ m = str_concat mac
  | None => forall mac, ~ stands_on line mac
  end.
Proof.
  destruct (search None line) as [m|] eqn:E.
  - by apply (search_sound line [] line).
  - intros mac (l1 & l2 & E1 & Hm & B1 & B2).
    pose proof (search_complete line [] line eq_refl E l1 mac l2 E1 Hm) as H. cbn [app] in H.
    by rewrite B1, B2 in H.
Qed.

(** The entry of an address in a table: the address is a field of a line, and
    the MAC address stands on it. *)
Definition entry_in (ip : string) (lines : list (list string)) (mac : string) : Prop :=
  exists line m, line ∈ lines /\ ip ∈ split line /\ stands_on line m /\ normalize_mac (str_concat m) = Ok mac.

Definition entry_of (ip text mac : string) : Prop := entry_in ip (splitlines text) mac.

Definition first_entry (ip : string) (lines : list (list string)) (r : result string exn) : Prop :=
  exists mac, r = Ok mac /\
    ((mac <> "" /\ entry_in ip lines mac) \/ (mac = "" /\ forall other, ~ entry_in ip lines other)).

Lemma first_entry_skip ip line lines r :
  (ip ∈ split line -> forall m, ~ stands_on line m) -> first_entry ip lines r -> first_entry ip (line :: lines) r.
Proof.
  intros Hno (mac & -> & H). exists mac. split; [done|]. destruct H as [[Hne (l & m & Hl & H)]|[-> H]].
  - left. split; [done|]. exists l, m. split; [by right|done].
  - right. split; [done|]. intros other (l & m & Hl & Hi & Hon & Hn).
    apply elem_of_cons in Hl as [->|Hl]; [by apply (Hno Hi m)|]. apply (H other). by exists l, m.
Qed.

(** [find_mac] never raises; it returns the MAC address of an entry of the
    address, in normal form, and the empty text exactly when there is none. *)
Lemma find_mac_spec ip text : first_entry ip (splitlines text) (find_mac ip text).
Proof.
  unfold find_mac. induction (splitlines text) as [|line lines IH].
  { exists "". split; [done|]. right. split; [done|]. intros o (l & m & Hl & _). by apply not_elem_of_nil in Hl. }
  cbn [find_in_lines]. pose proof (search_iff line) as Hs.
  destruct (bool_decide (ip ∈ split line)) eqn:Ei; cbn [negb].
  - apply bool_decide_eq_true in Ei. destruct (search None line) as [m|]; [|by apply first_entry_skip].
    destruct Hs as (mac & Hon & ->). pose proof Hon as (? & ? & _ & Hm & _).
    destruct (match_mac_normal _ _ _ Hm) as (r & Hr & Hne). exists r. split; [done|]. left. split; [done|].
    exists line, mac. split; [by left|]. done.
  - apply bool_decide_eq_false in Ei. by apply first_entry_skip.
Qed.

End Found.

(** ** Decoding of valid text *)

Lemma byte_in_spec lo hi b : byte_in lo hi b = true <-> lo <= byte_to_Z b <= hi.
Proof. unfold byte_in. by rewrite andb_true_iff, !Z.leb_le. Qed.

(** Outside the two special first bytes of its length, a second byte is any
    continuation. *)
Lemma utf8_second_2 b0 b1 : byte_in 194 223 b0 = true -> utf8_second b0 b1 = utf8_cont b1.
Proof. rewrite byte_in_spec. intros H. unfold utf8_second. repeat (case_match; bool_to_prop; [lia|]). done. Qed.

Lemma utf8_second_3 b0 b1 :
  byte_in 224 239 b0 = true ->
  utf8_second b0 b1 = (if byte_to_Z b0 =? 224 then byte_in 160 191 b1
    else if byte_to_Z b0 =? 237 then byte_in 128 159 b1 else utf8_cont b1).
Proof. rewrite byte_in_spec. intros H. unfold utf8_second. repeat (case_match; bool_to_prop; try done; try lia). Qed.

Lemma utf8_second_4 b0 b1 :
  byte_in 240 244 b0 = true ->
  utf8_second b0 b1 = (if byte_to_Z b0 =? 240 then byte_in 144 191 b1
    else if byte_to_Z b0 =? 244 then byte_in 128 143 b1 else utf8_cont b1).
Proof. rewrite byte_in_spec. intros H. unfold utf8_second. repeat (case_match; bool_to_prop; try done; try lia). Qed.

Lemma utf8_unit_valid b l :
  utf8_valid (b :: l) = true ->
  exists n, utf8_unit b l = (S n, true) /\ (n <= length l)%nat /\ utf8_valid (drop n l) = true.
Proof.
  unfold utf8_unit, utf8_length. cbn [utf8_valid]. intros H. destruct (byte_in 0 127 b); [exists O; split; [done|]; split; [lia|done]|].
  destruct l as [|b1 l]; [done|]. destruct (byte_in 194 223 b) eqn:E2.
  { apply andb_true_iff in H as [Hc Hv]. rewrite utf8_second_2, Hc by done.
    exists 1%nat. split; [done|]. cbn [length drop]. split; [lia|done]. }
  destruct l as [|b2 l]; [done|]. destruct (byte_in 224 239 b) eqn:E3.
  { rewrite !andb_true_iff in H. destruct H as [[Hs Hc] Hv]. rewrite utf8_second_3, Hs by done.
    exists 2%nat. cbn [utf8_conts Nat.sub]. rewrite Hc. split; [done|]. cbn [length drop]. split; [lia|done]. }
  destruct l as [|b3 l]; [done|]. destruct (byte_in 240 244 b) eqn:E4; [|done].
  rewrite !andb_true_iff in H. destruct H as [[[Hs Hc2] Hc3] Hv]. rewrite utf8_second_4, Hs by done.
  exists 3%nat. cbn [utf8_conts Nat.sub]. rewrite Hc2, Hc3. split; [done|]. cbn [length drop]. split; [lia|done].
Qed.

Lemma replace_loop_valid fuel l :
  (length l <= fuel)%nat -> utf8_valid l = true -> replace_loop fuel l = l.
Proof.
  revert l; induction fuel as [|fuel IH]; intros l Hl Hv.
  { destruct l; [done|]. simpl in Hl. lia. }
  destruct l as [|b l]; [done|]. cbn [replace_loop]. destruct (utf8_unit_valid b l Hv) as (n & -> & Hn & Hd).
  cbn [take drop app]. f_equal. rewrite IH; [apply take_drop| |done]. rewrite length_drop. cbn [length] in Hl. lia.
Qed.

(** Text that is valid UTF-8 is decoded without replacements. *)
Lemma decode_replace_valid l s : from_utf8 l = Some s -> decode_replace l = s.
Proof.
  unfold from_utf8, decode_replace. destruct (utf8_valid l) eqn:E; [|done]. intros [= <-].
  by rewrite replace_loop_valid.
Qed.

(** ** The answer of the plugin *)

Section Replies.
Context {R : Repr} {T : Controller.ErrorTexts} {W : WordChars} {Nw : Type} {N : Neighbours Nw}.

(** A text that the system gave for its neighbour table. *)
Definition table_text (text : string) : Prop :=
  exists w : Nw, (read_arp w).1 = Ok text \/ exists stdout, (communicate w).1 = Ok stdout /\ text = decode_replace stdout.

(** The second half of the lookup. *)
Lemma neigh_Ok ip w mac w' :
  (let '(stdout, w) := ip_neigh ip w in
   (let? stdout := stdout in
    let? mac := find_mac ip (decode_replace stdout) in
    if negb (bool_decide (mac = "")) then Ok mac else Err not_found, w)) = (Ok mac, w') ->
  mac <> "" /\ exists text, table_text text /\ entry_of ip text mac.
Proof.
  assert (find_mac ip (decode_replace []) = Ok "") as Hnil by done.
  intros H. destruct (ip_neigh ip w) as [[stdout|e] w1] eqn:En; [|done].
  destruct (find_mac_spec ip (decode_replace stdout)) as (m & Em & Hm). rewrite Em in H.
  destruct (bool_decide (m = "")) eqn:Eb; [done|]. apply bool_decide_eq_false in Eb. injection H as <- _.
  split; [done|]. destruct Hm as [[_ He]|[? _]]; [|done]. exists (decode_replace stdout). split; [|done].
  assert (stdout <> []) as Hs by (intros ->; congruence).
  unfold ip_neigh in En. destruct (spawn_ip ip w) as [[u|e] w2]; [|by case_match; simplify_eq].
  destruct (communicate w2) as [[out|e] w3] eqn:Ec.
  - injection En as <- _. exists w2. right. exists out. by rewrite Ec.
  - repeat case_match; simplify_eq.
Qed.

Lemma look_up_Ok ip w mac w' :
  look_up ip w = (Ok mac, w') -> mac <> "" /\ exists text, table_text text /\ entry_of ip text mac.
Proof.
  unfold look_up, find_proc_arp. destruct (read_arp w) as [[text|e] w1] eqn:Ea.
  - destruct (find_mac_spec ip text) as (m & Em & Hm). rewrite Em. destruct Hm as [[Hne He]|[-> _]].
    + rewrite bool_decide_false by done. intros [= <- _]. split; [done|]. exists text. split; [|done].
      exists w. left. by rewrite Ea.
    + rewrite bool_decide_true by done. apply neigh_Ok.
  - destruct (is_OSError e); [|done]. rewrite bool_decide_true by done. apply neigh_Ok.
Qed.

(** The plugin answers every request for a MAC address.  One that it reports
    stands, beside the address that was asked for or resolved, on a line of a
    text the system gave for its table, and is in the form in which the store
    keeps MAC addresses; otherwise the answer carries none. *)
Theorem discovery_reads_neighbour address port w :
  let reply := (discover_device address port w).1 in
  if ok reply then
    exists host ip text, validate_address address = Ok host /\ (resolve_ipv4 host w).1 = Ok ip /\
      table_text text /\ entry_of ip text (found reply) /\ normalize_mac (found reply) = Ok (found reply)
  else found reply = "".
Proof.
  unfold discover_device, discover_mac.
  destruct (validate_address address) as [host|e]; [|done].
  destruct (validate_port port true) as [p|e]; [|done].
  destruct (resolve_ipv4 host w) as [[ip|e] w1] eqn:Er; [|done].
  destruct (prime_neighbor ip p w1) as [[[]|e] w2]; [|done].
  destruct (look_up ip w2) as [[mac|e] w3] eqn:El; [|done]. cbn [fst ok found].
  destruct (look_up_Ok _ _ _ _ El) as (_ & text & Ht & He). exists host, ip, text. rewrite Er.
  do 4 (split; [done|]). destruct He as (? & ? & _ & _ & _ & Hn). by apply normalize_mac_idempotent in Hn.
Qed.

(** An entry of /proc/net/arp is found, even if the PC refuses the connection. *)
Theorem arp_entry_is_found address port w host ip w1 p primed w2 text mac :
  validate_address address = Ok host -> validate_port port true = Ok p ->
  resolve_ipv4 host w = (Ok ip, w1) -> touch ip p w1 = (primed, w2) ->
  (forall e, primed = Err e -> is_OSError e = true) ->
  (read_arp w2).1 = Ok text -> entry_of ip text mac ->
  ok (discover_device address port w).1 = true.
Proof.
  intros Ha Hp Hr Ht He Hx Hm. unfold discover_device, discover_mac, prime_neighbor. rewrite Ha, Hp, Hr, Ht.
  assert (exists w3 m, look_up ip w2 = (Ok m, w3)) as (w3 & m & Hl).
  { unfold look_up, find_proc_arp. destruct (read_arp w2) as [r w3]. simpl in Hx. subst r.
    destruct (find_mac_spec ip text) as (m & -> & [[Hne _]|[_ Hno]]); [|by destruct (Hno mac)].
    rewrite bool_decide_false by done. eauto. }
  destruct primed as [[]|e]; [|rewrite (He e) by done]; by rewrite Hl.
Qed.

End Replies.

(** ** A table *)

#[local] Instance ascii_words : WordChars := fun c =>
  match c with String a EmptyString => is_ascii_alnum a || Ascii.eqb a "_"%char | _ => false end.

#[local] Instance ascii_words_laws : WordCharsLaws ascii_words.
Proof. by intros c _. Qed.

Definition arp_line (ip mac : string) : string :=
  ip +:+ "     0x1         0x2         " +:+ mac +:+ "     *        wlan0" +:+ String LF "".

Definition arp_table : string :=
  "IP address       HW type     Flags       HW address            Mask     Device" +:+ String LF
  (arp_line "192.168.1.2" "00:11:22:33:44:55" +:+ arp_line "192.168.1.20" "a0:b1:c2:d3:e4:f5").

(** The address is compared as a field, so a longer address is not mistaken
    for it. *)
Example find_mac_in_table :
  (find_mac "192.168.1.20" arp_table, find_mac "192.168.1.2" arp_table, find_mac "192.168.1" arp_table) =
  (Ok "A0:B1:C2:D3:E4:F5", Ok "00:11:22:33:44:55", Ok "").
Proof. vm_compute. reflexivity. Qed.

(** A PC that refuses connections, with its entry in the table. *)
#[local] Instance quiet_lan : Neighbours unit := {|
  getaddrinfo _ w := (Err GaiError, w);
  touch _ _ w := (Err (OSError "connection refused"), w);
  read_arp w := (Ok arp_table, w);
  spawn_ip _ w := (Err FileNotFoundError, w);
  communicate w := (Ok [], w);
  kill_ip w := (Ok tt, w);
|}.

Example discovery_on_quiet_lan {R : Repr} {T : Controller.ErrorTexts} :
  map (fun address => (discover_device (JStr address) JNull tt).1)
    ["192.168.1.20"; "192.168.1.30"; "gaming-pc"] =
  [{| ok := true; found := "A0:B1:C2:D3:E4:F5"; notice := "Detected A0:B1:C2:D3:E4:F5." |};
   {| ok := false; found := ""; notice := "MAC address was not found. Make sure the PC is powered on and on the same LAN, or enter it manually." |};
   {| ok := false; found := ""; notice := "The PC address could not be resolved." |}].
Proof. vm_compute. reflexivity. Qed.

End Discovery.
