(* ===== verification/PluginLink.v ===== *)
(** * The plugin connected to the host

    A world whose only peer is the host of [Server]: [urlopen] is a call of
    [router], every request takes time to arrive, and the answer to a request
    can be lost after the host has acted on it.  The header map the host's
    HTTP library makes of urllib's headers is a parameter. *)
From stdpp Require Import base gmap list strings.
From Stdlib Require Import Ascii ZArith Lia.
From S2P Require Import Prelude RustStd Hex Fs Primitives Auth Pairing Storage Power Versioning Wire Proto3 Runtime Server HttpText Link PyStd PluginProtobuf PluginValidation PluginStore PluginAuth PluginClient.
Import HostClient.
Open Scope string_scope.
Open Scope Z_scope.
Open Scope list_scope.

(** ** Transport *)

(** The headers of a request as the server holds them, those urllib and the
    server's library add included. *)
Class Delivery {H : Http} := { deliver : Request -> HeaderMap }.

Class DeliveryLaws {H : Http} (D : Delivery) : Prop := {
  delivered request n v :
    (n, v) ∈ request_headers request -> Forall field_ok (request_headers request) ->
    NoDup (map lowercase (request_headers request).*1) ->
    header (deliver request) (lowercase n) = Some v;
}.

(** The hex crate writes lower-case digits. *)
Class HexCrate (H : Http) : Prop := { hex_crate l : hex_encode l = to_hex l }.

(** [Request.selector]: what follows the host in a URL. *)
Fixpoint after_host (s : string) : string :=
  match s with
  | EmptyString => EmptyString
  | String c s' =>
      if Ascii.eqb c "/"%char || Ascii.eqb c "?"%char || Ascii.eqb c "#"%char then s else after_host s'
  end.

Definition selector (url : string) : string :=
  match url with
  | String "h" (String "t" (String "t" (String "p" (String ":" (String "/" (String "/" s)))))) => after_host s
  | _ => url
  end.

Record HostWorld {P : Primitives} {St Pw : Type} := MkHostWorld {
  host_state : AppState;
  host_env : Env St Pw;
  deck_time : Z;
  deck_monotonic : Z;
  (** whether the answers to the next requests are lost *)
  losses : list bool;
  packets : list (bytes * (string * Z));
}.
Arguments HostWorld {P} St Pw.
Arguments MkHostWorld {P St Pw}.

(** [HostClient.timeout]. *)
Definition client_timeout : Z := from_secs 4.

Section World.
Context {P : Primitives} {H : Http} {Wi : Wire} {De : Delivery}.
Context {St : Type} {CS : CredentialStore St} {Pw : Type} {PC : PowerController Pw}.
Context (pf : platform) (hostname : string) (src : option IpAddr) (delay : Z).

Abbreviation world := (HostWorld St Pw).

Definition pass (d : Z) (w : world) : world :=
  MkHostWorld (host_state w) (later d (host_env w)) (deck_time w + d) (deck_monotonic w + d) (losses w) (packets w).

Definition with_host (st : AppState) (e : Env St Pw) (w : world) : world :=
  MkHostWorld st e (deck_time w) (deck_monotonic w) (tail (losses w)) (packets w).

(** [headers.get("X-Decky-Response-Signature")]. *)
Definition signature_of (r : Response) : option string :=
  match List.find (fun h => bool_decide (h.1 = "x-decky-response-signature")) (headers r) with
  | Some (_, v) => header_to_str v
  | None => None
  end.

Definition url_answer (r : Response) : url_result :=
  if (200 <=? status_code r) && (status_code r <? 300)
  then Opened (status_code r) (Ok (response_body r)) (signature_of r)
  else HTTPError (status_code r) (Ok (response_body r)) (signature_of r).

(** The host's task for a request. *)
Definition host_task (request : Request) :=
  router (St := St) (Pw := Pw) pf hostname (request_method request) (selector (url request)) src (deliver request)
    (request_data request).

Definition link_urlopen (request : Request) (w : world) : url_result * world :=
  let w := pass delay w in
  match run (host_task request) (host_state w) (host_env w) with
  | (Panicked, st, e) => (Failed (OSError "Remote end closed connection without response"), with_host st e w)
  | (Done r, st, e) =>
      if default false (head (losses w))
      then (Failed (OSError "timed out"), pass client_timeout (with_host st e w))
      else (url_answer r, with_host st e w)
  end.

#[export] Instance link_world : World world := {|
  urlopen := link_urlopen;
  time_time := deck_time;
  time_monotonic := deck_monotonic;
  sendto packet target w :=
    (Ok tt, MkHostWorld (host_state w) (host_env w) (deck_time w) (deck_monotonic w) (losses w)
              (packets w ++ [(packet, target)]));
|}.

(** ** URLs *)

(** Characters of host names, addresses and ports. *)
Definition host_char (c : ascii) : bool :=
  Validation.is_ascii_alnum c || Ascii.eqb c "-"%char || Ascii.eqb c "."%char || Ascii.eqb c ":"%char.

Lemma after_host_app a b : str_all host_char a = true -> after_host (a +:+ b) = after_host b.
Proof.
  induction a as [|c a IH]; [done|]. cbn [str_all]. intros H0. bool_to_prop.
  change (String c a +:+ b) with (String c (a +:+ b)). cbn [after_host].
  destruct c as [[] [] [] [] [] [] [] []]; try done; by apply IH.
Qed.

Lemma selector_url device path :
  str_all host_char (Store.address device) = true -> 0 <= Store.port device ->
  selector (host_url device path) = after_host path.
Proof.
  intros Ha Hp. unfold host_url.
  change (selector ("http://" +:+ ?s)) with (after_host s). rewrite after_host_app by done.
  change (after_host (":" +:+ ?s)) with (after_host s). apply after_host_app.
  unfold str_int. rewrite (proj2 (Z.ltb_ge _ _)) by done. eapply str_all_impl; [|apply decimal_digits].
  intros c Hc. unfold host_char, Validation.is_ascii_alnum. by rewrite Hc.
Qed.

Lemma split_all p sep s :
  forallb (str_all p) (split_char sep s) = true -> p sep = true -> str_all p s = true.
Proof.
  intros H0 Hsep. induction s as [|c s IH]; [done|]. cbn [split_char str_all] in *.
  destruct (Ascii.eqb_spec c sep) as [->|Hc].
  - rewrite Hsep. by apply IH.
  - destruct (split_char sep s) as [|q qs] eqn:E; [by apply split_char_nonempty in E|].
    cbn [forallb str_all] in H0. bool_to_prop. rewrite H0. apply IH. cbn [forallb]. by apply andb_true_iff.
Qed.

(** A validated address is made of such characters. *)
Lemma address_chars {R : Repr} s :
  Validation.validate_address (JStr s) = Ok s -> str_all host_char s = true.
Proof.
  intros H0. unfold Validation.validate_address in H0. destruct (_ || _ || _); [done|].
  assert (forall t, Validation.is_ipv4 t = true -> str_all host_char t = true) as H4.
  { intros t Ht. unfold Validation.is_ipv4 in Ht.
    destruct (split_char "."%char t) as [|a [|b [|c [|d [|]]]]] eqn:E; try done. apply (split_all _ "."%char); [|done].
    rewrite E. cbn [forallb]. unfold Validation.octet in Ht. bool_to_prop.
    assert (forall u, str_all is_ascii_digit u = true -> str_all host_char u = true) as Hd.
    { intros u. apply str_all_impl. intros x Hx. unfold host_char, Validation.is_ascii_alnum. by rewrite Hx. }
    rewrite !Hd by done. done. }
  destruct (Validation.is_ipv4 _) eqn:E4; [injection H0 as <-; by apply H4|].
  destruct (forallb _ _) eqn:El; [|done]. injection H0 as <-. apply (split_all _ "."%char); [|done].
  revert El. induction (split_char _ _) as [|l ls IH]; [done|]. cbn [forallb]. intros El.
  apply andb_true_iff in El as [El Els]. rewrite IH by done. rewrite andb_true_r.
  unfold Validation.label_ok in El. apply andb_true_iff in El as [_ El]. revert El. apply str_all_impl.
  intros x Hx. unfold host_char. apply orb_true_iff in Hx as [->| ->]; [done|].
  by rewrite orb_true_r.
Qed.

(** ** One exchange *)

Section Exchange.
Context {PL : PrimitivesLaws P} {HL : HttpLaws H} {DL : DeliveryLaws De}.
Context (device : Store.Device).
Context (device_address : str_all host_char (Store.address device) = true) (device_port : 0 <= Store.port device).

Abbreviation machine := (Machine world).
Implicit Types (m : machine).

Abbreviation arrived m := (pass delay (HostClient.world m)).

Definition request_to (path : string) (body : bytes) (auth : list (string * string)) : Request :=
  {| url := host_url device path; request_data := body;
     request_headers := [("Content-Type", CONTENT_TYPE); ("Accept", CONTENT_TYPE)] ++ auth;
     request_method := "POST" |}.

(** The machine after the host has gone to [st] and [e]. *)
Definition reached (st : AppState) (e : Env St Pw) m : machine := MkMachine (with_host st e (arrived m)) (urandom m).

Lemma host_task_post path body auth :
  after_host path = path ->
  host_task (request_to path body auth) = router pf hostname "POST" path src (deliver (request_to path body auth)) body.
Proof. intros Hp. unfold host_task. cbn [request_to url request_method request_data]. by rewrite selector_url, Hp. Qed.

Lemma send_plain path body m :
  send device path body None m =
    let '(r, w) := link_urlopen (request_to path body []) (HostClient.world m) in
    (Ok (None, r), MkMachine w (urandom m)).
Proof.
  unfold send, bind, HostClient.ret, open_url. cbn [urlopen link_world]. unfold request_to. rewrite app_nil_r.
  by destruct (link_urlopen _ _).
Qed.

(** An unsigned request that is answered with success. *)
Lemma post_answered path body m r st e :
  run (host_task (request_to path body [])) (host_state (arrived m)) (host_env (arrived m)) = (Done r, st, e) ->
  head (losses (HostClient.world m)) <> Some true -> 200 <= status_code r < 300 ->
  post device path body None m =
    (Ok {| reply_body := take read_limit (response_body r); reply_status := status_code r;
           reply_signature := signature_of r |}, reached st e m).
Proof.
  intros Hrun Hl Hs. unfold post, bind. rewrite send_plain. unfold link_urlopen. rewrite Hrun.
  assert (default false (head (losses (arrived m))) = false) as ->.
  { unfold pass. cbn [losses]. by destruct (losses (HostClient.world m)) as [|[] ?]. }
  unfold url_answer. rewrite (proj2 (Z.leb_le _ _)), (proj2 (Z.ltb_lt _ _)) by lia. done.
Qed.

(** An unsigned request whose answer is lost: the host has acted on it. *)
Lemma post_lost path body m r st e l :
  run (host_task (request_to path body [])) (host_state (arrived m)) (host_env (arrived m)) = (Done r, st, e) ->
  losses (HostClient.world m) = true :: l ->
  post device path body None m =
    (Err (unreachable device), MkMachine (pass client_timeout (with_host st e (arrived m))) (urandom m)).
Proof.
  intros Hrun Hl. unfold post, bind. rewrite send_plain. unfold link_urlopen. rewrite Hrun.
  unfold pass at 1. cbn [losses]. by rewrite Hl.
Qed.

(** The fields of a request arrive. *)
Lemma request_delivered path body auth n v :
  Forall field_ok auth -> NoDup (map lowercase (["Content-Type"; "Accept"] ++ auth.*1)) ->
  (n, v) ∈ request_headers (request_to path body auth) ->
  header (deliver (request_to path body auth)) (lowercase n) = Some v.
Proof.
  intros HF Hnd Hin. apply delivered; [done| |].
  - cbn [request_to request_headers]. repeat constructor; done.
  - cbn [request_to request_headers]. by rewrite fmap_app.
Qed.

Lemma delivered_protobuf path body auth :
  Forall field_ok auth -> NoDup (map lowercase (["Content-Type"; "Accept"] ++ auth.*1)) ->
  is_protobuf (deliver (request_to path body auth)) = true.
Proof.
  clear device_address device_port. intros HF Hnd. unfold is_protobuf. change "content-type" with (lowercase "Content-Type").
  rewrite (request_delivered path body auth "Content-Type" CONTENT_TYPE HF Hnd) by (cbn [request_to request_headers]; set_solver).
  by vm_compute.
Qed.

End Exchange.

End World.
