(* ===== verification/PluginEndToEnd.v ===== *)
(** * The plugin and the host together

    The plugin of [PluginController] over the world of [PluginLink]: pairing
    stores the credential the host has, even when the host's last answer is
    lost, and with it the plugin's status and shutdown calls succeed. *)
From stdpp Require Import base gmap list strings.
From Stdlib Require Import Ascii ZArith Lia.
From S2P Require Import Prelude RustStd Hex Fs Primitives Auth Pairing Storage Power Versioning Wire Proto3 Runtime Server Management Requests PairRequests HostRounds HttpText Link EndToEnd PyStd PluginProtobuf PluginValidation PluginStore PluginAuth PluginClient PluginLink.
Import HostClient.
Open Scope string_scope.
Open Scope Z_scope.
Open Scope list_scope.

(** ChaCha20-Poly1305 adds a tag of 16 bytes. *)
Class AeadSize (P : Primitives) : Prop := {
  aead_length key nonce msg aad c : aead_encrypt key nonce msg aad = Some c -> length c = (length msg + 16)%nat;
}.

Section Pairing.
Context {P : Primitives} {PL : PrimitivesLaws P} {AS : AeadSize P} {H : Http} {HL : HttpLaws H}.
Context {Wi : Wire} {WL : WireLaws Wi} {SZ : Spake2Size P} {PrL : ProstLaws Wi}.
Context {De : Delivery} {DL : DeliveryLaws De} {S2 : Spake2Package}.
Context {St : Type} {CS : CredentialStore St} {stored : St -> HostIdentity -> Prop}
  {fault_free : St -> Prop} {SL : CredentialStoreLaws St stored fault_free}.
Context {Pw : Type} {PC : PowerController Pw}.
Context (pf : platform) (hostname : string) (src : option IpAddr) (delay : Z).

#[local] Hint Extern 0 (World _) => exact (link_world pf hostname src delay) : typeclass_instances.

Abbreviation machine := (Machine (HostWorld St Pw)).
Abbreviation state_of m := (host_state (world m)).
Abbreviation env_of m := (host_env (world m)).
Abbreviation reached := (reached delay).
Implicit Types (m : machine) (device : Store.Device).

(** When a user who reads the code off the host's display can pair.  The
    answer to the last request may be lost. *)
Record ready device (code : string) m : Prop := {
  ready_address : str_all host_char (Store.address device) = true;
  ready_port : 0 <= Store.port device;
  ready_code : join_split code = pairing_code (pairing (state_of m));
  ready_digits : code_digits (join_split code) = true;
  ready_exchange : accepts_exchange src (state_of m) (later delay (env_of m));
  ready_losses : losses (world m) = [] \/ losses (world m) = [false; true];
  ready_delay : 0 <= delay <= PAIRING_LIFETIME - client_timeout;
  ready_instant : instant_min pf <= monotonic (env_of m) + 2 * delay - from_secs 301;
  ready_store : forall i, (save i (store (env_of m))).1 = Ok tt;
  ready_hostname : str_wf hostname /\ hostname <> "" /\ (str_len hostname <= 255)%nat;
  ready_host_id : let i := uuid_to_string (host_id (identity (state_of m))) in i <> "" /\ (str_len i <= 255)%nat;
}.

(** ** A request of the pairing exchange *)

Lemma pair_request_sent cm sid conf :
  (length cm + length sid + length conf <= 1000)%nat ->
  exists l, Protobuf.pair_request cm sid conf = Ok l /\ decode l = Some (Protobuf.pair_message cm sid conf) /\
    Z.of_nat (length l) <= 64 * 1024.
Proof.
  intros Hl. assert (message_sized (Protobuf.pair_message cm sid conf) = true) as Hz.
  { unfold message_sized. cbn [proto_fields PairRequest_proto Protobuf.pair_message forallb value_sized fst snd
      pair_protocol_version client_spake2_message pair_session_id client_confirmation pair_client_version].
    unfold isize_max. rewrite !(proj2 (Z.leb_le _ _)) by lia. done. }
  destruct (Protobuf.pair_request_records cm sid conf Hz) as (l & rs & E & Hs & Hp).
  exists l. split; [done|]. split; [by eapply proto3_decodes|].
  pose proof (serialized_fields_bound _ _ _ Hp Hs) as Hb. simpl in Hb. lia.
Qed.

Lemma pair_task device l request w e :
  str_all host_char (Store.address device) = true -> 0 <= Store.port device ->
  decode l = Some request -> pair_protocol_version request = PROTOCOL_VERSION -> Z.of_nat (length l) <= 64 * 1024 ->
  run (host_task (St := St) (Pw := Pw) pf hostname src (request_to device "/v1/pair" l [])) w e =
    run (if bool_decide (pair_session_id request = []) then pair_start hostname request src
         else pair_finish pf hostname request) w e.
Proof.
  intros Ha Hp Hd Hv Hsz. rewrite host_task_post by done. rewrite run_router_post by done.
  rewrite bool_decide_eq_false_2, bool_decide_eq_true_2 by done. unfold Server.pair.
  rewrite (delivered_protobuf device "/v1/pair" l []), Hd, Hv;
    [simpl; by destruct (bool_decide _)|constructor|by apply (bool_decide_unpack _); vm_compute].
Qed.

(** An answer of the exchange, as the plugin reads it. *)
Lemma pair_answer_read (resp : PairResponse) s sig :
  PairResponse_wf resp -> message_sized resp = true -> host_spake2_message resp <> [] -> pair_hostname resp <> "" ->
  pair_host_version resp <> "" -> pair_host_id resp <> "" -> pair_response_session_id resp <> [] ->
  pair_response_protocol_version resp = PROTOCOL_VERSION -> (length (encode_to_vec resp) <= read_limit)%nat ->
  pair_answer {| reply_body := take read_limit (encode_to_vec resp); reply_status := s; reply_signature := sig |} =
    Ok (Protobuf.plugin_pair resp).
Proof.
  intros Hwf Hz N1 N2 N3 N4 N5 Hv Hl. unfold pair_answer. cbn [reply_body]. rewrite firstn_all2 by done.
  rewrite Protobuf.reads_pair_response by done. cbn [Protobuf.plugin_pair Protobuf.pair_protocol_version].
  by rewrite Hv.
Qed.

(** The answers of both rounds are small and complete. *)
Lemma host_answer_ok (resp : PairResponse) m device code :
  ready device code m -> host_spake2_message resp <> [] -> pair_response_session_id resp <> [] ->
  (length (host_spake2_message resp) + length (encryption_nonce resp) + length (pair_encrypted_credential resp) +
   length (pair_response_session_id resp) <= 1000)%nat ->
  pair_hostname resp = hostname -> pair_host_version resp = HOST_VERSION ->
  pair_response_protocol_version resp = PROTOCOL_VERSION ->
  pair_host_id resp = uuid_to_string (host_id (identity (state_of m))) ->
  forall s sig, pair_answer {| reply_body := take read_limit (encode_to_vec resp); reply_status := s; reply_signature := sig |} =
    Ok (Protobuf.plugin_pair resp).
Proof.
  intros R N1 N5 Hl E1 E2 E3 E4 s sig. destruct (ready_hostname _ _ _ R) as (Hh1 & Hh2 & Hh3).
  destruct (ready_host_id _ _ _ R) as [Hi1 Hi2].
  assert (PairResponse_wf resp) as Hwf.
  { unfold PairResponse_wf. rewrite E1, E2, E3, E4. repeat split; try apply is_ascii_utf8, uuid_ascii; done. }
  assert (message_sized resp = true) as Hz.
  { unfold message_sized. cbn [proto_fields PairResponse_proto forallb value_sized fst snd].
    rewrite E1, E2, E4. unfold isize_max. change (str_len HOST_VERSION) with 5%nat.
    rewrite !(proj2 (Z.leb_le _ _)) by lia. done. }
  apply pair_answer_read; rewrite ?E1, ?E2, ?E4; try done.
  pose proof (encoded_bound resp Hwf Hz) as Hb. cbn [proto_fields PairResponse_proto sum_list_with field_bound fst snd] in Hb.
  rewrite E1, E2, E4 in Hb. change (str_len HOST_VERSION) with 5%nat in Hb.
  apply Nat2Z.inj_le. unfold read_limit. rewrite Z2Nat.id by lia. lia.
Qed.

Lemma plugin_first_round device code m ga :
  ready device code m ->
  let '(client, msg, _) :=
    spake2_start_a (as_bytes (pairing_code (pairing (state_of m)))) CLIENT_ID HOST_ID ga in
  exists l p w1 e1 reply, Protobuf.pair_request msg [] [] = Ok l /\
    (forall m1, world m1 = world m -> post device "/v1/pair" l None m1 = (Ok reply, reached w1 e1 m1)) /\
    pair_answer reply = Ok (Protobuf.plugin_pair (started_response hostname (state_of m) p)) /\
    spake2_finish client (pending_host_message p) = Some (shared p) /\ client_message p = msg /\
    length (pending_host_message p) = 33%nat /\
    started_on (state_of m) (later delay (env_of m)) p w1 e1.
Proof.
  intros R. pose proof (spake2_a_length (as_bytes (pairing_code (pairing (state_of m)))) CLIENT_ID HOST_ID ga) as Hla.
  pose proof (fun request => start_run hostname src request (state_of m) (later delay (env_of m)) ga (ready_exchange _ _ _ R)) as Hs.
  destruct (spake2_start_a _ _ _ ga) as [[client msg] ga']. simpl in Hla.
  destruct (Hs (Protobuf.pair_message msg [] []) eq_refl) as (p & w1 & e1 & Hrun & Hf & Hcm & [g Hhm] & S).
  set (resp := started_response hostname (state_of m) p) in *.
  destruct (protobuf_texts 200 resp) as (r & Hr & Hst & Hb & _). rewrite Hr in Hrun.
  destruct (pair_request_sent msg [] []) as (l & El & Hd & Hsz); [simpl; lia|].
  assert (length (pending_host_message p) = 33%nat) as H33 by (rewrite Hhm; apply spake2_b_length).
  exists l, p, w1, e1. eexists. split; [done|]. split.
  { intros m1 E. apply post_answered.
    - unfold pass. cbn [host_state host_env]. rewrite E, (pair_task device l _ _ _ (ready_address _ _ _ R) (ready_port _ _ _ R) Hd eq_refl Hsz).
      cbn [Protobuf.pair_message pair_session_id]. by rewrite bool_decide_eq_true_2, Hrun.
    - rewrite E. by destruct (ready_losses _ _ _ R) as [-> | ->].
    - lia. }
  split; [|done]. rewrite Hb. pose proof (started_session _ _ _ _ _ S) as Hsid.
  eapply (host_answer_ok resp m device code R); try done; unfold resp; cbn [started_response host_spake2_message pair_response_session_id
    encryption_nonce pair_encrypted_credential length].
  - intros E. by rewrite E in H33.
  - intros E. by rewrite E in Hsid.
  - lia.
Qed.

(** ** The credential *)

Lemma prepare_credential_sizes p ctx g r g' :
  prepare_credential p ctx g = (Ok r, g') ->
  length (encrypted_credential r) = 48%nat /\ length (result_nonce r) = 12%nat.
Proof.
  unfold prepare_credential. destruct (hkdf_expand _ _ _) as [key|]; [|done].
  pose proof (fill_bytes_length 32 g) as H1. destruct (fill_bytes 32 g) as [c g1].
  pose proof (fill_bytes_length 12 g1) as H2. destruct (fill_bytes 12 g1) as [n g2]. cbn [fst] in *.
  destruct (credential_aad _ _ _) as [aad|]; [|done].
  destruct (try_into_array 12 n) as [n'|] eqn:En; [|done]. apply try_into_array_Some in En as [-> _].
  destruct (aead_encrypt _ _ _ _) as [ct|] eqn:E; [|done].
  intros [= <- _]. simpl. apply aead_length in E. lia.
Qed.

Definition finished_response (w : AppState) (p : PendingPairing) (r : PairingResult) : PairResponse :=
  {| host_spake2_message := host_message r; encryption_nonce := result_nonce r;
     pair_encrypted_credential := encrypted_credential r; pair_hostname := hostname;
     pair_host_version := HOST_VERSION; pair_response_protocol_version := PROTOCOL_VERSION;
     pair_host_id := uuid_to_string (host_id (identity w)); pair_response_session_id := pending_session_id p |}.

Lemma credential_info : as_bytes "deckymyrig-pairing-credential-v1" = CREDENTIAL_INFO.
Proof. by vm_compute. Qed.

Lemma host_credential_opens p w g :
  fields_ok (aad_fields (pending_host_message p) (pending_session_id p) (pair_context hostname w)) ->
  exists r g', prepare_credential p (pair_context hostname w) g = (Ok r, g') /\ length (result_credential r) = 32%nat /\
    host_message r = pending_host_message p /\
    open_credential (shared p) (Protobuf.plugin_pair (finished_response w p r)) = Ok (result_credential r).
Proof.
  intros HF. destruct (prepare_credential_opens p _ g HF) as (r & g' & key & aad & Hp & Hh & Hl & Hk & Hn & Ha & Hd).
  exists r, g'. do 3 (split; [done|]). unfold open_credential, derive_key. rewrite credential_info, Hk. cbn [ok_or].
  assert (Protobuf.pairing_credential_aad (Protobuf.plugin_pair (finished_response w p r)) = Ok aad) as ->.
  { apply PluginAuth.pairing_credential_aad_agrees; [by unfold in_range, u32_max|]. rewrite <- Ha, <- Hh. done. }
  cbn [Protobuf.plugin_pair finished_response Protobuf.nonce Protobuf.ciphertext encryption_nonce pair_encrypted_credential].
  unfold chacha_decrypt. rewrite Hn, Hd. cbn [Nat.eqb negb ok_or]. by rewrite Hl.
Qed.

(** The completion, once or twice: the reply is the host's answer, and the host
    is left with the identity [i] it was answered for. *)
Lemma complete_pairing_run device code m m2 l request p r conf x w2 e2 i :
  ready device code m -> losses (world m2) = tail (losses (world m)) ->
  decode l = Some request -> pair_protocol_version request = PROTOCOL_VERSION -> Z.of_nat (length l) <= 64 * 1024 ->
  pair_session_id request = pending_session_id p -> client_confirmation request = conf ->
  length (pending_session_id p) = 16%nat ->
  run (pair_finish pf hostname request) (state_of m2) (later delay (env_of m2)) = (Done x, w2, e2) ->
  pairing_response hostname i (pending_session_id p) r = Some x -> status_code x = 200 -> identity w2 = i ->
  completed (pairing w2) !! pending_session_id p =
    Some {| confirmation := conf; completed_result := r; completed_created := monotonic e2 |} ->
  exists m3, complete_pairing device l m2 =
      (Ok {| reply_body := take read_limit (response_body x); reply_status := 200; reply_signature := signature_of x |}, m3) /\
    identity (state_of m3) = i /\ store (env_of m3) = store e2.
Proof.
  intros R Hloss Hd Hv Hsz Hrs Hrc Hsid Hrun Hx Hst Hi Hcomp. pose proof (ready_delay _ _ _ R) as Hdelay.
  assert (forall w e, run (host_task (St := St) (Pw := Pw) pf hostname src (request_to device "/v1/pair" l [])) w e =
    run (pair_finish pf hostname request) w e) as Htask.
  { intros w e. rewrite (pair_task device l request w e (ready_address _ _ _ R) (ready_port _ _ _ R) Hd Hv Hsz).
    rewrite bool_decide_eq_false_2; [done|]. rewrite Hrs. intros E. by rewrite E in Hsid. }
  assert (run (host_task (St := St) (Pw := Pw) pf hostname src (request_to device "/v1/pair" l []))
    (host_state (pass delay (world m2))) (host_env (pass delay (world m2))) = (Done x, w2, e2)) as Hrun2 by by rewrite Htask.
  unfold complete_pairing, catch. destruct (ready_losses _ _ _ R) as [E|E]; rewrite E in Hloss; simpl in Hloss.
  - rewrite (post_answered _ _ _ _ _ _ _ _ x w2 e2 Hrun2); [|by rewrite Hloss|lia]. rewrite Hst. eexists. split; [done|]. done.
  - rewrite (post_lost _ _ _ _ _ _ _ _ x w2 e2 [] Hrun2 Hloss).
    rewrite bool_decide_eq_true_2 by done. set (m3 := MkMachine _ _).
    destruct (retry_run pf hostname request w2 (later delay (env_of m3))
      {| confirmation := conf; completed_result := r; completed_created := monotonic e2 |}) as (w4 & Hi4 & Hrun4);
      [by rewrite Hrs|by rewrite Hrs|done| |].
    { unfold m3, elapsed, saturating_sub, client_timeout, from_secs, nanos_per_sec in *. simpl. lia. }
    rewrite Hrs, Hi in Hrun4. cbn [completed_result] in Hrun4. rewrite Hx in Hrun4.
    rewrite (post_answered _ _ _ _ _ _ _ m3 x w4 (later delay (env_of m3))); [|by rewrite Htask|unfold m3; simpl; by rewrite Hloss|lia].
    rewrite Hst. eexists. split; [done|]. simpl. split; [by rewrite Hi4|done].
Qed.

Lemma plugin_second_round device code m m2 p conf :
  ready device code m -> started_on (state_of m) (later delay (env_of m)) p (state_of m2) (env_of m2) ->
  losses (world m2) = tail (losses (world m)) -> length (pending_host_message p) = 33%nat ->
  hmac (shared p) (confirmation_message p) = Some conf -> length conf = 32%nat ->
  exists l c reply resp m3, Protobuf.pair_request [] (pending_session_id p) conf = Ok l /\
    complete_pairing device l m2 = (Ok reply, m3) /\
    pair_answer reply = Ok (Protobuf.plugin_pair resp) /\ open_credential (shared p) (Protobuf.plugin_pair resp) = Ok c /\
    length c = 32%nat /\ (exists r, resp = finished_response (state_of m) p r) /\
    credential (identity (state_of m3)) = Some c /\
    host_id (identity (state_of m3)) = host_id (identity (state_of m)) /\
    stored (store (env_of m3)) (identity (state_of m3)).
Proof.
  intros R S Hloss Hhm Hconf Hlc. pose proof (started_session _ _ _ _ _ S) as Hsid. pose proof (ready_delay _ _ _ R) as Hdelay.
  destruct (ready_hostname _ _ _ R) as (_ & _ & Hh). destruct (ready_host_id _ _ _ R) as [_ Hid].
  destruct (pair_request_sent [] (pending_session_id p) conf) as (l & El & Hd & Hsz); [simpl; lia|].
  destruct (host_credential_opens p (state_of m2) (generator (later delay (env_of m2)))) as (r & g' & Hprep & Hlen & Hrh & Hopen).
  { unfold fields_ok, aad_fields, pair_context. simpl. rewrite !Forall_cons, Forall_nil, !as_bytes_length.
    rewrite Hhm, Hsid, (started_identity _ _ _ _ _ S). unfold u16_max. repeat split; try lia; by vm_compute. }
  destruct (finish_run pf hostname (Protobuf.pair_message [] (pending_session_id p) conf) p (state_of m2)
    (later delay (env_of m2)) conf) with (r := r) (g' := g') as (w2 & e2 & Hi & Hst & Hcomp & Hmono & _ & Hrun);
    try done; try apply S.
  { rewrite (started_created _ _ _ _ _ S). unfold elapsed, saturating_sub, client_timeout, from_secs, nanos_per_sec in *. simpl. lia. }
  { simpl. rewrite (started_time _ _ _ _ _ S). simpl. pose proof (ready_instant _ _ _ R). lia. }
  { simpl. rewrite (started_store _ _ _ _ _ S). apply R. }
  set (resp := finished_response (state_of m) p r). destruct (protobuf_texts 200 resp) as (x & Hx & Hsx & Hbx & _).
  assert (pairing_response hostname (identity w2) (pending_session_id p) r = Some x) as Hpx.
  { unfold pairing_response. rewrite Hi. unfold paired_identity. cbn [host_id].
    rewrite (started_identity _ _ _ _ _ S). exact Hx. }
  rewrite Hi in Hpx. rewrite Hpx in Hrun. rewrite <- Hmono in Hcomp.
  destruct (complete_pairing_run device code m m2 l _ p r conf x w2 e2 _ R Hloss Hd eq_refl Hsz eq_refl eq_refl Hsid Hrun Hpx Hsx Hi Hcomp)
    as (m3 & Hpost & Hi3 & Hst3).
  exists l, (result_credential r). eexists. exists resp, m3. split; [done|]. split; [exact Hpost|].
  pose proof (prepare_credential_sizes _ _ _ _ _ Hprep) as [Hs1 Hs2]. split.
  { rewrite Hbx. eapply (host_answer_ok resp m device code R); try done; unfold resp; cbn [finished_response host_spake2_message
      pair_response_session_id encryption_nonce pair_encrypted_credential]; rewrite ?Hrh.
    - intros E. by rewrite E in Hhm.
    - intros E. by rewrite E in Hsid.
    - lia. }
  rewrite Hi3, Hst3. split; [|split; [done|]; split; [by exists r|]; split; [done|]; split; [|done]].
  - assert (resp = finished_response (state_of m2) p r) as -> by (unfold resp, finished_response; by rewrite (started_identity _ _ _ _ _ S)).
    exact Hopen.
  - simpl. by rewrite (started_identity _ _ _ _ _ S).
Qed.

(** ** The whole exchange *)

Lemma bind_run {A B} (c : call A) (k : A -> call B) m a m1 : c m = (Ok a, m1) -> bind c k m = k a m1.
Proof. intros E. unfold bind. by rewrite E. Qed.

Lemma confirmation_domain : HostClient.CONFIRMATION_DOMAIN = Pairing.CONFIRMATION_DOMAIN.
Proof. by vm_compute. Qed.

Lemma plugin_pair_run device code m :
  ready device code m ->
  exists c resp m', HostClient.pair device code m = (Ok (c, resp), m') /\ length c = 32%nat /\
    Protobuf.pair_host_id resp = uuid_to_string (host_id (identity (state_of m'))) /\
    Protobuf.pair_host_version resp = HOST_VERSION /\ Protobuf.pair_protocol_version resp = PROTOCOL_VERSION /\
    credential (identity (state_of m')) = Some c /\ stored (store (env_of m')) (identity (state_of m')).
Proof.
  intros R. unfold HostClient.pair. rewrite (ready_digits _ _ _ R). cbn [negb]. rewrite (ready_code _ _ _ R).
  pose proof (plugin_first_round device code m (urandom m) R) as Hfirst.
  set (m1 := MkMachine (world m)
    (spake2_start_a (as_bytes (pairing_code (pairing (state_of m)))) CLIENT_ID HOST_ID (urandom m)).2).
  destruct (spake2_start_a _ _ _ (urandom m)) as [[client msg] g1] eqn:Es.
  destruct Hfirst as (l & p & w1 & e1 & reply & El & Hpost & Hans & Hfin & Hcm & H33 & S).
  destruct client_ids as [I1 I2].
  rewrite (bind_run _ _ m (client, msg) m1) by (unfold spake2_start; by rewrite I1, I2, Es).
  rewrite (bind_run _ _ m1 l m1) by (unfold lift; by rewrite El).
  rewrite (bind_run _ _ _ _ _ (Hpost m1 eq_refl)). set (m2 := reached w1 e1 m1).
  rewrite (bind_run _ _ m2 _ m2) by (unfold lift; by rewrite Hans).
  cbn [Protobuf.plugin_pair Protobuf.host_message Protobuf.session_id started_response host_spake2_message pair_response_session_id].
  rewrite (bind_run _ _ m2 (shared p) m2) by (unfold lift; by rewrite Hfin).
  destruct (hmac_new_total (shared p)) as [mac Hmac].
  assert (PluginAuth.hmac_digest (shared p) (HostClient.CONFIRMATION_DOMAIN ++ msg ++ pending_host_message p ++ pending_session_id p) =
    Ok (hmac_finalize mac (confirmation_message p))) as Hc.
  { unfold PluginAuth.hmac_digest, hmac. rewrite Hmac, confirmation_domain, <- Hcm. done. }
  rewrite (bind_run _ _ m2 _ m2) by (unfold lift; by rewrite Hc).
  destruct (plugin_second_round device code m m2 p (hmac_finalize mac (confirmation_message p)) R)
    as (l2 & c & reply2 & resp & m3 & El2 & Hpost2 & Hans2 & Hopen & Hlen & [r ->] & Hcred & Hhid & Hst);
    [exact S|done|done|unfold hmac; by rewrite Hmac|apply hmac_length|].
  rewrite (bind_run _ _ m2 l2 m2) by (unfold lift; by rewrite El2).
  rewrite (bind_run _ _ _ _ _ Hpost2), (bind_run _ _ m3 _ m3) by (unfold lift; by rewrite Hans2).
  rewrite (bind_run _ _ m3 c m3) by (unfold lift; by rewrite Hopen).
  do 3 eexists. split; [reflexivity|]. split; [done|]. split; [simpl; by rewrite Hhid|]. done.
Qed.

End Pairing.
