(* ===== verification/PluginCommands.v ===== *)
(** * The plugin's signed calls against the host

    A paired plugin's status and shutdown calls over the world of
    [PluginLink]: the host authenticates the request, acts on it, and the
    plugin accepts the answer; a host that does not know the credential
    answers unsigned, and the plugin reports an integrity error. *)
From stdpp Require Import base gmap list strings.
From Stdlib Require Import Ascii ZArith Lia.
From S2P Require Import Prelude RustStd Hex Fs Primitives Auth Pairing Storage Power Versioning Wire Proto3 Runtime Server Management Requests HttpText Link EndToEnd Commands PyStd PluginProtobuf PluginValidation PluginStore PluginAuth PluginClient PluginLink PluginEndToEnd.
Import HostClient.
Open Scope string_scope.
Open Scope Z_scope.
Open Scope list_scope.

Section SignedCalls.
Context {P : Primitives} {PL : PrimitivesLaws P} {H : Http} {HL : HttpLaws H} {HC : HexCrate H}.
Context {Wi : Wire} {WL : WireLaws Wi} {PrL : ProstLaws Wi}.
Context {De : Delivery} {DL : DeliveryLaws De} {S2 : Spake2Package}.
Context {St : Type} {CS : CredentialStore St} {Pw : Type} {PC : PowerController Pw}.
Context (pf : platform) (hostname : string) (src : option IpAddr) (delay : Z).

#[local] Hint Extern 0 (World _) => exact (link_world pf hostname src delay) : typeclass_instances.

Abbreviation machine := (Machine (HostWorld St Pw)).
Abbreviation state_of m := (host_state (world m)).
Abbreviation env_of m := (host_env (world m)).
Implicit Types (m : machine) (device : Store.Device).

(** ** What the plugin sends *)

(** The plugin's clock in seconds and the nonce it draws next. *)
Definition plugin_second m : Z := Z.quot (deck_time (world m)) nanos.
Definition plugin_nonce m : bytes := (fill_bytes 16 (urandom m)).1.

Definition signed_headers (sig : bytes) m : PluginAuth.AuthHeaders :=
  {| PluginAuth.timestamp := plugin_second m; PluginAuth.nonce := plugin_nonce m; PluginAuth.signature := sig |}.

Definition signed_request (path : string) (body : bytes) (sig : bytes) m : AuthenticatedRequest :=
  {| timestamp := plugin_second m; nonce := plugin_nonce m; signature := sig; method := "POST";
     path := path; body := body |}.

Definition drawn m : machine := MkMachine (world m) (fill_bytes 16 (urandom m)).2.

Lemma sign_now_run c path body m sig :
  in_range u64_max (plugin_second m) -> sign c (plugin_second m) (plugin_nonce m) "POST" path body = Ok sig ->
  sign_now c path body m = (Ok (signed_headers sig m), drawn m).
Proof.
  intros Ht Hs. unfold sign_now, bind, int_time, os_urandom, lift. cbn [time_time link_world].
  change (Z.quot (deck_time (world m)) nanos) with (plugin_second m).
  unfold signed_headers, drawn, plugin_nonce in *. destruct (fill_bytes 16 (urandom m)) as [n g]. cbn [fst snd] in *.
  apply sign_Ok in Hs as (x & Hx & Hm). apply PluginAuth.canonical_message_agrees in Hx; [|done|done].
  unfold PluginAuth.sign. rewrite Hx. unfold PluginAuth.hmac_digest. by rewrite Hm.
Qed.

Lemma parse_u64_str_int t : in_range u64_max t -> parse_u64 (str_int t) = Some t.
Proof.
  intros [H1 H2]. unfold str_int, decimal, parse_u64. rewrite (proj2 (Z.ltb_ge _ _)) by done.
  rewrite parse_uint_digits by (apply decimal_nonempty || apply decimal_digits).
  rewrite parse_print_digits; [done| |lia]. split; [done|]. by apply decimal_fuel.
Qed.

Lemma as_http_ok a : Forall field_ok (PluginAuth.as_http a) /\
  NoDup (map lowercase (["Content-Type"; "Accept"] ++ (PluginAuth.as_http a).*1)).
Proof.
  assert (forall n v, n ∈ ["X-Decky-Timestamp"; "X-Decky-Nonce"; "X-Decky-Signature"] -> graphic v = true ->
    field_ok (n, v)) as Hok.
  { intros n v Hn Hv. rewrite !elem_of_cons, elem_of_nil in Hn.
    repeat split; simpl; try (by destruct Hn as [->|[->|[->|[]]]]); [by apply graphic_visible|by apply graphic_trim]. }
  split; [|by apply (bool_decide_unpack _); vm_compute].
  unfold PluginAuth.as_http. repeat (apply Forall_cons_2; [apply Hok; [set_solver|]|]); try apply to_hex_graphic; [|constructor].
  unfold str_int. destruct (_ <? 0); [|apply digits_graphic, decimal_digits].
  change (graphic ("-" +:+ ?s)) with (graphic s). apply digits_graphic, decimal_digits.
Qed.

(** What the host makes of it. *)
Lemma request_received device path body sig m :
  in_range u64_max (plugin_second m) ->
  let hs := deliver (request_to device path body (PluginAuth.as_http (signed_headers sig m))) in
  is_protobuf hs = true /\ request_of hs "POST" path body = Some (signed_request path body sig m).
Proof.
  intros Ht hs. destruct (as_http_ok (signed_headers sig m)) as [HF Hnd].
  split; [by apply delivered_protobuf|].
  assert (forall n v, (n, v) ∈ PluginAuth.as_http (signed_headers sig m) -> header hs (lowercase n) = Some v) as Hh.
  { intros n v Hin. apply request_delivered; [done|done|]. cbn [request_to request_headers]. apply elem_of_app. by right. }
  unfold request_of, timestamp_header, hex_header.
  change "x-decky-timestamp" with (lowercase "X-Decky-Timestamp"). change "x-decky-nonce" with (lowercase "X-Decky-Nonce").
  change "x-decky-signature" with (lowercase "X-Decky-Signature").
  rewrite (Hh "X-Decky-Timestamp" (str_int (plugin_second m))),
    (Hh "X-Decky-Nonce" (to_hex (plugin_nonce m))), (Hh "X-Decky-Signature" (to_hex sig))
    by (unfold PluginAuth.as_http; cbn [signed_headers PluginAuth.timestamp PluginAuth.nonce PluginAuth.signature]; set_solver).
  by rewrite parse_u64_str_int, <- !hex_crate, !hex_round_trip.
Qed.

(** ** A signed exchange *)

Lemma send_signed_run device path body c sig m :
  in_range u64_max (plugin_second m) -> sign c (plugin_second m) (plugin_nonce m) "POST" path body = Ok sig ->
  send device path body (Some c) m =
    let '(r, w) := link_urlopen pf hostname src delay
      (request_to device path body (PluginAuth.as_http (signed_headers sig m))) (world m) in
    (Ok (Some (signed_headers sig m), r), MkMachine w (urandom (drawn m))).
Proof.
  intros Ht Hs. unfold send. unfold bind at 1 2. rewrite (sign_now_run _ _ _ _ _ Ht Hs). cbn [ret].
  unfold bind, ret, open_url. cbn [urlopen link_world drawn world]. unfold request_to. by destruct (link_urlopen _ _ _ _ _ _).
Qed.

(** A signed answer, as the plugin sees it. *)
Lemma signed_answer {M} `{Message M} s (msg : M) ctx p r :
  authenticated_protobuf s msg ctx p = Some r ->
  status_code r = s /\ response_body r = encode_to_vec msg /\
  exists sig, sign_response (context_credential ctx) (context_nonce ctx) p s (encode_to_vec msg) = Ok sig /\
    signature_of r = Some (to_hex sig).
Proof.
  unfold authenticated_protobuf. destruct (sign_response _ _ _ _ _) as [sig|] eqn:E; [|done].
  destruct (header_value_parse Server.CONTENT_TYPE) as [v|]; [|done].
  destruct (header_parse_visible (hex_encode sig) (hex_visible sig)) as (sv & Hp & Hv). rewrite Hp.
  intros [= <-]. split; [done|]. split; [done|]. exists sig. split; [done|].
  unfold signature_of. cbn [headers List.find fst]. rewrite bool_decide_eq_false_2, bool_decide_eq_true_2 by done.
  by rewrite Hv, hex_crate.
Qed.

(** The host answers with success, and the plugin takes the answer. *)
Lemma post_signed_answered {M} `{Message M} device path body c sig m s (msg : M) r st e :
  str_all host_char (Store.address device) = true -> 0 <= Store.port device -> after_host path = path ->
  in_range u64_max (plugin_second m) -> sign c (plugin_second m) (plugin_nonce m) "POST" path body = Ok sig ->
  run (router pf hostname "POST" path src
    (deliver (request_to device path body (PluginAuth.as_http (signed_headers sig m)))) body)
    (state_of m) (later delay (env_of m)) = (Done r, st, e) ->
  authenticated_protobuf s msg {| context_credential := c; context_nonce := plugin_nonce m |} path = Some r ->
  200 <= s < 300 -> head (losses (world m)) <> Some true -> (length (encode_to_vec msg) <= read_limit)%nat ->
  exists sg, post device path body (Some c) m =
    (Ok {| reply_body := encode_to_vec msg; reply_status := s; reply_signature := sg |}, reached delay st e (drawn m)).
Proof.
  intros Ha Hpo Hp Ht Hs Hrun Hr H2 Hl Hsz. destruct (signed_answer _ _ _ _ _ Hr) as (Hst & Hb & sg & Hsg & Hsig).
  exists (Some (to_hex sg)). unfold post. unfold bind. rewrite (send_signed_run _ _ _ _ _ _ Ht Hs). unfold link_urlopen.
  rewrite host_task_post by done. unfold pass at 1 2. cbn [host_state host_env]. rewrite Hrun.
  assert (default false (head (losses (pass delay (world m)))) = false) as ->.
  { unfold pass. cbn [losses]. by destruct (losses (world m)) as [|[] ?]. }
  unfold url_answer. rewrite Hst, (proj2 (Z.leb_le _ _)), (proj2 (Z.ltb_lt _ _)) by lia. cbn [andb fst snd lift receive read].
  rewrite Hb, firstn_all2, Hsig by done. unfold lift. cbn [receive read]. 
  rewrite (proj2 (verify_reply_authentic _ c (signed_headers sig m) path)); [done|].
  exists sg. cbn [reply_signature reply_status reply_body signed_headers PluginAuth.nonce default]. split; [apply fromhex_to_hex|].
  split; [lia|done].
Qed.

(** ** The calls *)

(** The host has the plugin's credential, the clocks agree to a minute when
    the request arrives, the nonce is new, and the answer is not lost. *)
Record knows device (c : bytes) m : Prop := {
  knows_address : str_all host_char (Store.address device) = true;
  knows_port : 0 <= Store.port device;
  knows_credential : credential (identity (state_of m)) = Some c;
  knows_time : in_range u64_max (plugin_second m);
  knows_clock : abs_diff (now_unix (later delay (env_of m))) (plugin_second m) <= CLOCK_WINDOW;
  knows_nonce : accepted_nonces (state_of m) !! plugin_nonce m = None;
  knows_losses : head (losses (world m)) <> Some true;
}.

Lemma signed_accepted device c m path body :
  knows device c m -> is_ascii path = true -> Z.of_nat (str_len path) <= u16_max ->
  exists sig, sign c (plugin_second m) (plugin_nonce m) "POST" path body = Ok sig /\
    accepts c (signed_request path body sig m) (now_unix (later delay (env_of m))) (accepted_nonces (state_of m)).
Proof.
  intros R Hp Hl. assert (length (plugin_nonce m) = NONCE_LENGTH) as Hnl by apply fill_bytes_length.
  destruct (sign_total c (plugin_second m) (plugin_nonce m) "POST" path body) as [sig Hs]; [done..|].
  exists sig. split; [done|]. split; [apply R|]. split; [done|]. intros (seen & Hseen & _).
  simpl in Hseen. by rewrite (knows_nonce _ _ _ R) in Hseen.
Qed.

(** The status the host reports of itself. *)
Definition host_status (w : AppState) : StatusResponse :=
  {| status_hostname := hostname; status_host_version := HOST_VERSION;
     status_response_protocol_version := PROTOCOL_VERSION; status_paired := true;
     status_host_id := uuid_to_string (host_id (identity w)) |}.

Definition name_ok (s : string) : Prop := str_wf s /\ s <> "" /\ (str_len s <= 255)%nat.

Lemma host_status_read w :
  name_ok hostname -> name_ok (uuid_to_string (host_id (identity w))) ->
  Protobuf.decode_status_response (encode_to_vec (host_status w)) = Ok (Protobuf.plugin_status (host_status w)) /\
  (length (encode_to_vec (host_status w)) <= read_limit)%nat.
Proof.
  intros (W1 & N1 & L1) (W2 & N2 & L2).
  assert (StatusResponse_wf (host_status w)) as Hwf by (by repeat split).
  assert (message_sized (host_status w) = true) as Hz.
  { unfold message_sized. cbn [proto_fields StatusResponse_proto forallb value_sized fst snd host_status status_hostname
      status_host_version status_host_id status_response_protocol_version status_paired].
    unfold isize_max. change (str_len HOST_VERSION) with 5%nat. rewrite !(proj2 (Z.leb_le _ _)) by lia. done. }
  split; [by apply Protobuf.reads_status_response|].
  pose proof (encoded_bound (host_status w) Hwf Hz) as Hb.
  cbn [proto_fields StatusResponse_proto sum_list_with field_bound fst snd host_status status_hostname
    status_host_version status_host_id status_response_protocol_version status_paired] in Hb.
  change (str_len HOST_VERSION) with 5%nat in Hb.
  apply Nat2Z.inj_le. unfold read_limit. rewrite Z2Nat.id by lia. lia.
Qed.

Lemma plugin_status_run device c m :
  knows device c m -> name_ok hostname -> name_ok (uuid_to_string (host_id (identity (state_of m)))) ->
  Store.host_id device = JStr (uuid_to_string (host_id (identity (state_of m)))) ->
  exists st e, HostClient.status device c m =
    (Ok (Protobuf.plugin_status (host_status (state_of m))), reached delay st e (drawn m)).
Proof.
  intros R Hh Hi Hid. unfold HostClient.status. destruct Protobuf.status_request_read as (l & El & Hd).
  rewrite (bind_run _ _ m l m) by (unfold lift; by rewrite El).
  assert (Z.of_nat (length l) <= 64 * 1024) as Hsz.
  { assert (Ok l = Protobuf.status_request) as E' by done. vm_compute in E'. injection E' as ->. by vm_compute. }
  destruct (signed_accepted device c m "/v1/status" l R) as (sig & Hs & Ha); [done..|].
  destruct (request_received device "/v1/status" l sig m (knows_time _ _ _ R)) as [Hpb Hreq].
  destruct (status_run hostname _ l (state_of m) (later delay (env_of m)) c _ _ Hreq (knows_credential _ _ _ R) Ha Hpb Hd)
    as (r & st & e & Hrun & Hr); [done|apply fill_bytes_length|].
  destruct (host_status_read (state_of m) Hh Hi) as [Hread Hlen].
  destruct (post_signed_answered device "/v1/status" l c sig m 200 (host_status (state_of m)) r st e
    (knows_address _ _ _ R) (knows_port _ _ _ R) eq_refl (knows_time _ _ _ R) Hs) as [sg Hpost];
    [by rewrite run_router_post|exact Hr|done|apply R|done|].
  exists st, e. rewrite (bind_run _ _ _ _ _ Hpost). rewrite (bind_run _ _ (reached delay st e (drawn m)) _ (reached delay st e (drawn m)))
    by (unfold lift; cbn [reply_body]; by rewrite Hread).
  assert (other_host device (Protobuf.plugin_status (host_status (state_of m))) = false) as ->; [|done].
  unfold other_host. rewrite Hid. cbn [Protobuf.plugin_status Protobuf.host_id host_status status_host_id].
  by rewrite bool_decide_eq_true_2, andb_false_r.
Qed.

Lemma plugin_shutdown_run device c m :
  knows device c m ->
  Forall (fun seen => accepted_nonce seen <> plugin_nonce m)
    (retained (now_unix (later delay (env_of m))) (identity (state_of m))) ->
  (forall i, (save i (store (env_of m))).1 = Ok tt) -> (power_shutdown (power (env_of m))).1 = Ok tt ->
  exists st e, HostClient.shutdown device c m = (Ok tt, reached delay st e (drawn m)) /\
    power e = (power_shutdown (power (env_of m))).2.
Proof.
  intros R Hnew Hsave Hpow. unfold HostClient.shutdown. destruct Protobuf.shutdown_request_read as (l & El & Hd).
  rewrite (bind_run _ _ m l m) by (unfold lift; by rewrite El).
  assert (Z.of_nat (length l) <= 64 * 1024) as Hsz.
  { assert (Ok l = Protobuf.shutdown_request) as E' by done. vm_compute in E'. injection E' as ->. by vm_compute. }
  destruct (signed_accepted device c m "/v1/shutdown" l R) as (sig & Hs & Ha); [done..|].
  destruct (request_received device "/v1/shutdown" l sig m (knows_time _ _ _ R)) as [Hpb Hreq].
  destruct (shutdown_run _ l (state_of m) (later delay (env_of m)) c _ _ Hreq (knows_credential _ _ _ R) Ha Hpb Hd)
    as (r & st & e & Hrun & Hr & Hpw); [done|apply fill_bytes_length|done|done|done|].
  destruct (post_signed_answered device "/v1/shutdown" l c sig m 202 {| accepted := true |} r st e
    (knows_address _ _ _ R) (knows_port _ _ _ R) eq_refl (knows_time _ _ _ R) Hs) as [sg Hpost];
    [by rewrite run_router_post|exact Hr|done|apply R| |].
  { pose proof (encoded_bound {| accepted := true |} I eq_refl) as Hb. simpl in Hb.
    apply Nat2Z.inj_le. unfold read_limit. rewrite Z2Nat.id by lia. lia. }
  exists st, e. by rewrite (bind_run _ _ _ _ _ Hpost).
Qed.

(** ** A host that refuses the request *)

Lemma unauthorized_unsigned reason :
  exists r, unauthorized reason = Some r /\ signature_of r = None /\ 400 <= status_code r <= 599.
Proof.
  assert (forall s code text, 400 <= s <= 599 ->
    exists r, error s code text = Some r /\ signature_of r = None /\ 400 <= status_code r <= 599) as He.
  { intros s code text Hs. unfold error, protobuf.
    destruct (header_parse_visible Server.CONTENT_TYPE) as (v & -> & _); [done|]. eexists. split; [done|].
    unfold signature_of. cbn [headers List.find fst status_code]. by rewrite bool_decide_eq_false_2. }
  unfold unauthorized. destruct reason; apply He; simpl; lia.
Qed.

(** An answer without a signature is not authentic. *)
Lemma unsigned_not_authentic c n p b s :
  ~ authentic c n p {| reply_body := b; reply_status := s; reply_signature := None |}.
Proof.
  intros (sg & Hf & _ & Hs). cbn [reply_signature default] in Hf. injection Hf as <-.
  unfold sign_response in Hs. destruct (response_message _ _ _ _); [|done]. destruct (hmac_new_from_slice c) as [k|]; [|done].
  simpl in Hs. injection Hs as Hs. pose proof (hmac_length k a) as Hl. by rewrite Hs in Hl.
Qed.

Lemma plugin_status_refused device c m l sig reason w1 e1 :
  str_all host_char (Store.address device) = true -> 0 <= Store.port device -> in_range u64_max (plugin_second m) ->
  head (losses (world m)) <> Some true ->
  Protobuf.status_request = Ok l -> sign c (plugin_second m) (plugin_nonce m) "POST" "/v1/status" l = Ok sig ->
  run (authenticate (deliver (request_to device "/v1/status" l (PluginAuth.as_http (signed_headers sig m)))) "POST" "/v1/status" l)
    (state_of m) (later delay (env_of m)) = (Done (Err reason), w1, e1) ->
  exists st e, HostClient.status device c m = (Err integrity_error, reached delay st e (drawn m)).
Proof.
  intros Ha Hpo Ht Hl El Hs Hauth. unfold HostClient.status. rewrite (bind_run _ _ m l m) by (unfold lift; by rewrite El).
  assert (Z.of_nat (length l) <= 64 * 1024) as Hsz.
  { assert (Ok l = Protobuf.status_request) as E' by done. vm_compute in E'. injection E' as ->. by vm_compute. }
  destruct (unauthorized_unsigned reason) as (r & Hr & Hsig & Hst).
  exists w1, e1. unfold bind at 1, post, bind at 1. rewrite (send_signed_run _ _ _ _ _ _ Ht Hs). unfold link_urlopen.
  rewrite host_task_post by done. unfold pass at 1 2. cbn [host_state host_env]. rewrite run_router_post by done.
  rewrite bool_decide_eq_true_2 by done. unfold Server.status. rewrite run_bind, Hauth, Hr. cbn [expect run].
  assert (default false (head (losses (pass delay (world m)))) = false) as ->.
  { unfold pass. cbn [losses]. by destruct (losses (world m)) as [|[] ?]. }
  unfold url_answer. rewrite (proj2 (Z.ltb_ge (status_code r) 300)), andb_false_r, Hsig by lia. cbn [fst snd]. unfold lift. cbn [receive read].
  destruct (verify_reply_cases {| reply_body := take read_limit (response_body r); reply_status := status_code r; reply_signature := None |}
    c (signed_headers sig m) "/v1/status") as [[Hau _]|[_ ->]]; [apply fill_bytes_length|done| |by apply unsigned_not_authentic in Hau|done].
  unfold fields_ok. repeat constructor; cbn [signed_headers PluginAuth.nonce]; [|by vm_compute].
  unfold plugin_nonce. rewrite fill_bytes_length. by vm_compute.
Qed.

End SignedCalls.
