(* ===== verification/PluginSystem.v ===== *)
(** * The whole plugin against the host

    The entry points of main.py and controller.py on the store of
    [PluginStore], connected to the host: what the user sees, what both disks
    hold and what the host does. *)
From stdpp Require Import base gmap list strings.
From Stdlib Require Import Ascii ZArith Lia.
From S2P Require Import Prelude RustStd Hex Fs Primitives Auth Pairing Storage Power Versioning Wire Proto3 Runtime Server Management Requests HostRounds HttpText Link EndToEnd PyStd PluginProtobuf PluginValidation PluginStore PluginStoreSafety PluginStoreRefinement PluginAuth PluginClient PluginController PluginLink PluginEndToEnd PluginCommands.
Import HostClient Controller.
Open Scope string_scope.
Open Scope Z_scope.
Open Scope list_scope.

Section System.
Context {R : Repr} {D : Validation.Decimals} {DeL : Validation.DecimalsLaws D} {T : ErrorTexts}.
Context {P : Primitives} {PL : PrimitivesLaws P} {AS : AeadSize P} {H : Http} {HL : HttpLaws H} {HC : HexCrate H}.
Context {Wi : Wire} {WL : WireLaws Wi} {SZ : Spake2Size P} {PrL : ProstLaws Wi}.
Context {De : Delivery} {DL : DeliveryLaws De} {S2 : Spake2Package}.
Context {St : Type} {CS : CredentialStore St} {stored : St -> HostIdentity -> Prop}
  {fault_free : St -> Prop} {SL : CredentialStoreLaws St stored fault_free}.
Context {Pw : Type} {PC : PowerController Pw}.
Context (pf : platform) (hostname : string) (src : option IpAddr) (delay timeout : Z).

#[local] Hint Extern 0 (World _) => exact (link_world pf hostname src delay) : typeclass_instances.

Abbreviation plugin := (Plugin (HostWorld St Pw)).
Abbreviation host_of s := (host_state (world (machine s))).
Abbreviation env_of s := (host_env (world (machine s))).
Implicit Types (s : plugin) (device : Store.Device).

(** ** The store while nothing fails *)

Lemma find_run d a i device :
  StoreRefinement.related d a -> StoreRefinement.calm d -> Store.find_device i a.1 = Some device ->
  exists d', Store.find i d = (Store.Ret device, d') /\ StoreRefinement.related d' a /\ StoreRefinement.calm d'.
Proof.
  intros Hrel Hc Hf. destruct a as [s c]. pose proof Hrel as (Hs & Hr & Hv).
  pose proof (StoreRefinement.returns_load d (s, c) Hrel Hc) as H1.
  pose proof (StoreRefinement.wp_load d s c Hs Hr Hv) as H2. unfold StoreSafety.wp in H1, H2.
  unfold Store.find, Store.bind. destruct (Store.load d) as [o d1]. cbn [fst snd] in *.
  destruct H1 as [Hc1 [s1 ->]]. destruct H2 as (Hs1 & Hf1 & ->). cbn [fst] in Hf. rewrite Hf.
  exists d1. split; [done|]. split; [|done]. destruct (StoreRefinement.recovered_recoverable _ Hr) as [_ Hn].
  by apply (StoreRefinement.related_idle d1 (StoreSafety.recovered (Store.files d))).
Qed.

Lemma credentials_run d a :
  StoreRefinement.related d a -> StoreRefinement.calm d ->
  exists d', Store.credentials d = (Store.Ret a.2, d') /\ StoreRefinement.related d' a /\ StoreRefinement.calm d'.
Proof.
  intros Hrel Hc. destruct a as [s c]. pose proof Hrel as (Hs & Hr & Hv).
  unfold StoreRefinement.view, StoreRefinement.state_of in Hv.
  destruct (StoreRefinement.credentials_of (StoreSafety.recovered (Store.files d))) as [c'|] eqn:Ec; [|done].
  destruct (StoreRefinement.settings_of (StoreSafety.recovered (Store.files d)) c') as [s'|] eqn:Es; [|done].
  injection Hv as -> ->.
  pose proof (StoreRefinement.returns_credentials d c Hs Hc Hr Ec) as H1.
  pose proof (StoreRefinement.wp_credentials d Hs Hr) as H2. unfold StoreSafety.wp in H1, H2.
  destruct (Store.credentials d) as [o d1]. cbn [fst snd] in *. destruct H1 as [Hc1 [c1 ->]].
  destruct H2 as (Hs1 & Hf1 & Hc'). assert (c1 = c) as -> by congruence. exists d1. split; [done|]. split; [|done].
  destruct (StoreRefinement.recovered_recoverable _ Hr) as [_ Hn].
  apply (StoreRefinement.related_idle d1 (StoreSafety.recovered (Store.files d))); [done|done|done|].
  unfold StoreRefinement.state_of. by rewrite Ec, Es.
Qed.

Lemma device_host d a device :
  StoreRefinement.related d a -> device ∈ a.1 ->
  str_all host_char (Store.address device) = true /\ 0 <= Store.port device.
Proof.
  destruct a as [s c]. intros (_ & _ & Hv) Hin. unfold StoreRefinement.view in Hv.
  destruct (StoreRefinement.state_of_ok _ _ _ Hv) as (Hok & _ & _). rewrite Forall_forall in Hok.
  destruct (Hok device Hin) as [_ _ Ha _ Hp _]. split; [by apply address_chars in Ha|lia].
Qed.

(** ** Looking up a device after a pairing *)

Lemma find_replaced i f l device :
  Store.find_device i l = Some device -> Store.id (f device) = i ->
  Store.find_device i (Store.replace_device i f l) = Some (f device).
Proof.
  unfold Store.find_device. induction l as [|x l IH]; [done|]. cbn [List.find Store.replace_device].
  case_bool_decide as Hx; intros Hf Hi; cbn [List.find].
  - injection Hf as ->. by rewrite bool_decide_eq_true_2.
  - rewrite bool_decide_eq_false_2 by done. by apply IH.
Qed.

Lemma find_marked i c l device :
  Store.find_device i l = Some device ->
  Store.find_device i (Store.mark_credentials c l) =
    Some (Store.set_paired (bool_decide (is_Some (c !! i))) device).
Proof.
  unfold Store.find_device, Store.mark_credentials. induction l as [|x l IH]; [done|]. cbn [List.find map].
  cbn [Store.set_paired Store.id]. destruct (decide (Store.id x = i)) as [Hx|Hx].
  - rewrite !(bool_decide_eq_true_2 (Store.id x = i)) by done. intros [= ->]. by rewrite Hx.
  - by rewrite !(bool_decide_eq_false_2 (Store.id x = i)).
Qed.

(** ** Pairing *)

(** What a device looks like once it is paired with the host [i]. *)
Definition paired_with (i : HostIdentity) (c : bytes) (device_id : string) (a : StoreRefinement.state) : Prop :=
  a.2 !! device_id = Some c /\
  exists device, Store.find_device device_id a.1 = Some device /\ Store.paired device = true /\
    Store.host_id device = JStr (uuid_to_string (host_id i)).

Lemma mark_paired_run d a device_id device c hid hv pv :
  StoreRefinement.related d a -> StoreRefinement.calm d -> Store.find_device device_id a.1 = Some device ->
  length c = 32%nat ->
  exists dev d' b, Store.mark_paired device_id c hid hv pv d = (Store.Ret dev, d') /\
    StoreRefinement.related d' b /\ StoreRefinement.calm d' /\
    b.2 !! device_id = Some c /\
    Store.find_device device_id b.1 = Some (Store.pair_fields hid hv pv device).
Proof.
  intros Hrel Hc Hf Hl. destruct a as [l creds]. cbn [fst] in Hf.
  destruct (StoreRefinement.perform_calm (StoreRefinement.MarkPaired device_id c hid hv pv) d (l, creds)
    (Store.mark_credentials (<[device_id := c]> creds) (Store.replace_device device_id (Store.pair_fields hid hv pv) l),
     <[device_id := c]> creds)) as (d' & Hp & Hrel' & Hc'); [done|done|done|cbn [StoreRefinement.effect]; by rewrite Hf|].
  cbn [StoreRefinement.perform] in Hp. unfold Store.bind in Hp.
  destruct (Store.mark_paired device_id c hid hv pv d) as [[dev|x|] d1]; [|done|done]. injection Hp as ->.
  exists dev, d'. eexists. split; [done|]. split; [exact Hrel'|]. split; [done|]. cbn [fst snd]. split; [apply lookup_insert_eq|].
  apply StoreRefinement.find_device_ok in Hf as Hid. destruct Hid as [Hid _].
  rewrite (find_marked _ _ _ (Store.pair_fields hid hv pv device)) by (by apply find_replaced).
  rewrite bool_decide_eq_true_2; [done|]. exists c. apply lookup_insert_eq.
Qed.

(** A user who enters the code on the host's display pairs the device,
    even if the host's answer to the last request is lost: the plugin reports
    success, its files hold the credential that the host has in memory and on
    stable storage, and the device carries the host's identity. *)
Theorem plugin_pairs_with_host s a device_id device code :
  StoreRefinement.related (disk s) a -> StoreRefinement.calm (disk s) ->
  Store.find_device device_id a.1 = Some device ->
  ready pf hostname src delay device code (machine s) ->
  exists c view s' b d, pair_device device_id code s = (Store.Ret (Accepted (Some view)), s') /\
    length c = 32%nat /\ credential (identity (host_of s')) = Some c /\
    stored (store (env_of s')) (identity (host_of s')) /\
    Store.snapshot (disk s') = (Store.Ret b, d) /\ paired_with (identity (host_of s')) c device_id b.
Proof.
  intros Hrel Hc Hf R0. destruct (find_run _ _ _ _ Hrel Hc Hf) as (d1 & Hfind & Hrel1 & Hc1).
  destruct (plugin_pair_run pf hostname src delay device code (machine s) R0)
    as (c & resp & m' & Hpair & Hlen & Hid & Hhv & Hpv & Hcred & Hst).
  destruct (mark_paired_run d1 a device_id device c (Protobuf.pair_host_id resp) (Protobuf.pair_host_version resp)
    (Protobuf.pair_protocol_version resp) Hrel1 Hc1 Hf Hlen) as (dev & d2 & b & Hmark & Hrel2 & Hc2 & Hcb & Hdb).
  destruct (StoreRefinement.snapshot_calm d2 b Hrel2 Hc2) as [d3 Hsnap].
  exists c. do 2 eexists. exists b, d3. split.
  { unfold pair_device, Controller.catch, Controller.bind, on_store, on_client. rewrite Hfind. cbn [machine disk controller].
    rewrite Hpair. cbn [outcome_of]. cbn [machine disk controller]. rewrite Hmark. reflexivity. }
  cbn [machine disk controller]. do 4 (split; [done|]). split; [done|]. eexists. split; [exact Hdb|]. split; [done|].
  cbn [Store.pair_fields Store.host_id]. by rewrite Hid.
Qed.

(** ** Status and shutdown *)

(** The plugin's and the host's version are compatible. *)
Lemma versions_compatible : Validation.compare_versions Protobuf.PLUGIN_VERSION HOST_VERSION = Ok Compatible.
Proof.
  rewrite Validation.compare_versions_compare; [by vm_compute|done|done| |];
    intros m Hm; vm_compute in Hm; injection Hm as <-; exists 0, 1, 0; repeat split; vm_compute; discriminate.
Qed.

(** What both calls read from the store first. *)
Lemma lookup_run s a device_id device c :
  StoreRefinement.related (disk s) a -> StoreRefinement.calm (disk s) ->
  Store.find_device device_id a.1 = Some device -> a.2 !! device_id = Some c ->
  exists d1 d2, Store.find device_id (disk s) = (Store.Ret device, d1) /\
    Store.credentials d1 = (Store.Ret a.2, d2) /\ StoreRefinement.related d2 a /\ Store.id device = device_id.
Proof.
  intros Hrel Hc Hf Hcr. destruct (find_run _ _ _ _ Hrel Hc Hf) as (d1 & Hfind & Hrel1 & Hc1).
  destruct (credentials_run _ _ Hrel1 Hc1) as (d2 & Hcreds & Hrel2 & _).
  apply StoreRefinement.find_device_ok in Hf as [Hid _]. eauto 10.
Qed.

(** C18: a paired plugin whose host is up shows it as online and paired, once
    the host has authenticated the request and the plugin the answer. *)
Theorem plugin_shows_online s a device_id device c :
  StoreRefinement.related (disk s) a -> StoreRefinement.calm (disk s) ->
  Store.find_device device_id a.1 = Some device -> a.2 !! device_id = Some c ->
  Store.host_id device = JStr (uuid_to_string (host_id (identity (host_of s)))) ->
  knows delay device c (machine s) -> name_ok hostname -> name_ok (uuid_to_string (host_id (identity (host_of s)))) ->
  exists s', Controller.status device_id s =
      (Store.Ret {| state := ONLINE; pairing := PAIRED; status_message := "Online" |}, s') /\
    states (controller s') !! device_id = Some ONLINE /\ StoreRefinement.related (disk s') a.
Proof.
  intros Hrel Hc Hf Hcr Hid K Hh Hi.
  destruct (lookup_run s a device_id device c Hrel Hc Hf Hcr) as (d1 & d2 & H1 & H2 & Hrel2 & Edev).
  destruct (plugin_status_run pf hostname src delay device c (machine s) K Hh Hi Hid) as (st & e & Hs).
  eexists. split; [|split].
  - unfold Controller.status, Controller.bind, on_store, device_status. rewrite H1. cbn [disk machine controller].
    rewrite H2. cbn [disk machine controller]. rewrite Hcr. unfold Controller.bind, attempt. cbn [disk machine controller].
    rewrite Hs. unfold on_controller, answered. cbn [Protobuf.plugin_status Protobuf.host_version host_status status_host_version].
    rewrite versions_compatible. reflexivity.
  - cbn [controller states show snd]. rewrite Edev. apply lookup_insert_eq.
  - done.
Qed.

(** C17: stopping a paired device reaches the host's power controller once, and
    the plugin shows the device as stopping until its deadline. *)
Theorem plugin_stops_host s a device_id device c :
  StoreRefinement.related (disk s) a -> StoreRefinement.calm (disk s) ->
  Store.find_device device_id a.1 = Some device -> a.2 !! device_id = Some c ->
  knows delay device c (machine s) ->
  Forall (fun seen => accepted_nonce seen <> plugin_nonce (machine s))
    (retained (now_unix (later delay (env_of s))) (identity (host_of s))) ->
  (forall i, (save i (store (env_of s))).1 = Ok tt) -> (power_shutdown (power (env_of s))).1 = Ok tt ->
  exists s', Controller.stop timeout device_id s =
      (Store.Ret {| state := STOPPING; pairing := PAIRED; status_message := "Shutdown accepted." |}, s') /\
    power (env_of s') = (power_shutdown (power (env_of s))).2 /\
    states (controller s') !! device_id = Some STOPPING /\
    deadlines (controller s') !! device_id = Some (time_monotonic (world (machine s')) + timeout).
Proof.
  intros Hrel Hc Hf Hcr K Hnew Hsave Hpow.
  destruct (lookup_run s a device_id device c Hrel Hc Hf Hcr) as (d1 & d2 & H1 & H2 & Hrel2 & Edev).
  destruct (plugin_shutdown_run pf hostname src delay device c (machine s) K Hnew Hsave Hpow) as (st & e & Hs & Hpw).
  eexists. split; [|split; [|split]].
  - unfold Controller.stop, Controller.bind, on_store. rewrite H1. cbn [disk machine controller].
    rewrite H2. cbn [disk machine controller]. rewrite Hcr. unfold Controller.bind, on_client. cbn [disk machine controller].
    rewrite Hs. cbn [outcome_of]. unfold on_controller. reflexivity.
  - exact Hpw.
  - apply lookup_insert_eq.
  - apply lookup_insert_eq.
Qed.

(** C20: a host that refuses the plugin's credential answers without a
    signature, so the plugin does not believe it: the device is shown as
    unknown but paired, never as unpaired or to be paired again, and its
    credential is kept. *)
Theorem refusal_keeps_pairing s a device_id device c l sig reason :
  StoreRefinement.related (disk s) a -> StoreRefinement.calm (disk s) ->
  Store.find_device device_id a.1 = Some device -> a.2 !! device_id = Some c ->
  in_range u64_max (plugin_second (machine s)) -> head (losses (world (machine s))) <> Some true ->
  Protobuf.status_request = Ok l ->
  sign c (plugin_second (machine s)) (plugin_nonce (machine s)) "POST" "/v1/status" l = Ok sig ->
  (run (authenticate (deliver (request_to device "/v1/status" l (PluginAuth.as_http (signed_headers sig (machine s)))))
    "POST" "/v1/status" l) (host_of s) (later delay (env_of s))).1.1 = Done (Err reason) ->
  exists s', Controller.status device_id s =
      (Store.Ret {| state := UNKNOWN; pairing := PAIRED;
         status_message := "DeckyMyRigHost returned a response that could not be authenticated." |}, s') /\
    StoreRefinement.related (disk s') a.
Proof.
  intros Hrel Hc Hf Hcr Ht Hl El Hs Hauth.
  destruct (lookup_run s a device_id device c Hrel Hc Hf Hcr) as (d1 & d2 & H1 & H2 & Hrel2 & Edev).
  destruct (device_host (disk s) a device Hrel) as [Ha Hp]; [by apply StoreRefinement.find_device_ok in Hf as [_ ?]|].
  destruct (run (authenticate _ _ _ _) (host_of s) _) as [[o w1] e1] eqn:Er. cbn [fst] in Hauth. subst o.
  destruct (plugin_status_refused pf hostname src delay device c (machine s) l sig reason w1 e1 Ha Hp Ht Hl El Hs Er)
    as (st & e & Hst).
  eexists. split.
  - unfold Controller.status, Controller.bind, on_store, device_status. rewrite H1. cbn [disk machine controller].
    rewrite H2. cbn [disk machine controller]. rewrite Hcr. unfold Controller.bind, attempt. cbn [disk machine controller].
    rewrite Hst. reflexivity.
  - exact Hrel2.
Qed.

End System.

(** ** Every device has a status *)

Section Statuses.
Context {R : Repr} {D : Validation.Decimals} {T : ErrorTexts}.
Context {P : Primitives} {S2 : Spake2Package} {Nw : Type} {Wo : World Nw}.

Implicit Types (s : Plugin Nw).

(** A status call ends with a result or an exception, and leaves the store
    alone. *)
Lemma device_status_ends device secret s :
  exists r s', device_status device secret s = (outcome_of r, s') /\ disk s' = disk s.
Proof.
  assert (forall f s1, exists r s', on_controller f s1 = (outcome_of (A := Status) r, s') /\ disk s' = disk s1) as Hc.
  { intros f s1. unfold on_controller. destruct (f _ (controller s1)) as [r c]. by do 2 eexists. }
  unfold device_status, Controller.bind, attempt. destruct secret as [secret|].
  - destruct (HostClient.status device secret (machine s)) as [r m]. exact (Hc _ (MkPlugin (disk s) m (controller s))).
  - destruct (probe device (machine s)) as [r m]. exact (Hc _ (MkPlugin (disk s) m (controller s))).
Qed.

Lemma status_all_total credentials devices collected s :
  exists m s', status_all credentials devices collected s = (Store.Ret m, s') /\ disk s' = disk s /\
    dom m = dom collected ∪ list_to_set (map Store.id devices).
Proof.
  revert collected s; induction devices as [|device devices IH]; intros collected s.
  { exists collected, s. split; [done|]. split; [done|]. simpl. set_solver. }
  cbn [status_all map list_to_set]. unfold Controller.bind at 1, Controller.catch.
  destruct (device_status_ends device (credentials !! Store.id device) s) as (r & s1 & -> & Hd).
  assert (exists v, match outcome_of r with Store.Raise e => Controller.ret (failed_status device) s1 | x => (x, s1) end =
    (Store.Ret v, s1)) as [v Hv] by (destruct r; simpl; eauto).
  assert (forall k : Status -> action (gmap string Status),
    match match outcome_of r with Store.Raise e => Controller.ret (failed_status device) s1 | x => (x, s1) end with
    | (Store.Ret a, s) => k a s | (Store.Raise e, s) => (Store.Raise e, s) | (Store.Dead, s) => (Store.Dead, s) end = k v s1)
    as Hk by (intros k; by rewrite Hv).
  destruct (IH (<[Store.id device := v]> collected) s1) as (m & s' & Hm & Hd' & Hdom).
  exists m, s'. split; [|split; [congruence|rewrite Hdom, dom_insert_L; set_solver]].
  rewrite <- Hm, <- (Hk (fun r => status_all credentials devices (<[Store.id device := r]> collected))).
  by destruct r.
Qed.

(** C21: a poll of all devices gives every stored device a status, and nothing
    else one, whatever the hosts answer or the calls raise. *)
Theorem every_device_has_status s a :
  StoreRefinement.related (disk s) a -> StoreRefinement.calm (disk s) ->
  exists m s', statuses s = (Store.Ret m, s') /\ dom m = list_to_set (map Store.id a.1).
Proof.
  intros Hrel Hc. destruct (StoreRefinement.snapshot_calm _ _ Hrel Hc) as [d Hs].
  unfold statuses, Controller.bind, on_store. rewrite Hs.
  destruct (status_all_total a.2 a.1 ∅ (MkPlugin d (machine s) (controller s))) as (m & s' & Hm & _ & Hdom).
  exists m, s'. split; [exact Hm|]. rewrite Hdom. set_solver.
Qed.

End Statuses.
