(* ===== verification/PluginScenarios.v ===== *)
(** * The plugin and the host in concrete runs

    Executable instances of the plugin's parameters with their laws, a plugin
    that pairs with a host and then controls it: the hypotheses of the
    theorems about both ends can hold, and the runs can be evaluated. *)
From stdpp Require Import base gmap list strings.
From Stdlib Require Import Ascii ZArith Lia.
From S2P Require Import Prelude RustStd Hex Fs Primitives Auth Pairing Storage Power Versioning Wire Samples Runtime Server Management Requests HostRounds HttpText Link EndToEnd ClientScenarios PyStd Proto3 PluginProtobuf ProtoSamples PluginValidation PluginStore PluginStoreSafety PluginStoreRefinement PluginStoreScenarios PluginAuth PluginClient PluginController PluginLink PluginEndToEnd PluginCommands PluginSystem.
Import HostClient Controller.
Open Scope string_scope.
Open Scope Z_scope.
Open Scope list_scope.

Module PluginScenarios.

#[local] Existing Instances toy toy_laws toy_spake2_size toy_http toy_http_laws proto_wire proto_wire_laws proto_wire_prost
  memory_store memory_laws mock_power StoreScenarios.brackets_repr Validation.ascii_decimals Validation.ascii_decimals_laws.

(** ** Instances *)

#[local] Instance toy_texts : ErrorTexts := {| library_text _ := "library error" |}.
#[local] Instance toy_spake2 : Spake2Package := {| finish_error _ := ValueError "bad message" |}.

Lemma toy_aead_size : AeadSize toy.
Proof. constructor. intros key nonce msg aad c [= <-]. rewrite length_app, toy_tag_length. done. Qed.

Lemma toy_hex_crate : HexCrate toy_http.
Proof. by constructor. Qed.

#[local] Instance toy_delivery : @Delivery toy_http :=
  {| deliver request := map (fun f => (lowercase f.1, as_bytes f.2)) (request_headers request) |}.

Lemma toy_delivery_laws : DeliveryLaws toy_delivery.
Proof.
  constructor. intros request n v Hin HF Hnd. unfold header. cbn [headers_get toy_http deliver toy_delivery].
  rewrite (find_field _ n v Hnd Hin). cbn [fmap option_fmap option_map snd header_to_str toy_http].
  rewrite str_of_as_bytes. rewrite Forall_forall in HF. destruct (HF _ Hin) as (_ & _ & _ & Hv & _).
  change (visible v) with (visible_ascii v). cbn [snd] in Hv. by rewrite Hv.
Qed.

#[local] Existing Instances toy_aead_size toy_hex_crate toy_delivery_laws.

Abbreviation toy_world := (HostWorld (P := toy) MemoryStore MockPowerController).
Abbreviation second := (from_secs 1).

#[local] Hint Extern 0 (World _) => exact (link_world (H := toy_http) (Wi := proto_wire) Windows "rig" None second) : typeclass_instances.

(** ** A pairing *)

(** A host that displays a code, up for 400 seconds, and its network. *)
Definition identity0 : HostIdentity := MkHostIdentity (repeat x41 16) None (Some "483921") 990 [] None.

Definition world_of (i : HostIdentity) (lost : list bool) : toy_world :=
  MkHostWorld (P := toy) (initial_state i (fresh_code "483921" (from_secs 390)))
    (MkEnv (P := toy) (from_secs 1000) (from_secs 400) 7 {| memory := Some i; failing := [] |} mock_default)
    (from_secs 1003) (from_secs 50) lost [].

Definition machine_of (i : HostIdentity) (lost : list bool) : Machine (P := toy) toy_world :=
  MkMachine (P := toy) (world_of i lost) 50.

Definition rig : Store.Device := StoreScenarios.rig.

(** A plugin with one device that is not paired. *)
Definition unpaired (lost : list bool) : Plugin (P := toy) toy_world :=
  MkPlugin StoreScenarios.added (machine_of identity0 lost) fresh.

Lemma plugin_ready_example : ready Windows "rig" None second rig "483 921" (machine_of identity0 [false; true]).
Proof.
  constructor.
  - by vm_compute.
  - by vm_compute.
  - by vm_compute.
  - by vm_compute.
  - constructor; [apply fresh_code_wf; by vm_compute|by left|by vm_compute|by vm_compute].
  - by right.
  - by vm_compute.
  - by vm_compute.
  - intros i. reflexivity.
  - split; [by vm_compute|]. split; [done|]. apply Nat.leb_le. by vm_compute.
  - split; [by vm_compute|]. apply Nat.leb_le. by vm_compute.
Qed.

Lemma plugin_pairs_with_host_witness :
  exists c view s', pair_device "pc-1" "483 921" (unpaired [false; true]) = (Store.Ret (Accepted (Some view)), s') /\
    length c = 32%nat /\ credential (identity (host_state (world (machine s')))) = Some c.
Proof.
  destruct (plugin_pairs_with_host Windows "rig" None second (unpaired [false; true]) ([rig], ∅) "pc-1" rig "483 921")
    as (c & view & s' & b & d & Hrun & Hl & Hc & _);
    [apply StoreScenarios.added_related|apply StoreScenarios.added_related|vm_compute; reflexivity|exact plugin_ready_example|].
  exists c, view, s'. exact (conj Hrun (conj Hl Hc)).
Defined.

(** The same runs, evaluated: the code typed with a space pairs, also when the
    last answer is lost; another code is refused, as is one that is no code. *)
Definition pair_reply (code : string) (lost : list bool) : option (bool * string) :=
  match (pair_device "pc-1" code (unpaired lost)).1 with
  | Store.Ret (Accepted _) => Some (true, "")
  | Store.Ret (Refused message) => Some (false, message)
  | _ => None
  end.

Example pairing_replies :
  map (fun x => pair_reply x.1 x.2)
    [("483 921", []); ("483921", [false; true]); ("483922", []); ("48392", []); ("483921", [true])] =
  [Some (true, ""); Some (true, ""); Some (false, "Pairing failed.");
   Some (false, "Enter the six-digit code shown by DeckyMyRigHostControl.");
   Some (false, "DeckyMyRigHost could not be reached at 192.168.1.20:47991.")].
Proof. vm_compute. reflexivity. Qed.

Definition pairing_outcome := HostClient.pair rig "483 921" (machine_of identity0 []).

(** It returns a credential and the answer with the host's name. *)
Example pairing_outcome_ok :
  match pairing_outcome.1 with Ok (c, response) => Some (length c, Protobuf.pair_hostname response) | Err _ => None end =
  Some (32%nat, "rig").
Proof. vm_compute. reflexivity. Qed.

Lemma pairing_is_authenticated_witness :
  exists c response, pairing_outcome.1 = Ok (c, response) /\ length c = 32%nat.
Proof.
  destruct pairing_outcome as [[[c response]|e] m] eqn:E.
  - exists c, response. split; [reflexivity|].
    exact (proj1 (proj2 (pairing_is_authenticated rig "483 921" (machine_of identity0 []) c response m E))).
  - exfalso. pose proof pairing_outcome_ok as H0. rewrite E in H0. discriminate.
Defined.

(** ** A paired plugin *)

Definition secret : bytes := StoreScenarios.secret.
Definition identity1 : HostIdentity := MkHostIdentity (repeat x41 16) (Some secret) None 0 [] None.
Definition marking : StoreRefinement.operation := StoreRefinement.MarkPaired "pc-1" secret "AAAAAAAAAAAAAAAA" "0.1.0" 1.
Definition paired_rig : Store.Device := Store.pair_fields "AAAAAAAAAAAAAAAA" "0.1.0" 1 rig.
Definition paired_state : StoreRefinement.state := ([paired_rig], {["pc-1" := secret]}).
Definition paired_disk : Store.Disk := (StoreRefinement.perform marking StoreScenarios.added).2.

Lemma paired_related : StoreRefinement.related paired_disk paired_state /\ StoreRefinement.calm paired_disk.
Proof.
  destruct (StoreRefinement.perform_calm marking StoreScenarios.added ([rig], ∅) paired_state)
    as (d1 & E & Hrel & Hc); [apply StoreScenarios.added_related|done|apply StoreScenarios.added_related|by vm_compute|].
  unfold paired_disk. rewrite E. exact (conj Hrel Hc).
Qed.

Definition paired_plugin (i : HostIdentity) : Plugin (P := toy) toy_world :=
  MkPlugin paired_disk (machine_of i []) fresh.

Lemma knows_example : knows second paired_rig secret (machine_of identity1 []).
Proof.
  constructor.
  - by vm_compute.
  - by vm_compute.
  - reflexivity.
  - by vm_compute.
  - by vm_compute.
  - reflexivity.
  - done.
Qed.

Lemma rig_name : name_ok "rig".
Proof. split; [by vm_compute|]. split; [done|]. apply Nat.leb_le. by vm_compute. Qed.

Lemma rig_host_id : name_ok "AAAAAAAAAAAAAAAA".
Proof. split; [by vm_compute|]. split; [done|]. apply Nat.leb_le. by vm_compute. Qed.

Lemma plugin_shows_online_witness :
  exists s', Controller.status "pc-1" (paired_plugin identity1) =
    (Store.Ret {| state := ONLINE; pairing := PAIRED; status_message := "Online" |}, s').
Proof.
  destruct (plugin_shows_online Windows "rig" None second (paired_plugin identity1) paired_state "pc-1" paired_rig secret)
    as (s' & Hs & _);
    [apply paired_related|apply paired_related|vm_compute; reflexivity|vm_compute; reflexivity|vm_compute; reflexivity|
     exact knows_example|exact rig_name|exact rig_host_id|].
  exists s'. exact Hs.
Defined.

Lemma plugin_stops_host_witness :
  exists s', Controller.stop (from_secs 120) "pc-1" (paired_plugin identity1) =
      (Store.Ret {| state := STOPPING; pairing := PAIRED; status_message := "Shutdown accepted." |}, s') /\
    was_requested (power (host_env (world (machine s')))) = true.
Proof.
  destruct (plugin_stops_host Windows "rig" None second (from_secs 120) (paired_plugin identity1) paired_state "pc-1" paired_rig secret)
    as (s' & Hs & Hp & _);
    [apply paired_related|apply paired_related|vm_compute; reflexivity|vm_compute; reflexivity|
     exact knows_example|constructor|intros i; reflexivity|reflexivity|].
  exists s'. split; [exact Hs|]. rewrite Hp. reflexivity.
Defined.

Lemma every_device_has_status_witness :
  exists m s', statuses (paired_plugin identity1) = (Store.Ret m, s') /\ dom m = {["pc-1"]}.
Proof.
  destruct (every_device_has_status (paired_plugin identity1) paired_state) as (m & s' & Hs & Hd);
    [apply paired_related|apply paired_related|].
  exists m, s'. split; [exact Hs|]. rewrite Hd. set_solver.
Defined.

(** ** A host that was paired anew with another device *)

Definition other_identity : HostIdentity := MkHostIdentity (repeat x41 16) (Some (repeat x09 32)) None 0 [] None.

Definition request_bytes : bytes := [x08; x01; x12; x05; x30; x2e; x31; x2e; x30].

Definition request_signature : bytes :=
  match sign (P := toy) secret (from_secs 1003 / nanos) (repeat x32 16) "POST" "/v1/status" request_bytes with
  | Ok sig => sig | Err _ => [] end.

Lemma refusal_keeps_pairing_witness :
  exists s', Controller.status "pc-1" (paired_plugin other_identity) =
    (Store.Ret {| state := UNKNOWN; pairing := PAIRED;
       status_message := "DeckyMyRigHost returned a response that could not be authenticated." |}, s').
Proof.
  destruct (refusal_keeps_pairing Windows "rig" None second (paired_plugin other_identity) paired_state "pc-1" paired_rig secret
    request_bytes request_signature Invalid) as (s' & Hs & _).
  - apply paired_related.
  - apply paired_related.
  - vm_compute. reflexivity.
  - vm_compute. reflexivity.
  - split; vm_compute; discriminate.
  - cbn [paired_plugin machine machine_of world world_of losses head]. discriminate.
  - vm_compute. reflexivity.
  - vm_compute. reflexivity.
  - vm_compute. reflexivity.
  - exists s'. exact Hs.
Defined.

(** ** The client's check of answers *)

Lemma answers_are_vetted_witness :
  exists x r m,
    send paired_rig "/v1/status" request_bytes (Some secret) (machine_of identity1 []) = (x, m) /\
    post paired_rig "/v1/status" request_bytes (Some secret) (machine_of identity1 []) = (r, m).
Proof.
  destruct (send paired_rig "/v1/status" request_bytes (Some secret) (machine_of identity1 [])) as [x m] eqn:E.
  assert (x = (send paired_rig "/v1/status" request_bytes (Some secret) (machine_of identity1 [])).1) as Hx
    by (rewrite E; reflexivity).
  vm_compute in Hx. rewrite Hx in E.
  destruct (answers_are_vetted paired_rig "/v1/status" request_bytes secret (machine_of identity1 []) _ _ m E) as (r & Hr & _).
  exists x, r, m. exact (conj eq_refl Hr).
Defined.

(** ** The controller's transitions *)

Definition waking : schedule := [(from_secs 10, "pc-1", Started (Ok UNPAIRED))].
Definition poll : segment := Probed (Err (unreachable rig)).

Lemma transitions_expire_witness :
  exists t, since (from_secs 120) "pc-1" STARTING waking t /\ from_secs 100 < t + from_secs 120.
Proof.
  apply (transitions_expire (from_secs 120) waking "pc-1" poll (from_secs 100)
    {| state := STARTING; pairing := UNPAIRED;
       status_message := "DeckyMyRigHost could not be reached at 192.168.1.20:47991." |}
    (run_schedule (from_secs 120) (waking ++ [(from_secs 100, "pc-1", poll)]) fresh)); vm_compute; reflexivity.
Defined.

End PluginScenarios.
