(* ===== verification/DotNet.v ===== *)
(** * The parts of .NET the control application is written in

    Exceptions with the tests its filters make, methods that thread a world and
    may throw, ticks and the formats of numbers.  A [string] is its UTF-8
    encoding, as everywhere in this library; the code measures and cuts only
    strings of ASCII characters. *)
From stdpp Require Import base gmap list strings.
From Stdlib Require Import Ascii ZArith Lia.
From Stdlib Require Strings.String.
From S2P Require Import Prelude RustStd HttpText PyStd.
Open Scope string_scope.
Open Scope Z_scope.
Open Scope list_scope.

(** ** Exceptions *)

Inductive cs_exn :=
| IOException (message : string)
| EndOfStreamException
| UnauthorizedAccessException
| TimeoutException
| OperationCanceledException
| JsonException
| InvalidDataException (message : string)
| HttpRequestException
| CryptographicException
| Win32Exception
| InvalidOperationException
| ArgumentNullException
| ArgumentOutOfRangeException
| NullReferenceException.

#[export] Instance cs_exn_eq_dec : EqDecision cs_exn.
Proof. solve_decision. Defined.

(** [error is IOException]; [EndOfStreamException] derives from it, and
    [InvalidDataException] does not. *)
Definition is_IOException (e : cs_exn) : bool :=
  match e with IOException _ | EndOfStreamException => true | _ => false end.

(** ** Methods *)

(** A method over the world [S]: what it returns or throws, and the world
    after it. *)
Definition method (S A : Type) : Type := S -> result A cs_exn * S.

Section Methods.
Context {S : Type}.

Definition returns_value {A} (a : A) : method S A := fun s => (Ok a, s).
Definition throw {A} (e : cs_exn) : method S A := fun s => (Err e, s).

Definition andthen {A B} (c : method S A) (k : A -> method S B) : method S B := fun s =>
  match c s with
  | (Ok a, s) => k a s
  | (Err e, s) => (Err e, s)
  end.

(** [try ... catch (Exception e)]; a filter is a test in the handler that
    throws again. *)
Definition try_catch {A} (c : method S A) (handler : cs_exn -> method S A) : method S A := fun s =>
  match c s with
  | (Err e, s) => handler e s
  | r => r
  end.

End Methods.

Declare Scope method_scope.
Delimit Scope method_scope with method.
Notation "x <- p ;; q" := (andthen p (fun x => q))
  (at level 60, p at next level, right associativity) : method_scope.
Notation "p ;;; q" := (andthen p (fun _ => q))
  (at level 60, right associativity) : method_scope.

Lemma andthen_Ok {S A B} (c : method S A) (k : A -> method S B) s b s' :
  andthen c k s = (Ok b, s') <-> exists a s1, c s = (Ok a, s1) /\ k a s1 = (Ok b, s').
Proof.
  unfold andthen. destruct (c s) as [[a|e] s1]; split.
  - eauto.
  - by intros (? & ? & [= <- <-] & ?).
  - done.
  - by intros (? & ? & ? & _).
Qed.

(** ** Numbers and times *)

Definition int32_max : Z := 2147483647.

(** Times and spans are ticks of a hundred nanoseconds. *)
Definition ticks_per_second : Z := 10000000.
Definition ticks_per_minute : Z := 60 * ticks_per_second.

(** [DateTimeOffset.MaxValue]. *)
Definition max_time : Z := 3155378975999999999.

(** [AddSeconds] of a whole number of seconds.  A number that a [double] does
    not hold exactly is out of range in any case. *)
Definition add_seconds (time seconds : Z) : result Z cs_exn :=
  let t := time + seconds * ticks_per_second in
  if t <=? max_time then Ok t else Err ArgumentOutOfRangeException.

(** [{n:00}] of a number that is not negative. *)
Definition format_00 (n : Z) : string := if n <? 10 then "0" +:+ decimal n else decimal n.
