(* ===== verification/ControlClient.v ===== *)
(** * The client of the management pipe
    (host/control/DeckyMyRigHostControl.Core/ManagementClient.cs)

    The framed exchange of [SendAsync] over a stream whose every call may throw,
    and the record a response is deserialised to.  The reader and the writer of
    JSON texts are parameters; what becomes of a JSON value is not. *)
From stdpp Require Import base gmap list strings.
From Stdlib Require Import Ascii ZArith Lia.
From Stdlib Require Strings.String.
From S2P Require Import Prelude RustStd HttpText PyStd DotNet.
Open Scope string_scope.
Open Scope Z_scope.
Open Scope list_scope.
Open Scope method_scope.

Module ControlClient.

(** [Succeeded] is the property [Ok]. *)
Record ManagementState := MkManagementState {
  Succeeded : bool;
  Error : option string;
  ServiceRunning : bool;
  Port : Z;
  Paired : bool;
  PairingCode : option string;
  ExpiresInSeconds : Z;
  HostVersion : option string;
  PluginVersion : option string;
  VersionStatus : option string;
}.

(** ** [JsonSerializer.Deserialize<ManagementState>] *)

(** The converters of the property types. *)
Definition read_bool (v : json) : result bool cs_exn :=
  match v with JBool b => Ok b | _ => Err JsonException end.

Definition read_int (lo hi : Z) (v : json) : result Z cs_exn :=
  match v with
  | JInt z => if (lo <=? z) && (z <=? hi) then Ok z else Err JsonException
  | _ => Err JsonException
  end.

Definition read_int32 : json -> result Z cs_exn := read_int (- int32_max - 1) int32_max.
Definition read_uint64 : json -> result Z cs_exn := read_int 0 u64_max.

Definition read_string (v : json) : result (option string) cs_exn :=
  match v with JNull => Ok None | JStr s => Ok (Some s) | _ => Err JsonException end.

(** A parameter of the constructor: the last property with its name, without
    regard to case, every one of which is converted; the default of its type if
    there is none. *)
Definition property {A} (convert : json -> result A cs_exn) (default : A) (name : string)
    (l : list (string * json)) : result A cs_exn :=
  fold_left (fun acc kv =>
    if eq_ignore_ascii_case kv.1 name then let? _ := acc in convert kv.2 else acc) l (Ok default).

(** [None] is the result [null]. *)
Definition deserialize (v : json) : result (option ManagementState) cs_exn :=
  match v with
  | JNull => Ok None
  | JObj l =>
      let? ok := property read_bool false "Ok" l in
      let? error := property read_string None "Error" l in
      let? running := property read_bool false "ServiceRunning" l in
      let? port := property read_int32 0 "Port" l in
      let? paired := property read_bool false "Paired" l in
      let? code := property read_string None "PairingCode" l in
      let? expires := property read_uint64 0 "ExpiresInSeconds" l in
      let? host := property read_string None "HostVersion" l in
      let? plugin := property read_string None "PluginVersion" l in
      let? version := property read_string None "VersionStatus" l in
      Ok (Some (MkManagementState ok error running port paired code expires host plugin version))
  | _ => Err JsonException
  end.

(** The texts of JSON values: [SerializeToUtf8Bytes], and the reader behind
    [Deserialize]. *)
Class DotNetJson := {
  serialize_utf8 : json -> bytes;
  parse_utf8 : bytes -> option json;
}.

(** ** [SendAsync] *)

(** [NamedPipeClientStream]. *)
Class PipeStream (S : Type) := {
  connect_async : string -> Z -> method S unit;
  write_async : bytes -> method S unit;
  flush_async : method S unit;
  read_exactly : nat -> method S bytes;
}.

Definition DefaultPipeName : string := "DeckyMyRigHostControl".

Section Client.
Context {J : DotNetJson} {S : Type} {PS : PipeStream S}.
Context (pipe_name : string).

Definition request_json (operation : string) : json := JObj [("operation", JStr operation)].

Definition read_state (response_bytes : bytes) : result ManagementState cs_exn :=
  match parse_utf8 response_bytes with
  | None => Err JsonException
  | Some v =>
      let? response := deserialize v in
      ok_or response (IOException "DeckyMyRigHost returned an empty management response.")
  end.

Definition send_async (operation : string) : method S ManagementState :=
  connect_async pipe_name 2000 ;;;
  let request := serialize_utf8 (request_json operation) in
  write_async (to_le_bytes 4 (Z.of_nat (length request) mod 2 ^ 32)) ;;;
  write_async request ;;;
  flush_async ;;;
  response_length_bytes <- read_exactly 4 ;;
  let response_length := from_le_bytes response_length_bytes in
  if (response_length =? 0) || (65536 <? response_length) then
    throw (IOException "DeckyMyRigHost returned an invalid management response length.")
  else
    response_bytes <- read_exactly (Z.to_nat response_length) ;;
    fun s => (read_state response_bytes, s).

Definition GetServiceInfoAsync : method S ManagementState := send_async "get_service_info".
Definition GetPairingStateAsync : method S ManagementState := send_async "get_pairing_state".
Definition GeneratePairingCodeAsync : method S ManagementState := send_async "generate_pairing_code".

End Client.

End ControlClient.
