(* ===== verification/ControlViewModel.v ===== *)
(** * The view model of the control application
    (host/control/DeckyMyRigHostControl.Core/HostControlViewModel.cs)

    The properties the window shows, and the operations that change them: a
    refresh, a new code and the tick of the timer, over any client and clock. *)
From stdpp Require Import base gmap list strings.
From Stdlib Require Import Ascii ZArith Lia.
From Stdlib Require Strings.String.
From S2P Require Import Prelude RustStd HttpText PyStd DotNet ControlClient.
Open Scope string_scope.
Open Scope Z_scope.
Open Scope list_scope.
Open Scope method_scope.

Module ControlViewModel.
Import ControlClient.

(** [IClock]: a reading may differ from the one before. *)
Class Clock (S : Type) := utc_now : method S Z.

(** [IManagementClient]. *)
Class ManagementClient (S : Type) := {
  get_service_info : method S ManagementState;
  get_pairing_state : method S ManagementState;
  generate_pairing_code : method S ManagementState;
}.

Record ViewModel := MkViewModel {
  expiresAt : option Z;
  serviceStatus : string;
  port : Z;
  pairingCode : string;
  expiration : string;
  pairingStatus : string;
  errorMessage : option string;
  isBusy : bool;
  hostVersion : string;
  updateStatus : string;
}.

(** The em dash, three dots as one character, and the bullet. *)
Definition dash : string := String.string_of_list_byte [xe2; x80; x94].
Definition ellipsis : string := String.string_of_list_byte [xe2; x80; xa6].
Definition bullet : string := String.string_of_list_byte [xe2; x80; xa2].

Definition new_view_model : ViewModel :=
  MkViewModel None ("Checking" +:+ ellipsis) 0 dash dash "Not paired" None false dash "Plugin version not detected yet".

Definition can_generate (vm : ViewModel) : bool := negb (isBusy vm).

Definition set_expiration (x : string) (vm : ViewModel) : ViewModel :=
  MkViewModel (expiresAt vm) (serviceStatus vm) (port vm) (pairingCode vm) x (pairingStatus vm) (errorMessage vm)
    (isBusy vm) (hostVersion vm) (updateStatus vm).

Definition set_busy (busy : bool) (vm : ViewModel) : ViewModel :=
  MkViewModel (expiresAt vm) (serviceStatus vm) (port vm) (pairingCode vm) (expiration vm) (pairingStatus vm)
    (errorMessage vm) busy (hostVersion vm) (updateStatus vm).

Definition set_error (error : option string) (vm : ViewModel) : ViewModel :=
  MkViewModel (expiresAt vm) (serviceStatus vm) (port vm) (pairingCode vm) (expiration vm) (pairingStatus vm)
    error (isBusy vm) (hostVersion vm) (updateStatus vm).

(** ** [Tick] *)

(** [{(int)remaining.TotalMinutes:00}:{remaining.Seconds:00}], for spans of
    less than 2^20 minutes, whose whole minutes a [double] does not round. *)
Definition countdown (remaining : Z) : string :=
  format_00 (remaining / ticks_per_minute) +:+ ":" +:+
  format_00 ((remaining / ticks_per_second) mod 60).

Definition expiration_at (now : Z) (vm : ViewModel) : string :=
  match expiresAt vm with
  | None => dash
  | Some t => if t - now <=? 0 then "Expired" else countdown (t - now)
  end.

(** ** [Apply] *)

(** An interpolated [null] is the empty string. *)
Definition text (o : option string) : string := default "" o.

Definition update_text (state : ManagementState) : string :=
  match VersionStatus state with
  | Some "compatible" =>
      "Host " +:+ text (HostVersion state) +:+ " " +:+ bullet +:+ " Plugin " +:+ text (PluginVersion state)
        +:+ " " +:+ bullet +:+ " Compatible"
  | Some "update_host" => "Update this host to match plugin " +:+ text (PluginVersion state) +:+ "."
  | Some "update_plugin" => "Update the Decky plugin to match host " +:+ text (HostVersion state) +:+ "."
  | Some "incompatible" => "Host and plugin major versions are incompatible. Update the older component."
  | _ => "Plugin version not detected yet. Open the plugin while this PC is online."
  end.

(** [code is { Length: 6 } ? $"{code[..3]} {code[3..]}" : "—"]; the codes of the
    host are ASCII. *)
Definition format_code (code : option string) : string :=
  match code with
  | Some (String a (String b (String c (String d (String e (String f EmptyString)))))) =>
      String a (String b (String c (String " " (String d (String e (String f EmptyString))))))
  | _ => dash
  end.

(** The assignments before [if (!state.Ok)]. *)
Definition apply_service (state : ManagementState) (vm : ViewModel) : ViewModel :=
  MkViewModel (expiresAt vm) (if ServiceRunning state then "Running" else "Stopped") (Port state) (pairingCode vm)
    (expiration vm) (pairingStatus vm) (errorMessage vm) (isBusy vm)
    (default "Unknown" (HostVersion state)) (update_text state).

Definition apply_pairing (state : ManagementState) (vm : ViewModel) : ViewModel :=
  MkViewModel (expiresAt vm) (serviceStatus vm) (port vm) (format_code (PairingCode state)) (expiration vm)
    (if Paired state then "Paired" else "Not paired") (errorMessage vm) (isBusy vm) (hostVersion vm) (updateStatus vm).

Definition set_expires_at (t : option Z) (vm : ViewModel) : ViewModel :=
  MkViewModel t (serviceStatus vm) (port vm) (pairingCode vm) (expiration vm) (pairingStatus vm) (errorMessage vm)
    (isBusy vm) (hostVersion vm) (updateStatus vm).

(** [ServiceStatus = "Unavailable"] and the assignments that go with it. *)
Definition unavailable (vm : ViewModel) : ViewModel :=
  MkViewModel (expiresAt vm) "Unavailable" (port vm) dash dash (pairingStatus vm)
    (Some "DeckyMyRigHost could not be contacted. Verify that the Windows service is running.")
    (isBusy vm) (hostVersion vm) (updateStatus vm).

(** The filter of [ExecuteAsync]. *)
Definition contact_error (e : cs_exn) : bool :=
  is_IOException e || bool_decide (e = UnauthorizedAccessException) || bool_decide (e = TimeoutException)
  || bool_decide (e = OperationCanceledException) || bool_decide (e = JsonException).

Section ViewModel.
Context {S : Type} {Cl : Clock S} {MC : ManagementClient S}.

Abbreviation operation A := (method (ViewModel * S) A).

Definition on_world {A} (c : method S A) : operation A := fun s =>
  let '(r, w) := c s.2 in (r, (s.1, w)).

Definition change (f : ViewModel -> ViewModel) : operation unit := fun s => (Ok tt, (f s.1, s.2)).

(** The clock is read only when there is something to count down. *)
Definition tick : operation unit := fun s =>
  match expiresAt s.1 with
  | None => change (set_expiration dash) s
  | Some _ => (now <- on_world utc_now ;; change (fun vm => set_expiration (expiration_at now vm) vm)) s
  end.

Definition apply (state : ManagementState) : operation unit :=
  change (apply_service state) ;;;
  if negb (Succeeded state) then
    change (set_error (Some (default "DeckyMyRigHost returned an error." (Error state))))
  else
    change (apply_pairing state) ;;;
    match PairingCode state with
    | None => change (set_expires_at None)
    | Some _ =>
        now <- on_world utc_now ;;
        t <- (fun s => (add_seconds now (ExpiresInSeconds state), s)) ;;
        change (set_expires_at (Some t))
    end ;;;
    tick.

Definition execute_async (action : method S ManagementState) : operation unit := fun s =>
  let '(r, s) :=
    (change (fun vm => set_error None (set_busy true vm)) ;;;
     try_catch (state <- on_world action ;; apply state)
       (fun e => if contact_error e then change unavailable else throw e)) s in
  (r, (set_busy false s.1, s.2)).

Definition RefreshAsync : operation unit := execute_async get_service_info.
Definition GenerateCodeAsync : operation unit := execute_async generate_pairing_code.

End ViewModel.

(** ** What the window can show *)

(** One event of the window that does not throw: a refresh or a new code,
    whatever the client answers, or a tick of the timer.  An event that throws,
    as [AddSeconds] does for an expiry beyond the last year, leaves the handler
    of the window and ends the application, so no step follows it. *)
Inductive window_step (vm vm' : ViewModel) : Prop :=
| Executed {S} {Cl : Clock S} (action : method S ManagementState) (w w' : S) :
    execute_async action (vm, w) = (Ok tt, (vm', w')) -> window_step vm vm'
| Ticked {S} {Cl : Clock S} (w w' : S) : tick (vm, w) = (Ok tt, (vm', w')) -> window_step vm vm'.

(** A code as it is shown: two groups of three characters. *)
Definition grouped (s : string) : Prop :=
  exists a b c d e f, s = String a (String b (String c (String " " (String d (String e (String f "")))))).

Record view_ok (vm : ViewModel) : Prop := {
  view_idle : isBusy vm = false;
  view_code : pairingCode vm = dash \/ grouped (pairingCode vm);
  view_counts : pairingCode vm <> dash -> is_Some (expiresAt vm);
  view_unavailable : serviceStatus vm = "Unavailable" -> pairingCode vm = dash /\ is_Some (errorMessage vm);
}.

Lemma format_code_cases code : format_code code = dash \/ (is_Some code /\ grouped (format_code code)).
Proof.
  destruct code as [code|]; [|by left]. do 7 (destruct code as [|? code]; [try by left|]); [|by left].
  right. split; [done|]. simpl. eexists _, _, _, _, _, _. reflexivity.
Qed.

Section Steps.
Context {S : Type} {Cl : Clock S}.
Implicit Types (vm : ViewModel) (w : S).

(** A tick changes the expiration only. *)
Lemma tick_Ok vm w r vm' w' : tick (vm, w) = (r, (vm', w')) -> exists x, vm' = set_expiration x vm.
Proof.
  unfold tick. cbn [fst]. destruct (expiresAt vm) as [t|] eqn:E.
  - unfold andthen, on_world, change. cbn [fst snd]. destruct (utc_now w) as [[now|e] w1]; intros [= <- <- <-].
    + eauto.
    + exists (expiration vm). by destruct vm.
  - unfold change. intros [= <- <- <-]. eauto.
Qed.

(** What [Apply] leaves behind when it returns. *)
Lemma apply_Ok state vm w vm' w' :
  apply state (vm, w) = (Ok tt, (vm', w')) ->
  if Succeeded state then
    exists t x, vm' = set_expiration x (set_expires_at t (apply_pairing state (apply_service state vm))) /\
      (is_Some (PairingCode state) -> is_Some t)
  else vm' = set_error (Some (default "DeckyMyRigHost returned an error." (Error state))) (apply_service state vm).
Proof.
  unfold apply. intros H. apply andthen_Ok in H as ([] & s1 & [= <-] & H). cbn [fst snd] in H.
  destruct (Succeeded state); cbn [negb] in H; [|by injection H as <- _].
  apply andthen_Ok in H as ([] & s2 & [= <-] & H). apply andthen_Ok in H as ([] & [vm3 w3] & H1 & H2).
  cbn [fst snd] in H1. apply tick_Ok in H2 as [x ->].
  destruct (PairingCode state) as [c|].
  - apply andthen_Ok in H1 as (now & [vm4 w4] & H3 & H1). unfold on_world in H3. cbn [fst snd] in H3.
    destruct (utc_now w) as [r w5]. injection H3 as -> <- <-.
    apply andthen_Ok in H1 as (t & s5 & H4 & H1). injection H4 as _ <-. injection H1 as <- _. eauto.
  - injection H1 as <- _. exists None, x. split; [done|]. by intros [? ?].
Qed.

Lemma execute_cases action vm w r vm' w' :
  execute_async action (vm, w) = (r, (vm', w')) ->
  let vm0 := set_error None (set_busy true vm) in
  (exists state w1 vm1, action w = (Ok state, w1) /\ apply state (vm0, w1) = (Ok tt, (vm1, w')) /\
     r = Ok tt /\ vm' = set_busy false vm1) \/
  (exists e vm1, r = (if contact_error e then Ok tt else Err e) /\
     vm' = set_busy false (if contact_error e then unavailable vm1 else vm1)).
Proof.
  unfold execute_async. unfold andthen at 1, change at 1. cbn [fst snd]. unfold try_catch.
  unfold andthen, on_world. cbn [fst snd]. destruct (action w) as [[state|e] w1].
  - destruct (apply state _) as [[[]|e] [vm1 w2]] eqn:E.
    + intros [= <- <- <-]. left. exists state, w1, vm1. done.
    + intros H. right. exists e, vm1. destruct (contact_error e); by injection H as <- <- <-.
  - intros H. right. exists e, (set_error None (set_busy true vm)). destruct (contact_error e); by injection H as <- <- <-.
Qed.

(** An answer with a code, at two readings of the clock. *)
Lemma execute_shows_code action vm w state code w1 t1 w2 t2 w3 :
  action w = (Ok state, w1) -> Succeeded state = true -> PairingCode state = Some code ->
  utc_now w1 = (Ok t1, w2) -> t1 + ExpiresInSeconds state * ticks_per_second <= max_time -> utc_now w2 = (Ok t2, w3) ->
  exists vm', execute_async action (vm, w) = (Ok tt, (vm', w3)) /\
    serviceStatus vm' = (if ServiceRunning state then "Running" else "Stopped") /\ port vm' = Port state /\
    pairingCode vm' = format_code (Some code) /\ errorMessage vm' = None /\ isBusy vm' = false /\
    let remaining := t1 + ExpiresInSeconds state * ticks_per_second - t2 in
    expiration vm' = (if remaining <=? 0 then "Expired" else countdown remaining).
Proof.
  intros Ha Hs Hc H1 Hm H2. unfold execute_async, andthen at 1, change at 1, try_catch, andthen at 1, on_world at 1.
  cbn [fst snd]. rewrite Ha. unfold apply. rewrite Hs, Hc. cbn [negb].
  unfold andthen, on_world, change, tick, add_seconds. cbn [fst snd]. rewrite H1. cbn [fst snd].
  rewrite (proj2 (Z.leb_le _ _) Hm). cbn [fst snd expiresAt set_expires_at]. unfold andthen, on_world, change.
  cbn [fst snd]. rewrite H2. eexists. split; [reflexivity|]. cbn. rewrite Hc. done.
Qed.

End Steps.

Lemma window_step_ok vm vm' : window_step vm vm' -> view_ok vm -> view_ok vm'.
Proof.
  intros [S Cl action w w' H|S Cl w w' H] [H1 H2 H3 H4].
  - apply execute_cases in H as [(state & w1 & vm1 & _ & Ha & _ & ->)|(e & vm1 & Hr & ->)].
    + apply apply_Ok in Ha. destruct (Succeeded state).
      * destruct Ha as (t & x & -> & Ht). pose proof (format_code_cases (PairingCode state)) as Hf.
        constructor; cbn; [done|destruct Hf as [?|[_ ?]]; auto| |by destruct (ServiceRunning state)].
        intros Hn. destruct Hf as [Hd|[Hc _]]; [done|by apply Ht].
      * subst vm1. constructor; cbn; [done|done|done|by destruct (ServiceRunning state)].
    + destruct (contact_error e); [|done]. constructor; cbn; auto. done.
  - apply tick_Ok in H as [x ->]. by constructor.
Qed.

(** C36: whatever the host answers and whenever the timer ticks, as long as no
    event throws, which ends the application, the window never stays busy, shows
    a code only as two groups of three characters and only with a time to count
    down to, and shows none, but an error, while the service is unavailable. *)
Theorem window_invariant vm : rtc window_step new_view_model vm -> view_ok vm.
Proof.
  intros H. assert (view_ok new_view_model) as H0 by (constructor; cbn; auto; done).
  induction H as [|x y z Hs _ IH]; [done|]. apply IH. by apply (window_step_ok x).
Qed.

(** C38: when the host can no longer be contacted the window takes the code and
    the countdown off, but forgets only the code: the next tick of the timer
    shows the countdown of the code that is no longer there. *)
Theorem countdown_outlives_code {S} {Cl : Clock S} (action : method S ManagementState) vm (w w1 w2 : S) e t now :
  expiresAt vm = Some t -> action w = (Err e, w1) -> contact_error e = true ->
  utc_now w1 = (Ok now, w2) -> now < t ->
  exists vm1 vm2, execute_async action (vm, w) = (Ok tt, (vm1, w1)) /\
    pairingCode vm1 = dash /\ expiration vm1 = dash /\
    tick (vm1, w1) = (Ok tt, (vm2, w2)) /\
    serviceStatus vm2 = "Unavailable" /\ pairingCode vm2 = dash /\ expiration vm2 = countdown (t - now).
Proof.
  intros Ht Ha He Hn Hlt. unfold execute_async, andthen at 1, change at 1, try_catch, andthen at 1, on_world at 1.
  cbn [fst snd]. rewrite Ha, He. cbn [change fst snd]. eexists _, _. split; [reflexivity|].
  split; [done|]. split; [done|]. unfold tick. cbn [fst snd expiresAt set_busy unavailable set_error]. rewrite Ht.
  unfold andthen, on_world. cbn [fst snd]. rewrite Hn. split; [reflexivity|]. split; [done|]. split; [done|].
  cbn [expiration set_expiration]. unfold expiration_at. cbn [fst snd expiresAt set_busy unavailable set_error]. rewrite Ht.
  by rewrite (proj2 (Z.leb_gt _ _)) by lia.
Qed.

(** ** Runs *)

Module Runs.

(** A world of readings of the clock and of answers. *)
Record script := Script { readings : list Z; answers : list (result ManagementState cs_exn) }.

#[local] Instance script_clock : Clock script := fun s =>
  match readings s with
  | t :: ts => (Ok t, Script ts (answers s))
  | [] => (Err InvalidOperationException, s)
  end.

#[local] Instance script_client : ManagementClient script :=
  let answer := fun s =>
    match answers s with
    | r :: rs => (r, Script (readings s) rs)
    | [] => (Err TimeoutException, s)
    end in
  {| get_service_info := answer; get_pairing_state := answer; generate_pairing_code := answer |}.

Definition code_state : ManagementState :=
  MkManagementState true None true 48100 false (Some "483921") 272 (Some "0.2.0") None (Some "unknown").

(** A code with 272 seconds left is shown with 4 minutes and 32 seconds. *)
Example refresh_shows_countdown :
  let vm := (RefreshAsync (new_view_model, Script [1000; 1000] [Ok code_state])).2.1 in
  (serviceStatus vm, port vm, pairingCode vm, expiration vm, hostVersion vm) =
  ("Running", 48100, "483 921", "04:32", "0.2.0").
Proof. vm_compute. reflexivity. Qed.

Definition shown : ViewModel := (RefreshAsync (new_view_model, Script [1000; 1000] [Ok code_state])).2.1.

Lemma window_invariant_witness : rtc window_step new_view_model shown /\ view_ok shown.
Proof.
  assert (rtc window_step new_view_model shown) as H.
  { apply rtc_once. apply (Executed _ _ (S := script) get_service_info (Script [1000; 1000] [Ok code_state]) (Script [] [])).
    vm_compute. reflexivity. }
  split; [exact H|]. apply (window_invariant shown). exact H.
Defined.

Lemma countdown_outlives_code_witness :
  exists vm1 vm2, execute_async get_service_info (shown, Script [60 * ticks_per_second] []) =
      (Ok tt, (vm1, Script [60 * ticks_per_second] [])) /\
    pairingCode vm1 = dash /\ expiration vm1 = dash /\
    tick (vm1, Script [60 * ticks_per_second] []) = (Ok tt, (vm2, Script [] [])) /\
    serviceStatus vm2 = "Unavailable" /\ pairingCode vm2 = dash /\
    expiration vm2 = countdown (1000 + 272 * ticks_per_second - 60 * ticks_per_second).
Proof.
  apply (countdown_outlives_code get_service_info shown _ _ _ TimeoutException); vm_compute; reflexivity.
Defined.

End Runs.

End ControlViewModel.
