(* ===== verification/ControlUpdate.v ===== *)
(** * Updates of the host
    (host/control/DeckyMyRigHostControl.Core/HostUpdateService.cs,
    WindowsSignatureVerifier.cs and the button of MainWindow.xaml.cs)

    The manifest of the latest release, the download of its installer into the
    temporary directory, and the checks before the installer is started.  The
    network, the reader of the manifest, [Uri] and WinTrust are parameters; any
    call on a file may throw. *)
From stdpp Require Import base gmap list strings.
From Stdlib Require Import Ascii ZArith Lia.
From Stdlib Require Strings.String.
From S2P Require Import Prelude RustStd Hex Primitives HttpText PyStd PluginValidation DotNet ControlViewModel.
Open Scope string_scope.
Open Scope Z_scope.
Open Scope list_scope.
Open Scope method_scope.

Module ControlUpdate.

(** Strings and objects that JSON may leave [null] are options. *)
Record ReleaseArtifact := { Url : option string; Sha256 : option string }.
Record ReleaseManifest := { SchemaVersion : Z; Version : option string; Host : option ReleaseArtifact }.

Definition MaximumInstallerBytes : Z := 256 * 1024 * 1024.
Definition ManifestUri : string :=
  "https://github.com/NekoGryphou/decky-my-rig/releases/latest/download/release-manifest.json".

(** ** Versions *)

(** A number of a version: without leading zeros, at most [Int32.MaxValue].
    [\d] also matches the digits of other scripts, which [Version.TryParse]
    refuses. *)
Definition version_number (s : string) : option Z :=
  match nonempty_digits s with
  | Some n => if bool_decide (decimal n = s) && (n <=? int32_max) then Some n else None
  | None => None
  end.

(** [$] also matches before a line feed at the end, which [Version.TryParse]
    takes for white space. *)
Fixpoint trim_line_feed (s : string) : string :=
  match s with
  | EmptyString => EmptyString
  | String c EmptyString => if Ascii.eqb c LF then EmptyString else s
  | String c s' => String c (trim_line_feed s')
  end.

(** [StrictVersion.IsMatch] and [Version.TryParse]. *)
Definition strict_version (s : string) : option (Z * Z * Z) :=
  match split_char "."%char (trim_line_feed s) with
  | [a; b; c] =>
      match version_number a, version_number b, version_number c with
      | Some a, Some b, Some c => Some (a, b, c)
      | _, _, _ => None
      end
  | _ => None
  end.

(** [available > installed]. *)
Definition newer (available installed : Z * Z * Z) : bool :=
  let '(a1, a2, a3) := available in
  let '(b1, b2, b3) := installed in
  (b1 <? a1) || ((a1 =? b1) && ((b2 <? a2) || ((a2 =? b2) && (b3 <? a3)))).

(** ** Locations *)

Record Uri := { Scheme : string; UriHost : string; AbsolutePath : string }.

(** [Uri.TryCreate(text, UriKind.Absolute, out uri)]. *)
Class Uris := try_create : string -> option Uri.

Definition trusted_location (uri : Uri) : bool :=
  bool_decide (Scheme uri = "https") && eq_ignore_ascii_case (UriHost uri) "github.com"
  && String.prefix "/NekoGryphou/decky-my-rig/releases/download/" (AbsolutePath uri).

(** ** Files and the network *)

(** What the next call on a file meets; a write that throws may have written a
    beginning. *)
Inductive file_fault := NoFault | Throws (e : cs_exn) (written : nat).

(** A response: the bytes each read returns, or what it throws. *)
Record HttpResponse := {
  StatusCode : Z;
  ContentLength : option Z;
  content : list (result bytes cs_exn);
}.

Class HttpClient (N : Type) := get_async : string -> method N HttpResponse.

(** [JsonSerializer.DeserializeAsync<ReleaseManifest>]. *)
Class ManifestReader := read_manifest : list (result bytes cs_exn) -> result (option ReleaseManifest) cs_exn.

Record Desk {N : Type} := MkDesk {
  temp_files : gmap string bytes;
  file_faults : list file_fault;
  net : N;
}.
Arguments Desk N : clear implicits.
Arguments MkDesk {N}.

Section Update.
Context {P : Primitives} {U : Uris} {N : Type} {HC : HttpClient N} {MR : ManifestReader}.

Abbreviation desk := (Desk N).

(** A call on a file that changes the directory by [f], or by [partly n] when
    it throws. *)
Definition file_call {A} (partly : nat -> gmap string bytes -> gmap string bytes)
    (f : gmap string bytes -> result A cs_exn * gmap string bytes) : method desk A := fun s =>
  match file_faults s with
  | Throws e n :: fs => (Err e, MkDesk (partly n (temp_files s)) fs (net s))
  | fs => let '(r, files) := f (temp_files s) in (r, MkDesk files (tail fs) (net s))
  end.

Definition unchanged (n : nat) (files : gmap string bytes) : gmap string bytes := files.

(** [new FileStream(path, FileMode.Create, ...)]. *)
Definition create_file (path : string) : method desk unit :=
  file_call unchanged (fun files => (Ok tt, <[path := []]> files)).

Definition append_to (path : string) (data : bytes) (files : gmap string bytes) : gmap string bytes :=
  alter (fun old => old ++ data) path files.

Definition write_file (path : string) (data : bytes) : method desk unit :=
  file_call (fun n => append_to path (take n data)) (fun files => (Ok tt, append_to path data files)).

Definition close_file : method desk unit := file_call unchanged (fun files => (Ok tt, files)).

(** [File.OpenRead] and [SHA256.HashDataAsync]. *)
Definition hash_file (path : string) : method desk bytes :=
  file_call unchanged (fun files =>
    (match files !! path with Some data => Ok (sha256 data) | None => Err (IOException "file not found") end, files)).

(** [File.Delete], which does not mind a missing file. *)
Definition delete_file (path : string) : method desk unit :=
  file_call unchanged (fun files => (Ok tt, delete path files)).

(** [GetAsync] and [EnsureSuccessStatusCode]. *)
Definition download (uri : string) : method desk HttpResponse := fun s =>
  let '(r, n) := get_async uri (net s) in
  (let? response := r in
   if (200 <=? StatusCode response) && (StatusCode response <? 300) then Ok response else Err HttpRequestException,
   MkDesk (temp_files s) (file_faults s) n).

Definition too_large : cs_exn := InvalidDataException "The host installer exceeds the allowed size.".

(** The loop over the reads; a read of no bytes is the end. *)
Fixpoint copy_loop (path : string) (reads : list (result bytes cs_exn)) (total : Z) : method desk unit :=
  match reads with
  | [] | Ok [] :: _ => returns_value tt
  | Err e :: _ => throw e
  | Ok data :: reads =>
      let total := total + Z.of_nat (length data) in
      if MaximumInstallerBytes <? total then throw too_large
      else write_file path data ;;; copy_loop path reads total
  end.

(** [await using]: the file is closed, whatever happens. *)
Definition using_file (body : method desk unit) : method desk unit := fun s =>
  let '(r, s) := body s in (close_file ;;; fun s => (r, s)) s.

(** [GetTempPath()] ends with a separator. *)
Definition destination (temp_path version : string) : string :=
  temp_path +:+ "DeckyMyRig_Host__Windows_x64-" +:+ version +:+ ".exe".

(** The statements of the [try] block. *)
Definition fetch (verify : string -> gmap string bytes -> result bool cs_exn) (url sha path : string)
    : method desk string :=
  response <- download url ;;
  (if match ContentLength response with Some n => MaximumInstallerBytes <? n | None => false end
   then throw too_large else returns_value tt) ;;;
  create_file path ;;;
  using_file (copy_loop path (content response) 0) ;;;
  checksum <- hash_file path ;;
  if negb (bool_decide (Some checksum = of_hex sha)) then
    throw (InvalidDataException "The downloaded installer checksum does not match the release manifest.")
  else
    trusted <- (fun s => (verify path (temp_files s), s)) ;;
    if negb trusted then throw (InvalidDataException "Windows could not verify the installer publisher signature.")
    else returns_value path.

(** The [catch] block. *)
Definition discard {A} (path : string) (e : cs_exn) : method desk A :=
  try_catch (delete_file path) (fun d => if is_IOException d then returns_value tt else throw d) ;;; throw e.

(** The manifest, checked: its version, its installer's location and checksum;
    [None] if it is not newer. *)
Definition checked_manifest (installed : Z * Z * Z) (manifest : ReleaseManifest)
    : result (option (string * string * string)) cs_exn :=
  let invalid := Err (InvalidDataException "The release manifest version is invalid.") in
  if negb (SchemaVersion manifest =? 1) then invalid
  else match Version manifest with
  | None => Err ArgumentNullException
  | Some version =>
      match strict_version version with
      | None => invalid
      | Some available =>
          if negb (newer available installed) then Ok None
          else
            let untrusted := Err (InvalidDataException "The release manifest contains an untrusted installer location.") in
            match Host manifest with
            | None => untrusted
            | Some host =>
                match Url host with
                | None => untrusted
                | Some url =>
                    match try_create url with
                    | None => untrusted
                    | Some uri =>
                        if negb (trusted_location uri) then untrusted
                        else match Sha256 host with
                        | None => Err NullReferenceException
                        | Some sha =>
                            if negb (str_len sha =? 64)%nat || negb (str_all Validation.is_hex sha)
                            then Err (InvalidDataException "The release manifest contains an invalid installer checksum.")
                            else Ok (Some (version, url, sha))
                        end
                    end
                end
            end
      end
  end.

Definition DownloadUpdateAsync (temp_path installed_version : string)
    (verify : string -> gmap string bytes -> result bool cs_exn) : method desk (option string) :=
  match strict_version installed_version with
  | None => throw (InvalidDataException "The installed host version is invalid.")
  | Some installed =>
      response <- download ManifestUri ;;
      manifest <- (fun s => (let? m := read_manifest (content response) in
        ok_or m (InvalidDataException "The release manifest is empty."), s)) ;;
      release <- (fun s => (checked_manifest installed manifest, s)) ;;
      match release with
      | None => returns_value None
      | Some (version, url, sha) =>
          let path := destination temp_path version in
          path <- try_catch (fetch verify url sha path) (discard path) ;;
          returns_value (Some path)
      end
  end.

End Update.

(** ** [WindowsSignatureVerifier] *)

(** WinTrust and the certificate of a signed file. *)
Class WinTrust := {
  win_verify_trust : bytes -> Z;
  signer_thumbprint : bytes -> result string cs_exn;
}.

(** [expected] is the thumbprint built into the assembly, if there is one. *)
Definition is_trusted {W : WinTrust} (expected : option string) (path : string) (files : gmap string bytes)
    : result bool cs_exn :=
  match expected with
  | None => Ok false
  | Some expected =>
      if bool_decide (strip expected = "") || bool_decide (expected = "UNCONFIGURED") then Ok false
      else match files !! path with
      | None => Ok false
      | Some data =>
          if negb (win_verify_trust data =? 0) then Ok false
          else let? thumbprint := signer_thumbprint data in Ok (eq_ignore_ascii_case thumbprint expected)
      end
  end.

(** ** The button *)

Inductive click_outcome :=
| InstallerStarted (path : string)
| UpToDate (text : string)
| ErrorShown
| Unhandled (e : cs_exn).

(** The filter of [UpdateHost_Click]. *)
Definition shown_to_user (e : cs_exn) : bool :=
  is_IOException e || bool_decide (e = HttpRequestException) || bool_decide (e = InvalidOperationException)
  || bool_decide (e = OperationCanceledException) || bool_decide (e = CryptographicException)
  || bool_decide (e = Win32Exception) || bool_decide (e = UnauthorizedAccessException)
  || bool_decide (e = JsonException).

(** [start] is [Process.Start] of the installer. *)
Definition UpdateHost_Click {P : Primitives} {U : Uris} {N} {HC : HttpClient N} {MR : ManifestReader} {W : WinTrust}
    (temp_path : string) (expected : option string) (start : string -> result unit cs_exn)
    (vm : ControlViewModel.ViewModel) (s : Desk N) : click_outcome * Desk N :=
  let failed e := if shown_to_user e then ErrorShown else Unhandled e in
  match DownloadUpdateAsync temp_path (ControlViewModel.hostVersion vm) (is_trusted expected) s with
  | (Ok None, s) => (UpToDate ("Host " +:+ ControlViewModel.hostVersion vm +:+ " is up to date."), s)
  | (Ok (Some path), s) => (match start path with Ok _ => InstallerStarted path | Err e => failed e end, s)
  | (Err e, s) => (failed e, s)
  end.

(** ** Only a verified installer is returned *)

Section Verified.
Context {P : Primitives} {U : Uris} {N : Type} {HC : HttpClient N} {MR : ManifestReader}.
Implicit Types s : Desk N.

(** The calls on files, when they return. *)
Lemma file_call_Ok {A} partly f s (a : A) s' :
  file_call partly f s = (Ok a, s') -> f (temp_files s) = (Ok a, temp_files s').
Proof.
  unfold file_call. destruct (file_faults s) as [|[|e n] fs]; [| |done];
    destruct (f (temp_files s)) as [r files]; by intros [= -> <-].
Qed.

(** The bytes the reads give before the end of the stream, and whether none of
    them throws. *)
Fixpoint received (reads : list (result bytes cs_exn)) : bytes :=
  match reads with
  | [] | Ok [] :: _ | Err _ :: _ => []
  | Ok data :: reads => data ++ received reads
  end.

Fixpoint complete (reads : list (result bytes cs_exn)) : bool :=
  match reads with
  | [] | Ok [] :: _ => true
  | Err _ :: _ => false
  | Ok _ :: reads => complete reads
  end.

Lemma copy_loop_Ok path reads total s s' old :
  temp_files s !! path = Some old -> Z.of_nat (length old) = total -> total <= MaximumInstallerBytes ->
  copy_loop path reads total s = (Ok tt, s') ->
  temp_files s' !! path = Some (old ++ received reads) /\
  Z.of_nat (length (old ++ received reads)) <= MaximumInstallerBytes.
Proof.
  revert total s old; induction reads as [|[[|b data]|e] reads IH]; intros total s old Hs Hl Hm H; cbn [copy_loop] in H.
  - injection H as <-. cbn [received]. rewrite app_nil_r. split; [done|lia].
  - injection H as <-. cbn [received]. rewrite app_nil_r. split; [done|lia].
  - cbv zeta in H. destruct (MaximumInstallerBytes <? total + Z.of_nat (length (b :: data))) eqn:E; [done|]. bool_to_prop.
    apply andthen_Ok in H as ([] & s1 & Hw & H). apply file_call_Ok in Hw as [= Hf].
    apply (IH _ s1 (old ++ b :: data)) in H; [|rewrite <- Hf; unfold append_to; by rewrite lookup_alter_eq, Hs
      |by rewrite length_app; lia|done].
    by rewrite <- app_assoc in H.
  - done.
Qed.

(** The loop when no call on a file throws. *)
Lemma copy_loop_fine path reads total (files : gmap string bytes) (n : N) old :
  files !! path = Some old -> complete reads = true ->
  total + Z.of_nat (length (received reads)) <= MaximumInstallerBytes ->
  copy_loop path reads total (MkDesk files [] n) = (Ok tt, MkDesk (<[path := old ++ received reads]> files) [] n).
Proof.
  revert total files old; induction reads as [|[[|b data]|e] reads IH]; intros total files old Hf Hc Hm;
    cbn [copy_loop complete received] in *.
  - by rewrite app_nil_r, insert_id.
  - by rewrite app_nil_r, insert_id.
  - cbv zeta. rewrite length_app in Hm. rewrite (proj2 (Z.ltb_ge _ _)) by lia.
    unfold andthen, write_file, file_call. cbn [file_faults temp_files tail net].
    assert (append_to path (b :: data) files = <[path := old ++ b :: data]> files) as ->.
    { unfold append_to. apply map_eq. intros k. destruct (decide (k = path)) as [->|Hk].
      - by rewrite lookup_alter_eq, lookup_insert_eq, Hf.
      - by rewrite lookup_alter_ne, lookup_insert_ne by done. }
    rewrite (IH _ _ (old ++ b :: data)); [|apply lookup_insert_eq|done|lia].
    by rewrite insert_insert_eq, <- app_assoc.
  - done.
Qed.

(** The manifest that the network served to a desk, and the bytes of the file
    it serves at a location. *)
Definition offered_by s (s1 : Desk N) (manifest : ReleaseManifest) : Prop :=
  exists response, download ManifestUri s = (Ok response, s1) /\ read_manifest (content response) = Ok (Some manifest).

Definition served_at (url : string) s (data : bytes) : Prop :=
  exists response s', download url s = (Ok response, s') /\ received (content response) = data.

(** The file at [path] is the installer of a release: newer than the installed
    version, served at the location that the manifest read by this desk names,
    within the project's releases, and with the checksum the manifest gives. *)
Definition published (temp_path : string) (installed : Z * Z * Z) s (path : string) (data : bytes) : Prop :=
  exists s1 manifest version available host url uri sha,
    offered_by s s1 manifest /\ SchemaVersion manifest = 1 /\ Version manifest = Some version /\
    strict_version version = Some available /\ newer available installed = true /\
    Host manifest = Some host /\ Url host = Some url /\ Sha256 host = Some sha /\
    try_create url = Some uri /\ trusted_location uri = true /\
    served_at url s1 data /\ of_hex sha = Some (sha256 data) /\ path = destination temp_path version.

(** The file at [path] is the one that was served at [url], with the checksum
    [sha], and was verified. *)
Definition verified (verify : string -> gmap string bytes -> result bool cs_exn) (url sha path : string) s
    (files : gmap string bytes) : Prop :=
  exists data, served_at url s data /\ files !! path = Some data /\
    Z.of_nat (length data) <= MaximumInstallerBytes /\ of_hex sha = Some (sha256 data) /\ verify path files = Ok true.

Lemma download_files uri s r s' : download uri s = (r, s') -> temp_files s' = temp_files s /\ file_faults s' = file_faults s.
Proof. unfold download. destruct (get_async uri (net s)) as [x n]. by intros [= _ <-]. Qed.

Lemma fetch_Ok verify url sha path s p s' :
  fetch verify url sha path s = (Ok p, s') -> p = path /\ verified verify url sha path s (temp_files s').
Proof.
  unfold fetch. intros H. apply andthen_Ok in H as (response & s1 & Hresp & H).
  apply andthen_Ok in H as ([] & s2 & _ & H).
  apply andthen_Ok in H as ([] & s3 & Hc%file_call_Ok & H). injection Hc as Hc.
  apply andthen_Ok in H as ([] & s4 & Hu & H). unfold using_file in Hu.
  destruct (copy_loop path (content response) 0 s3) as [r s5] eqn:El.
  apply andthen_Ok in Hu as ([] & s6 & Hcl%file_call_Ok & Hu). injection Hcl as Hcl. injection Hu as -> ->.
  destruct (copy_loop_Ok path (content response) 0 s3 s5 []) as [Hd Hm]; [|done|done|done|].
  { rewrite <- Hc. by rewrite lookup_insert_eq. }
  cbn [app] in Hd, Hm. set (data := received (content response)) in *.
  apply andthen_Ok in H as (checksum & s7 & Hh%file_call_Ok & H). rewrite <- Hcl, Hd in Hh. injection Hh as <- Hh.
  destruct (bool_decide (Some (sha256 data) = of_hex sha)) eqn:Es; [|done]. apply bool_decide_eq_true in Es. cbn [negb] in H.
  apply andthen_Ok in H as (trusted & s8 & Hv & H). injection Hv as Hv <-.
  destruct trusted; cbn [negb] in H; [|done]. injection H as <- <-. split; [done|].
  exists data. rewrite <- Hh in *. split; [by exists response, s1|]. done.
Qed.

(** ** Nothing else is left behind *)

(** The directory but for one file. *)
Definition same_but (path : string) s s' : Prop :=
  delete path (temp_files s') = delete path (temp_files s) /\
  (file_faults s = [] -> file_faults s' = []).

Definition keeps {A} (path : string) (c : method (Desk N) A) : Prop := forall s, same_but path s (c s).2.

Lemma same_but_refl path s : same_but path s s.
Proof. done. Qed.

Lemma keeps_pure {A} path (r : Desk N -> result A cs_exn) : keeps path (fun s => (r s, s)).
Proof. intros s. done. Qed.

Lemma keeps_andthen {A B} path (c : method (Desk N) A) (k : A -> method (Desk N) B) :
  keeps path c -> (forall a, keeps path (k a)) -> keeps path (andthen c k).
Proof.
  intros Hc Hk s. unfold andthen. pose proof (Hc s) as [H1 H2]. destruct (c s) as [[a|e] s1]; [|done].
  destruct (Hk a s1) as [H3 H4]. split; [by rewrite H3|auto].
Qed.

Lemma keeps_file_call {A} path partly (f : gmap string bytes -> result A cs_exn * gmap string bytes) :
  (forall n m, delete path (partly n m) = delete path m) -> (forall m, delete path (f m).2 = delete path m) ->
  keeps path (file_call partly f).
Proof.
  intros Hp Hf s. unfold same_but, file_call. specialize (Hf (temp_files s)).
  destruct (file_faults s) as [|[|e n] fs]; [| |by rewrite <- (Hp n (temp_files s))];
    destruct (f (temp_files s)) as [r m]; done.
Qed.

Lemma delete_append path data m : delete path (append_to path data m) = delete path m.
Proof. apply map_eq. intros k. unfold append_to. destruct (decide (k = path)) as [->|H];
  [by rewrite !lookup_delete_eq|by rewrite !lookup_delete_ne, lookup_alter_ne]. Qed.

Lemma keeps_copy_loop path reads total : keeps path (copy_loop path reads total).
Proof.
  revert total; induction reads as [|[[|b data]|e] reads IH]; intros total; cbn [copy_loop];
    [apply keeps_pure|apply keeps_pure| |apply keeps_pure].
  cbv zeta. destruct (MaximumInstallerBytes <? _); [apply keeps_pure|]. apply keeps_andthen; [|done].
  apply keeps_file_call; intros; apply delete_append.
Qed.

Lemma keeps_fetch verify url sha path : keeps path (fetch verify url sha path).
Proof.
  unfold fetch. apply keeps_andthen.
  { intros s. destruct (download url s) as [r s'] eqn:E. apply download_files in E as [E1 E2].
    unfold same_but. cbn [snd]. by rewrite E1, E2. }
  intros response. apply keeps_andthen; [destruct (ContentLength response); [case_match|]; apply keeps_pure|]. intros _.
  apply keeps_andthen; [apply keeps_file_call; [done|]; intros m; apply delete_insert_eq|]. intros _.
  apply keeps_andthen.
  { intros s. unfold using_file. pose proof (keeps_copy_loop path (content response) 0 s) as [H1 H2].
    destruct (copy_loop path (content response) 0 s) as [r s1].
    assert (keeps path (andthen close_file (fun _ s => (r, s)))) as Hc
      by (apply keeps_andthen; [by apply keeps_file_call|intros _; apply keeps_pure]).
    destruct (Hc s1) as [H3 H4]. split; [by rewrite H3|auto]. }
  intros _. apply keeps_andthen; [by apply keeps_file_call|]. intros checksum.
  case_match; [apply keeps_pure|]. apply keeps_andthen; [apply keeps_pure|]. intros trusted.
  by case_match; apply keeps_pure.
Qed.

(** A failed download is deleted. *)
Lemma discard_deletes {A} path e s (r : result A cs_exn) s' :
  file_faults s = [] -> discard path e s = (r, s') -> r = Err e /\ temp_files s' = delete path (temp_files s).
Proof.
  intros Hf. unfold discard, andthen, try_catch, delete_file, file_call. rewrite Hf. by intros [= <- <-].
Qed.

Lemma discard_throws {A} path e s (a : A) s' : discard path e s = (Ok a, s') -> False.
Proof. unfold discard. intros H. by apply andthen_Ok in H as (? & ? & _ & H). Qed.

Lemma checked_manifest_Ok installed manifest version url sha :
  checked_manifest installed manifest = Ok (Some (version, url, sha)) ->
  exists available host uri, SchemaVersion manifest = 1 /\ Version manifest = Some version /\
    strict_version version = Some available /\ newer available installed = true /\
    Host manifest = Some host /\ Url host = Some url /\ Sha256 host = Some sha /\
    try_create url = Some uri /\ trusted_location uri = true.
Proof.
  unfold checked_manifest. intros H.
  destruct (Z.eqb_spec (SchemaVersion manifest) 1); [|done]. cbn [negb] in H.
  destruct (Version manifest) as [v|]; [|done].
  destruct (strict_version v) as [available|] eqn:Ev; [|done]. destruct (newer available installed) eqn:En; [|done].
  cbn [negb] in H. destruct (Host manifest) as [host|]; [|done]. destruct (Url host) as [u|] eqn:Eurl; [|done].
  destruct (try_create u) as [uri|] eqn:Eu; [|done]. destruct (trusted_location uri) eqn:Et; [|done]. cbn [negb] in H.
  destruct (Sha256 host) as [x|] eqn:Esha; [|done]. destruct (_ || _); [done|]. injection H as <- <- <-. eauto 15.
Qed.

(** An update that is returned is the installer of a release newer than the
    installed version, is at most 256 MiB long, has a signature that was verified,
    and is what the file holds; a
    version that is not newer changes nothing; and after a failure, unless the
    calls on files fail too, the directory is as before or without the
    installer. *)
Theorem update_is_verified temp_path installed_version verify s :
  let '(r, s') := DownloadUpdateAsync temp_path installed_version verify s in
  match r with
  | Ok (Some path) =>
      exists installed data, strict_version installed_version = Some installed /\
        published temp_path installed s path data /\ temp_files s' !! path = Some data /\
        Z.of_nat (length data) <= MaximumInstallerBytes /\ verify path (temp_files s') = Ok true
  | Ok None => temp_files s' = temp_files s
  | Err _ => file_faults s = [] ->
      temp_files s' = temp_files s \/
      exists version, temp_files s' = delete (destination temp_path version) (temp_files s)
  end.
Proof.
  unfold DownloadUpdateAsync. destruct (strict_version installed_version) as [installed|] eqn:Ei; [|by left].
  unfold andthen at 1. destruct (download ManifestUri s) as [rd s1] eqn:Ed.
  pose proof (download_files _ _ _ _ Ed) as [Ef1 Ef2]. destruct rd as [response|e]; [|by left]. unfold andthen at 1.
  destruct (read_manifest (content response)) as [[manifest|]|e] eqn:Er; cbn [ok_or]; [|by left..].
  unfold andthen at 1. destruct (checked_manifest installed manifest) as [[[[version url] sha]|]|e] eqn:Em; [|done|by left].
  cbv zeta. unfold andthen at 1, try_catch.
  pose proof (keeps_fetch verify url sha (destination temp_path version) s1) as [Hk1 Hk2].
  destruct (fetch verify url sha (destination temp_path version) s1) as [[p|e] s2] eqn:Efe; cbn [snd] in *.
  - apply fetch_Ok in Efe as (-> & data & Hserved & Hfile & Hlen & Hsha & Hv).
    apply checked_manifest_Ok in Em as (available & host & uri & H1).
    exists installed, data. split; [done|]. split; [|done].
    exists s1, manifest, version, available, host, url, uri, sha. split; [by exists response|].
    repeat (split; [apply H1|]). done.
  - destruct (discard (destination temp_path version) e s2) as [[x|x] s3] eqn:Edi; [by apply discard_throws in Edi|].
    intros Hnf.
    rewrite <- Ef2 in Hnf. specialize (Hk2 Hnf). destruct (discard_deletes _ _ _ _ _ Hk2 Edi) as [_ Hd].
    right. exists version. by rewrite Hd, Hk1, Ef1.
Qed.

End Verified.

(** ** The button *)

Section Button.
Context {P : Primitives} {U : Uris} {N : Type} {HC : HttpClient N} {MR : ManifestReader} {W : WinTrust}.
Context (temp_path : string) (expected : option string) (start : string -> result unit cs_exn).
Implicit Types (vm : ControlViewModel.ViewModel) (s : Desk N).

Lemma is_trusted_true path files data :
  files !! path = Some data -> is_trusted expected path files = Ok true ->
  exists publisher signer, expected = Some publisher /\ strip publisher <> "" /\ publisher <> "UNCONFIGURED" /\
    win_verify_trust data = 0 /\ signer_thumbprint data = Ok signer /\ eq_ignore_ascii_case signer publisher = true.
Proof.
  intros Hf. unfold is_trusted. destruct expected as [publisher|]; [|done]. rewrite Hf.
  destruct (bool_decide (strip publisher = "")) eqn:E1; [done|].
  destruct (bool_decide (publisher = "UNCONFIGURED")) eqn:E2; [done|]. cbn [orb].
  apply bool_decide_eq_false in E1, E2. destruct (win_verify_trust data =? 0) eqn:E3; [|done]. bool_to_prop. cbn [negb].
  destruct (signer_thumbprint data) as [signer|] eqn:E4; [|done]. intros [= H]. exists publisher, signer. done.
Qed.

(** C35: the control application starts no installer but a verified one: the
    file it starts holds exactly the bytes that were served at the location
    named by the manifest the application read, a location within the project's
    releases; they are at most 256 MiB with the checksum of that manifest, whose
    version is newer than the host's; Windows trusts their signature, and the
    signer is the publisher whose thumbprint the application was built with. *)
Theorem started_installer_is_trusted vm s path s' :
  UpdateHost_Click temp_path expected start vm s = (InstallerStarted path, s') ->
  exists installed data publisher signer,
    strict_version (ControlViewModel.hostVersion vm) = Some installed /\
    published temp_path installed s path data /\ temp_files s' !! path = Some data /\
    Z.of_nat (length data) <= MaximumInstallerBytes /\
    expected = Some publisher /\ strip publisher <> "" /\ publisher <> "UNCONFIGURED" /\
    win_verify_trust data = 0 /\ signer_thumbprint data = Ok signer /\ eq_ignore_ascii_case signer publisher = true.
Proof.
  unfold UpdateHost_Click.
  pose proof (update_is_verified temp_path (ControlViewModel.hostVersion vm) (is_trusted expected) s) as Hv.
  destruct (DownloadUpdateAsync _ _ _ s) as [[[p|]|e] s1]; [|done|by destruct (shown_to_user e)].
  destruct (start p) as [[]|e]; [|by destruct (shown_to_user e)]. intros [= <- <-].
  destruct Hv as (installed & data & H1 & H2 & Hf & Hl & Ht).
  destruct (is_trusted_true _ _ _ Hf Ht) as (publisher & signer & HP).
  exists installed, data, publisher, signer. done.
Qed.

(** *** Rejections *)

Lemma invalid_data_unhandled m : shown_to_user (InvalidDataException m) = false.
Proof. reflexivity. Qed.

(** What the application says of an installer with these bytes. *)
Definition rejected (path sha : string) (data : bytes) (files : gmap string bytes) (m : string) : Prop :=
  if bool_decide (Some (sha256 data) = of_hex sha) then
    is_trusted expected path (<[path := data]> files) = Ok false /\
    m = "Windows could not verify the installer publisher signature."
  else m = "The downloaded installer checksum does not match the release manifest.".

Lemma fetch_rejected url sha path s response s1 m :
  file_faults s = [] -> download url s = (Ok response, s1) ->
  (forall n, ContentLength response = Some n -> n <= MaximumInstallerBytes) -> complete (content response) = true ->
  Z.of_nat (length (received (content response))) <= MaximumInstallerBytes ->
  rejected path sha (received (content response)) (temp_files s) m ->
  fetch (is_trusted expected) url sha path s =
    (Err (InvalidDataException m), MkDesk (<[path := received (content response)]> (temp_files s)) [] (net s1)).
Proof.
  intros Hf Hd Hcl Hc Hm Hr. pose proof (download_files _ _ _ _ Hd) as [Ef1 Ef2]. rewrite Hf in Ef2.
  destruct s1 as [files faults n]. cbn [temp_files file_faults net] in *. subst files faults.
  unfold fetch, andthen. rewrite Hd.
  assert ((match ContentLength response with Some n => MaximumInstallerBytes <? n | None => false end) = false) as ->.
  { destruct (ContentLength response) as [k|]; [|done]. apply Z.ltb_ge. by apply Hcl. }
  unfold returns_value, create_file, file_call at 1, using_file. cbn [file_faults temp_files tail net].
  rewrite (copy_loop_fine path _ 0 _ n []); [|apply lookup_insert_eq|done|lia].
  rewrite insert_insert_eq. cbn [app]. set (data := received (content response)) in *.
  unfold andthen, close_file, hash_file, file_call. cbn [file_faults temp_files tail net].
  rewrite lookup_insert_eq. unfold rejected in Hr. destruct (bool_decide (Some (sha256 data) = of_hex sha)); cbn [negb].
  - destruct Hr as [Ht ->]. cbn [temp_files]. by rewrite Ht.
  - by rewrite Hr.
Qed.

(** C37: a rejection is not shown to the user: [InvalidDataException] is neither
    an [IOException] nor any other type the button's handler names, so it ends
    the application.  That is so before the host has reported a version, of every
    manifest that is found invalid, and of every installer that was received in
    full with another checksum than the manifest's or a signature that is not
    trusted, which is deleted first. *)
Theorem rejected_update_is_unhandled vm s :
  (strict_version (ControlViewModel.hostVersion vm) = None ->
     UpdateHost_Click temp_path expected start vm s =
       (Unhandled (InvalidDataException "The installed host version is invalid."), s)) /\
  forall installed s1 manifest, strict_version (ControlViewModel.hostVersion vm) = Some installed ->
    offered_by s s1 manifest ->
    (forall m, checked_manifest installed manifest = Err (InvalidDataException m) ->
       UpdateHost_Click temp_path expected start vm s = (Unhandled (InvalidDataException m), s1)) /\
    (forall version url sha response s2 m,
       let path := destination temp_path version in
       checked_manifest installed manifest = Ok (Some (version, url, sha)) -> file_faults s = [] ->
       download url s1 = (Ok response, s2) ->
       (forall n, ContentLength response = Some n -> n <= MaximumInstallerBytes) ->
       complete (content response) = true ->
       Z.of_nat (length (received (content response))) <= MaximumInstallerBytes ->
       rejected path sha (received (content response)) (temp_files s) m ->
       exists s', UpdateHost_Click temp_path expected start vm s = (Unhandled (InvalidDataException m), s') /\
         temp_files s' = delete path (temp_files s)).
Proof.
  unfold UpdateHost_Click, DownloadUpdateAsync. split; [by intros ->|].
  intros installed s1 manifest -> (response0 & Hd0 & Hm0).
  pose proof (download_files _ _ _ _ Hd0) as [Ef1 Ef2].
  unfold andthen. rewrite Hd0, Hm0. cbn [ok_or]. split.
  - intros m ->. by rewrite invalid_data_unhandled.
  - intros version url sha response s2 m -> Hf Hd Hcl Hc Hm Hr. rewrite <- Ef1 in Hr. rewrite <- Ef2 in Hf.
    unfold try_catch. rewrite (fetch_rejected url sha _ s1 response s2 m Hf Hd Hcl Hc Hm Hr).
    unfold discard, andthen, try_catch, delete_file, file_call. cbn [file_faults temp_files tail net throw].
    eexists. split; [by rewrite invalid_data_unhandled|]. cbn [temp_files]. by rewrite delete_insert_eq, Ef1.
Qed.

End Button.

(** ** Runs *)

Module Releases.

#[local] Instance release_uris : Uris := fun text =>
  Some {| Scheme := "https"; UriHost := "GitHub.com";
          AbsolutePath := "/NekoGryphou/decky-my-rig/releases/download/v1.3.0/installer.exe" |}.

Definition installer : bytes := as_bytes "signed installer".

(** A web that offers an installer, read by read. *)
Record web := { offered : list (result bytes cs_exn) }.

#[local] Instance web_client : HttpClient web := fun uri w =>
  (Ok {| StatusCode := 200; ContentLength := None;
         content := if bool_decide (uri = ManifestUri) then [] else offered w |}, w).

(** The manifest of version 1.3.0, whatever the bytes. *)
#[local] Instance release : ManifestReader := fun _ =>
  Ok (Some {| SchemaVersion := 1; Version := Some "1.3.0";
              Host := Some {| Url := Some "installer";
                              Sha256 := Some (to_hex (sha256 (Primitives := toy) installer)) |} |}).

(** Windows trusts every file, and the signer's thumbprint is its first bytes. *)
#[local] Instance trusting : WinTrust := {|
  win_verify_trust _ := 0;
  signer_thumbprint data := Ok (String.string_of_list_byte (take 6 data));
|}.

Definition desk_of (reads : list (result bytes cs_exn)) : Desk web :=
  MkDesk ∅ [] {| offered := reads |}.

Definition window (version : string) : ControlViewModel.ViewModel :=
  ControlViewModel.MkViewModel None "Running" 47991 ControlViewModel.dash ControlViewModel.dash "Paired" None false version "".

Definition click (publisher version : string) (reads : list (result bytes cs_exn)) : click_outcome * Desk web :=
  UpdateHost_Click (P := toy) "C:\Temp\" (Some publisher) (fun _ => Ok tt) (window version) (desk_of reads).

Definition two_reads : list (result bytes cs_exn) := [Ok (take 5 installer); Ok (drop 5 installer)].

Example update_installs :
  (click "SIGNED" "1.2.3" two_reads).1 = InstallerStarted "C:\Temp\DeckyMyRig_Host__Windows_x64-1.3.0.exe" /\
  (click "SIGNED" "1.3.0" two_reads).1 = UpToDate "Host 1.3.0 is up to date." /\
  (click "SIGNED" "1.2.3" [Ok (take 5 installer); Err (IOException "connection reset")]).1 = ErrorShown.
Proof. vm_compute. done. Qed.

Lemma started_installer_is_trusted_witness :
  exists data, temp_files (click "SIGNED" "1.2.3" two_reads).2 !! "C:\Temp\DeckyMyRig_Host__Windows_x64-1.3.0.exe" = Some data /\
    published (P := toy) "C:\Temp\" (1, 2, 3) (desk_of two_reads) "C:\Temp\DeckyMyRig_Host__Windows_x64-1.3.0.exe" data.
Proof.
  destruct (started_installer_is_trusted (P := toy) "C:\Temp\" (Some "SIGNED") (fun _ => Ok tt) (window "1.2.3") (desk_of two_reads)
    "C:\Temp\DeckyMyRig_Host__Windows_x64-1.3.0.exe" (click "SIGNED" "1.2.3" two_reads).2)
    as (installed & data & _ & _ & Hi & Hp & Hd & _).
  { vm_compute. reflexivity. }
  assert (installed = (1, 2, 3)) as -> by (vm_compute in Hi; congruence).
  exists data. exact (conj Hd Hp).
Defined.

(** The manifest and the download of these runs. *)
Definition served (reads : list (result bytes cs_exn)) : HttpResponse :=
  {| StatusCode := 200; ContentLength := None; content := reads |}.

Definition the_manifest : ReleaseManifest :=
  {| SchemaVersion := 1; Version := Some "1.3.0";
     Host := Some {| Url := Some "installer"; Sha256 := Some (to_hex (sha256 (Primitives := toy) installer)) |} |}.

(** An installer of another publisher. *)
Lemma rejected_update_is_unhandled_witness :
  exists s', click "OTHERS" "1.2.3" two_reads =
      (Unhandled (InvalidDataException "Windows could not verify the installer publisher signature."), s') /\
    temp_files s' = delete "C:\Temp\DeckyMyRig_Host__Windows_x64-1.3.0.exe" ∅.
Proof.
  destruct (rejected_update_is_unhandled (P := toy) "C:\Temp\" (Some "OTHERS") (fun _ => Ok tt) (window "1.2.3") (desk_of two_reads))
    as [_ H].
  destruct (H (1, 2, 3) (desk_of two_reads) the_manifest) as [_ H2]; [vm_compute; reflexivity|by exists (served [])|].
  apply (H2 "1.3.0" "installer" (to_hex (sha256 (Primitives := toy) installer)) (served two_reads) (desk_of two_reads));
    [vm_compute; reflexivity|reflexivity|reflexivity|discriminate|reflexivity|vm_compute; discriminate|].
  unfold rejected. vm_compute. split; reflexivity.
Defined.

Example wrong_checksum_unhandled :
  click "SIGNED" "1.2.3" [Ok installer; Ok installer] =
    (Unhandled (InvalidDataException "The downloaded installer checksum does not match the release manifest."),
     desk_of [Ok installer; Ok installer]).
Proof. vm_compute. reflexivity. Qed.

End Releases.

End ControlUpdate.
