(* ===== verification/ControlLink.v ===== *)
(** * The control application and the host's management pipe

    The two derives of management_ipc.rs as JSON values, the laws that connect
    serde_json with System.Text.Json, and the pipe of the host as the stream of
    [ControlClient], with a host whose tasks take time.  The client's operations
    then return what the host's [handle] answers. *)
From stdpp Require Import base gmap list strings.
From Stdlib Require Import Ascii ZArith Lia.
From Stdlib Require Strings.String.
From S2P Require Import Prelude RustStd Fs Primitives Auth Pairing Storage Power Versioning Wire HttpText PyStd Runtime Server Management ManagementIpc PipeServer Requests PairRequests DotNet ControlClient.
Open Scope string_scope.
Open Scope Z_scope.
Open Scope list_scope.

(** ** The JSON of the two derives *)

Definition option_json (o : option string) : json := match o with Some s => JStr s | None => JNull end.

(** [#[derive(Serialize)]] with [rename_all = "camelCase"]. *)
Definition response_json (r : ManagementResponse) : json := JObj
  [("ok", JBool (ok r)); ("error", option_json (response_error r));
   ("serviceRunning", JBool (service_running r)); ("port", JInt (response_port r));
   ("paired", JBool (response_paired r)); ("pairingCode", option_json (response_pairing_code r));
   ("expiresInSeconds", JInt (expires_in_seconds r)); ("hostVersion", JStr (response_host_version r));
   ("pluginVersion", option_json (plugin_version r)); ("versionStatus", JStr (version_status r))].

(** [#[derive(Deserialize)]] with [rename_all = "snake_case"]. *)
Definition operation_name (o : Operation) : string :=
  match o with
  | GetServiceInfo => "get_service_info"
  | GetPairingState => "get_pairing_state"
  | GeneratePairingCode => "generate_pairing_code"
  end.

(** The values both sides exchange: objects whose fields are texts in UTF-8,
    natural numbers, truth values and [null]. *)
Definition scalar_valid (v : json) : Prop :=
  match v with
  | JNull | JBool _ => True
  | JInt z => 0 <= z
  | JStr s => str_wf s
  | _ => False
  end.

Definition flat_valid (v : json) : Prop :=
  match v with
  | JObj l => Forall (fun kv => str_wf kv.1 /\ scalar_valid kv.2) l
  | _ => False
  end.

(** A bound on the length of a compact text: an escaped character takes at most
    six bytes. *)
Definition string_bound (s : string) : nat := 2 + 6 * str_len s.

Definition scalar_bound (v : json) : nat :=
  match v with JStr s => string_bound s | JInt z => string_bound (str_int z) | _ => 5 end.

Definition flat_bound (v : json) : nat :=
  match v with
  | JObj l => 2 + list_sum (map (fun kv => string_bound kv.1 + scalar_bound kv.2 + 2) l)
  | _ => 0
  end%nat.

(** serde_json and System.Text.Json read each other's texts (RFC 8259), and both
    write compact ones. *)
Class JsonInterop (J : ManagementJson) (D : ControlClient.DotNetJson) := {
  response_text : json -> bytes;
  response_to_vec_json r : flat_valid (response_json r) -> response_to_vec r = Ok (response_text (response_json r));
  parse_response_text v : flat_valid v -> ControlClient.parse_utf8 (response_text v) = Some v;
  response_text_bound v : flat_valid v -> (1 <= length (response_text v) <= flat_bound v)%nat;
  request_from_json o :
    request_from_slice (ControlClient.serialize_utf8 (ControlClient.request_json (operation_name o))) =
      Ok {| operation := o |};
  request_bound v : flat_valid v -> (1 <= length (ControlClient.serialize_utf8 v) <= flat_bound v)%nat;
}.

(** ** What the application reads *)

Definition state_of (r : ManagementResponse) : ControlClient.ManagementState :=
  ControlClient.MkManagementState (ok r) (response_error r) (service_running r) (response_port r) (response_paired r)
    (response_pairing_code r) (expires_in_seconds r) (Some (response_host_version r)) (plugin_version r)
    (Some (version_status r)).

Lemma read_option_json o : ControlClient.read_string (option_json o) = Ok o.
Proof. by destruct o. Qed.

Lemma read_int_range lo hi z : lo <= z <= hi -> ControlClient.read_int lo hi (JInt z) = Ok z.
Proof.
  intros [H1 H2]. unfold ControlClient.read_int. by rewrite (proj2 (Z.leb_le _ _) H1), (proj2 (Z.leb_le _ _) H2).
Qed.

(** A property that one entry names. *)
Lemma property_none {A} (convert : json -> result A cs_exn) name l :
  forallb (fun k => negb (eq_ignore_ascii_case k name)) (map fst l) = true ->
  forall acc, fold_left (fun acc (kv : string * json) =>
    if eq_ignore_ascii_case kv.1 name then let? _ := acc in convert kv.2 else acc) l acc = acc.
Proof.
  induction l as [|[k v] l IH]; [done|]. cbn [map forallb fold_left fst snd]. intros H acc.
  apply andb_true_iff in H as [Hk%negb_true_iff Hl]. rewrite Hk. by apply IH.
Qed.

Lemma property_one {A} (convert : json -> result A cs_exn) d name l1 k v l2 :
  forallb (fun k => negb (eq_ignore_ascii_case k name)) (map fst l1) = true ->
  eq_ignore_ascii_case k name = true ->
  forallb (fun k => negb (eq_ignore_ascii_case k name)) (map fst l2) = true ->
  ControlClient.property convert d name (l1 ++ (k, v) :: l2) = convert v.
Proof.
  intros H1 Hk H2. unfold ControlClient.property. rewrite fold_left_app, (property_none convert name l1 H1).
  cbn [fold_left fst snd]. rewrite Hk. by apply property_none.
Qed.

(** The entry at the position [n] is the only one of its name. *)
Ltac pick_property n :=
  match goal with
  | |- context [ControlClient.property ?c ?d ?name ?l] =>
      let l1 := eval cbn [firstn] in (firstn n l) in
      let l2 := eval cbn [skipn] in (skipn n l) in
      match l2 with
      | (?k, ?v) :: ?l2 =>
          change l with (l1 ++ (k, v) :: l2);
          rewrite (property_one c d name l1 k v l2) by (vm_compute; reflexivity); cbn [app]
      end
  end.

(** Every field of the response arrives, under its other name. *)
Lemma deserialize_response r :
  in_range u16_max (response_port r) -> in_range u64_max (expires_in_seconds r) ->
  ControlClient.deserialize (response_json r) = Ok (Some (state_of r)).
Proof.
  intros Hp He. unfold in_range, u16_max, u64_max in *. unfold ControlClient.deserialize, response_json.
  pick_property 0%nat. cbn [ControlClient.read_bool]. pick_property 1%nat. rewrite read_option_json.
  pick_property 2%nat. cbn [ControlClient.read_bool].
  pick_property 3%nat. unfold ControlClient.read_int32. rewrite read_int_range by (unfold int32_max; lia).
  pick_property 4%nat. cbn [ControlClient.read_bool]. pick_property 5%nat. rewrite read_option_json.
  pick_property 6%nat. unfold ControlClient.read_uint64. rewrite read_int_range by (unfold u64_max; lia).
  pick_property 7%nat. cbn [ControlClient.read_string]. pick_property 8%nat. rewrite read_option_json.
  pick_property 9%nat. done.
Qed.

(** ** The pipe *)

(** The host, what was written on the connection, what is left to read of the
    host's answer once it has been asked for, and how many effects the host's
    tasks had and how often the application read the wall clock. *)
Record PipeLink {P : Primitives} {St Pw : Type} := MkPipeLink {
  link_state : AppState;
  link_env : Env St Pw;
  written : bytes;
  incoming : option bytes;
  effects : nat;
  readings : nat;
}.
Arguments PipeLink {P} St Pw.
Arguments MkPipeLink {P St Pw}.

Section Link.
Context {P : Primitives} {J : ManagementJson} {St : Type} {CS : CredentialStore St} {Pw : Type}.
Context (port : Z) (lag adjust : nat -> Z).

(** Time passes on the host before every effect of its tasks. *)
Abbreviation pass := (pass_time (St := St) (Pw := Pw) lag adjust).
Abbreviation link := (PipeLink St Pw).
Implicit Types l : link.

(** The host's end of the connection, which gets all that was written. *)
Definition connection (input : bytes) : PipeClient :=
  {| pipe_input := input; write_length := Fine; write_body := Fine; flush := Fine |}.

Definition serve_link l : link :=
  match incoming l with
  | Some _ => l
  | None =>
      match run_timed pass (effects l) (handle (connection (written l)) port) (link_state l) (link_env l) with
      | (Done (_, sent), w, e, n) => MkPipeLink w e (written l) (Some sent) n (readings l)
      | (Panicked, w, e, n) => MkPipeLink w e (written l) (Some []) n (readings l)
      end
  end.

(** The pipe [name] of the local machine is [\\.\pipe\name]; without a server
    the attempt to connect times out. *)
Definition link_connect (name : string) (timeout : Z) : method link unit := fun l =>
  if bool_decide ("\\.\pipe\" +:+ name = PIPE_NAME)
  then (Ok tt, MkPipeLink (link_state l) (link_env l) [] None (effects l) (readings l))
  else (Err TimeoutException, l).

Definition link_write (data : bytes) : method link unit := fun l =>
  (Ok tt, MkPipeLink (link_state l) (link_env l) (written l ++ data) (incoming l) (effects l) (readings l)).

Definition link_read (n : nat) : method link bytes := fun l =>
  let l := serve_link l in
  let left := default [] (incoming l) in
  if (n <=? length left)%nat
  then (Ok (take n left),
        MkPipeLink (link_state l) (link_env l) (written l) (Some (drop n left)) (effects l) (readings l))
  else (Err EndOfStreamException, l).

#[export] Instance link_stream : ControlClient.PipeStream link := {|
  ControlClient.connect_async := link_connect;
  ControlClient.write_async := link_write;
  ControlClient.flush_async l := (Ok tt, l);
  ControlClient.read_exactly := link_read;
|}.

(** ** An exchange *)

(** The host's answer to an operation. *)
Definition answer_to (o : Operation) : prog lock data (Env St Pw) ManagementResponse :=
  bind (perform o) (respond port).

(** The bounds of a response that the application reads. *)
Record response_fits (r : ManagementResponse) : Prop := {
  fits_port : in_range u16_max (response_port r);
  fits_seconds : in_range u64_max (expires_in_seconds r);
  fits_text : flat_valid (response_json r);
  fits_size : (flat_bound (response_json r) <= Z.to_nat 65536)%nat;
}.

Context {D : ControlClient.DotNetJson} {JI : JsonInterop J D}.

Lemma request_size o :
  1 <= Z.of_nat (length (ControlClient.serialize_utf8 (ControlClient.request_json (operation_name o)))) <= 4096.
Proof.
  destruct (request_bound (ControlClient.request_json (operation_name o))) as [H1 H2].
  { constructor; [|constructor]. split; [|destruct o]; vm_compute; reflexivity. }
  assert (flat_bound (ControlClient.request_json (operation_name o)) <= 4096)%nat by (destruct o; vm_compute; lia). lia.
Qed.

(** The host's task for a well-formed request. *)
Lemma handle_request o n w e r w' e' n' :
  run_timed pass n (answer_to o) w e = (Done r, w', e', n') -> response_fits r ->
  run_timed pass n
    (handle (connection (frame (ControlClient.serialize_utf8 (ControlClient.request_json (operation_name o))))) port) w e =
    (Done (Ok tt, frame (response_text (response_json r))), w', e', n').
Proof.
  intros Hr [_ _ Hv _]. unfold handle. cbn [pipe_input connection].
  rewrite (proj2 (read_request_iff_framed _ (ControlClient.serialize_utf8 (ControlClient.request_json (operation_name o))))).
  2:{ split; [apply request_size|]. exists []. by rewrite app_nil_r. }
  rewrite request_from_json. cbn [operation].
  unfold answer_to in Hr. rewrite run_timed_bind in Hr. rewrite run_timed_bind.
  destruct (run_timed pass n (perform o) w e) as [[[[p|] w1] e1] n1]; [|done]. rewrite run_timed_bind, Hr.
  rewrite (response_to_vec_json r Hv). done.
Qed.

Lemma frame_split (x : bytes) :
  length (to_le_bytes 4 (as_u32 (Z.of_nat (length x)))) = 4%nat.
Proof. unfold to_le_bytes. by rewrite length_rev, to_be_bytes_length. Qed.

(** Reading the frame of a response piece by piece. *)
Lemma link_read_frame (x : bytes) l :
  incoming l = Some (frame x) ->
  link_read 4 l = (Ok (take 4 (frame x)),
    MkPipeLink (link_state l) (link_env l) (written l) (Some x) (effects l) (readings l)).
Proof.
  intros H. unfold link_read, serve_link. rewrite H. cbn [incoming]. rewrite H. change (default [] (Some (frame x))) with (frame x).
  rewrite (proj2 (Nat.leb_le _ _)) by (unfold frame; rewrite length_app, frame_split; lia).
  reflexivity.
Qed.

Lemma link_read_rest (x : bytes) l :
  incoming l = Some x ->
  link_read (length x) l = (Ok x,
    MkPipeLink (link_state l) (link_env l) (written l) (Some []) (effects l) (readings l)).
Proof.
  intros H. unfold link_read, serve_link. rewrite H. cbn [incoming]. rewrite H. change (default [] (Some x)) with x.
  by rewrite Nat.leb_refl, firstn_all, drop_all.
Qed.

Lemma link_read_serve n l : link_read n (serve_link l) = link_read n l.
Proof.
  unfold link_read. assert (serve_link (serve_link l) = serve_link l) as ->; [|done].
  unfold serve_link at 2 3. destruct (incoming l) eqn:E; [unfold serve_link; by rewrite E|].
  destruct (run_timed _ _ _ _ _) as [[[[[? ?]|] ?] ?] ?]; done.
Qed.

(** An operation of the application returns the state of the host's answer. *)
Theorem send_async_returns o l r w' e' n' :
  run_timed pass (effects l) (answer_to o) (link_state l) (link_env l) = (Done r, w', e', n') -> response_fits r ->
  exists l', ControlClient.send_async ControlClient.DefaultPipeName (operation_name o) l = (Ok (state_of r), l') /\
    link_state l' = w' /\ link_env l' = e' /\ effects l' = n' /\ readings l' = readings l.
Proof.
  intros Hr Hf. pose proof Hf as [Hp Hs Hv Hb]. pose proof (response_text_bound (response_json r) Hv) as [Hl1 Hl2].
  set (req := ControlClient.serialize_utf8 (ControlClient.request_json (operation_name o))).
  set (x := response_text (response_json r)) in *.
  set (l1 := MkPipeLink (link_state l) (link_env l) (frame req) None (effects l) (readings l)).
  assert (serve_link l1 = MkPipeLink w' e' (frame req) (Some (frame x)) n' (readings l)) as Hserve.
  { unfold serve_link. cbn [incoming l1 written link_state link_env effects readings]. subst req.
    by rewrite (handle_request o _ _ _ r w' e' n' Hr Hf). }
  unfold ControlClient.send_async, andthen. cbn [ControlClient.connect_async link_stream]. unfold link_connect.
  rewrite bool_decide_true by reflexivity. fold req.
  cbn [ControlClient.write_async ControlClient.flush_async ControlClient.read_exactly link_stream].
  unfold link_write. cbn [link_state link_env written incoming effects readings app].
  change (to_le_bytes 4 (Z.of_nat (length req) mod 2 ^ 32) ++ req) with (frame req). fold l1.
  rewrite <- (link_read_serve 4 l1), Hserve, (link_read_frame x) by done. cbn [link_state link_env written effects readings].
  rewrite frame_length by lia.
  destruct ((Z.of_nat (length x) =? 0) || (65536 <? Z.of_nat (length x))) eqn:E.
  { apply orb_true_iff in E as [E|E]; bool_to_prop; lia. }
  rewrite Nat2Z.id, (link_read_rest x) by done. cbn [link_state link_env written effects readings].
  unfold ControlClient.read_state. subst x. rewrite parse_response_text, deserialize_response by done.
  eexists. repeat split.
Qed.

End Link.
