(* ===== verification/ControlSystem.v ===== *)
(** * The control application, the host and the plugin together

    A new code, from the button of the window to the pairing on the Deck: the
    view model of [ControlViewModel] over the pipe of [ControlLink], and the
    plugin of [PluginSystem] at the same host.  The steps of the host take time,
    the two readings of the wall clock are any two, and so is the time the user
    takes to type the code. *)
From stdpp Require Import base gmap list strings.
From Stdlib Require Import Ascii ZArith Lia.
From Stdlib Require Strings.String.
From S2P Require Import Prelude RustStd Hex Fs Primitives Auth Pairing Storage Power Versioning Wire Proto3 Runtime Server Management ManagementIpc PipeServer Requests PairRequests HostRounds HttpText Link EndToEnd PyStd PluginProtobuf PluginValidation PluginStore PluginStoreSafety PluginStoreRefinement PluginAuth PluginClient PluginController PluginLink PluginEndToEnd PluginCommands PluginSystem DotNet ControlClient ControlViewModel ControlLink.
Import HostClient Controller.
Open Scope string_scope.
Open Scope Z_scope.
Open Scope list_scope.

(** ** The view model over the pipe *)

Section View.
Context {P : Primitives} {PL : PrimitivesLaws P} {J : ManagementJson} {D : ControlClient.DotNetJson} {JI : JsonInterop J D}.
Context {St : Type} {CS : CredentialStore St} {stored : St -> HostIdentity -> Prop}
  {fault_free : St -> Prop} {SL : CredentialStoreLaws St stored fault_free}.
Context {Pw : Type} (port : Z) (lag adjust wall : nat -> Z).

Abbreviation link := (PipeLink St Pw).
Implicit Types (l : link) (vm : ControlViewModel.ViewModel).

#[local] Hint Extern 0 (ControlClient.PipeStream _) => exact (link_stream port lag adjust) : typeclass_instances.

(** The wall clock of the PC, by its successive readings. *)
#[export] Instance link_clock : ControlViewModel.Clock link := fun l =>
  (Ok (wall (readings l)),
   MkPipeLink (link_state l) (link_env l) (written l) (incoming l) (effects l) (S (readings l))).

#[export] Instance link_client : ControlViewModel.ManagementClient link := {|
  ControlViewModel.get_service_info := ControlClient.GetServiceInfoAsync ControlClient.DefaultPipeName;
  ControlViewModel.get_pairing_state := ControlClient.GetPairingStateAsync ControlClient.DefaultPipeName;
  ControlViewModel.generate_pairing_code := ControlClient.GeneratePairingCodeAsync ControlClient.DefaultPipeName;
|}.

(** The time between the drawing of a code and the reading of what is left of
    it, and the whole seconds that are left. *)
Definition spent (n : nat) : Z := lag (n + 1)%nat + lag (n + 2)%nat + lag (n + 3)%nat.
Definition seconds_left (n : nat) : Z := as_secs (Z.max 0 (PAIRING_LIFETIME - spent n)).

(** The host after a new code was saved. *)
Definition renewed n (w : AppState) (e : Env St Pw) : AppState :=
  set LPairing (new_code lag n e) (set LIdentity (recoded lag adjust n w e) w).

Definition generated_response n (w : AppState) (e : Env St Pw) : ManagementResponse :=
  {| ok := true; response_error := None; service_running := true; response_port := port;
     response_paired := bool_decide (is_Some (credential (identity w)));
     response_pairing_code := Some (display_code (new_code lag n e)); expires_in_seconds := seconds_left n;
     response_host_version := HOST_VERSION; plugin_version := latest_client_version w;
     version_status := version_status_of (latest_client_version w) |}.

Lemma new_code_shape n (e : Env St Pw) :
  exists c, new_code lag n e = fresh_code c (monotonic e + lag n) /\ code_wf c = true.
Proof.
  pose proof (generate_wf (monotonic e + lag n) (generator e)) as Hw. unfold new_code, generate in *.
  destruct (random_range 1000000 (generator e)) as [v g]. by exists (format_06 v).
Qed.

Lemma seconds_left_range n : (forall k, 0 <= lag k) -> 0 <= seconds_left n <= 300.
Proof.
  intros Hl. unfold seconds_left, spent, as_secs, PAIRING_LIFETIME, from_secs, nanos_per_sec.
  pose proof (Hl (n + 1)%nat). pose proof (Hl (n + 2)%nat). pose proof (Hl (n + 3)%nat).
  split; [apply Z.div_pos; lia|]. apply Z.lt_succ_r, Z.div_lt_upper_bound; lia.
Qed.

Lemma generate_answer n w e :
  (forall k, 0 <= lag k) -> (forall i, (save i (store e)).1 = Ok tt) ->
  exists s, run_timed (pass_time lag adjust) n (answer_to port GeneratePairingCode) w e =
      (Done (generated_response n w e), renewed n w e, code_read lag adjust n e s, (n + 4)%nat) /\
    stored s (identity (renewed n w e)) /\ s = (save (identity (renewed n w e)) (store e)).2.
Proof.
  intros Hl Hs. unfold answer_to. rewrite run_timed_bind. cbn [perform]. rewrite run_timed_generate_pairing_code.
  specialize (Hs (recoded lag adjust n w e)). change (identity (renewed n w e)) with (recoded lag adjust n w e).
  destruct (save (recoded lag adjust n w e) (store e)) as [[[]|x] s] eqn:Es; [|done].
  exists s. rewrite new_code_lifetime by done.
  split; [|split; [by apply (save_ok_stored (recoded lag adjust n w e) (store e))|done]].
  cbn [respond]. by rewrite run_timed_bind, run_timed_locked.
Qed.

(** ** The response fits into the frame the application reads *)

Lemma print_digits_length fuel n acc : (str_len (print_digits fuel n acc) <= fuel + str_len acc)%nat.
Proof.
  revert n acc; induction fuel as [|f IH]; intros n acc; [done|]. cbn [print_digits].
  destruct (n / 10 =? 0); [simpl; lia|]. specialize (IH (n / 10) (String (digit_char (n mod 10)) acc)). simpl in *. lia.
Qed.

Lemma port_length p : in_range u16_max p -> (str_len (str_int p) <= 20)%nat.
Proof.
  unfold in_range, u16_max. intros H. unfold str_int. rewrite (proj2 (Z.ltb_ge _ _)) by lia.
  unfold decimal. pose proof (print_digits_length (S (Z.to_nat (Z.log2 p))) p "") as Hl.
  assert (Z.log2 p <= 16) by (change 16 with (Z.log2 65536); apply Z.log2_le_mono; lia). simpl in *. lia.
Qed.

Lemma status_shape o : str_wf (version_status_of o) /\ (str_len (version_status_of o) <= 16)%nat.
Proof. unfold version_status_of. by destruct o as [v|]; [destruct (compare v HOST_VERSION)|]; (split; [|apply Nat.leb_le]). Qed.

Lemma response_json_valid r :
  (forall x, response_error r = Some x -> str_wf x) -> (forall x, response_pairing_code r = Some x -> str_wf x) ->
  str_wf (response_host_version r) -> (forall x, plugin_version r = Some x -> str_wf x) ->
  str_wf (version_status r) -> 0 <= response_port r -> 0 <= expires_in_seconds r -> flat_valid (response_json r).
Proof.
  assert (forall o, (forall x, o = Some x -> str_wf x) -> scalar_valid (option_json o)) as Ho
    by (intros [x|] H; simpl; auto).
  intros H1 H2 H3 H4 H5 H6 H7. unfold response_json. cbn [flat_valid].
  repeat (apply Forall_cons; split; [split; [vm_compute; reflexivity|]; cbn [snd scalar_valid]; auto|]). constructor.
Qed.

Definition option_bound (o : option string) : nat := match o with Some x => str_len x | None => 0 end.

Lemma response_json_bound r :
  (flat_bound (response_json r) <= 1000 +
     6 * (str_len (str_int (response_port r)) + str_len (str_int (expires_in_seconds r)) +
          option_bound (response_error r) + option_bound (response_pairing_code r) + str_len (response_host_version r) +
          option_bound (plugin_version r) + str_len (version_status r)))%nat.
Proof.
  assert (forall o, scalar_bound (option_json o) <= 5 + 6 * option_bound o)%nat as Ho
    by (intros [x|]; cbn [option_json scalar_bound option_bound]; unfold string_bound; lia).
  pose proof (Ho (response_error r)). pose proof (Ho (response_pairing_code r)). pose proof (Ho (plugin_version r)).
  unfold response_json. cbn [flat_bound map fst snd list_sum fold_right scalar_bound]. unfold string_bound.
  repeat match goal with |- context [str_len (String ?a ?b)] =>
    let k := eval vm_compute in (str_len (String a b)) in change (str_len (String a b)) with k end.
  lia.
Qed.

Lemma generated_fits n w e :
  in_range u16_max port -> (forall k, 0 <= lag k) ->
  (forall v, latest_client_version w = Some v -> str_wf v /\ (str_len v <= 255)%nat) ->
  response_fits (generated_response n w e).
Proof.
  intros Hp Hlag Hv. destruct (new_code_shape n e) as (c & Ec & [Hl Hd]%andb_true_iff).
  pose proof (seconds_left_range n Hlag) as Hsec.
  apply Nat.eqb_eq in Hl. assert (str_wf c) as Hc.
  { apply is_ascii_utf8. eapply str_all_impl; [|exact Hd]. intros x Hx. unfold is_ascii_digit, char_is_ascii in *.
    bool_to_prop. apply Z.ltb_lt. lia. }
  pose proof (status_shape (latest_client_version w)) as [Hs1 Hs2]. pose proof (port_length _ Hp) as Hpl.
  constructor; [done|unfold in_range, u64_max; simpl; lia| |].
  - apply response_json_valid; [done| |by vm_compute| |done|apply Hp|apply Hsec].
    + cbn [generated_response response_pairing_code]. rewrite Ec. by intros ? [= <-].
    + intros v E. by apply (Hv v).
  - eapply Nat.le_trans; [apply response_json_bound|].
    cbn [generated_response response_error response_pairing_code plugin_version version_status response_host_version
      response_port expires_in_seconds]. rewrite Ec. cbn [option_bound display_code fresh_code pairing_code].
    rewrite Hl. change (str_len HOST_VERSION) with 5%nat.
    assert (str_len (str_int (seconds_left n)) <= 20)%nat by (apply port_length; unfold in_range, u16_max; lia).
    assert (option_bound (latest_client_version w) <= 255)%nat.
    { destruct (latest_client_version w) as [v|]; [by apply (Hv v)|cbn; lia]. }
    lia.
Qed.

(** ** A new code in the window *)

(** What the window needs to show a new code. *)
Record can_show l : Prop := {
  show_port : in_range u16_max port;
  show_lag k : 0 <= lag k;
  show_version v : latest_client_version (link_state l) = Some v -> str_wf v /\ (str_len v <= 255)%nat;
  show_saves i : (save i (store (link_env l))).1 = Ok tt;
  show_wall : wall (readings l) + 300 * ticks_per_second <= max_time;
}.

(** The text beside the code: the host's seconds, counted down between the two
    readings of the wall clock. *)
Definition shown_expiration l : string :=
  let remaining := wall (readings l) + seconds_left (effects l) * ticks_per_second - wall (S (readings l)) in
  if remaining <=? 0 then "Expired" else ControlViewModel.countdown remaining.

(** The button shows the code the host now holds, in memory and on stable
    storage, with what is left of its five minutes. *)
Theorem new_code_is_shown l vm :
  can_show l ->
  exists vm' l' s, ControlViewModel.GenerateCodeAsync (vm, l) = (Ok tt, (vm', l')) /\
    ControlViewModel.pairingCode vm' = ControlViewModel.format_code (Some (display_code (Server.pairing (link_state l')))) /\
    ControlViewModel.expiration vm' = shown_expiration l /\ ControlViewModel.errorMessage vm' = None /\
    link_state l' = renewed (effects l) (link_state l) (link_env l) /\
    link_env l' = code_read lag adjust (effects l) (link_env l) s /\
    stored s (identity (link_state l')) /\ s = (save (identity (link_state l')) (store (link_env l))).2.
Proof.
  intros [Hp Hlag Hv Hs Hw].
  destruct (generate_answer (effects l) (link_state l) (link_env l) Hlag Hs) as (s & Hrun & Hst & Es).
  destruct (send_async_returns port lag adjust GeneratePairingCode l _ _ _ _ Hrun (generated_fits _ _ _ Hp Hlag Hv))
    as (l1 & Hsend & Hl1 & Hl2 & _ & Hl3).
  pose proof (seconds_left_range (effects l) Hlag) as Hsec.
  assert (ControlViewModel.generate_pairing_code l =
    (Ok (state_of (generated_response (effects l) (link_state l) (link_env l))), l1)) as Ha by exact Hsend.
  destruct (ControlViewModel.execute_shows_code ControlViewModel.generate_pairing_code vm l _
    (display_code (new_code lag (effects l) (link_env l))) l1 (wall (readings l1)) (link_clock l1).2
    (wall (S (readings l1))) (link_clock (link_clock l1).2).2 Ha)
    as (vm' & Hex & _ & _ & Hc & Hm & _ & He); try reflexivity.
  { rewrite Hl3. cbn [state_of generated_response ControlClient.ExpiresInSeconds expires_in_seconds].
    unfold ticks_per_second in *. lia. }
  exists vm', (link_clock (link_clock l1).2).2, s. split; [exact Hex|].
  cbn [link_clock snd link_state link_env]. rewrite Hl1, Hl2.
  split; [exact Hc|]. split; [|done]. rewrite He. unfold shown_expiration.
  cbn [state_of generated_response ControlClient.ExpiresInSeconds expires_in_seconds readings]. by rewrite Hl3.
Qed.

End View.

(** ** From the window to the Deck *)

Section System.
Context {R : Repr} {De : Validation.Decimals} {DeL : Validation.DecimalsLaws De} {T : ErrorTexts}.
Context {P : Primitives} {PL : PrimitivesLaws P} {AS : AeadSize P} {H : Http} {HL : HttpLaws H} {HC : HexCrate H}.
Context {Wi : Wire} {WL : WireLaws Wi} {SZ : Spake2Size P} {PrL : ProstLaws Wi}.
Context {Dl : Delivery} {DL : DeliveryLaws Dl} {S2 : Spake2Package}.
Context {J : ManagementJson} {DJ : ControlClient.DotNetJson} {JI : JsonInterop J DJ}.
Context {St : Type} {CS : CredentialStore St} {stored : St -> HostIdentity -> Prop}
  {fault_free : St -> Prop} {SL : CredentialStoreLaws St stored fault_free}.
Context {Pw : Type} {PC : PowerController Pw}.
Context (pf : platform) (hostname : string) (src : option IpAddr) (delay typing port : Z) (lag adjust wall : nat -> Z).

#[local] Hint Extern 0 (World _) => exact (link_world pf hostname src delay) : typeclass_instances.
#[local] Hint Extern 0 (ControlViewModel.ManagementClient _) => exact (link_client port lag adjust) : typeclass_instances.
#[local] Hint Extern 0 (ControlViewModel.Clock _) => exact (link_clock wall) : typeclass_instances.

Abbreviation link := (PipeLink St Pw).
Abbreviation plugin := (Plugin (HostWorld St Pw)).
Abbreviation host_of s := (host_state (world (machine s))).
Abbreviation env_of s := (host_env (world (machine s))).
Implicit Types (l : link) (s : plugin) (device : Store.Device).

(** The plugin, at the host as the control application left it, once the user
    has typed the code. *)
Definition at_host l s : plugin :=
  let w := world (machine s) in
  MkPlugin (disk s)
    (MkMachine (MkHostWorld (link_state l) (later typing (link_env l)) (deck_time w) (deck_monotonic w) (losses w) (packets w))
       (urandom (machine s)))
    (controller s).

(** When a new code can be shown and then used: the host's store saves twice,
    the first request arrives within the five minutes of the code, and the
    network is as in [ready]. *)
Record expecting device l s : Prop := {
  expecting_show : can_show port lag wall l;
  expecting_typing : 0 <= typing /\ spent lag (effects l) + typing + delay <= PAIRING_LIFETIME;
  expecting_saves i j : (save i (save j (store (link_env l))).2).1 = Ok tt;
  expecting_address : str_all host_char (Store.address device) = true;
  expecting_port : 0 <= Store.port device;
  expecting_losses : losses (world (machine s)) = [] \/ losses (world (machine s)) = [false; true];
  expecting_delay : 0 <= delay <= PAIRING_LIFETIME - client_timeout;
  expecting_instant : instant_min pf <= monotonic (link_env l) + 2 * delay - from_secs 301;
  expecting_hostname : str_wf hostname /\ hostname <> "" /\ (str_len hostname <= 255)%nat;
  expecting_host_id :
    let i := uuid_to_string (host_id (identity (link_state l))) in i <> "" /\ (str_len i <= 255)%nat;
}.

(** The six digits, typed in as they are shown, with their space. *)
Lemma shown_code_read c :
  code_wf c = true ->
  join_split (ControlViewModel.format_code (Some c)) = c /\ code_digits c = true.
Proof.
  unfold code_wf. intros [Hl Hd]%andb_true_iff. apply Nat.eqb_eq in Hl.
  do 6 (destruct c as [|? c]; [done|]). destruct c; [|done]. clear Hl.
  assert (forall x, is_ascii_digit x = true -> char_is_ascii x = true /\ (RustStd.code x <? 128) = true /\
    isspace (String x "") = false) as Hx.
  { intros x Hx. assert (plain x = true) as Hp.
    { unfold is_ascii_digit, plain in *. bool_to_prop. rewrite andb_true_iff, Z.leb_le, Z.ltb_lt. lia. }
    split; [|split; [|by apply plain_not_space]]; unfold plain, char_is_ascii in *; bool_to_prop; apply Z.ltb_lt; lia. }
  cbn [str_all] in Hd. rewrite !andb_true_iff in Hd. destruct Hd as (D1 & D2 & D3 & D4 & D5 & D6 & _).
  destruct (Hx _ D1) as (A1 & B1 & C1), (Hx _ D2) as (A2 & B2 & C2), (Hx _ D3) as (A3 & B3 & C3),
    (Hx _ D4) as (A4 & B4 & C4), (Hx _ D5) as (A5 & B5 & C5), (Hx _ D6) as (A6 & B6 & C6).
  split.
  - unfold join_split. cbn [ControlViewModel.format_code chars]. change (RustStd.code " "%char <? 128) with true.
    rewrite B1, B2, B3, B4, B5, B6. cbn [List.filter]. change (isspace " ") with true.
    rewrite C1, C2, C3, C4, C5, C6. done.
  - unfold code_digits, is_ascii. cbn [chars str_all]. rewrite B1, B2, B3, B4, B5, B6, A1, A2, A3, A4, A5, A6.
    by rewrite D1, D2, D3, D4, D5, D6.
Qed.

(** A new code makes the host ready for the plugin. *)
Lemma new_code_ready device l s l' sv :
  expecting device l s -> link_state l' = renewed lag adjust (effects l) (link_state l) (link_env l) ->
  link_env l' = code_read lag adjust (effects l) (link_env l) sv ->
  sv = (save (identity (link_state l')) (store (link_env l))).2 ->
  ready pf hostname src delay device
    (ControlViewModel.format_code (Some (display_code (Server.pairing (link_state l'))))) (machine (at_host l' s)).
Proof.
  intros [Hshow [Hty Hlife] Hsv ? ? ? ? Hi ? Hid] Hst Hen Es.
  destruct (new_code_shape lag (effects l) (link_env l)) as (c & Ec & Hc).
  assert (Server.pairing (link_state l') = fresh_code c (monotonic (link_env l) + lag (effects l))) as Hp
    by (rewrite Hst; exact Ec).
  assert (monotonic (link_env l') = monotonic (link_env l) + lag (effects l) + spent lag (effects l)) as Hmono
    by (rewrite Hen; unfold spent; cbn; lia).
  assert (0 <= lag (effects l) + spent lag (effects l)) as Hpos.
  { pose proof (show_lag _ _ _ _ Hshow) as Hl. unfold spent. pose proof (Hl (effects l)).
    pose proof (Hl (effects l + 1)%nat). pose proof (Hl (effects l + 2)%nat). pose proof (Hl (effects l + 3)%nat). lia. }
  assert (0 <= spent lag (effects l)) as Hpos2.
  { pose proof (show_lag _ _ _ _ Hshow) as Hl. unfold spent.
    pose proof (Hl (effects l + 1)%nat). pose proof (Hl (effects l + 2)%nat). pose proof (Hl (effects l + 3)%nat). lia. }
  destruct (shown_code_read c Hc) as [Hr1 Hr2]. unfold PAIRING_LIFETIME, client_timeout, from_secs, nanos_per_sec in *.
  constructor; cbn [world machine at_host host_state host_env losses]; try done.
  - by rewrite Hp.
  - rewrite Hp. cbn [display_code fresh_code pairing_code]. by rewrite Hr1.
  - constructor; cbn [monotonic later]; rewrite ?Hmono.
    + rewrite Hp. apply fresh_code_wf; [done|lia].
    + right. rewrite Hst. done.
    + rewrite Hp. cbn [created fresh_code]. unfold elapsed, saturating_sub, PAIRING_LIFETIME, from_secs, nanos_per_sec. lia.
    + rewrite Hp. unfold start_limited, prune_sessions, failure_count, fresh_code.
      cbn [confirmation_failures pending]. rewrite map_filter_empty, lookup_empty. by destruct src.
  - cbn [monotonic later]. rewrite Hmono. unfold from_secs, nanos_per_sec. lia.
  - rewrite Hen. cbn [store later]. change (store (code_read lag adjust (effects l) (link_env l) sv)) with sv.
    rewrite Es. auto.
  - by rewrite Hst.
Qed.

(** C4: the three programs work together, over time: the button of the control
    application shows a code with what is left of its five minutes after the
    steps the host took since it drew the code, and a user who types what is
    shown into the plugin, in time for the first request to reach the host
    within those minutes, pairs the device, even if the host's last answer is
    lost: the plugin reports success, its files hold the credential that the
    host has in memory and on stable storage, and the device carries the host's
    identity. *)
Theorem displayed_code_pairs l vm s a device_id device :
  StoreRefinement.related (disk s) a -> StoreRefinement.calm (disk s) ->
  Store.find_device device_id a.1 = Some device -> expecting device l s ->
  exists vm' l', ControlViewModel.GenerateCodeAsync (vm, l) = (Ok tt, (vm', l')) /\
    ControlViewModel.expiration vm' = shown_expiration lag wall l /\
    stored (store (link_env l')) (identity (link_state l')) /\
    exists c view s' b d,
      pair_device device_id (ControlViewModel.pairingCode vm') (at_host l' s) = (Store.Ret (Accepted (Some view)), s') /\
      length c = 32%nat /\ credential (identity (host_of s')) = Some c /\
      stored (store (env_of s')) (identity (host_of s')) /\
      Store.snapshot (disk s') = (Store.Ret b, d) /\ paired_with (identity (host_of s')) c device_id b.
Proof.
  intros Hrel Hc Hf He. destruct (new_code_is_shown port lag adjust wall l vm (expecting_show _ _ _ He))
    as (vm' & l' & sv & Hg & Hcode & Hx & _ & Hst & Hen & Hsto & Es).
  exists vm', l'. split; [exact Hg|]. split; [done|]. split; [by rewrite Hen|]. rewrite Hcode.
  apply (plugin_pairs_with_host pf hostname src delay (at_host l' s) a device_id device); [done|done|done|].
  by eapply new_code_ready.
Qed.

End System.
