(* ===== verification/ControlScenarios.v ===== *)
(** * Runs of the control application against the host

    A pair of JSON libraries that understand each other, on a binary notation of
    flat objects, and a new code from the window to the Deck. *)
From stdpp Require Import base gmap list strings.
From Stdlib Require Import Ascii ZArith Lia.
From Stdlib Require Strings.String.
From S2P Require Import Prelude RustStd Hex Fs Primitives Auth Pairing Storage Power Versioning Wire Samples Runtime Server Management ManagementIpc Requests HostRounds HttpText Link EndToEnd ClientScenarios PyStd Proto3 PluginProtobuf ProtoSamples PluginValidation PluginStore PluginStoreSafety PluginStoreRefinement PluginStoreScenarios PluginAuth PluginClient PluginController PluginLink PluginEndToEnd PluginCommands PluginSystem PluginScenarios DotNet ControlClient ControlViewModel ControlLink ControlSystem.
Import HostClient Controller.
Open Scope string_scope.
Open Scope Z_scope.
Open Scope list_scope.

Module ControlScenarios.

(** ** A notation of flat objects *)

Fixpoint mark_bytes (l : bytes) : bytes :=
  match l with [] => [x00] | b :: l => x01 :: b :: mark_bytes l end.

Fixpoint unmark_bytes (l : bytes) : option (bytes * bytes) :=
  match l with
  | x00 :: rest => Some ([], rest)
  | x01 :: b :: l => match unmark_bytes l with Some (m, rest) => Some (b :: m, rest) | None => None end
  | _ => None
  end.

Lemma unmark_mark l rest : unmark_bytes (mark_bytes l ++ rest) = Some (l, rest).
Proof. induction l as [|b l IH]; [done|]. cbn [mark_bytes app unmark_bytes]. by rewrite IH. Qed.

Lemma mark_length l : length (mark_bytes l) = (2 * length l + 1)%nat.
Proof. induction l as [|b l IH]; [done|]. cbn [mark_bytes length]. rewrite IH. lia. Qed.

Definition text_bytes (s : string) : bytes := mark_bytes (as_bytes s).
Definition read_text (l : bytes) : option (string * bytes) :=
  match unmark_bytes l with Some (m, rest) => Some (String.string_of_list_byte m, rest) | None => None end.

Lemma read_text_bytes s rest : read_text (text_bytes s ++ rest) = Some (s, rest).
Proof. unfold read_text, text_bytes. by rewrite unmark_mark, str_of_as_bytes. Qed.

Definition scalar_bytes (v : json) : bytes :=
  match v with
  | JBool false => [x03]
  | JBool true => [x04]
  | JInt z => x05 :: text_bytes (str_int z)
  | JStr s => x06 :: text_bytes s
  | _ => [x02]
  end.

Definition read_scalar (l : bytes) : option (json * bytes) :=
  match l with
  | x02 :: rest => Some (JNull, rest)
  | x03 :: rest => Some (JBool false, rest)
  | x04 :: rest => Some (JBool true, rest)
  | x05 :: l =>
      match read_text l with
      | Some (s, rest) => match py_int s with Some z => Some (JInt z, rest) | None => None end
      | None => None
      end
  | x06 :: l => match read_text l with Some (s, rest) => Some (JStr s, rest) | None => None end
  | _ => None
  end.

Lemma read_scalar_bytes v rest : scalar_valid v -> read_scalar (scalar_bytes v ++ rest) = Some (v, rest).
Proof.
  destruct v as [|[]|z|t|s|l|l]; try done; cbn [scalar_valid scalar_bytes app read_scalar]; intros Hv.
  - rewrite read_text_bytes. unfold str_int. rewrite (proj2 (Z.ltb_ge _ _)) by lia. by rewrite py_int_decimal.
  - by rewrite read_text_bytes.
Qed.

Fixpoint items_bytes (l : list (string * json)) : bytes :=
  match l with
  | [] => [x00]
  | kv :: l => x07 :: text_bytes kv.1 ++ scalar_bytes kv.2 ++ items_bytes l
  end.

Fixpoint read_items (fuel : nat) (l : bytes) : option (list (string * json)) :=
  match fuel, l with
  | S fuel, [x00] => Some []
  | S fuel, x07 :: l =>
      match read_text l with
      | Some (k, l) =>
          match read_scalar l with
          | Some (v, l) => match read_items fuel l with Some m => Some ((k, v) :: m) | None => None end
          | None => None
          end
      | None => None
      end
  | _, _ => None
  end.

Definition object_bytes (v : json) : bytes := match v with JObj l => items_bytes l | _ => [x02] end.
Definition read_object (l : bytes) : option json :=
  match read_items (length l) l with Some m => Some (JObj m) | None => None end.

Lemma read_items_bytes l fuel :
  Forall (fun kv => str_wf kv.1 /\ scalar_valid kv.2) l -> (length (items_bytes l) <= fuel)%nat ->
  read_items fuel (items_bytes l) = Some l.
Proof.
  intros H. revert fuel. induction H as [|[k v] l [Hk Hv] _ IH]; intros fuel Hf.
  - destruct fuel; [simpl in Hf; lia|done].
  - destruct fuel as [|fuel]; [simpl in Hf; lia|]. cbn [items_bytes fst snd read_items] in *.
    rewrite read_text_bytes, read_scalar_bytes by done. rewrite IH; [done|].
    cbn [length] in Hf. rewrite !length_app in Hf. lia.
Qed.

Lemma scalar_bytes_bound v : (length (scalar_bytes v) <= scalar_bound v)%nat.
Proof.
  destruct v as [|[]|z|t|s|l|l]; cbn [scalar_bytes scalar_bound length]; try lia;
    unfold text_bytes, string_bound; rewrite mark_length, as_bytes_length; lia.
Qed.

Lemma items_bytes_bound l :
  (1 <= length (items_bytes l) <= 2 + list_sum (map (fun kv => string_bound kv.1 + scalar_bound kv.2 + 2) l))%nat.
Proof.
  induction l as [|[k v] l IH]; [simpl; lia|]. cbn [items_bytes map fst snd length]. rewrite !length_app.
  pose proof (scalar_bytes_bound v). unfold text_bytes. rewrite mark_length, as_bytes_length.
  unfold string_bound at 1. cbn [list_sum fold_right]. unfold string_bound in *. unfold list_sum in IH. lia.
Qed.

(** ** The two libraries *)

Definition operation_of (name : string) : option Operation :=
  List.find (fun o => bool_decide (operation_name o = name)) [GetServiceInfo; GetPairingState; GeneratePairingCode].

#[export] Instance flat_serde : ManagementJson := {|
  request_from_slice l :=
    match read_object l with
    | Some (JObj [(k, JStr name)]) =>
        if bool_decide (k = "operation")
        then match operation_of name with Some o => Ok {| operation := o |} | None => Err "unknown variant" end
        else Err "missing field"
    | _ => Err "invalid type"
    end;
  response_to_vec r := Ok (object_bytes (response_json r));
|}.

#[export] Instance flat_dotnet : ControlClient.DotNetJson := {|
  ControlClient.serialize_utf8 := object_bytes;
  ControlClient.parse_utf8 := read_object;
|}.

Lemma object_bytes_bound v : flat_valid v -> (1 <= length (object_bytes v) <= flat_bound v)%nat.
Proof. destruct v; try done. intros _. apply items_bytes_bound. Qed.

#[export] Instance flat_interop : JsonInterop flat_serde flat_dotnet.
Proof.
  refine {| response_text := object_bytes |}.
  - done.
  - intros [] Hv; try done. cbn [ControlClient.parse_utf8 flat_dotnet object_bytes]. unfold read_object.
    by rewrite read_items_bytes.
  - apply object_bytes_bound.
  - intros []; vm_compute; reflexivity.
  - apply object_bytes_bound.
Defined.

(** ** From the window to the Deck *)

#[local] Existing Instances toy toy_laws toy_spake2_size toy_http toy_http_laws proto_wire proto_wire_laws proto_wire_prost
  memory_store memory_laws mock_power StoreScenarios.brackets_repr Validation.ascii_decimals Validation.ascii_decimals_laws
  PluginScenarios.toy_texts PluginScenarios.toy_spake2 PluginScenarios.toy_aead_size PluginScenarios.toy_hex_crate
  PluginScenarios.toy_delivery PluginScenarios.toy_delivery_laws.

Abbreviation toy_link := (PipeLink (P := toy) MemoryStore MockPowerController).
Abbreviation toy_world := (HostWorld (P := toy) MemoryStore MockPowerController).
Abbreviation second := (from_secs 1).

#[local] Hint Extern 0 (World _) => exact (link_world (H := toy_http) (Wi := proto_wire) Windows "rig" None second) : typeclass_instances.

(** The host of [PluginScenarios], whose answer to the last request is lost. *)
Definition deck : Plugin (P := toy) toy_world := PluginScenarios.unpaired [false; true].

Definition pipe : toy_link :=
  MkPipeLink (P := toy) (host_state (world (machine deck))) (host_env (world (machine deck))) [] None 0 0.

(** Every step of the host takes a tenth of a second, the readings of the wall
    clock are a millisecond apart, and the user types for twenty seconds. *)
Definition tenth (n : nat) : Z := 100000000.
Definition millis (n : nat) : Z := Z.of_nat n * 10000.
Definition typing : Z := from_secs 20.

#[local] Hint Extern 0 (ControlViewModel.Clock _) => exact (link_clock millis) : typeclass_instances.

Lemma expecting_example : expecting Windows "rig" second typing 47991 tenth millis PluginScenarios.rig pipe deck.
Proof.
  constructor.
  - constructor; [by vm_compute|by vm_compute|done|done|by vm_compute].
  - by vm_compute.
  - done.
  - by vm_compute.
  - by vm_compute.
  - by right.
  - by vm_compute.
  - by vm_compute.
  - split; [by vm_compute|]. split; [done|]. apply Nat.leb_le. by vm_compute.
  - split; [by vm_compute|]. apply Nat.leb_le. by vm_compute.
Qed.

Lemma displayed_code_pairs_witness :
  exists vm' l' c view s',
    ControlViewModel.GenerateCodeAsync (MC := link_client 47991 tenth tenth) (ControlViewModel.new_view_model, pipe) =
      (Ok tt, (vm', l')) /\
    ControlViewModel.expiration vm' = "04:58" /\
    pair_device "pc-1" (ControlViewModel.pairingCode vm') (at_host typing l' deck) = (Store.Ret (Accepted (Some view)), s') /\
    length c = 32%nat /\ credential (identity (host_state (world (machine s')))) = Some c.
Proof.
  destruct (displayed_code_pairs Windows "rig" None second typing 47991 tenth tenth millis pipe
    ControlViewModel.new_view_model deck ([PluginScenarios.rig], ∅) "pc-1" PluginScenarios.rig)
    as (vm' & l' & Hg & Hx & _ & c & view & s' & b & d & Hrun & Hl & Hc & _);
    [apply StoreScenarios.added_related|apply StoreScenarios.added_related|vm_compute; reflexivity|exact expecting_example|].
  exists vm', l', c, view, s'. refine (conj Hg (conj _ (conj Hrun (conj Hl Hc)))).
  rewrite Hx. vm_compute. reflexivity.
Defined.

(** The window, evaluated. *)
Definition new_code := ControlViewModel.GenerateCodeAsync (MC := link_client 47991 tenth tenth) (ControlViewModel.new_view_model, pipe).

Example new_code_in_window :
  let vm := new_code.2.1 in
  (ControlViewModel.serviceStatus vm, ControlViewModel.port vm, ControlViewModel.expiration vm,
   ControlViewModel.hostVersion vm, String.length (ControlViewModel.pairingCode vm)) =
  ("Running", 47991, "04:58", "0.1.0", 7%nat).
Proof. vm_compute. reflexivity. Qed.

End ControlScenarios.
